(* ===== verification/_CoqProject ===== *)
-Q . S2P
Prelude.v
Memory.v
BufPool.v
BufReader.v
Session.v
Codec.v
Buckets.v
Context.v
Messages.v
TunnelHolder.v
Security.v
Service.v
Auth.v
Tunnels.v
TunnelLoop.v
Conf.v
Worker.v
Gateway.v
Handshake.v
WorkerRun.v
Outbound.v
Server.v
Client.v
Filters.v
Router.v
Connections.v
System.v
Deadline.v
PushOrder.v
Shutdown.v
Listener.v
Validate.v
ValidateUser.v
ValidateClient.v
ValidateServer.v
ConfPb.v
Wiring.v
Pipeline.v
