(* ===== verification/Prelude.v ===== *)
(** * A verification of vulcan-gate

    vulcan-gate is a TCP gateway: game clients hold one connection each, send
    length-prefixed and, after a handshake, encrypted packets, and the gateway
    forwards every packet over a gRPC stream ("tunnel") to the service of its
    module, and the services' messages back to the client.  This library models
    the Go code under src/ and proves what it does; where the code does not do
    what it means to, a theorem says what happens instead.

    ** Conventions

    - Go's integers are [Z] with the wrap-around of a conversion written out
      ([uint8] ... [int64] below).  Sizes of type [int] that count bytes in
      memory are unbounded [Z] (no slice comes near 2^63 bytes, and [make] of
      a size that does not fit is not modelled in [Alloc]); the constructor of
      the pool, whose arguments are arbitrary, computes on 64 bits.  Where a
      counter must not overflow the theorem says so.  Bytes are [Z].
    - [result] is a Go outcome: value, error, or panic; [go S A] is a statement
      sequence over the state [S], which keeps the state on every outcome.
    - Concurrent code is a step relation, one step per blocking point or access
      to shared state, with the environment's moves as steps; [reachable] and
      [reachable_inv] carry the invariants.
    - Third-party code is a class of operations ([Cipher], [Crypto],
      [Metadata], [GrpcMD], [Compressor], [ProtoMsg], [RouteTable],
      [TunnelOps], [NetService], [Middleware], ...), its documented behaviour a
      class of laws where a theorem needs it; each witness instantiates them
      with concrete functions.  Choices of the run-time (which free object a
      [sync.Pool] returns, map iteration order, socket results) are arguments.

    ** Files and what they model

    - Prelude: this header, integers, results, the state monad, lists,
      reachability, tactics.
    - Memory: byte arrays and slices with Go's aliasing and bounds.
    - BufPool: pkg/net/internal/bufreader/pool.go, the slab allocator.
    - BufReader: bufreader/reader.go over a connection that delivers chunks.
    - Session: pkg/net/session.go and internal/crypto.go.
    - Codec: the framing of internal/worker.go ([read], [write]) and of
      tcp/client/client.go.
    - Buckets: internal/buckets.go, the sharded registry of workers.
    - Context: pkg/net/context/context.go with [strconv].
    - Messages: the protobuf messages and the three message pools.
    - TunnelHolder: internal/tunnel.go and [Worker.Tunnel].
    - Security: app/gate/internal/pkg/security/crypto.go.
    - Service: intra/net/service/service.go and tunnel.go, tunnels/types.go.
    - Auth: intra/net/service/auth.go.
    - Tunnels: tunnels/base, player, room and [push] of tunnels/tunnel.go.
    - TunnelLoop: the goroutines of tunnels/tunnel.go.
    - Conf: pkg/net/conf/conf.go.
    - Worker: the sequential operations of internal/worker.go.
    - Gateway: Worker's reading loop with Service behind it.
    - Handshake: a connection from its first byte on, end to end.
    - WorkerRun: its goroutines, [Push] and [Stop].
    - Outbound: what the client reads from the bytes a worker has sent.
    - Server: pkg/net/tcp/server/server.go, one connection at a time.
    - Client: pkg/net/tcp/client/client.go, with the memory of its reader.
    - Filters: pkg/net/transport.go, the dev, metadata and logging middlewares.
    - Router: app/gate/internal/router/routetable.go and the server's hooks.
    - Connections: [accept] and [work] of many connections at once over the
      registry and the route table.
    - System: Connections with the goroutines of each worker (WorkerRun) and the
      server's pushes, in one transition system that refines Connections.
    - Listener: [Start], the accept loops, [Stop] and [Endpoint] of server.go.
    - Shutdown: [stop] of server.go inside System, with the stopper's timeouts.
    - Deadline: WorkerRun with a clock and the connection's idle deadline.
    - PushOrder: the tunnels of one connection numbering and pushing at once.
    - Validate: gen/api/**/*.pb.validate.go of the messages the gateway handles.
    - ValidateUser: those of the player's data, with embedded messages and maps.
    - ValidateClient, ValidateServer: those of the other messages of the client
      protocol and of the services.
    - ConfPb: app/gate/internal/conf/conf.pb.go.
    - Wiring: the construction of servers (pkg/net/health too), clients and the
      application, [main].
    - Pipeline: the filters Wiring puts around the worker's handlers, on values
      with their dynamic types.

    A packet's way in: Server ([accept], [serve], [work]) makes a Worker, whose
    [Start] reads the handshake (Codec over BufReader over BufPool) and asks
    Auth; [Run] (WorkerRun) then reads packets, through Filters, into
    Service.[handle], which asks the TunnelHolder for a tunnel and hands it the
    packet ([Forward] in TunnelLoop).  The way out: [scLoop] calls [push]
    (Tunnels), which queues a packet by [Worker.Push]; [writePackLoop] frames it.
    Buckets finds workers for Server.[Push], [PushGroup] and [Broadcast].

    ** What the theorems show

    - Bytes: [ReadFull] refines the byte stream for every chunking and every
      choice of the pool; frames round-trip through encryption and framing; bad
      lengths are refused before the body is read; the pool's classes and table
      are computed for all valid sizes below 2^40 (at the largest [int] the
      constructor's loop never ends), the sizes the gateway uses never panic,
      other sizes can; the client hands its packets on in order, and shows
      their bytes to a receiver who is in time.
    - End to end: what a client sends, from the handshake on, reaches the
      tunnels ([connection_delivers]); among any number of connections that come
      and go, what the server pushes reaches the user it is for and nobody else
      ([pushes_reach_their_user]).
    - Packets: an encrypted session takes packets strictly in order, refuses
      replays and forwards what the client sent to the right tunnel; pooled
      packets are clean, exclusive and always returned; handshake and session
      agree on key and index, and the identity is the token's.
    - Registry and tunnels: the sharded maps refine two plain maps; lookups by
      user are complete when no user is connected twice; a reconnect to the same
      gateway can lose both the user and the route ([reconnect_loses_user],
      [reconnect_loses_route]); at most one live tunnel per type and object.
    - Goroutines: writes and forwarded messages keep their order under every
      interleaving; a connection ends when a write to it fails, and not before
      ([ends_with_failed_write]); a full queue behind a dead writer holds its
      pushers until [Stop] makes them panic; a silent client is cut off at its
      deadline; a tunnel outlives its stop trigger;
      packets that several tunnels push have distinct indices, for tunnels
      whose [Session] returns (that of the player and room tunnels does not).
    - Server and assembly: the life cycle of a connection, broadcast, routes,
      clean-up at start-up and exit; with many connections at once the registry
      is the set of those being served, and a user who is connected once can be
      found and is routed; cancelling the context ends accepting, and the loops
      return when [stop] has ended or their wait times out, while [Stop] alone
      lets each take one more connection; [Stop] returns only when every
      connection it found is out of the registry or its wait has timed out, and
      can return without timeouts once all of them have had a failed write
      ([stop_waits_for_all]).
    - Types: no type assertion fails on a packet's way through the filters.
    - Equivalences: [nextPowerOfTwo] against [Z.log2_up] on all 64-bit numbers,
      the two modes of the validators against one specification, and their
      results for any two orders of the ranges over maps; every message that
      holds messages reports exactly those that fail, whatever their rules
      ([containers_report]).  As no rules are declared, the validators never
      refuse a message ([messages_never_refused]).

    ** Bounds and fuel

    [fmt_loop] prints with fuel 20, which is enough for 64-bit numbers
    ([ParseInt_FormatInt]); [count_loop] of the pool gets fuel that is enough
    below 2^40, which [NewSyncPool_correct] shows, and no fuel is enough at the
    largest [int], where the code's loop does not end; [app_Session] takes the
    stack depth.  Every other recursion is structural.

    ** Not modelled

    The protobuf runtime, gRPC, kratos, redis, etcd, TLS and sockets; the
    stopper library (when its [WaitStopped] returns is a parameter); timers
    (an expiry is a step); logging outside the logging middlewares; generated
    code other than the messages the gateway reads and the validators (the error
    methods of a validator's own types are modelled once, with the message's
    name as an argument); code generator inputs.

    ** Kept apart

    Some parts have a transition system of their own and are not in System: the
    accept loops (Listener), whose [serve] System takes over from the id on; the
    tunnels' loops and their numbering (TunnelLoop, PushOrder), whose pushes are
    System's [YTunnel]; the clock (Deadline), which restricts a worker's runs,
    so that what System shows of them holds with it. *)
From Stdlib Require Export ZArith Lia.
From stdpp Require Export base gmap strings fin_maps relations option.
From stdpp Require Export list.

Declare Scope gate_scope.
Delimit Scope gate_scope with gate.
#[global] Open Scope gate_scope.
#[global] Open Scope Z_scope.

(** ** Machine integers

    Go's fixed-width integers are [Z] with the wrap-around of a conversion
    written out. *)

Definition wrapU (w z : Z) : Z := z mod 2 ^ w.
Definition wrapS (w z : Z) : Z := (z + 2 ^ (w - 1)) mod 2 ^ w - 2 ^ (w - 1).

Abbreviation uint8 := (wrapU 8).
Abbreviation uint32 := (wrapU 32).
Abbreviation uint64 := (wrapU 64).
Abbreviation int32 := (wrapS 32).
Abbreviation int64 := (wrapS 64).

Lemma wrapU_id w z : 0 <= z < 2 ^ w -> wrapU w z = z.
Proof. intros. unfold wrapU. by apply Z.mod_small. Qed.

Lemma wrapU_range w z : 0 <= w -> 0 <= wrapU w z < 2 ^ w.
Proof. intros. unfold wrapU. apply Z.mod_pos_bound. lia. Qed.

Lemma wrapS_id w z : 0 < w -> - 2 ^ (w - 1) <= z < 2 ^ (w - 1) -> wrapS w z = z.
Proof.
  intros Hw Hz. unfold wrapS.
  assert (2 ^ w = 2 * 2 ^ (w - 1)) as E.
  { replace w with (Z.succ (w - 1)) at 1 by lia. rewrite Z.pow_succ_r; lia. }
  rewrite Z.mod_small; lia.
Qed.

Lemma wrapS_range w z : 0 < w -> - 2 ^ (w - 1) <= wrapS w z < 2 ^ (w - 1).
Proof.
  intros Hw. unfold wrapS.
  assert (2 ^ w = 2 * 2 ^ (w - 1)) as E.
  { replace w with (Z.succ (w - 1)) at 1 by lia. rewrite Z.pow_succ_r; lia. }
  pose proof (Z.mod_pos_bound (z + 2 ^ (w - 1)) (2 ^ w)). lia.
Qed.

(** ** Errors, panics and results

    An error value is what [errors.New], [errors.Errorf], [errors.Wrap] and
    [errors.WithMessage] build: a format with its arguments, possibly on top of
    a cause.  Stack traces are not represented. *)

Inductive arg := AZ (z : Z) | AS (s : string).

Inductive error :=
  | ENew (fmt : string) (args : list arg)
  | EWrap (cause : error) (fmt : string) (args : list arg).

#[export] Instance arg_eq_dec : EqDecision arg.
Proof. solve_decision. Defined.

#[export] Instance error_eq_dec : EqDecision error.
Proof. solve_decision. Defined.

(** [errors.Is]: the target is the error itself or one of its causes. *)
Fixpoint error_is (e target : error) : bool :=
  bool_decide (e = target) ||
  match e with
  | ENew _ _ => false
  | EWrap c _ _ => error_is c target
  end.

(** The run-time panics the modelled code can raise. *)
Inductive panic :=
  | SliceBounds      (** slice bounds out of range *)
  | IndexRange       (** index out of range *)
  | MakeLen          (** makeslice: len out of range *)
  | NilDeref         (** nil pointer dereference *)
  | DivZero          (** integer divide by zero *)
  | TypeAssert       (** failed type assertion *)
  | SendClosed       (** send on a closed channel *)
  | CloseClosed      (** close of a closed channel *)
  | StackOverflow    (** unbounded recursion: fatal, not recoverable *)
  | PanicErr (e : error). (** explicit [panic(err)] *)

Inductive result (A : Type) :=
  | Ok (a : A)
  | Err (e : error)
  | Panic (p : panic).
Arguments Ok {A} a.
Arguments Err {A} e.
Arguments Panic {A} p.

#[export] Instance result_ret : MRet result := fun A a => Ok a.
#[export] Instance result_bind : MBind result := fun A B f r =>
  match r with Ok a => f a | Err e => Err e | Panic p => Panic p end.
#[export] Instance result_fmap : FMap result := fun A B f r =>
  match r with Ok a => Ok (f a) | Err e => Err e | Panic p => Panic p end.

(** [if err != nil { return wrap(err) }] *)
Definition map_err {A} (f : error -> error) (r : result A) : result A :=
  match r with Err e => Err (f e) | _ => r end.

(** ** Stateful code

    [go S A] is a statement sequence over the mutable state [S]: the state
    reached is kept on every outcome, since Go's writes survive an error
    return and a panic (deferred calls run on it). *)
Definition go (S A : Type) : Type := S -> result A * S.

#[export] Instance go_ret S : MRet (go S) := fun A a s => (Ok a, s).
#[export] Instance go_bind S : MBind (go S) := fun A B f m s =>
  match m s with
  | (Ok a, s') => f a s'
  | (Err e, s') => (Err e, s')
  | (Panic p, s') => (Panic p, s')
  end.

Definition lift {S A} (r : result A) : go S A := fun s => (r, s).
Definition get {S} : go S S := fun s => (Ok s, s).
Definition gets {S A} (f : S -> A) : go S A := fun s => (Ok (f s), s).
Definition modify {S} (f : S -> S) : go S unit := fun s => (Ok tt, f s).
Definition throw {S A} (e : error) : go S A := fun s => (Err e, s).
Definition panics {S A} (p : panic) : go S A := fun s => (Panic p, s).

(** [if x, err = m; err != nil { return wrap(err) }] *)
Definition wrapping {S A} (f : error -> error) (m : go S A) : go S A :=
  fun s => let '(r, s') := m s in (map_err f r, s').

(** [defer d]: [d] runs on the state the body leaves, whatever the outcome. *)
Definition deferring {S A} (d : S -> S) (m : go S A) : go S A :=
  fun s => let '(r, s') := m s in (r, d s').

(** ** Bytes and lists *)

Definition is_byte (b : Z) : Prop := 0 <= b < 256.

Abbreviation zlen l := (Z.of_nat (length l)).

(** [ztake]/[zdrop]: list prefixes and suffixes by a Go [int]. *)
Definition ztake {A} (n : Z) (l : list A) : list A := take (Z.to_nat n) l.
Definition zdrop {A} (n : Z) (l : list A) : list A := drop (Z.to_nat n) l.

Lemma zlen_nonneg {A} (l : list A) : 0 <= zlen l.
Proof. lia. Qed.

Lemma ztake_drop {A} n (l : list A) : ztake n l ++ zdrop n l = l.
Proof. apply take_drop. Qed.

Lemma zlen_ztake {A} n (l : list A) : 0 <= n <= zlen l -> zlen (ztake n l) = n.
Proof. intros. unfold ztake. rewrite length_take. lia. Qed.

Lemma zlen_zdrop {A} n (l : list A) : 0 <= n <= zlen l -> zlen (zdrop n l) = zlen l - n.
Proof. intros. unfold zdrop. rewrite length_drop. lia. Qed.

Lemma ztake_app {A} n (l k : list A) : zlen l = n -> ztake n (l ++ k) = l.
Proof. intros <-. unfold ztake. rewrite Nat2Z.id. apply take_app_length. Qed.

Lemma zdrop_app {A} n (l k : list A) : zlen l = n -> zdrop n (l ++ k) = k.
Proof. intros <-. unfold zdrop. rewrite Nat2Z.id. apply drop_app_length. Qed.

Lemma ztake_app_le {A} n (l k : list A) :
  0 <= n <= zlen l -> ztake n (l ++ k) = ztake n l.
Proof. intros. unfold ztake. rewrite take_app_le; [done | lia]. Qed.

Lemma zdrop_app_le {A} n (l k : list A) :
  0 <= n <= zlen l -> zdrop n (l ++ k) = zdrop n l ++ k.
Proof. intros. unfold zdrop. rewrite drop_app_le; [done | lia]. Qed.

Lemma zdrop_zdrop {A} n m (l : list A) :
  0 <= n -> 0 <= m -> zdrop n (zdrop m l) = zdrop (m + n) l.
Proof. intros. unfold zdrop. rewrite drop_drop. f_equal. lia. Qed.

Lemma filter_all {A} (P : A -> Prop) `{!forall x, Decision (P x)} (l : list A) :
  Forall P l -> filter P l = l.
Proof. induction 1; [done|]. rewrite filter_cons_True by done. by f_equal. Qed.

(** ** Reachability

    The states a step relation reaches from an initial predicate, with the
    induction principle invariants are proved by. *)
Section reachability.
Context {S : Type} (init : S -> Prop) (step : S -> S -> Prop).

Inductive reachable : S -> Prop :=
  | reach_init s : init s -> reachable s
  | reach_step s s' : reachable s -> step s s' -> reachable s'.

Lemma reachable_inv (I : S -> Prop) :
  (forall s, init s -> I s) ->
  (forall s s', reachable s -> I s -> step s s' -> I s') ->
  forall s, reachable s -> I s.
Proof. intros Hi Hs s Hr. induction Hr; eauto. Qed.

Lemma reachable_rtc s s' : reachable s -> rtc step s s' -> reachable s'.
Proof. intros Hr Hs. induction Hs; eauto using reach_step. Qed.
End reachability.

(** ** Automation *)

Create HintDb gate discriminated.
#[export] Hint Resolve zlen_nonneg reach_init reach_step : gate.

(** Destructs the state pairs and results a [go] computation is matched on. *)
Ltac go_destruct :=
  repeat match goal with
  | |- context [match ?m with (_, _) => _ end] => destruct m eqn:?
  | |- context [match ?m with Ok _ => _ | Err _ => _ | Panic _ => _ end] => destruct m eqn:?
  end.

(** Turns boolean comparisons in the context and the goal into [Z] facts. *)
Ltac zbool :=
  repeat match goal with
  | H : (_ <=? _) = true |- _ => apply Z.leb_le in H
  | H : (_ <=? _) = false |- _ => apply Z.leb_gt in H
  | H : (_ <? _) = true |- _ => apply Z.ltb_lt in H
  | H : (_ <? _) = false |- _ => apply Z.ltb_ge in H
  | H : (_ =? _) = true |- _ => apply Z.eqb_eq in H
  | H : (_ =? _) = false |- _ => apply Z.eqb_neq in H
  | H : (_ || _) = true |- _ => apply orb_true_iff in H
  | H : (_ || _) = false |- _ => apply orb_false_iff in H; destruct H
  | H : (_ && _) = true |- _ => apply andb_true_iff in H; destruct H
  | H : (_ && _) = false |- _ => apply andb_false_iff in H
  | H : negb _ = true |- _ => apply negb_true_iff in H
  | H : negb _ = false |- _ => apply negb_false_iff in H
  end.

(** Case analysis on the integer comparisons of the goal. *)
Ltac zcase :=
  repeat match goal with
  | |- context [?a <=? ?b] => destruct (Z.leb_spec a b)
  | |- context [?a <? ?b] => destruct (Z.ltb_spec a b)
  | |- context [?a =? ?b] => destruct (Z.eqb_spec a b)
  end.
