(* ===== verification/Memory.v ===== *)
(** Byte arrays and slices.

    A Go [[]byte] is a window on a shared backing array: the array is a cell of
    a heap, a slice is the array's address with an offset, a length and a
    capacity.  Two slices of one array alias; this is what [ReadFull]'s result
    does with the reader's buffer (src/pkg/net/internal/bufreader/reader.go). *)
From S2P Require Import Prelude.

Record heap := mkHeap { arrays : gmap nat (list Z); next_arr : nat }.

Record slice := mkSlice { arr : nat; off : Z; len : Z; cap : Z }.

#[export] Instance slice_eq_dec : EqDecision slice.
Proof. solve_decision. Defined.

Definition empty_heap : heap := mkHeap ∅ 0.

(** The contents of the backing array at [a]. *)
Definition array (h : heap) (a : nat) : list Z := default [] (arrays h !! a).

(** [make([]byte, n)] for [n >= 0]: a fresh zeroed array, [len = cap = n]. *)
Definition make_bytes (n : Z) (h : heap) : slice * heap :=
  (mkSlice (next_arr h) 0 n n,
   mkHeap (<[next_arr h := replicate (Z.to_nat n) 0]> (arrays h)) (S (next_arr h))).

(** [s[lo:hi]], with Go's bounds check against the capacity. *)
Definition reslice (s : slice) (lo hi : Z) : result slice :=
  if (0 <=? lo) && (lo <=? hi) && (hi <=? cap s)
  then Ok (mkSlice (arr s) (off s + lo) (hi - lo) (cap s - lo))
  else Panic SliceBounds.

(** The bytes a slice shows now. *)
Definition bytes_of (h : heap) (s : slice) : list Z :=
  ztake (len s) (zdrop (off s) (array h (arr s))).

(** Overwrites the array of [s] with [bs] from the slice's first byte on;
    callers write at most [len s] bytes. *)
Definition splice (i : Z) (bs l : list Z) : list Z :=
  ztake i l ++ bs ++ zdrop (i + zlen bs) l.

Definition write_bytes (s : slice) (bs : list Z) (h : heap) : heap :=
  mkHeap (<[arr s := splice (off s) bs (array h (arr s))]> (arrays h)) (next_arr h).

(** [copy(dst, src)]: memmove semantics, so the source is read first. *)
Definition copy_bytes (dst src : slice) (h : heap) : Z * heap :=
  let n := Z.min (len dst) (len src) in
  (n, write_bytes dst (ztake n (bytes_of h src)) h).

(** A slice stays inside its backing array, which is allocated. *)
Definition slice_wf (h : heap) (s : slice) : Prop :=
  (arr s < next_arr h)%nat /\ 0 <= off s /\ 0 <= len s <= cap s /\
  off s + cap s = zlen (array h (arr s)).

(** ** Facts *)

Lemma zlen_splice i bs l :
  0 <= i -> i + zlen bs <= zlen l -> zlen (splice i bs l) = zlen l.
Proof.
  intros. unfold splice, ztake, zdrop.
  rewrite !length_app, length_take, length_drop. lia.
Qed.

Lemma splice_read_same i bs l :
  0 <= i -> i + zlen bs <= zlen l ->
  ztake (zlen bs) (zdrop i (splice i bs l)) = bs.
Proof.
  intros. unfold splice. rewrite zdrop_app by (apply zlen_ztake; lia).
  by apply ztake_app.
Qed.

(** Bytes before the written window are kept. *)
Lemma splice_read_before i bs l j n :
  0 <= j -> 0 <= n -> j + n <= i -> i + zlen bs <= zlen l ->
  ztake n (zdrop j (splice i bs l)) = ztake n (zdrop j l).
Proof.
  intros. unfold splice.
  rewrite zdrop_app_le by (rewrite zlen_ztake; lia).
  rewrite ztake_app_le by (rewrite zlen_zdrop; rewrite zlen_ztake; lia).
  rewrite <- (ztake_drop i l) at 2.
  rewrite zdrop_app_le by (rewrite zlen_ztake; lia).
  rewrite ztake_app_le by (rewrite zlen_zdrop; rewrite zlen_ztake; lia).
  done.
Qed.

(** The window ending where the write starts is extended by the written bytes. *)
Lemma splice_append i j bs l :
  0 <= j <= i -> i + zlen bs <= zlen l ->
  ztake (i + zlen bs - j) (zdrop (0 + j) (splice i bs l)) = ztake (i - j) (zdrop (0 + j) l) ++ bs.
Proof.
  intros Hj Hl. rewrite Z.add_0_l. unfold splice.
  rewrite zdrop_app_le by (rewrite zlen_ztake; lia).
  rewrite app_assoc, ztake_app.
  - f_equal. unfold ztake, zdrop. rewrite skipn_firstn_comm. f_equal. lia.
  - rewrite length_app, Nat2Z.inj_add, zlen_zdrop; rewrite zlen_ztake; lia.
Qed.

Lemma array_write_same s bs h :
  array (write_bytes s bs h) (arr s) = splice (off s) bs (array h (arr s)).
Proof. unfold array at 1, write_bytes. simpl. by rewrite lookup_insert_eq. Qed.

Lemma array_write_other s bs h a :
  a <> arr s -> array (write_bytes s bs h) a = array h a.
Proof.
  intros. unfold array, write_bytes. simpl. by rewrite lookup_insert_ne by done.
Qed.

Lemma array_make_same n h :
  array (snd (make_bytes n h)) (next_arr h) = replicate (Z.to_nat n) 0.
Proof. unfold array, make_bytes. simpl. by rewrite lookup_insert_eq. Qed.

Lemma array_make_other n h a :
  a <> next_arr h -> array (snd (make_bytes n h)) a = array h a.
Proof. intros. unfold array, make_bytes. simpl. by rewrite lookup_insert_ne. Qed.

Lemma make_bytes_wf n h :
  0 <= n -> slice_wf (snd (make_bytes n h)) (fst (make_bytes n h)).
Proof.
  intros. unfold slice_wf. cbn [fst make_bytes arr off len cap].
  rewrite array_make_same, length_replicate. simpl. lia.
Qed.

(** A slice of another array is untouched by an allocation. *)
Lemma make_bytes_frame n h s :
  slice_wf h s -> slice_wf (snd (make_bytes n h)) s /\
  bytes_of (snd (make_bytes n h)) s = bytes_of h s.
Proof.
  intros (Ha & ? & ? & ?). unfold slice_wf, bytes_of.
  rewrite array_make_other by lia. simpl. repeat split; lia || done.
Qed.

Lemma bytes_write_other s bs h t :
  arr t <> arr s -> bytes_of (write_bytes s bs h) t = bytes_of h t.
Proof. intros. unfold bytes_of. by rewrite array_write_other. Qed.

Lemma slice_wf_write s bs h t :
  slice_wf h s -> zlen bs <= cap s ->
  slice_wf h t -> slice_wf (write_bytes s bs h) t.
Proof.
  intros (? & ? & ? & ?) ? (? & ? & ? & ?). unfold slice_wf. simpl.
  destruct (decide (arr t = arr s)) as [E|E].
  - rewrite E, array_write_same, zlen_splice by lia.
    rewrite E in *. lia.
  - rewrite array_write_other by done. lia.
Qed.

Lemma zlen_bytes_of h s : slice_wf h s -> zlen (bytes_of h s) = len s.
Proof.
  intros (? & ? & ? & ?). unfold bytes_of. rewrite zlen_ztake; [done|].
  rewrite zlen_zdrop; lia.
Qed.

Lemma reslice_ok s lo hi :
  0 <= lo <= hi -> hi <= cap s ->
  reslice s lo hi = Ok (mkSlice (arr s) (off s + lo) (hi - lo) (cap s - lo)).
Proof. intros. unfold reslice. zcase; simpl; done || lia. Qed.

Lemma reslice_panics s lo hi :
  cap s < hi -> reslice s lo hi = Panic SliceBounds.
Proof.
  intros. unfold reslice. destruct (Z.leb_spec hi (cap s)); [lia|].
  by rewrite andb_false_r.
Qed.

#[export] Hint Resolve make_bytes_wf slice_wf_write : gate.
