(* ===== verification/BufPool.v ===== *)
(** The slab pool of src/pkg/net/internal/bufreader/pool.go.

    [NewSyncPool] computes the size classes and the size-to-class table,
    [Alloc]/[Free]/[Size] use them.  A [sync.Pool] is a free list with a [New]
    function; [Get] may hand out any free element or call [New] (the runtime
    may also drop free elements at any time), so [Get] takes the choice as an
    argument. *)
From S2P Require Import Prelude Memory.

Definition ErrInvalidSize : error := ENew "invalid size parameters" [].

(** One [sync.Pool] of [classes]: the size its [New] closure captured and its
    free buffers (each [*[]byte] is the slice it points to). *)
Record class := mkClass { c_new : Z; c_free : list slice }.

Record SyncPool := mkPool {
  classes : list class;
  classesSize : list Z;
  minSize : Z;
  maxSize : Z;
  sizeLookup : gmap Z Z;  (** entries written; the slice has [maxSize+1] cells, zero at first *)
}.

(** ** NewSyncPool *)

(** [chunkSize += minSize * (n/factor*2 + 1)], on 64-bit [int]s. *)
Definition next_chunk (minSize factor n chunkSize : Z) : Z :=
  int64 (chunkSize + int64 (minSize * int64 (int64 (n ÷ factor * 2) + 1))).

(** [for chunkSize := minSize; chunkSize <= maxSize; chunkSize += ...]: counts
    the classes; [None] when it has not ended after [fuel] turns. *)
Fixpoint count_loop (fuel : nat) (minSize maxSize factor chunkSize curSize n : Z) : option (Z * Z) :=
  if chunkSize <=? maxSize then
    match fuel with
    | O => None
    | S f =>
      let curSize := chunkSize in
      let n := int64 (n + 1) in
      count_loop f minSize maxSize factor (next_chunk minSize factor n chunkSize) curSize n
    end
  else Some (curSize, n).

(** [for i := start; i <= size; i++ { sizeLookup[i] = uint8(k) }], [cnt] turns. *)
Fixpoint fill_lookup (cnt : nat) (i k : Z) (t : gmap Z Z) : gmap Z Z :=
  match cnt with
  | O => t
  | S c => fill_lookup c (i + 1) k (<[i := uint8 k]> t)
  end.

(** The loop panics when it leaves a table of [cells] cells. *)
Definition fill_check (cells start size : Z) : result unit :=
  if (size <? start) || (0 <=? start) && (size <? cells) then Ok tt else Panic IndexRange.

(** [for k := range pool.classes { ... }], [cnt] turns from class [k] on. *)
Fixpoint build_loop (cnt : nat) (minSize maxSize factor k chunkSize : Z)
    (sizes : list Z) (lookup : gmap Z Z) : result (list Z * gmap Z Z) :=
  match cnt with
  | O => Ok (sizes, lookup)
  | S c =>
    let chunkSize := next_chunk minSize factor k chunkSize in
    let size := Z.min chunkSize maxSize in
    let start := if 0 <? k then default 0 (sizes !! Z.to_nat (k - 1)) else 0 in
    fill_check (int64 (maxSize + 1)) start size ;;
    build_loop c minSize maxSize factor (k + 1) chunkSize (sizes ++ [size])
      (fill_lookup (Z.to_nat (size - start + 1)) start k lookup)
  end.

(** [make] of [n] cells of [elem] bytes panics on a negative [n] and beyond the
    runtime's address space, 2^48 bytes on a 64-bit machine.  (Memory that runs
    out below that ends the process, which is not modelled.) *)
Definition maxAlloc : Z := 2 ^ 48.
Definition make_check (elem n : Z) : result unit :=
  if (n <? 0) || (maxAlloc <? n * elem) then Panic MakeLen else Ok tt.

(** The constructor, with [fuel] turns for the counting loop; [None] when they
    are not enough. *)
Definition NewSyncPool_fuel (fuel : nat) (minSize maxSize factor : Z) : option (result SyncPool) :=
  if (minSize <=? 0) || (maxSize <? minSize) || (factor <=? 0) then Some (Err ErrInvalidSize)
  else
    '(curSize, n) ← count_loop fuel minSize maxSize factor minSize minSize 0;
    let n := if curSize <? maxSize then int64 (n + 1) else n in
    (* a sync.Pool is 40 bytes, an int 8 *)
    Some (make_check 40 n ;; make_check 8 n ;; make_check 1 (int64 (maxSize + 1)) ;;
          '(sizes, lookup) ← build_loop (Z.to_nat n) minSize maxSize factor 0 minSize [] ∅;
          Ok (mkPool (map (fun size => mkClass size []) sizes) sizes minSize maxSize lookup)).

(** Enough turns when nothing overflows: each adds at least [minSize]. *)
Definition count_fuel (minSize maxSize : Z) : nat := S (Z.to_nat (maxSize ÷ minSize)).

Definition NewSyncPool_def (minSize maxSize factor : Z) : option (result SyncPool) :=
  NewSyncPool_fuel (count_fuel minSize maxSize) minSize maxSize factor.

(** Sealed, so that tactics do not run the constructor on the gateway's sizes. *)
Definition NewSyncPool_aux : seal (@NewSyncPool_def). Proof. by eexists. Qed.
Definition NewSyncPool : Z -> Z -> Z -> option (result SyncPool) := NewSyncPool_aux.(unseal).
Lemma NewSyncPool_unseal : NewSyncPool = NewSyncPool_def.
Proof. exact NewSyncPool_aux.(seal_eq). Qed.

(** ** Alloc, Free, Size *)

(** The memory the pool operations act on: the heap and the pool itself. *)
Record mem_state := mkMem { m_heap : heap; m_pool : SyncPool }.

(** [pool.sizeLookup[i]] *)
Definition lookup_size (p : SyncPool) (i : Z) : result Z :=
  if (0 <=? i) && (i <=? maxSize p) then Ok (default 0 (sizeLookup p !! i))
  else Panic IndexRange.

Definition set_free (p : SyncPool) (k : Z) (c : class) : SyncPool :=
  mkPool (<[Z.to_nat k := c]> (classes p)) (classesSize p) (minSize p) (maxSize p) (sizeLookup p).

(** [pool.classes[k].Get().( *[]byte)]: the free buffer number [ch] when there
    is one, a buffer made by [New] otherwise. *)
Definition pool_Get (ch : option nat) (k : Z) : go mem_state slice := fun m =>
  match classes (m_pool m) !! Z.to_nat k with
  | None => (Panic IndexRange, m)
  | Some c =>
    match ch ≫= fun i => s ← c_free c !! i; Some (i, s) with
    | Some (i, s) =>
        (Ok s, mkMem (m_heap m) (set_free (m_pool m) k (mkClass (c_new c) (delete i (c_free c)))))
    | None =>
        let '(s, h) := make_bytes (c_new c) (m_heap m) in (Ok s, mkMem h (m_pool m))
    end
  end.

(** [pool.classes[k].Put(&mem)] *)
Definition pool_Put (k : Z) (s : slice) : go mem_state unit := fun m =>
  match classes (m_pool m) !! Z.to_nat k with
  | None => (Panic IndexRange, m)
  | Some c => (Ok tt, mkMem (m_heap m) (set_free (m_pool m) k (mkClass (c_new c) (s :: c_free c))))
  end.

Definition make_slice (n : Z) : go mem_state slice := fun m =>
  let '(s, h) := make_bytes n (m_heap m) in (Ok s, mkMem h (m_pool m)).

Definition Alloc (ch : option nat) (size : Z) : go mem_state slice :=
  p ← gets m_pool;
  if size <=? 0 then make_slice 0
  else if size <=? maxSize p then
    classIndex ← lift (lookup_size p size);
    mem ← pool_Get ch classIndex;
    lift (reslice mem 0 size)
  else make_slice size.

(** [None] is the nil slice. *)
Definition Free (mem : option slice) : go mem_state unit :=
  p ← gets m_pool;
  match mem with
  | None => mret tt
  | Some s =>
    let size := cap s in
    if size <=? maxSize p then
      classIndex ← lift (lookup_size p size);
      s' ← lift (reslice s 0 (cap s));
      pool_Put classIndex s'
    else mret tt
  end.

Definition Size (p : SyncPool) (size : Z) : result Z :=
  if (size <=? 0) || (maxSize p <? size) then Ok size
  else
    k ← lookup_size p size;
    match classesSize p !! Z.to_nat k with Some z => Ok z | None => Panic IndexRange end.

(** ** Reference definitions *)

(** The chunk sizes of the counting loop, in closed recursive form: the value
    of [chunkSize] in turn [m]. *)
Fixpoint growth (minSize factor : Z) (m : nat) : Z :=
  match m with
  | O => minSize
  | S m' => growth minSize factor m' + minSize * (Z.of_nat m ÷ factor * 2 + 1)
  end.

(** The size the [k]-th class should have. *)
Definition class_size (minSize maxSize factor : Z) (k : nat) : Z :=
  Z.min (growth minSize factor k + minSize) maxSize.

(** The class a size is looked up in: the number of classes, the last one
    excepted, that are not larger than it. *)
Definition class_of (sizes : list Z) (s : Z) : Z :=
  zlen (filter (fun z => z <= s) (take (length sizes - 1) sizes)).

(** ** The counting loop *)

Section new_pool.
Context (minSize maxSize factor : Z).
Hypothesis Hmin : 0 < minSize.
Hypothesis Hmax : minSize <= maxSize.
Hypothesis Hfac : 0 < factor.
Hypothesis Hbig : maxSize < 2 ^ 40.

Abbreviation grow := (growth minSize factor).

Lemma growth_step m : grow m + minSize <= grow (S m).
Proof.
  cbn [growth]. rewrite Z.quot_div_nonneg by lia.
  pose proof (Z.div_pos (Z.of_nat (S m)) factor ltac:(lia) ltac:(lia)). nia.
Qed.

Lemma growth_lower m : minSize * (Z.of_nat m + 1) <= grow m.
Proof.
  induction m as [|m IH]; [simpl; lia|].
  pose proof (growth_step m). lia.
Qed.

Lemma growth_mono m m' : (m <= m')%nat -> grow m <= grow m'.
Proof.
  induction 1 as [|m' ? IH]; [done|]. pose proof (growth_step m'). lia.
Qed.

(** No chunk overflows. *)
Lemma next_chunk_id n c : 0 <= n -> minSize * n <= maxSize -> 0 <= c <= maxSize + minSize ->
  next_chunk minSize factor n c = c + minSize * (n ÷ factor * 2 + 1).
Proof.
  intros Hn Hm Hc. unfold next_chunk. rewrite Z.quot_div_nonneg by lia.
  pose proof (Z.div_pos n factor ltac:(lia) ltac:(lia)). pose proof (Z.div_le_upper_bound n factor n Hfac ltac:(nia)).
  assert (n <= maxSize) by nia. set (q := n / factor) in *.
  assert (minSize * (q * 2 + 1) <= 3 * maxSize) by nia. assert (0 <= minSize * (q * 2 + 1)) by nia.
  rewrite (wrapS_id 64 (q * 2)) by lia. rewrite (wrapS_id 64 (q * 2 + 1)) by lia.
  rewrite (wrapS_id 64 (minSize * _)) by lia. apply wrapS_id; lia.
Qed.

(** The loop stops at the first chunk over [maxSize]. *)
Lemma count_loop_spec fuel m :
  (m = 0%nat \/ grow (m - 1) <= maxSize) ->
  maxSize < minSize * (Z.of_nat m + Z.of_nat fuel + 1) ->
  exists n, (m <= n)%nat /\
    count_loop fuel minSize maxSize factor (grow m)
      (if decide (m = 0)%nat then minSize else grow (m - 1)) (Z.of_nat m)
    = Some (if decide (n = 0)%nat then minSize else grow (n - 1), Z.of_nat n) /\
    maxSize < grow n /\ (n = 0%nat \/ grow (n - 1) <= maxSize).
Proof.
  revert m. induction fuel as [|fuel IH]; intros m Hm Hf.
  - exists m. cbn [count_loop]. pose proof (growth_lower m).
    destruct (Z.leb_spec (grow m) maxSize); [lia|]. auto.
  - cbn [count_loop]. destruct (Z.leb_spec (grow m) maxSize) as [Hle|Hgt].
    + destruct (IH (S m)) as (n & Hn & E & Hn1 & Hn2).
      { right. by replace (S m - 1)%nat with m by lia. }
      { lia. }
      exists n. split; [lia|]. split; [|done]. rewrite <- E. pose proof (growth_lower m).
      assert (Z.of_nat m + 1 <= maxSize) by nia.
      rewrite (wrapS_id 64 (Z.of_nat m + 1)) by lia. rewrite next_chunk_id by nia.
      cbn [growth]. replace (S m - 1)%nat with m by lia.
      rewrite decide_False by lia. f_equal; lia || (repeat f_equal; lia).
    + exists m. auto.
Qed.

Lemma count_loop_returns :
  exists n, (0 < n)%nat /\
    count_loop (count_fuel minSize maxSize) minSize maxSize factor minSize minSize 0
    = Some (grow (n - 1), Z.of_nat n) /\
    maxSize < grow n /\ grow (n - 1) <= maxSize.
Proof.
  destruct (count_loop_spec (count_fuel minSize maxSize) 0) as (n & _ & E & H1 & H2).
  - by left.
  - unfold count_fuel. rewrite Nat2Z.inj_succ, Z2Nat.id by (apply Z.quot_pos; lia).
    rewrite Z.quot_div_nonneg by lia.
    pose proof (Z.mul_succ_div_gt maxSize minSize Hmin). nia.
  - assert (0 < n)%nat.
    { destruct n; [|lia]. simpl in H1. lia. }
    exists n. split; [done|].
    rewrite decide_True, decide_False in E by lia. cbn [growth] in E.
    destruct H2; [lia|]. done.
Qed.

(** ** The class-building loop *)

(** The value of [chunkSize] when class [k] starts. *)
Definition build_chunk (k : nat) : Z :=
  match k with O => minSize | S k' => grow k' + minSize end.

Lemma build_chunk_step k :
  build_chunk k + minSize * (Z.of_nat k ÷ factor * 2 + 1) = grow k + minSize.
Proof.
  destruct k as [|k]; cbn [build_chunk growth]; [|ring].
  change (Z.of_nat 0) with 0. rewrite Z.quot_0_l by lia. ring.
Qed.

Abbreviation csize := (class_size minSize maxSize factor).
Abbreviation csizes n := (map csize (seq 0 n)).

Lemma csize_pos k : 0 < csize k.
Proof. unfold class_size. pose proof (growth_lower k). nia. Qed.

Lemma csize_le k k' : (k <= k')%nat -> csize k <= csize k'.
Proof. intros H. unfold class_size. pose proof (growth_mono k k' H). lia. Qed.

Lemma csizes_lookup n k : (k < n)%nat -> csizes n !! k = Some (csize k).
Proof.
  intros. rewrite list_lookup_fmap, lookup_seq_lt by done. done.
Qed.

Lemma csizes_snoc n : csizes (S n) = csizes n ++ [csize n].
Proof. rewrite seq_S, map_app. done. Qed.

Lemma fill_lookup_spec cnt i k t j :
  fill_lookup cnt i k t !! j =
    if decide (i <= j < i + Z.of_nat cnt) then Some (uint8 k) else t !! j.
Proof.
  revert i t. induction cnt as [|c IH]; intros i t; cbn [fill_lookup].
  - rewrite decide_False by lia. done.
  - rewrite IH. repeat case_decide; try lia; try done.
    + assert (i = j) as -> by lia. by rewrite lookup_insert_eq.
    + by rewrite lookup_insert_ne by lia.
Qed.

(** All classes below [n] are counted once the size reaches the last one. *)
Lemma class_of_top n s : csize n <= s -> class_of (csizes (S (S n))) s = Z.of_nat (S n).
Proof.
  intros Hs. unfold class_of.
  rewrite length_map, length_seq. rewrite csizes_snoc.
  replace (S (S n) - 1)%nat with (length (csizes (S n))) by (rewrite length_map, length_seq; lia).
  rewrite take_app_length. rewrite filter_all.
  - by rewrite length_map, length_seq.
  - apply Forall_lookup. intros i x Hx. rewrite list_lookup_fmap in Hx.
    apply fmap_Some in Hx as (k & Hk & ->). apply lookup_seq in Hk as [-> Hk].
    pose proof (csize_le (0 + i) n ltac:(lia)). lia.
Qed.

Lemma class_of_below n s : s < csize n ->
  class_of (csizes (S (S n))) s = class_of (csizes (S n)) s.
Proof.
  intros Hs. unfold class_of. rewrite !length_map, !length_seq.
  rewrite (csizes_snoc (S n)). replace (S (S n) - 1)%nat with (S n) by lia.
  replace (S n - 1)%nat with n by lia.
  rewrite take_app_le by (rewrite length_map, length_seq; lia).
  rewrite (csizes_snoc n).
  rewrite (take_app_le (csizes n) _ n) by (rewrite length_map, length_seq; lia).
  rewrite (take_ge (csizes n ++ _)) by (rewrite length_app, length_map, length_seq; simpl; lia).
  rewrite (take_ge (csizes n)) by (rewrite length_map, length_seq; lia).
  rewrite list.filter_app, filter_cons_False by lia. rewrite filter_nil.
  by rewrite app_nil_r.
Qed.

(** The table after [n] classes: every size up to the last class is mapped. *)
Definition table_ok (n : nat) (t : gmap Z Z) : Prop :=
  forall s, t !! s =
    match n with
    | O => None
    | S n' => if decide (0 <= s <= csize n') then Some (uint8 (class_of (csizes n) s)) else None
    end.

Lemma table_ok_step n t :
  table_ok n t ->
  let start := match n with O => 0 | S n' => csize n' end in
  fill_check (int64 (maxSize + 1)) start (csize n) = Ok tt /\
  table_ok (S n) (fill_lookup (Z.to_nat (csize n - start + 1)) start (Z.of_nat n) t).
Proof.
  intros Ht start. rewrite wrapS_id by lia.
  assert (0 <= start <= csize n) as Hs.
  { subst start. destruct n as [|n]; [pose proof (csize_pos 0); lia|].
    pose proof (csize_le n (S n) ltac:(lia)). pose proof (csize_pos n). lia. }
  assert (csize n <= maxSize) by (unfold class_size; lia).
  split; [unfold fill_check; zcase; cbn; done || lia|].
  intros s. rewrite fill_lookup_spec, Ht, Z2Nat.id by lia. subst start. destruct n as [|n].
  - repeat case_decide; try lia; done.
  - repeat case_decide; try lia; try done.
    + rewrite class_of_top by lia. done.
    + rewrite class_of_below by lia. done.
Qed.

Lemma build_loop_spec cnt n t :
  table_ok n t -> (forall k, (k < n + cnt)%nat -> k = 0%nat \/ grow (k - 1) <= maxSize) ->
  exists t', build_loop cnt minSize maxSize factor (Z.of_nat n) (build_chunk n) (csizes n) t
             = Ok (csizes (n + cnt), t') /\ table_ok (n + cnt) t'.
Proof.
  revert n t. induction cnt as [|c IH]; intros n t Ht Hk; cbn [build_loop].
  - exists t. by rewrite Nat.add_0_r.
  - assert (next_chunk minSize factor (Z.of_nat n) (build_chunk n) = grow n + minSize) as Ec.
    { rewrite <- build_chunk_step. destruct (Hk n ltac:(lia)) as [->|Hg]; [apply next_chunk_id; cbn; lia|].
      destruct n as [|n]; [apply next_chunk_id; cbn; lia|]. cbn [build_chunk]. replace (S n - 1)%nat with n in Hg by lia.
      pose proof (growth_lower n). apply next_chunk_id; nia. }
    rewrite Ec. fold (csize n). rewrite <- csizes_snoc.
    assert ((if 0 <? Z.of_nat n then default 0 (csizes n !! Z.to_nat (Z.of_nat n - 1)) else 0)
            = match n with O => 0 | S n' => csize n' end) as ->.
    { destruct n as [|n]; [done|]. destruct (Z.ltb_spec 0 (Z.of_nat (S n))); [|lia].
      replace (Z.to_nat (Z.of_nat (S n) - 1)) with n by lia.
      by rewrite csizes_lookup by lia. }
    destruct (table_ok_step n t Ht) as (E1 & Ht1). rewrite E1. cbn [mbind result_bind].
    destruct (IH (S n) _ Ht1) as (t' & E & Ht'); [intros k ?; apply Hk; lia|].
    exists t'. replace (n + S c)%nat with (S n + c)%nat by lia. split; [|done].
    rewrite <- E. f_equal. lia.
Qed.

Lemma make_check_ok elem n : 0 <= n -> n * elem <= 2 ^ 48 -> make_check elem n = Ok tt.
Proof. intros H1 H2. unfold make_check, maxAlloc. zcase; done || lia. Qed.

(** The shape of the pool the constructor returns. *)
Lemma NewSyncPool_shape :
  exists n t,
    NewSyncPool minSize maxSize factor =
      Some (Ok (mkPool (map (fun size => mkClass size []) (csizes (S n))) (csizes (S n))
                       minSize maxSize t)) /\
    table_ok (S n) t /\ maxSize <= grow n /\ (forall k, (k < n)%nat -> grow k < maxSize).
Proof.
  destruct count_loop_returns as (n & Hn & E & Hgt & Hle).
  assert (Z.of_nat n <= maxSize) as Hn2 by (pose proof (growth_lower (n - 1)); nia).
  rewrite NewSyncPool_unseal. unfold NewSyncPool_def, NewSyncPool_fuel. zcase; try lia. cbn [orb]. rewrite E. cbn [mbind option_bind].
  rewrite (wrapS_id 64 (Z.of_nat n + 1)), (wrapS_id 64 (maxSize + 1)) by lia.
  set (m := if grow (n - 1) <? maxSize then Z.of_nat n + 1 else Z.of_nat n).
  assert (0 <= m <= Z.of_nat n + 1) as Hm by (subst m; destruct (_ <? _); lia).
  rewrite !make_check_ok by lia. cbn [mbind result_bind].
  destruct (build_loop_spec (Z.to_nat m) 0 ∅) as (t & Eb & Ht).
  { intros s. apply lookup_empty. }
  { intros k Hk. destruct (decide (k = 0)%nat); [by left|right]. pose proof (growth_mono (k - 1) (n - 1)). lia. }
  cbn [Nat.add build_chunk map seq] in Eb. change (Z.of_nat 0) with 0 in Eb. rewrite Eb. cbn [mbind result_bind].
  subst m. destruct (Z.ltb_spec (grow (n - 1)) maxSize).
  - exists n, t. replace (Z.to_nat (Z.of_nat n + 1)) with (S n) in * by lia.
    split; [done|]. split; [done|]. split; [lia|]. intros k Hk. pose proof (growth_mono k (n - 1)). lia.
  - exists (n - 1)%nat, t. rewrite Nat2Z.id in *. replace (S (n - 1)) with n by lia.
    split; [done|]. split; [done|]. split; [lia|]. intros k Hk. pose proof (growth_mono (S k) (n - 1)).
    pose proof (growth_step k). lia.
Qed.

Lemma class_of_covers n s :
  0 <= s <= csize n ->
  0 <= class_of (csizes (S n)) s <= Z.of_nat n /\
  s <= csize (Z.to_nat (class_of (csizes (S n)) s)).
Proof.
  induction n as [|n IH]; intros Hs.
  - change (class_of (csizes 1) s) with 0. change (Z.to_nat 0) with 0%nat. lia.
  - destruct (Z.le_gt_cases (csize n) s).
    + rewrite class_of_top by lia. rewrite Nat2Z.id. lia.
    + rewrite class_of_below by lia. destruct IH; lia.
Qed.

(** The class of a size is the one whose neighbours bracket it. *)
Lemma class_of_at n k s :
  (k <= n)%nat -> (k = 0%nat \/ csize (k - 1) <= s) -> (k = n \/ s < csize k) ->
  class_of (csizes (S n)) s = Z.of_nat k.
Proof.
  induction n as [|n IH]; intros Hk Hlo Hhi.
  - by replace k with 0%nat by lia.
  - destruct (decide (k = S n)) as [->|].
    + apply class_of_top. destruct Hlo as [|Hlo]; [lia|]. by replace (S n - 1)%nat with n in Hlo by lia.
    + destruct Hhi as [|Hhi]; [lia|]. rewrite class_of_below; [apply IH; lia|].
      pose proof (csize_le k n). lia.
Qed.
End new_pool.

(** ** The constructor's contract *)

(** C-level facts every constructed pool has, independent of its free lists. *)
Record pool_shape (p : SyncPool) : Prop := {
  ps_len : (0 < length (classesSize p))%nat;
  ps_new : c_new <$> classes p = classesSize p;
  ps_max : list.last (classesSize p) = Some (maxSize p);
  ps_mono : forall i j a b, (i <= j)%nat ->
    classesSize p !! i = Some a -> classesSize p !! j = Some b -> a <= b;
  ps_lookup : forall s, 0 <= s <= maxSize p ->
    lookup_size p s = Ok (uint8 (class_of (classesSize p) s));
  ps_cover : forall s, 0 <= s <= maxSize p ->
    exists z, classesSize p !! Z.to_nat (class_of (classesSize p) s) = Some z /\ s <= z /\
              0 <= class_of (classesSize p) s;
}.

Lemma NewSyncPool_ok minSize maxSize factor :
  0 < minSize -> minSize <= maxSize -> 0 < factor -> maxSize < 2 ^ 40 ->
  exists p, NewSyncPool minSize maxSize factor = Some (Ok p) /\ pool_shape p /\
    BufPool.maxSize p = maxSize /\ classes p = (fun size => mkClass size []) <$> classesSize p /\
    (exists n, length (classesSize p) = S n /\ maxSize <= growth minSize factor n /\
       forall k, (k < n)%nat -> growth minSize factor k < maxSize) /\
    (forall k, (k < length (classesSize p))%nat ->
       classesSize p !! k = Some (class_size minSize maxSize factor k)).
Proof.
  intros Hmin Hmax Hfac Hbig.
  destruct (NewSyncPool_shape minSize maxSize factor Hmin Hmax Hfac Hbig) as (n & t & E & Ht & Hge & Hlt).
  assert (class_size minSize maxSize factor n = maxSize) as Hlast by (unfold class_size; lia).
  eexists. split; [exact E|]. split; [split|]; cbn [classesSize BufPool.maxSize classes sizeLookup].
  - rewrite length_map, length_seq. lia.
  - rewrite <- list_fmap_compose. apply list_fmap_id.
  - rewrite csizes_snoc, last_snoc. by rewrite Hlast.
  - intros i j a b Hij Ha Hb. apply lookup_lt_Some in Hb as Hj.
    rewrite length_map, length_seq in Hj.
    rewrite csizes_lookup in Ha, Hb by lia. simplify_eq. by apply csize_le.
  - intros s Hs. unfold lookup_size. cbn [BufPool.maxSize sizeLookup].
    zcase; try lia. cbn [andb]. rewrite Ht. by rewrite decide_True by lia.
  - intros s Hs. destruct (class_of_covers minSize maxSize factor Hmin Hfac n s) as [H1 H2]; [lia|].
    eexists. rewrite csizes_lookup by lia. repeat split; [exact H2|lia].
  - split; [done|]. split.
    + done.
    + split; [exists n; split; [by rewrite length_map, length_seq|done]|]. intros k Hk. rewrite length_map, length_seq in Hk. by apply csizes_lookup.
Qed.

(** ** What the pool promises its client

    [req] are the sizes the client asks for, [buf h s] says that [s] is a whole
    buffer handed out by the pool, [inv O m] that the memory is consistent while
    the client owns the arrays in [O]: no owned array is on a free list. *)
Class PoolSpec (req : Z -> Prop) (inv : gset nat -> mem_state -> Prop)
    (buf : heap -> slice -> Prop) : Prop := {
  alloc_spec : forall ch size O m, inv O m -> req size ->
    exists s m', Alloc ch size m = (Ok s, m') /\
      inv ({[arr s]} ∪ O) m' /\ (arr s ∉ O) /\ len s = size /\ buf (m_heap m') s /\
      (forall t, buf (m_heap m) t -> arr t ∈ O -> buf (m_heap m') t) /\
      (forall a, a ∈ O -> array (m_heap m') a = array (m_heap m) a);
  free_spec : forall s O m, inv O m -> arr s ∈ O -> buf (m_heap m) s ->
    exists m', Free (Some s) m = (Ok tt, m') /\
      inv (O ∖ {[arr s]}) m' /\ m_heap m' = m_heap m;
  write_spec : forall s t bs O m, inv O m -> arr s ∈ O -> slice_wf (m_heap m) s -> zlen bs <= cap s ->
    inv O (mkMem (write_bytes s bs (m_heap m)) (m_pool m)) /\
    (buf (m_heap m) t -> buf (write_bytes s bs (m_heap m)) t);
  buf_wf : forall h s, buf h s -> slice_wf h s /\ off s = 0;
}.

(** *** The slab pool keeps the promise

    A size policy: the requested sizes [req] and the capacities [capok] that
    circulate, such that a freed buffer always lands in a class where it is
    large enough for every size requested from that class. *)
Record size_policy (p : SyncPool) (req capok : Z -> Prop) : Prop := {
  sp_pos : forall s, req s -> 0 < s;
  sp_cappos : forall c, capok c -> 0 < c;
  sp_class : forall s, 0 < s <= maxSize p -> exists k c,
    lookup_size p s = Ok (Z.of_nat k) /\ classes p !! k = Some c;
  sp_new : forall s k c, req s -> 0 < s <= maxSize p ->
    lookup_size p s = Ok (Z.of_nat k) -> classes p !! k = Some c ->
    s <= c_new c <= maxSize p /\ capok (c_new c);
  sp_free : forall c s k, capok c -> req s -> c <= maxSize p -> s <= maxSize p ->
    lookup_size p c = Ok k -> lookup_size p s = Ok k -> s <= c;
  sp_big : forall s, req s -> maxSize p < s -> capok s;
}.

Record same_shape (p q : SyncPool) : Prop := {
  ss_sizes : classesSize q = classesSize p;
  ss_max : maxSize q = maxSize p;
  ss_lookup : sizeLookup q = sizeLookup p;
  ss_new : c_new <$> classes q = c_new <$> classes p;
}.

Definition free_arrs (p : SyncPool) : list nat :=
  mjoin ((fun c => arr <$> c_free c) <$> classes p).

(** A whole pooled buffer: the window is the array, its capacity circulates. *)
Definition whole_buf (capok : Z -> Prop) (h : heap) (s : slice) : Prop :=
  slice_wf h s /\ off s = 0 /\ capok (cap s).

Record pool_inv (p0 : SyncPool) (capok : Z -> Prop) (O : gset nat) (m : mem_state) : Prop := {
  pi_shape : same_shape p0 (m_pool m);
  pi_free : forall k c b, classes (m_pool m) !! k = Some c -> b ∈ c_free c ->
    whole_buf capok (m_heap m) b /\ cap b <= maxSize p0 /\ lookup_size p0 (cap b) = Ok (Z.of_nat k);
  pi_nodup : NoDup (free_arrs (m_pool m));
  pi_owned : forall a, a ∈ free_arrs (m_pool m) -> a ∉ O;
  pi_next : forall a, a ∈ O -> (a < next_arr (m_heap m))%nat;
}.

Lemma same_shape_refl p : same_shape p p.
Proof. by split. Qed.

Lemma lookup_size_same p q s : same_shape p q -> lookup_size q s = lookup_size p s.
Proof. intros [_ Hm Hl _]. unfold lookup_size. by rewrite Hm, Hl. Qed.

Lemma set_free_shape p q k c c' :
  same_shape p q -> classes q !! Z.to_nat k = Some c -> c_new c' = c_new c ->
  same_shape p (set_free q k c').
Proof.
  intros [] Hk E. split; cbn [set_free classesSize maxSize sizeLookup classes]; try done.
  rewrite list_fmap_insert, E, list_insert_id; [done|].
  by rewrite list_lookup_fmap, Hk.
Qed.

(** Updating one class splits the free list into that class and the rest. *)
Lemma free_arrs_split p k c :
  classes p !! Z.to_nat k = Some c ->
  exists rest, free_arrs p ≡ₚ (arr <$> c_free c) ++ rest /\
    forall c', free_arrs (set_free p k c') ≡ₚ (arr <$> c_free c') ++ rest.
Proof.
  intros Hk. set (f := fun c => arr <$> c_free c).
  exists (mjoin (f <$> take (Z.to_nat k) (classes p)) ++ mjoin (f <$> drop (S (Z.to_nat k)) (classes p))).
  split.
  - unfold free_arrs. fold f. rewrite <- (take_drop_middle _ _ _ Hk) at 1.
    rewrite fmap_app, fmap_cons, join_app. cbn [mjoin list_join].
    fold (mjoin (M:=list) (A:=nat)). unfold f at 2. solve_Permutation.
  - intros c'. unfold free_arrs. fold f. cbn [set_free classes].
    rewrite insert_take_drop by (by eapply lookup_lt_Some).
    rewrite fmap_app, fmap_cons, join_app. cbn [mjoin list_join].
    unfold f at 2. solve_Permutation.
Qed.

Section slab_pool.
Context (p0 : SyncPool) (req capok : Z -> Prop).
Hypothesis policy : size_policy p0 req capok.

Abbreviation inv := (pool_inv p0 capok).

Lemma pi_lookup O m s : inv O m -> lookup_size (m_pool m) s = lookup_size p0 s.
Proof. intros H. apply lookup_size_same, H. Qed.

Lemma pi_max O m : inv O m -> maxSize (m_pool m) = maxSize p0.
Proof. intros [[] _ _ _ _]. done. Qed.

Lemma pi_class O m k c : inv O m -> classes (m_pool m) !! k = Some c ->
  exists c0, classes p0 !! k = Some c0 /\ c_new c = c_new c0.
Proof.
  intros [[_ _ _ E] _ _ _ _] Hk.
  assert ((c_new <$> classes p0) !! k = Some (c_new c)) as H.
  { by rewrite <- E, list_lookup_fmap, Hk. }
  rewrite list_lookup_fmap in H. apply fmap_Some in H as (c0 & ? & ?). eauto.
Qed.

Lemma pi_class_some O m s : inv O m -> 0 < s <= maxSize p0 ->
  exists k c, lookup_size p0 s = Ok (Z.of_nat k) /\ classes (m_pool m) !! k = Some c.
Proof.
  intros Hi Hs. destruct (sp_class _ _ _ policy s Hs) as (k & c & Hl & Hc).
  destruct Hi as [[_ _ _ E] _ _ _ _].
  assert (is_Some ((c_new <$> classes (m_pool m)) !! k)) as [z Hz].
  { rewrite E, list_lookup_fmap, Hc. by eexists. }
  rewrite list_lookup_fmap in Hz. apply fmap_Some in Hz as (c' & ? & ?). eauto.
Qed.

Lemma inv_weaken O O' m : inv O m -> O' ⊆ O -> inv O' m.
Proof.
  intros [] Hsub. split; try done; auto.
  intros a Ha Ha'. by eapply pi_owned0, Hsub.
Qed.

(** A fresh array joins the owned ones. *)
Lemma inv_fresh O m n :
  inv O m -> 0 <= n ->
  inv ({[next_arr (m_heap m)]} ∪ O) (mkMem (snd (make_bytes n (m_heap m))) (m_pool m)) /\
  next_arr (m_heap m) ∉ O.
Proof.
  intros Hi Hn. assert (next_arr (m_heap m) ∉ O) as Hfresh.
  { intros Hin. pose proof (pi_next _ _ _ _ Hi _ Hin). lia. }
  split; [|done]. split; cbn [m_pool m_heap]; try apply Hi.
  - intros k c b Hk Hb. destruct (pi_free _ _ _ _ Hi _ _ _ Hk Hb) as ((Hw & Ho & Hc) & ?).
    split; [|done]. split; [by apply make_bytes_frame|done].
  - intros a Ha. rewrite not_elem_of_union, not_elem_of_singleton. split.
    + intros ->. apply list_elem_of_join in Ha as (l & Ha & Hl).
      apply list_elem_of_fmap in Hl as (c & -> & Hc).
      apply list_elem_of_fmap in Ha as (b & E & Hb).
      apply list_elem_of_lookup in Hc as (k & Hk).
      destruct (pi_free _ _ _ _ Hi _ _ _ Hk Hb) as (((Hlt & _) & _) & _). lia.
    + by apply (pi_owned _ _ _ _ Hi).
  - intros a [->%elem_of_singleton|Ha]%elem_of_union; simpl; [lia|].
    pose proof (pi_next _ _ _ _ Hi _ Ha). lia.
Qed.

(** Taking a free buffer moves its array from the free list to the owner. *)
Lemma inv_take O m k c i b :
  inv O m -> classes (m_pool m) !! Z.to_nat k = Some c -> c_free c !! i = Some b ->
  inv ({[arr b]} ∪ O)
    (mkMem (m_heap m) (set_free (m_pool m) k (mkClass (c_new c) (delete i (c_free c))))) /\
  arr b ∉ O.
Proof.
  intros Hi Hk Hb.
  destruct (free_arrs_split _ _ _ Hk) as (rest & Hp & Hp').
  specialize (Hp' (mkClass (c_new c) (delete i (c_free c)))). cbn [c_free] in Hp'.
  assert (free_arrs (m_pool m) ≡ₚ arr b ::
    free_arrs (set_free (m_pool m) k (mkClass (c_new c) (delete i (c_free c))))) as HP.
  { rewrite Hp, Hp', (delete_Permutation (c_free c) i b Hb) at 1. done. }
  pose proof (pi_nodup _ _ _ _ Hi) as Hnd. rewrite HP in Hnd.
  apply NoDup_cons in Hnd as [Hnb Hnd].
  split.
  2:{ apply (pi_owned _ _ _ _ Hi). rewrite HP. left. }
  split; cbn [m_pool m_heap].
  - eapply set_free_shape; [apply Hi|done|done].
  - intros k' c' b' Hk' Hb'. cbn [set_free classes] in Hk'.
    apply list_lookup_insert_Some in Hk' as [(<- & <- & _)|[_ Hk']].
    + cbn [c_free] in Hb'. apply (pi_free _ _ _ _ Hi _ _ _ Hk).
      rewrite (delete_Permutation _ _ _ Hb). by right.
    + by apply (pi_free _ _ _ _ Hi _ _ _ Hk').
  - done.
  - intros a Ha. rewrite not_elem_of_union, not_elem_of_singleton. split.
    + intros ->. done.
    + apply (pi_owned _ _ _ _ Hi). rewrite HP. by right.
  - intros a [->%elem_of_singleton|Ha]%elem_of_union; [|by apply (pi_next _ _ _ _ Hi)].
    destruct (pi_free _ _ _ _ Hi _ _ b Hk) as (((Hlt & _) & _) & _); [|done].
    by eapply list_elem_of_lookup_2.
Qed.

(** [Get] never fails for a class that exists, and its buffer is large enough
    for any size requested from that class. *)
Lemma pool_Get_ok ch O m k c s :
  inv O m -> req s -> 0 < s <= maxSize p0 ->
  lookup_size p0 s = Ok (Z.of_nat k) -> classes (m_pool m) !! k = Some c ->
  exists b m', pool_Get ch (Z.of_nat k) m = (Ok b, m') /\
    inv ({[arr b]} ∪ O) m' /\ (arr b ∉ O) /\ s <= cap b /\ whole_buf capok (m_heap m') b /\
    (forall t, whole_buf capok (m_heap m) t -> whole_buf capok (m_heap m') t) /\
    (forall a, a ∈ O -> array (m_heap m') a = array (m_heap m) a).
Proof.
  intros Hi Hr Hs Hl Hc. unfold pool_Get. rewrite Nat2Z.id, Hc.
  destruct (ch ≫= _) as [[i b]|] eqn:Ech.
  - apply bind_Some in Ech as (i' & -> & Ech). apply bind_Some in Ech as (b' & Hb & ?). simplify_eq.
    do 2 eexists. split; [done|].
    destruct (inv_take O m (Z.of_nat k) c i b Hi) as [Hi' Hnin]; [by rewrite Nat2Z.id|done|].
    destruct (pi_free _ _ _ _ Hi k c b Hc) as (Hw & Hcap & Hlk); [by eapply list_elem_of_lookup_2|].
    split; [exact Hi'|]. split; [done|]. split; [|done].
    eapply (sp_free _ _ _ policy (cap b) s (Z.of_nat k)); try done; [apply Hw|lia].
  - destruct (pi_class _ _ _ _ Hi Hc) as (c0 & Hc0 & Hnew).
    destruct (sp_new _ _ _ policy s k c0 Hr Hs Hl Hc0) as [Hle Hok]. rewrite <- Hnew in Hle, Hok.
    destruct (inv_fresh O m (c_new c) Hi) as [Hi' Hnin]; [lia|].
    do 2 eexists. split; [reflexivity|]. cbn [arr cap m_heap].
    split; [exact Hi'|]. split; [done|]. split; [lia|]. split; [|split].
    + split; [by apply (make_bytes_wf (c_new c) (m_heap m)); lia|done].
    + intros t (Ht & ? & ?). split; [by apply make_bytes_frame|done].
    + intros a Ha. apply (array_make_other (c_new c) (m_heap m)).
      pose proof (pi_next _ _ _ _ Hi _ Ha). lia.
Qed.

Lemma Alloc_ok ch size O m :
  inv O m -> req size ->
  exists s m', Alloc ch size m = (Ok s, m') /\
    inv ({[arr s]} ∪ O) m' /\ (arr s ∉ O) /\ len s = size /\ whole_buf capok (m_heap m') s /\
    (forall t, whole_buf capok (m_heap m) t -> arr t ∈ O -> whole_buf capok (m_heap m') t) /\
    (forall a, a ∈ O -> array (m_heap m') a = array (m_heap m) a).
Proof.
  intros Hi Hr. pose proof (sp_pos _ _ _ policy _ Hr) as Hpos.
  cbv [Alloc gets lift make_slice mbind go_bind]. rewrite (pi_max _ _ Hi), (pi_lookup _ _ _ Hi).
  destruct (Z.leb_spec size 0); [lia|]. destruct (Z.leb_spec size (maxSize p0)).
  - destruct (pi_class_some O m size Hi) as (k & c & Hl & Hc); [lia|]. rewrite Hl.
    destruct (pool_Get_ok ch O m k c size) as (b & m' & E & Hi' & Hnin & Hcap & (Hw & Ho & Hok) & Hfr & Har);
      [done|done|lia|done|done|].
    rewrite E. rewrite reslice_ok by lia.
    do 2 eexists. split; [reflexivity|]. cbn [arr len].
    split; [done|]. split; [done|]. split; [lia|]. split; [|by eauto].
    destruct Hw as (? & ? & ? & ?). split; [|cbn [off cap]; split; [lia|by rewrite Z.sub_0_r]].
    split; cbn [arr off len cap]; [done|]. lia.
  - destruct (inv_fresh O m size Hi) as [Hi' Hnin]; [lia|].
    do 2 eexists. split; [reflexivity|]. cbn [arr len m_heap].
    split; [exact Hi'|]. split; [done|]. split; [done|]. split; [|split].
    + split; [apply (make_bytes_wf size (m_heap m)); lia|]. split; [done|].
      by apply (sp_big _ _ _ policy).
    + intros t (Ht & ? & ?) _. split; [by apply make_bytes_frame|done].
    + intros a Ha. apply (array_make_other size (m_heap m)).
      pose proof (pi_next _ _ _ _ Hi _ Ha). lia.
Qed.

Lemma Free_ok s O m :
  inv O m -> arr s ∈ O -> whole_buf capok (m_heap m) s ->
  exists m', Free (Some s) m = (Ok tt, m') /\ inv (O ∖ {[arr s]}) m' /\ m_heap m' = m_heap m.
Proof.
  intros Hi Hin (Hw & Ho & Hok). pose proof (sp_cappos _ _ _ policy _ Hok) as Hpos.
  assert (inv (O ∖ {[arr s]}) m) as Hi0 by (eapply inv_weaken; [done|set_solver +]).
  cbv [Free gets lift mbind go_bind]. rewrite (pi_max _ _ Hi), (pi_lookup _ _ _ Hi).
  destruct (Z.leb_spec (cap s) (maxSize p0)) as [Hle|]; [|by eexists].
  destruct (pi_class_some O m (cap s) Hi) as (k & c & Hl & Hc); [lia|]. rewrite Hl.
  rewrite reslice_ok by lia. unfold pool_Put. rewrite Nat2Z.id, Hc.
  eexists. split; [reflexivity|]. split; [|done].
  destruct (free_arrs_split (m_pool m) (Z.of_nat k) c) as (rest & Hp & Hp'); [by rewrite Nat2Z.id|].
  set (s' := mkSlice (arr s) (off s + 0) (cap s - 0) (cap s - 0)).
  specialize (Hp' (mkClass (c_new c) (s' :: c_free c))). cbn [c_free] in Hp'.
  assert (free_arrs (set_free (m_pool m) (Z.of_nat k) (mkClass (c_new c) (s' :: c_free c)))
          ≡ₚ arr s :: free_arrs (m_pool m)) as HP.
  { rewrite Hp'. cbn [fmap list_fmap app]. by rewrite Hp. }
  split; cbn [m_pool m_heap].
  - eapply (set_free_shape _ _ _ c); [apply Hi|by rewrite Nat2Z.id|done].
  - intros k' c' b' Hk' Hb'. cbn [set_free classes] in Hk'. rewrite Nat2Z.id in Hk'.
    apply list_lookup_insert_Some in Hk' as [(<- & <- & _)|[_ Hk']];
      [|by apply (pi_free _ _ _ _ Hi _ _ _ Hk')].
    apply elem_of_cons in Hb' as [->|Hb']; [|by apply (pi_free _ _ _ _ Hi _ _ _ Hc)].
    destruct Hw as (? & ? & ? & ?). subst s'. unfold whole_buf, slice_wf. cbn [arr off len cap].
    rewrite Z.sub_0_r. repeat split; try done; lia.
  - rewrite HP. apply NoDup_cons. split; [|apply Hi].
    intros Ha. by apply (pi_owned _ _ _ _ Hi) in Ha.
  - intros a Ha. rewrite HP in Ha. apply elem_of_cons in Ha as [->|Ha]; [set_solver|].
    apply (pi_owned _ _ _ _ Hi) in Ha. set_solver.
  - intros a Ha. apply (pi_next _ _ _ _ Hi). set_solver.
Qed.

Lemma write_ok s t bs O m :
  inv O m -> arr s ∈ O -> slice_wf (m_heap m) s -> zlen bs <= cap s ->
  inv O (mkMem (write_bytes s bs (m_heap m)) (m_pool m)) /\
  (whole_buf capok (m_heap m) t -> whole_buf capok (write_bytes s bs (m_heap m)) t).
Proof.
  intros Hi Hin Hw Hlen. split.
  - destruct Hi; split; try done; cbn [m_pool m_heap].
    intros k c b Hk Hb. destruct (pi_free0 k c b Hk Hb) as ((? & ? & ?) & ?).
    split; [|done]. split; [by apply slice_wf_write|done].
  - intros (? & ? & ?). split; [by apply slice_wf_write|done].
Qed.

#[local] Instance slab_pool_spec : PoolSpec req (pool_inv p0 capok) (whole_buf capok).
Proof.
  split; eauto using Alloc_ok, Free_ok, write_ok.
  intros h s (? & ? & ?). done.
Qed.
End slab_pool.

(** A lookup in a pool of at most 256 classes finds a class that fits. *)
Lemma shape_class p s :
  pool_shape p -> zlen (classesSize p) <= 256 -> 0 <= s <= maxSize p ->
  exists k c, lookup_size p s = Ok (Z.of_nat k) /\ classes p !! k = Some c /\
    s <= c_new c <= maxSize p /\ class_of (classesSize p) s = Z.of_nat k.
Proof.
  intros Hp Hlen Hs. destruct (ps_cover _ Hp s Hs) as (z & Hz & Hle & Hpos).
  apply lookup_lt_Some in Hz as Hlt. pose proof Hz as Hn.
  exists (Z.to_nat (class_of (classesSize p) s)).
  assert ((c_new <$> classes p) !! Z.to_nat (class_of (classesSize p) s) = Some z) as Hc
    by (by rewrite (ps_new _ Hp)).
  rewrite list_lookup_fmap in Hc. apply fmap_Some in Hc as (c & Hc & ->).
  exists c. rewrite Z2Nat.id by done. split; [|split; [done|split; [|done]]].
  - rewrite (ps_lookup _ Hp s Hs). f_equal. apply wrapU_id. lia.
  - split; [done|]. pose proof (ps_max _ Hp) as Hl. rewrite last_lookup in Hl.
    eapply (ps_mono _ Hp); [|exact Hn|exact Hl]. lia.
Qed.

(** ** The pool of the gateway

    [init] of reader.go builds [NewSyncPool(1024, 65536, 4)]; the reader asks it
    for [ReaderBufSize] = 8192 bytes, the client for 4096, and [ReadFull] for
    powers of two: all sizes requested are powers of two. *)
Definition pow2 (s : Z) : Prop := exists j, 0 <= j /\ s = 2 ^ j.

Definition gate_caps : list Z := [2048; 3072; 5120; 11264; 17408; 37888; 65536].
Definition gate_cap (c : Z) : Prop := c ∈ gate_caps \/ 65536 < c.

Definition gate_sizes : list Z :=
  [2048; 3072; 4096; 5120; 8192; 11264; 14336; 17408; 22528; 27648; 32768; 37888;
   45056; 52224; 59392; 65536].

Lemma gate_pool_sizes p :
  NewSyncPool 1024 65536 4 = Some (Ok p) ->
  pool_shape p /\ maxSize p = 65536 /\ classesSize p = gate_sizes /\
  classes p = (fun size => mkClass size []) <$> classesSize p.
Proof.
  intros E. destruct (NewSyncPool_ok 1024 65536 4) as (p' & E' & Hs & Hm & Hf & (n & Hn & Hge & Hlt) & Hk);
    try lia.
  rewrite E in E'. injection E' as <-. split; [exact Hs|]. split; [exact Hm|]. split; [|exact Hf].
  assert (n = 15%nat) as ->.
  { destruct (decide (n <= 14)%nat) as [Hle|].
    - pose proof (growth_mono 1024 4 ltac:(lia) ltac:(lia) n 14 Hle) as H.
      change (growth 1024 4 14) with 58368 in H. lia.
    - destruct (decide (16 <= n)%nat); [|lia].
      specialize (Hlt 15%nat ltac:(lia)). change (growth 1024 4 15) with 65536 in Hlt. lia. }
  apply list_eq. intros i. destruct (decide (i < 16)%nat).
  - rewrite Hk by lia. do 16 (destruct i as [|i]; [reflexivity|]). lia.
  - rewrite !lookup_ge_None_2; [done| |]; [simpl; lia|lia].
Qed.

Lemma gate_lookup p s :
  NewSyncPool 1024 65536 4 = Some (Ok p) -> 0 <= s <= 65536 ->
  lookup_size p s = Ok (class_of gate_sizes s).
Proof.
  intros E Hs. destruct (gate_pool_sizes p E) as (Hp & Hm & Hsz & _).
  destruct (shape_class p s Hp) as (k & c & Hl & _ & _ & Hk); [by rewrite Hsz|lia|].
  rewrite Hl. by rewrite <- Hk, Hsz.
Qed.

(** The powers of two the table covers. *)
Definition small_pows : list Z :=
  [1; 2; 4; 8; 16; 32; 64; 128; 256; 512; 1024; 2048; 4096; 8192; 16384; 32768; 65536].

Lemma pow2_small s : pow2 s -> s <= 65536 -> s ∈ small_pows.
Proof.
  intros (j & Hj & ->) Hle.
  assert (j <= 16).
  { destruct (Z.le_gt_cases j 16); [done|]. pose proof (Z.pow_lt_mono_r 2 16 j). lia. }
  replace (2 ^ j) with (2 ^ Z.of_nat (Z.to_nat j)) by (f_equal; lia).
  assert (Z.to_nat j < 17)%nat as Hlt by lia. revert Hlt. generalize (Z.to_nat j). intros i Hi.
  do 17 (destruct i as [|i]; [apply (bool_decide_unpack _); vm_compute; exact I|]). lia.
Qed.

(** The finite check behind the policy: fresh buffers fit and their capacities
    circulate; a freed buffer fits every power of two looked up in its class. *)
Lemma gate_policy_check :
  Forall (fun s => s <= default 0 (gate_sizes !! Z.to_nat (class_of gate_sizes s)) /\
                   default 0 (gate_sizes !! Z.to_nat (class_of gate_sizes s)) ∈ gate_caps) small_pows /\
  Forall (fun c => Forall (fun s => class_of gate_sizes c <> class_of gate_sizes s \/ s <= c) small_pows)
    gate_caps.
Proof. split; apply (bool_decide_unpack _); vm_compute; exact I. Qed.

Lemma gate_policy p :
  NewSyncPool 1024 65536 4 = Some (Ok p) -> size_policy p pow2 gate_cap.
Proof.
  intros E. destruct (gate_pool_sizes p E) as (Hp & Hm & Hsz & _).
  destruct gate_policy_check as [Hnew Hfree]. rewrite Forall_forall in Hnew, Hfree.
  assert (forall s k c, 0 <= s <= 65536 -> lookup_size p s = Ok (Z.of_nat k) -> classes p !! k = Some c ->
    gate_sizes !! Z.to_nat (class_of gate_sizes s) = Some (c_new c) /\ c_new c <= maxSize p) as Hcls.
  { intros s k c Hs Hl Hc. destruct (shape_class p s Hp) as (k' & c' & Hl' & Hc' & Hle & Hk');
      [by rewrite Hsz|lia|].
    rewrite Hl in Hl'. injection Hl' as Hkk. apply Nat2Z.inj in Hkk as <-.
    rewrite Hc in Hc'. simplify_eq. rewrite Hsz in Hk'. split; [|lia].
    rewrite Hk', Nat2Z.id, <- Hsz, <- (ps_new _ Hp), list_lookup_fmap, Hc. done. }
  split.
  - intros s (j & Hj & ->). lia.
  - intros c [Hc|]; [|lia]. unfold gate_caps in Hc.
    assert (Forall (fun c => 0 < c) gate_caps) as HF by (apply (bool_decide_unpack _); done).
    rewrite Forall_forall in HF. by apply HF.
  - intros s Hs. destruct (shape_class p s Hp) as (k & c & ? & ? & _); [by rewrite Hsz|lia|]. eauto.
  - intros s k c Hr Hs Hl Hc. destruct (Hcls s k c) as [Hg Hle]; [lia|done|done|].
    specialize (Hnew s (pow2_small s Hr ltac:(lia))). cbn beta in Hnew. rewrite Hg in Hnew. cbn [from_option id] in Hnew.
    destruct Hnew. split; [lia|by left].
  - intros c s k [Hc|] Hr Hcm Hsm Hlc Hls; [|lia].
    assert (0 <= c). { assert (Forall (fun c => 0 < c) gate_caps) as HF by (apply (bool_decide_unpack _); done).
      rewrite Forall_forall in HF. specialize (HF c Hc). simpl in HF. lia. }
    assert (0 <= s) by (destruct Hr as (j & ? & ->); lia).
    rewrite (gate_lookup p _ E) in Hlc by lia. rewrite (gate_lookup p _ E) in Hls by lia. simplify_eq.
    specialize (Hfree c Hc). cbn beta in Hfree. rewrite Forall_forall in Hfree.
    destruct (Hfree s (pow2_small s Hr ltac:(lia))); [congruence|done].
  - intros s Hr Hs. right. lia.
Qed.

(** ** The operations' equations *)

Lemma Alloc_new p h size k c :
  0 < size <= maxSize p -> lookup_size p size = Ok k -> classes p !! Z.to_nat k = Some c ->
  Alloc None size (mkMem h p) =
    (reslice (fst (make_bytes (c_new c) h)) 0 size, mkMem (snd (make_bytes (c_new c) h)) p).
Proof.
  intros Hs Hl Hc. cbv [Alloc gets lift make_slice mbind go_bind]. cbn [m_pool m_heap].
  destruct (Z.leb_spec size 0); [lia|]. destruct (Z.leb_spec size (maxSize p)); [|lia].
  rewrite Hl. unfold pool_Get. cbn [m_pool m_heap]. by rewrite Hc.
Qed.

Lemma Alloc_reuse p h size k c i b :
  0 < size <= maxSize p -> lookup_size p size = Ok k -> classes p !! Z.to_nat k = Some c ->
  c_free c !! i = Some b ->
  Alloc (Some i) size (mkMem h p) =
    (reslice b 0 size, mkMem h (set_free p k (mkClass (c_new c) (delete i (c_free c))))).
Proof.
  intros Hs Hl Hc Hb. cbv [Alloc gets lift make_slice mbind go_bind]. cbn [m_pool m_heap].
  destruct (Z.leb_spec size 0); [lia|]. destruct (Z.leb_spec size (maxSize p)); [|lia].
  rewrite Hl. unfold pool_Get. cbn [m_pool m_heap]. rewrite Hc. cbn [mbind option_bind]. by rewrite Hb.
Qed.

Lemma Free_put p h s k c :
  0 <= cap s <= maxSize p -> lookup_size p (cap s) = Ok k -> classes p !! Z.to_nat k = Some c ->
  Free (Some s) (mkMem h p) =
    (Ok tt, mkMem h (set_free p k (mkClass (c_new c)
       (mkSlice (arr s) (off s + 0) (cap s - 0) (cap s - 0) :: c_free c)))).
Proof.
  intros Hs Hl Hc. cbv [Free gets lift mbind go_bind]. cbn [m_pool m_heap].
  destruct (Z.leb_spec (cap s) (maxSize p)); [|lia].
  rewrite Hl, reslice_ok by lia. unfold pool_Put. cbn [m_pool m_heap]. by rewrite Hc.
Qed.

(** ** Histories of pool operations *)

(** A client's calls: [OpAlloc ch size] calls [Alloc], [OpFree i] frees the
    [i]-th live buffer. *)
Inductive pool_op := OpAlloc (ch : option nat) (size : Z) | OpFree (i : nat).

Definition run_op (o : pool_op) (st : mem_state * list slice) : result (mem_state * list slice) :=
  match o with
  | OpAlloc ch size =>
      match Alloc ch size st.1 with
      | (Ok b, m) => Ok (m, b :: st.2) | (Err e, _) => Err e | (Panic q, _) => Panic q
      end
  | OpFree i =>
      match st.2 !! i with
      | None => Ok st
      | Some b =>
          match Free (Some b) st.1 with
          | (Ok _, m) => Ok (m, delete i st.2) | (Err e, _) => Err e | (Panic q, _) => Panic q
          end
      end
  end.

Fixpoint run_ops (ops : list pool_op) (st : mem_state * list slice) : result (mem_state * list slice) :=
  match ops with
  | [] => Ok st
  | o :: ops => st' ← run_op o st; run_ops ops st'
  end.

Definition op_sizes (P : Z -> Prop) (o : pool_op) : Prop :=
  match o with OpAlloc _ size => P size | OpFree _ => True end.

Definition start (p : SyncPool) : mem_state * list slice := (mkMem empty_heap p, []).

(** The client's view: its live buffers are whole buffers in distinct arrays. *)
Definition live_ok (p0 : SyncPool) (capok : Z -> Prop) (st : mem_state * list slice) : Prop :=
  pool_inv p0 capok (list_to_set (arr <$> st.2)) st.1 /\
  NoDup (arr <$> st.2) /\ Forall (whole_buf capok (m_heap st.1)) st.2.

Lemma start_ok p capok :
  classes p = (fun size => mkClass size []) <$> classesSize p -> live_ok p capok (start p).
Proof.
  intros Hc. split; [|split; constructor].
  assert (free_arrs p = []) as Hf.
  { unfold free_arrs. rewrite Hc. generalize (classesSize p). intros l.
    induction l as [|z l IH]; [done|exact IH]. }
  split; cbn [start fst m_pool m_heap].
  - apply same_shape_refl.
  - intros k c b Hk Hb. rewrite Hc, list_lookup_fmap in Hk.
    apply fmap_Some in Hk as (? & _ & ->). by apply not_elem_of_nil in Hb.
  - rewrite Hf. constructor.
  - rewrite Hf. intros a Ha. by apply not_elem_of_nil in Ha.
  - intros a Ha. by apply not_elem_of_empty in Ha.
Qed.

Lemma run_op_ok p0 req capok o st :
  size_policy p0 req capok -> live_ok p0 capok st -> op_sizes req o ->
  exists st', run_op o st = Ok st' /\ live_ok p0 capok st'.
Proof.
  intros Hpol (Hi & Hnd & Hall) Ho. destruct st as [m live]. cbn [fst snd] in *. destruct o as [ch size|i].
  - destruct (Alloc_ok p0 req capok Hpol ch size _ m Hi Ho) as (b & m' & E & Hi' & Hnin & _ & Hb & Hfr & _).
    cbn [run_op fst snd]. rewrite E. eexists. split; [done|]. split; [|split]; cbn [fst snd].
    + by rewrite fmap_cons.
    + rewrite fmap_cons. apply NoDup_cons. split; [|done].
      by rewrite elem_of_list_to_set in Hnin.
    + constructor; [done|]. apply Forall_forall. intros t Ht. rewrite Forall_forall in Hall.
      apply Hfr; [by apply Hall|]. apply elem_of_list_to_set. apply list_elem_of_fmap. eauto.
  - cbn [run_op fst snd]. destruct (live !! i) as [b|] eqn:Hb; [|by eexists].
    apply list_elem_of_lookup_2 in Hb as Hin.
    destruct (Free_ok p0 req capok Hpol b _ m Hi) as (m' & E & Hi' & Hh).
    { apply elem_of_list_to_set, list_elem_of_fmap. eauto. }
    { rewrite Forall_forall in Hall. by apply Hall. }
    rewrite E. eexists. split; [done|].
    pose proof (delete_Permutation _ _ _ Hb) as HP.
    rewrite HP, fmap_cons in Hnd. apply NoDup_cons in Hnd as [Hnb Hnd].
    split; [|split]; cbn [fst snd]; [|done|].
    + eapply inv_weaken; [exact Hi'|]. intros a Ha.
      rewrite elem_of_list_to_set in Ha. rewrite elem_of_difference, elem_of_list_to_set, not_elem_of_singleton.
      split; [rewrite HP, fmap_cons; by right|]. by intros ->.
    + rewrite Hh. rewrite HP in Hall. by inversion Hall.
Qed.

Lemma run_ops_ok p0 req capok ops st :
  size_policy p0 req capok -> live_ok p0 capok st -> Forall (op_sizes req) ops ->
  exists st', run_ops ops st = Ok st' /\ live_ok p0 capok st'.
Proof.
  intros Hpol Hst Hops. revert st Hst. induction Hops as [|o ops Ho Hops IH]; intros st Hst.
  - eauto.
  - destruct (run_op_ok p0 req capok o st Hpol Hst Ho) as (st' & E & Hst').
    cbn [run_ops]. rewrite E. cbn [mbind result_bind]. by apply IH.
Qed.

(** ** Properties *)

(** With the largest [int] as [maxSize] no chunk ends the loop. *)
Lemma count_loop_forever fuel minSize factor chunkSize curSize n : chunkSize <= 2 ^ 63 - 1 ->
  count_loop fuel minSize (2 ^ 63 - 1) factor chunkSize curSize n = None.
Proof.
  revert chunkSize curSize n. induction fuel as [|f IH]; intros c cur n Hc; cbn [count_loop];
    destruct (Z.leb_spec c (2 ^ 63 - 1)); try lia; [done|].
  apply IH. unfold next_chunk. pose proof (wrapS_range 64 (c + int64 (minSize * int64 (int64 (int64 (n + 1) ÷ factor * 2) + 1))) ltac:(lia)). lia.
Qed.

(** C34: [NewSyncPool] on 64-bit [int]s.  On invalid parameters it returns
    [ErrInvalidSize].  On valid ones below [2^40] (a terabyte) nothing overflows,
    the tables fit the address space and it returns a pool whose [k]-th class
    has the size [min(growth k + minSize, maxSize)] ([growth] adds up the code's
    increments), whose last class is exactly [maxSize], and whose lookup table
    sends every size to the (8-bit) number of non-last classes not larger than it.  (The
    sizes are not those pool_test.go expects: the classes start one increment
    late.)  With the largest [int] as [maxSize] the counting loop never ends,
    whatever the other two: its counter wraps around. *)
Theorem NewSyncPool_correct (minSize maxSize factor : Z) :
  (minSize <= 0 \/ maxSize < minSize \/ factor <= 0 ->
     NewSyncPool minSize maxSize factor = Some (Err ErrInvalidSize)) /\
  (0 < minSize <= maxSize -> maxSize < 2 ^ 40 -> 0 < factor ->
     exists p, NewSyncPool minSize maxSize factor = Some (Ok p) /\
       (forall k, (k < length (classesSize p))%nat ->
          classesSize p !! k = Some (class_size minSize maxSize factor k)) /\
       list.last (classesSize p) = Some maxSize /\
       (forall s, 0 <= s <= maxSize ->
          lookup_size p s = Ok (uint8 (class_of (classesSize p) s)))) /\
  (0 < minSize <= maxSize -> maxSize = 2 ^ 63 - 1 -> 0 < factor ->
     forall fuel, NewSyncPool_fuel fuel minSize maxSize factor = None).
Proof.
  rewrite NewSyncPool_unseal. split; [|split].
  - intros H. unfold NewSyncPool_def, NewSyncPool_fuel. zcase; done || lia.
  - rewrite <- NewSyncPool_unseal. intros Hm Hb Hf. destruct (NewSyncPool_ok minSize maxSize factor) as (p & E & Hp & Hmax & _ & _ & Hk);
      try lia.
    exists p. pose proof (ps_max _ Hp). pose proof (ps_lookup _ Hp). rewrite Hmax in *. auto.
  - intros Hm -> Hf fuel. unfold NewSyncPool_fuel. zcase; try lia. cbn [orb]. by rewrite count_loop_forever by lia.
Qed.

(** With at most 256 size classes, [Alloc] on a pool whose chosen class
    hands out a [New] buffer returns a slice of exactly the requested length,
    backed by enough capacity, for every size, zero and negative ones giving an
    empty slice. *)
Theorem Alloc_fresh_len (p : SyncPool) (h : heap) (size : Z) :
  pool_shape p -> zlen (classesSize p) <= 256 ->
  exists s m', Alloc None size (mkMem h p) = (Ok s, m') /\
    len s = Z.max 0 size /\ len s <= cap s /\ m_pool m' = p.
Proof.
  intros Hp Hlen. cbv [Alloc gets lift make_slice mbind go_bind]. cbn [m_pool m_heap].
  destruct (Z.leb_spec size 0).
  { do 2 eexists. split; [done|]. split_and!; simpl; lia || done. }
  destruct (Z.leb_spec size (maxSize p)).
  - destruct (shape_class p size Hp Hlen) as (k & c & Hl & Hc & Hle & _); [lia|].
    rewrite Hl. unfold pool_Get. cbn [m_pool m_heap]. rewrite Nat2Z.id, Hc. cbn [mbind option_bind].
    unfold make_bytes. rewrite reslice_ok by (cbn [cap]; lia).
    do 2 eexists. split; [done|]. split_and!; simpl; lia || done.
  - do 2 eexists. split; [done|]. split_and!; simpl; lia || done.
Qed.

(** C35: The gateway's pool, [NewSyncPool(1024, 65536, 4)], never panics: for
    every sequence of [Alloc]s of power-of-two sizes (the only sizes the reader
    and the client request) and [Free]s of live buffers, whatever [sync.Pool.Get]
    picks, every operation succeeds and the live buffers lie in distinct arrays. *)
Theorem gate_pool_never_panics :
  exists p, NewSyncPool 1024 65536 4 = Some (Ok p) /\
    forall ops, Forall (op_sizes pow2) ops ->
      exists m live, run_ops ops (start p) = Ok (m, live) /\
        NoDup (arr <$> live) /\ Forall (slice_wf (m_heap m)) live.
Proof.
  destruct (NewSyncPool_ok 1024 65536 4) as (p & E & _ & _ & Hc & _); try lia.
  exists p. split; [done|]. intros ops Hops.
  destruct (run_ops_ok p pow2 gate_cap ops (start p)) as ([m live] & Er & _ & Hnd & Hall).
  - by apply gate_policy.
  - by apply start_ok.
  - done.
  - exists m, live. split; [done|]. split; [done|].
    eapply Forall_impl; [exact Hall|]. by intros s (? & _).
Qed.

(** Outside power-of-two sizes the same pool can panic: a buffer allocated
    for 8000 bytes has capacity 8192, the table files that capacity one class
    too high (the ranges of neighbouring classes overlap at the boundary), and a
    later request for 9000 bytes slices the recycled buffer out of range. *)
Theorem alloc_after_free_panics :
  exists p, NewSyncPool 1024 65536 4 = Some (Ok p) /\
    run_ops [OpAlloc None 8000; OpFree 0; OpAlloc (Some 0%nat) 9000] (start p) = Panic SliceBounds.
Proof.
  destruct (NewSyncPool_ok 1024 65536 4) as (p & E & _); try lia.
  exists p. split; [done|]. destruct (gate_pool_sizes p E) as (_ & Hm & Hsz & Hc).
  pose proof (gate_lookup p 8000 E ltac:(lia)) as H1. pose proof (gate_lookup p 8192 E ltac:(lia)) as H2.
  pose proof (gate_lookup p 9000 E ltac:(lia)) as H3.
  change (class_of gate_sizes 8000) with 4 in H1. change (class_of gate_sizes 8192) with 5 in H2.
  change (class_of gate_sizes 9000) with 5 in H3.
  assert (forall k z, gate_sizes !! k = Some z -> classes p !! k = Some (mkClass z [])) as Hk.
  { intros k z Hz. by rewrite Hc, Hsz, list_lookup_fmap, Hz. }
  cbn [run_ops run_op start fst snd].
  rewrite (Alloc_new p empty_heap 8000 4 (mkClass 8192 [])) by (done || lia || by apply Hk).
  rewrite reslice_ok by (cbn [make_bytes fst c_new cap]; lia). cbn [mbind result_bind run_op fst snd lookup list_lookup].
  rewrite (Free_put p _ _ 5 (mkClass 11264 [])) by (cbn [make_bytes fst cap c_new]; done || lia || by apply Hk).
  cbn [mbind result_bind run_op run_ops fst snd delete list_delete].
  lazymatch goal with
  | |- context [set_free p 5 ?c] => erewrite (Alloc_reuse (set_free p 5 c) _ 9000 5 c 0%nat)
  end; [| |exact H3| |reflexivity].
  - rewrite reslice_panics by (cbn [make_bytes fst c_new cap]; lia). reflexivity.
  - cbn [set_free maxSize]. lia.
  - cbn [set_free classes]. apply list_lookup_insert_eq. apply lookup_lt_is_Some.
    eexists. by apply (Hk 5%nat).
Qed.

Lemma growth_flat minSize factor k :
  0 < factor -> Z.of_nat k < factor -> growth minSize factor k = minSize * (Z.of_nat k + 1).
Proof.
  intros Hf. induction k as [|k IH]; intros Hk; [simpl; lia|].
  cbn [growth]. rewrite IH, Z.quot_small by lia. lia.
Qed.

(** With more than 256 classes the 8-bit table wraps around: the pool
    [NewSyncPool(1024, 1<<20, 1024)] has 1024 classes, a request for 512 KiB
    belongs to class 511, is sent to class 255, whose fresh buffer is smaller
    than the request, and [Alloc] panics on an untouched pool. *)
Theorem uint8_classes_wrap :
  exists p, NewSyncPool 1024 1048576 1024 = Some (Ok p) /\
    length (classesSize p) = 1024%nat /\
    class_of (classesSize p) 524288 = 511 /\ lookup_size p 524288 = Ok 255 /\
    fst (Alloc None 524288 (mkMem empty_heap p)) = Panic SliceBounds.
Proof.
  destruct (NewSyncPool_ok 1024 1048576 1024) as (p & E & Hp & Hm & Hc & (n & Hn & Hge & Hlt) & Hk); try lia.
  exists p. split; [done|].
  assert (n = 1023%nat) as ->.
  { destruct (decide (n < 1023)%nat).
    - rewrite growth_flat in Hge by lia. lia.
    - destruct (decide (1023 < n)%nat); [|lia]. specialize (Hlt 1023%nat ltac:(lia)).
      rewrite growth_flat in Hlt by lia. lia. }
  assert (forall k, (k < 1023)%nat -> class_size 1024 1048576 1024 k = 1024 * (Z.of_nat k + 2)) as Hcs.
  { intros k Hk'. unfold class_size. rewrite growth_flat by lia. lia. }
  assert (classesSize p = map (class_size 1024 1048576 1024) (seq 0 (S 1023))) as Hsz.
  { apply list_eq. intros i. destruct (decide (i < 1024)%nat).
    - rewrite Hk, csizes_lookup by lia. done.
    - rewrite !lookup_ge_None_2; [done| |lia]. rewrite length_map, length_seq. lia. }
  assert (class_of (classesSize p) 524288 = 511) as Hcl.
  { rewrite Hsz. change 511 with (Z.of_nat 511). apply class_of_at; try lia;
      right; rewrite Hcs by lia; lia. }
  assert (lookup_size p 524288 = Ok 255) as Hl.
  { rewrite (ps_lookup _ Hp) by lia. by rewrite Hcl. }
  split; [done|]. split; [done|]. split; [done|].
  rewrite (Alloc_new p empty_heap 524288 255 (mkClass (1024 * 257) [])); [|lia|done|].
  - rewrite reslice_panics by (cbn [make_bytes fst c_new cap]; lia). done.
  - rewrite Hc, list_lookup_fmap, Hk, Hcs by lia. done.
Qed.

(** ** Witnesses *)

Lemma NewSyncPool_correct_witness :
  NewSyncPool 0 1024 4 = Some (Err ErrInvalidSize) /\
  (exists p, NewSyncPool 2 8 1 = Some (Ok p) /\ list.last (classesSize p) = Some 8) /\
  NewSyncPool_fuel 1000 1 (2 ^ 63 - 1) 1 = None.
Proof.
  split; [|split].
  - apply (proj1 (NewSyncPool_correct 0 1024 4)). left. lia.
  - destruct (proj1 (proj2 (NewSyncPool_correct 2 8 1))) as (p & E & _ & H & _); [lia|lia|lia|]. by exists p.
  - apply (proj2 (proj2 (NewSyncPool_correct 1 (2 ^ 63 - 1) 1))); [lia|done|lia].
Defined.

Lemma Alloc_fresh_len_witness :
  exists p s m', NewSyncPool 2 8 1 = Some (Ok p) /\
    Alloc None 5 (mkMem empty_heap p) = (Ok s, m') /\ len s = 5.
Proof.
  destruct (NewSyncPool_ok 2 8 1) as (p & E & Hp & _); [lia|lia|lia|lia|].
  assert (zlen (classesSize p) <= 256) as Hlen.
  { rewrite NewSyncPool_unseal in E. vm_compute in E. by injection E as <-. }
  destruct (Alloc_fresh_len p empty_heap 5 Hp Hlen) as (s & m' & Ea & Hs & _).
  by exists p, s, m'.
Defined.

Lemma gate_pool_witness :
  exists p m live, NewSyncPool 1024 65536 4 = Some (Ok p) /\
    run_ops [OpAlloc None 8192; OpAlloc None 256; OpFree 0; OpAlloc (Some 0%nat) 2048] (start p) = Ok (m, live).
Proof.
  destruct gate_pool_never_panics as (p & E & H).
  destruct (H [OpAlloc None 8192; OpAlloc None 256; OpFree 0; OpAlloc (Some 0%nat) 2048]) as (m & live & Hr & _).
  - repeat constructor; simpl; [exists 13|exists 8|exists 11]; split; lia || done.
  - by exists p, m, live.
Defined.
