(* ===== verification/BufReader.v ===== *)
(** The pooled buffered reader of src/pkg/net/internal/bufreader/reader.go.

    The connection is the sequence of what its [Read] calls deliver; the
    reader's buffer is an array of the shared heap, taken from and returned to
    the slab pool.  The main theorem is a refinement: whatever the chunking of
    the connection and whatever buffers the pool recycles, [ReadFull] takes the
    next [n] bytes of the byte stream. *)
From S2P Require Import Prelude Memory BufPool.

Definition EOF : error := ENew "EOF" [].
Definition ErrUnexpectedEOF : error := ENew "unexpected EOF" [].
Definition ErrShortBuffer : error := ENew "short buffer" [].
Definition ErrBufReaderAlreadyClosed : error := ENew "bufreader.Reader already closed" [].
Definition ErrBufReaderSize : error := ENew "bufreader.Reader size error" [].

(** ** io.Reader

    What an [io.Reader] will deliver: chunks of data and failures, in order;
    past the end every read is [EOF].  [Read(p)] takes the bytes of the first
    chunk that fit into [p]. *)
Inductive revent := RData (bs : list Z) | RFail (e : error).

(** The loop of [io.ReadAtLeast(r, buf, min)] with [space = len(buf)] and the
    bytes [got] so far: [for n < min && err == nil { nn, err = r.Read(buf[n:]) }]. *)
Fixpoint read_loop (evs : list revent) (space min : Z) (got : list Z)
    : list Z * option error * list revent :=
  if min <=? zlen got then (got, None, evs)
  else match evs with
  | [] => (got, Some EOF, [])
  | RFail e :: evs' => (got, Some e, evs')
  | RData bs :: evs' =>
      let room := space - zlen got in
      if zlen bs <=? room then read_loop evs' space min (got ++ bs)
      else (got ++ ztake room bs, None, RData (zdrop room bs) :: evs')
  end.

(** [io.ReadAtLeast]: the bytes put into the buffer, the error, the rest. *)
Definition io_ReadAtLeast (evs : list revent) (space min : Z)
    : list Z * option error * list revent :=
  if space <? min then ([], Some ErrShortBuffer, evs)
  else
    let '(got, err, evs') := read_loop evs space min [] in
    match err with
    | Some e => (got, Some (if (0 <? zlen got) && bool_decide (e = EOF) then ErrUnexpectedEOF else e), evs')
    | None => (got, None, evs')
    end.

(** ** The reader *)

Record Reader := mkReader {
  buf : option slice;  (** [None] is nil, after [Close] *)
  w : Z;
  r : Z;
  cleanedUp : bool;
}.

(** A reader's world: the shared memory, the reader, its connection. *)
Record rstate := mkR { rs_mem : mem_state; rs_rd : Reader; rs_conn : list revent }.

Definition buf_len (rd : Reader) : Z := match buf rd with Some b => len b | None => 0 end.

(** [r.buf[lo:hi]]; slicing nil is only in range at [0:0]. *)
Definition buf_slice (rd : Reader) (lo hi : Z) : result (option slice) :=
  match buf rd with
  | Some b => s ← reslice b lo hi; Ok (Some s)
  | None => if (lo =? 0) && (hi =? 0) then Ok None else Panic SliceBounds
  end.

Definition unreadBytes (rd : Reader) : Z := w rd - r rd.
Definition capLeft (rd : Reader) : Z := buf_len rd - w rd.

Definition set_rw (rd : Reader) (r' w' : Z) : Reader := mkReader (buf rd) w' r' (cleanedUp rd).

Definition put_rd (rd : Reader) : go rstate unit :=
  modify (fun st => mkR (rs_mem st) rd (rs_conn st)).

(** Runs a pool operation on the shared memory. *)
Definition on_mem {A} (f : go mem_state A) : go rstate A := fun st =>
  let '(res, m) := f (rs_mem st) in (res, mkR m (rs_rd st) (rs_conn st)).

Definition opt_len (s : option slice) : Z := match s with Some s => len s | None => 0 end.

(** [copy(dst, src)] on the shared heap. *)
Definition copy_op (dst src : option slice) : go rstate Z := fun st =>
  match dst, src with
  | Some d, Some s =>
      let '(n, h) := copy_bytes d s (m_heap (rs_mem st)) in
      (Ok n, mkR (mkMem h (m_pool (rs_mem st))) (rs_rd st) (rs_conn st))
  | _, _ => (Ok 0, st)
  end.

(** [io.ReadAtLeast(r.reader, dst, bytes)] into the heap. *)
Definition read_into (dst : option slice) (bytes : Z) : go rstate Z := fun st =>
  let '(bs, err, evs') := io_ReadAtLeast (rs_conn st) (opt_len dst) bytes in
  let h := match dst with
           | Some d => write_bytes d bs (m_heap (rs_mem st))
           | None => m_heap (rs_mem st)
           end in
  let st' := mkR (mkMem h (m_pool (rs_mem st))) (rs_rd st) evs' in
  match err with Some e => (Err e, st') | None => (Ok (zlen bs), st') end.

Definition readAtLeast (bytes : Z) : go rstate unit :=
  rd ← gets rs_rd;
  dst ← lift (buf_slice rd (w rd) (buf_len rd));
  n ← read_into dst bytes;
  put_rd (set_rw rd (r rd) (w rd + n)).

(** [nextPowerOfTwo], on 64-bit [int]s. *)
Definition nextPowerOfTwo (n : Z) : Z :=
  if n <=? 1 then 1
  else
    let n := n - 1 in
    let n := Z.lor n (Z.shiftr n 1) in
    let n := Z.lor n (Z.shiftr n 2) in
    let n := Z.lor n (Z.shiftr n 4) in
    let n := Z.lor n (Z.shiftr n 8) in
    let n := Z.lor n (Z.shiftr n 16) in
    let n := Z.lor n (Z.shiftr n 32) in
    int64 (n + 1).

(** [r.buf[r.r]; r.r++] *)
Definition take_byte : go rstate Z :=
  rd ← gets rs_rd;
  h ← gets (fun st => m_heap (rs_mem st));
  match buf rd with
  | Some b =>
      if (0 <=? r rd) && (r rd <? len b) then
        put_rd (set_rw rd (r rd + 1) (w rd)) ;;
        mret (nth (Z.to_nat (off b + r rd)) (array h (arr b)) 0)
      else panics IndexRange
  | None => panics IndexRange
  end.

Definition ReadByte : go rstate Z :=
  rd ← gets rs_rd;
  if 0 <? unreadBytes rd then take_byte
  else if (capLeft rd =? 0) && cleanedUp rd then throw ErrBufReaderAlreadyClosed
  else
    (if capLeft rd =? 0 then put_rd (set_rw rd 0 0) else mret tt) ;;
    readAtLeast 1 ;;
    take_byte.

(** The grow-or-compact step of [ReadFull]; [ch] is the pool's choice. *)
Definition make_room (ch : option nat) (n : Z) : go rstate unit :=
  rd ← gets rs_rd;
  let needed := n + unreadBytes rd in
  if buf_len rd <? needed then
    if cleanedUp rd then throw ErrBufReaderAlreadyClosed
    else
      let newSize := nextPowerOfTwo (needed + 128) in
      newBuf ← on_mem (Alloc ch newSize);
      src ← lift (buf_slice rd (r rd) (w rd));
      w' ← copy_op (Some newBuf) src;
      on_mem (Free (buf rd)) ;;
      put_rd (mkReader (Some newBuf) w' 0 (cleanedUp rd))
  else
    src ← lift (buf_slice rd (r rd) (w rd));
    w' ← copy_op (buf rd) src;
    put_rd (set_rw rd 0 w').

(** [result := r.buf[r.r : r.r+n]; r.r += n] *)
Definition take_slice (n : Z) : go rstate (option slice) :=
  rd ← gets rs_rd;
  s ← lift (buf_slice rd (r rd) (r rd + n));
  put_rd (set_rw rd (r rd + n) (w rd)) ;;
  mret s.

Definition ReadFull (ch : option nat) (n : Z) : go rstate (option slice) :=
  if n <? 0 then throw ErrBufReaderSize
  else
    rd ← gets rs_rd;
    if n <=? unreadBytes rd then take_slice n
    else
      make_room ch n ;;
      rd' ← gets rs_rd;
      readAtLeast (n - unreadBytes rd') ;;
      take_slice n.

Definition NewReader (ch : option nat) (conn : list revent) (initialSize : Z) (m : mem_state)
    : result rstate :=
  match Alloc ch initialSize m with
  | (Ok b, m') => Ok (mkR m' (mkReader (Some b) 0 0 false) conn)
  | (Err e, _) => Err e
  | (Panic p, _) => Panic p
  end.

Definition Close : go rstate unit :=
  rd ← gets rs_rd;
  if cleanedUp rd then throw ErrBufReaderAlreadyClosed
  else
    put_rd (mkReader (buf rd) (w rd) (r rd) true) ;;
    on_mem (Free (buf rd)) ;;
    put_rd (mkReader None 0 0 true).

(** The package variable [pool] of reader.go: [init] builds the default pool,
    [InitReaderPool] assigns the result of [NewSyncPool] even when it failed
    (the pool is then nil). *)
Definition init_pool : option (result SyncPool) := NewSyncPool 1024 65536 4.

Definition InitReaderPool (min max factor : Z) : option (option SyncPool * option error) :=
  res ← NewSyncPool min max factor;
  match res with
  | Ok p => Some (Some p, None)
  | Err e => Some (None, Some e)
  | Panic _ => None
  end.

(** ** nextPowerOfTwo *)

(** [x] has its top bit at [k] and the [m] highest positions up to it set. *)
Definition smeared (k m x : Z) : Prop :=
  0 <= x /\ (forall i, k < i -> Z.testbit x i = false) /\
  (forall i, 0 <= i -> k - m < i <= k -> Z.testbit x i = true).

Lemma smear_start n : 0 < n -> smeared (Z.log2 n) 1 n.
Proof.
  intros Hn. split; [lia|]. split.
  - intros i Hi. apply Z.bits_above_log2; lia.
  - intros i _ Hi. replace i with (Z.log2 n) by lia. by apply Z.bit_log2.
Qed.

Lemma smear_step k m x :
  0 <= m -> smeared k m x -> smeared k (2 * m) (Z.lor x (Z.shiftr x m)).
Proof.
  intros Hm (Hx & Hhi & Hlo). split; [|split].
  - apply Z.lor_nonneg. split; [done|]. by apply Z.shiftr_nonneg.
  - intros i Hi. destruct (Z.lt_ge_cases i 0); [by apply Z.testbit_neg_r|].
    rewrite Z.lor_spec, Z.shiftr_spec, !Hhi by lia. done.
  - intros i Hi Hk. rewrite Z.lor_spec, Z.shiftr_spec by lia.
    destruct (Z.le_gt_cases i (k - m)).
    + rewrite (Hlo (i + m)) by lia. apply orb_true_r.
    + rewrite (Hlo i) by lia. done.
Qed.

Lemma smeared_ones k m x : 0 <= k -> k < m -> smeared k m x -> x = 2 ^ (k + 1) - 1.
Proof.
  intros Hk Hm (Hx & Hhi & Hlo).
  transitivity (Z.ones (k + 1)); [|rewrite Z.ones_equiv; lia].
  apply Z.bits_inj'. intros i Hi. rewrite Z.testbit_ones_nonneg by lia.
  destruct (Z.ltb_spec i (k + 1)); [apply Hlo; lia|apply Hhi; lia].
Qed.

Lemma nextPowerOfTwo_int64 n :
  1 < n < 2 ^ 63 -> nextPowerOfTwo n = int64 (2 ^ (Z.log2 (n - 1) + 1)).
Proof.
  intros Hn. unfold nextPowerOfTwo. destruct (Z.leb_spec n 1); [lia|].
  set (k := Z.log2 (n - 1)).
  assert (0 <= k <= 62) as Hk.
  { split; [apply Z.log2_nonneg|]. subst k.
    assert (Z.log2 (n - 1) < 63); [|lia]. apply Z.log2_lt_pow2; lia. }
  pose proof (smear_start (n - 1) ltac:(lia)) as S0. fold k in S0.
  do 6 (apply smear_step in S0; [|lia]).
  change (2 * 1) with 2 in S0. change (2 * 2) with 4 in S0. change (2 * 4) with 8 in S0.
  change (2 * 8) with 16 in S0. change (2 * 16) with 32 in S0.
  apply smeared_ones in S0; [|lia|lia]. cbv zeta. rewrite S0. f_equal. lia.
Qed.

Lemma nextPowerOfTwo_log2 n :
  1 < n <= 2 ^ 62 -> nextPowerOfTwo n = 2 ^ (Z.log2 (n - 1) + 1).
Proof.
  intros Hn. rewrite nextPowerOfTwo_int64 by lia. pose proof (Z.log2_nonneg (n - 1)).
  assert (Z.log2 (n - 1) < 62) by (apply Z.log2_lt_pow2; lia).
  assert (2 ^ (Z.log2 (n - 1) + 1) <= 2 ^ 62) by (apply Z.pow_le_mono_r; lia).
  apply wrapS_id; [lia|]. change (2 ^ (64 - 1)) with (2 * 2 ^ 62). lia.
Qed.

Lemma nextPowerOfTwo_1 n : n <= 1 -> nextPowerOfTwo n = 1.
Proof. intros H. unfold nextPowerOfTwo. destruct (Z.leb_spec n 1); [done|lia]. Qed.

Lemma nextPowerOfTwo_ge (n : Z) : n <= 2 ^ 62 -> pow2 (nextPowerOfTwo n) /\ n <= nextPowerOfTwo n.
Proof.
  intros Hn. destruct (Z.le_gt_cases n 1) as [H1|H1].
  - rewrite nextPowerOfTwo_1 by done. split; [by exists 0|done].
  - rewrite nextPowerOfTwo_log2 by lia. pose proof (Z.log2_nonneg (n - 1)).
    pose proof (Z.log2_spec (n - 1) ltac:(lia)) as [_ Hhi]. rewrite Z.add_1_r in *.
    split; [exists (Z.succ (Z.log2 (n - 1))); split; [lia|done]|lia].
Qed.

(** C28: The bit-smearing [nextPowerOfTwo] computes, on every 64-bit [int], the
    power of two with the exponent [Z.log2_up n], truncated to the width of an
    [int]: up to [2^62] that is the least power of two not below [n], and above
    [2^62] it overflows to the least [int]. *)
Theorem nextPowerOfTwo_log2_up (n : Z) : n < 2 ^ 63 ->
  nextPowerOfTwo n = int64 (2 ^ Z.log2_up n) /\
  (n <= 2 ^ 62 -> n <= nextPowerOfTwo n /\ forall m, pow2 m -> n <= m -> nextPowerOfTwo n <= m) /\
  (2 ^ 62 < n -> nextPowerOfTwo n = - 2 ^ 63).
Proof.
  intros Hn. split; [|split].
  - destruct (Z.le_gt_cases n 1) as [H1|H1].
    + rewrite nextPowerOfTwo_1, Z.log2_up_eqn0 by done. done.
    + rewrite nextPowerOfTwo_int64, Z.log2_up_eqn by lia. done.
  - intros Hm. split; [by apply nextPowerOfTwo_ge|]. intros m (j & Hj & ->) Hle.
    destruct (Z.le_gt_cases n 1) as [H1|H1]; [rewrite nextPowerOfTwo_1 by done; lia|].
    rewrite nextPowerOfTwo_log2, Z.add_1_r by lia. pose proof (Z.log2_spec (n - 1) ltac:(lia)) as [Hlo _].
    apply Z.pow_le_mono_r; [lia|]. apply Z.le_succ_l. apply (Z.pow_lt_mono_r_iff 2); lia.
  - intros Hm. rewrite nextPowerOfTwo_int64 by lia.
    replace (Z.log2 (n - 1)) with 62; [done|]. symmetry. apply Z.log2_unique; lia.
Qed.

(** ** The byte stream of a connection *)

(** The data delivered before the first failure, and how it ends. *)
Fixpoint stream (evs : list revent) : list Z :=
  match evs with
  | RData bs :: evs' => bs ++ stream evs'
  | _ => []
  end.

Fixpoint stream_end (evs : list revent) : error :=
  match evs with
  | [] => EOF
  | RFail e :: _ => e
  | RData _ :: evs' => stream_end evs'
  end.

(** Enough data ahead: the loop stops without error, within the buffer, having
    moved bytes from the stream into the buffer in order. *)
Lemma read_loop_enough evs space min got :
  min <= space -> zlen got <= space -> min <= zlen (got ++ stream evs) ->
  exists got' evs', read_loop evs space min got = (got', None, evs') /\
    got' ++ stream evs' = got ++ stream evs /\ min <= zlen got' <= space.
Proof.
  intros Hms. revert got. induction evs as [|ev evs IH]; intros got Hgot Hen; cbn [read_loop].
  - cbn [stream] in Hen. rewrite app_nil_r in Hen.
    destruct (Z.leb_spec min (zlen got)); [|lia]. do 2 eexists. split; [done|]. split; [done|lia].
  - destruct (Z.leb_spec min (zlen got)) as [|Hlt].
    { do 2 eexists. split; [done|]. split; [done|lia]. }
    destruct ev as [bs|e].
    + destruct (Z.leb_spec (zlen bs) (space - zlen got)).
      * destruct (IH (got ++ bs)) as (got' & evs' & E & Hst & Hlen).
        { rewrite length_app. lia. }
        { cbn [stream] in Hen. by rewrite <- app_assoc. }
        exists got', evs'. split; [done|]. split; [|done]. rewrite Hst. cbn [stream]. by rewrite app_assoc.
      * do 2 eexists. split; [done|]. split.
        { cbn [stream]. rewrite <- app_assoc, (app_assoc (ztake _ _)), ztake_drop. done. }
        { rewrite length_app, Nat2Z.inj_add, zlen_ztake by lia. lia. }
    + cbn [stream] in Hen. rewrite app_nil_r in Hen. lia.
Qed.

(** Not enough data: the loop drains the stream and reports its end. *)
Lemma read_loop_short evs space min got :
  min <= space -> zlen (got ++ stream evs) < min ->
  exists evs', read_loop evs space min got = (got ++ stream evs, Some (stream_end evs), evs').
Proof.
  intros Hms. revert got. induction evs as [|ev evs IH]; intros got Hsh; cbn [read_loop].
  - cbn [stream stream_end] in *. rewrite app_nil_r in *.
    destruct (Z.leb_spec min (zlen got)); [lia|]. eauto.
  - destruct (Z.leb_spec min (zlen got)).
    { rewrite length_app in Hsh. lia. }
    destruct ev as [bs|e]; cbn [stream stream_end] in *.
    + rewrite !length_app in Hsh. destruct (Z.leb_spec (zlen bs) (space - zlen got)); [|lia].
      rewrite app_assoc. apply IH. rewrite !length_app. lia.
    + rewrite app_nil_r. eauto.
Qed.

(** ** The reader refines the byte stream *)

Section refinement.
Context {req : Z -> Prop} {inv : gset nat -> mem_state -> Prop} {isbuf : heap -> slice -> Prop}.
Context `{PS : !PoolSpec req inv isbuf}.
Hypothesis req_pow2 : forall s, pow2 s -> req s.

(** An open reader owning its buffer next to the arrays [F] of others. *)
Record reader_inv (F : gset nat) (st : rstate) (b : slice) : Prop := {
  ri_buf : buf (rs_rd st) = Some b;
  ri_open : cleanedUp (rs_rd st) = false;
  ri_mem : inv ({[arr b]} ∪ F) (rs_mem st);
  ri_own : arr b ∉ F;
  ri_isbuf : isbuf (m_heap (rs_mem st)) b;
  ri_range : 0 <= r (rs_rd st) <= w (rs_rd st) /\ w (rs_rd st) <= len b;
}.

(** The buffered bytes not yet consumed. *)
Definition unread (st : rstate) : list Z :=
  match buf (rs_rd st) with
  | Some b => ztake (unreadBytes (rs_rd st)) (zdrop (off b + r (rs_rd st)) (array (m_heap (rs_mem st)) (arr b)))
  | None => []
  end.

(** Abstract state: the bytes the reader will deliver. *)
Definition pending (st : rstate) : list Z := unread st ++ stream (rs_conn st).

(** The arrays of others are untouched. *)
Definition frame (F : gset nat) (st st' : rstate) : Prop :=
  forall a, a ∈ F -> array (m_heap (rs_mem st')) a = array (m_heap (rs_mem st)) a.

Lemma ri_array F st b : reader_inv F st b ->
  off b = 0 /\ cap b = zlen (array (m_heap (rs_mem st)) (arr b)) /\ 0 <= len b <= cap b /\
  slice_wf (m_heap (rs_mem st)) b.
Proof.
  intros H. destruct (buf_wf _ _ (ri_isbuf _ _ _ H)) as [Hw Ho].
  pose proof Hw as (? & ? & ? & ?). repeat split; lia || done.
Qed.

Lemma zlen_unread F st b : reader_inv F st b -> zlen (unread st) = unreadBytes (rs_rd st).
Proof.
  intros H. destruct (ri_array _ _ _ H) as (Ho & Hc & Hl & _). pose proof (ri_range _ _ _ H).
  unfold unread. rewrite (ri_buf _ _ _ H). unfold unreadBytes.
  rewrite zlen_ztake; [done|]. rewrite zlen_zdrop by lia. lia.
Qed.

(** *** Taking bytes that are buffered *)
Lemma take_slice_ok F st b n :
  reader_inv F st b -> 0 <= n <= unreadBytes (rs_rd st) ->
  exists s st', take_slice n st = (Ok (Some s), st') /\ arr s = arr b /\
    reader_inv F st' b /\ rs_mem st' = rs_mem st /\ rs_conn st' = rs_conn st /\
    bytes_of (m_heap (rs_mem st')) s = ztake n (unread st) /\
    unread st' = zdrop n (unread st).
Proof.
  intros H Hn. destruct (ri_array _ _ _ H) as (Ho & Hc & Hl & Hw). pose proof (ri_range _ _ _ H) as Hr.
  unfold unreadBytes in Hn.
  cbv [take_slice gets lift mbind go_bind mret go_ret put_rd modify buf_slice].
  rewrite (ri_buf _ _ _ H). cbv [result_bind]. rewrite reslice_ok by lia.
  do 2 eexists. split; [reflexivity|]. split; [done|].
  split; [split; cbn [rs_rd rs_mem set_rw BufReader.buf cleanedUp BufReader.r BufReader.w]; try apply H; lia|].
  split; [done|]. split; [done|].
  unfold bytes_of, unread, unreadBytes. rewrite (ri_buf _ _ _ H).
  cbn [rs_rd rs_mem set_rw BufReader.buf BufReader.r BufReader.w arr off len]. rewrite (ri_buf _ _ _ H). split.
  - unfold ztake. rewrite take_take. f_equal. lia.
  - unfold ztake, zdrop. rewrite skipn_firstn_comm, drop_drop. f_equal; [|f_equal]; lia.
Qed.

(** *** Growing or compacting keeps the unread bytes *)

(** Copying the unread window to the front of [d]'s array. *)
Lemma copy_window h d src bs :
  slice_wf h d -> off d = 0 -> bytes_of h src = bs -> len src = zlen bs -> zlen bs <= len d ->
  copy_bytes d src h = (zlen bs, write_bytes d bs h) /\
  ztake (zlen bs) (zdrop 0 (array (write_bytes d bs h) (arr d))) = bs.
Proof.
  intros Hd Ho Hb Hl Hle. unfold copy_bytes. rewrite Hb, Hl, Z.min_r by done. split.
  - f_equal. f_equal. unfold ztake. rewrite Nat2Z.id. by apply take_ge.
  - rewrite array_write_same, Ho. destruct Hd as (? & ? & ? & ?). apply splice_read_same; lia.
Qed.

Lemma window_bytes F st b :
  reader_inv F st b ->
  exists src, buf_slice (rs_rd st) (r (rs_rd st)) (w (rs_rd st)) = Ok (Some src) /\
    arr src = arr b /\ off src = r (rs_rd st) /\ len src = unreadBytes (rs_rd st) /\
    bytes_of (m_heap (rs_mem st)) src = unread st.
Proof.
  intros H. destruct (ri_array _ _ _ H) as (Ho & Hc & Hl & Hw). pose proof (ri_range _ _ _ H) as Hr.
  unfold buf_slice. rewrite (ri_buf _ _ _ H), reslice_ok by lia.
  eexists. split; [reflexivity|]. cbn [arr off len]. split; [done|]. split; [lia|]. split; [done|].
  unfold bytes_of, unread. by rewrite (ri_buf _ _ _ H).
Qed.

Lemma compact_ok F st b n :
  reader_inv F st b -> n + unreadBytes (rs_rd st) <= len b -> 0 < n ->
  exists st', (src ← lift (buf_slice (rs_rd st) (r (rs_rd st)) (w (rs_rd st)));
               w' ← copy_op (buf (rs_rd st)) src;
               put_rd (set_rw (rs_rd st) 0 w')) st = (Ok tt, st') /\
    reader_inv F st' b /\ unread st' = unread st /\ rs_conn st' = rs_conn st /\ frame F st st' /\ r (rs_rd st') = 0.
Proof.
  intros H Hlen Hn. destruct (ri_array _ _ _ H) as (Ho & Hc & Hl & Hw). pose proof (ri_range _ _ _ H) as Hr.
  pose proof (zlen_unread _ _ _ H) as Hzu.
  destruct (window_bytes _ _ _ H) as (src & Es & Ha & Hof & Hsl & Hsb).
  destruct (copy_window (m_heap (rs_mem st)) b src (unread st)) as [Ecp Hrd]; try done; [lia|lia|].
  destruct (write_spec b b (unread st) _ _ (ri_mem _ _ _ H)) as [Hi' Hb']; [set_solver +|done|lia|].
  cbv [lift mbind go_bind copy_op put_rd modify]. rewrite Es, (ri_buf _ _ _ H), Ecp.
  eexists. split; [reflexivity|]. split; [|split; [|split; [done|]]].
  - split; cbn [rs_rd rs_mem set_rw buf cleanedUp r w m_heap]; try apply H; auto.
    + apply Hb', H.
    + rewrite Hzu. unfold unreadBytes in *. lia.
  - unfold unread at 1. cbn [rs_rd rs_mem set_rw buf r w m_heap]. rewrite (ri_buf _ _ _ H).
    unfold unreadBytes. cbn [r w]. by rewrite Z.sub_0_r, Ho.
  - split; [|done]. intros a Ha'. cbn [rs_mem m_heap]. apply array_write_other. intros ->.
    by apply (ri_own _ _ _ H).
Qed.

Lemma swap_owner (a n : nat) (F : gset nat) :
  n <> a -> (a ∉ F) -> ({[n]} ∪ ({[a]} ∪ F)) ∖ {[a]} = {[n]} ∪ F.
Proof. clear. set_solver. Qed.

Lemma grow_ok ch F st b n :
  reader_inv F st b -> 0 < n -> n + unreadBytes (rs_rd st) + 128 <= 2 ^ 62 ->
  exists st' b', (newBuf ← on_mem (Alloc ch (nextPowerOfTwo (n + unreadBytes (rs_rd st) + 128)));
               src ← lift (buf_slice (rs_rd st) (r (rs_rd st)) (w (rs_rd st)));
               w' ← copy_op (Some newBuf) src;
               on_mem (Free (buf (rs_rd st))) ;;
               put_rd (mkReader (Some newBuf) w' 0 (cleanedUp (rs_rd st)))) st = (Ok tt, st') /\
    reader_inv F st' b' /\ unread st' = unread st /\ rs_conn st' = rs_conn st /\ frame F st st' /\
    r (rs_rd st') = 0 /\ n + unreadBytes (rs_rd st) <= len b'.
Proof.
  intros H Hn Hbound. destruct (ri_array _ _ _ H) as (Ho & Hc & Hl & Hw). pose proof (ri_range _ _ _ H) as Hr.
  pose proof (zlen_unread _ _ _ H) as Hzu.
  destruct (nextPowerOfTwo_ge (n + unreadBytes (rs_rd st) + 128) Hbound) as (Hp2 & Hge).
  destruct (alloc_spec ch _ _ _ (ri_mem _ _ _ H) (req_pow2 _ Hp2))
    as (nb & m1 & Ea & Hi1 & Hnin & Hlen & Hnb & Hfr & Har).
  apply not_elem_of_union in Hnin as [Hne HnF]. rewrite not_elem_of_singleton in Hne.
  destruct (window_bytes _ _ _ H) as (src & Es & Has & Hof & Hsl & Hsb).
  assert (bytes_of (m_heap m1) src = unread st) as Hsb1.
  { rewrite <- Hsb. unfold bytes_of. rewrite Has, Har by set_solver +. done. }
  destruct (buf_wf _ _ Hnb) as [Hnw Hno].
  destruct (copy_window (m_heap m1) nb src (unread st)) as [Ecp Hrd]; try done; [lia|unfold unreadBytes in *; lia|].
  destruct (write_spec nb b (unread st) _ _ Hi1) as [Hi2 Hb2];
    [set_solver +|done|destruct Hnw as (? & ? & ? & ?); unfold unreadBytes in *; lia|].
  destruct (write_spec nb nb (unread st) _ _ Hi1) as [_ Hnb2];
    [set_solver +|done|destruct Hnw as (? & ? & ? & ?); unfold unreadBytes in *; lia|].
  destruct (free_spec b _ _ Hi2) as (m3 & Ef & Hi3 & Hh3).
  { set_solver +. }
  { apply Hb2, Hfr; [apply H|set_solver +]. }
  cbv [on_mem lift mbind go_bind copy_op put_rd modify].
  rewrite Ea. cbn [rs_mem rs_rd rs_conn m_heap m_pool].
  rewrite Es. cbn [rs_mem rs_rd rs_conn m_heap m_pool]. rewrite Ecp, (ri_buf _ _ _ H).
  cbn [rs_mem rs_rd rs_conn m_heap m_pool]. rewrite Ef.
  cbn [rs_mem m_heap] in Hh3. exists (mkR m3 (mkReader (Some nb) (zlen (unread st)) 0 (cleanedUp (rs_rd st))) (rs_conn st)), nb.
  split; [reflexivity|]. split; [|split; [|split; [done|split; [|split; [done|]]]]].
  - split; cbn [rs_rd rs_mem buf cleanedUp r w]; try done; [apply H| | |].
    + rewrite <- (swap_owner (arr b)); [done|done|apply H].
    + rewrite Hh3. by apply Hnb2.
    + unfold unreadBytes in *. lia.
  - unfold unread at 1. cbn [rs_rd rs_mem buf r w]. rewrite Hh3. unfold unreadBytes. cbn [r w].
    by rewrite Z.sub_0_r, Hno.
  - intros a Ha. cbn [rs_mem]. rewrite Hh3, array_write_other by (by intros ->). apply Har. by apply elem_of_union_r.
  - lia.
Qed.

Lemma make_room_ok ch F st b n :
  reader_inv F st b -> 0 < n -> n + unreadBytes (rs_rd st) + 128 <= 2 ^ 62 ->
  exists st' b', make_room ch n st = (Ok tt, st') /\ reader_inv F st' b' /\
    unread st' = unread st /\ rs_conn st' = rs_conn st /\ frame F st st' /\
    r (rs_rd st') = 0 /\ n + unreadBytes (rs_rd st) <= len b'.
Proof.
  intros H Hn Hb. unfold make_room. cbv [gets mbind go_bind]. unfold buf_len.
  rewrite (ri_buf _ _ _ H), (ri_open _ _ _ H).
  destruct (Z.ltb_spec (len b) (n + unreadBytes (rs_rd st))).
  - pose proof (grow_ok ch F st b n H Hn Hb) as Hg.
    rewrite (ri_buf _ _ _ H), (ri_open _ _ _ H) in Hg. exact Hg.
  - destruct (compact_ok F st b n H) as (st' & E & ?); [lia|done|].
    rewrite (ri_buf _ _ _ H) in E. exists st', b. split; [exact E|]. naive_solver lia.
Qed.

(** *** Reading from the connection *)

(** The bytes delivered by the connection land behind the unread ones. *)
Lemma append_unread F st b got :
  reader_inv F st b -> zlen got <= len b - w (rs_rd st) ->
  let dst := mkSlice (arr b) (off b + w (rs_rd st)) (len b - w (rs_rd st)) (cap b - w (rs_rd st)) in
  forall evs' w',
  let st' := mkR (mkMem (write_bytes dst got (m_heap (rs_mem st))) (m_pool (rs_mem st)))
                 (set_rw (rs_rd st) (r (rs_rd st)) w') evs' in
  frame F st st' /\
  (w' = w (rs_rd st) -> reader_inv F st' b /\ unread st' = unread st) /\
  (w' = w (rs_rd st) + zlen got -> reader_inv F st' b /\ unread st' = unread st ++ got).
Proof.
  intros H Hg dst evs' w' st'.
  destruct (ri_array _ _ _ H) as (Ho & Hc & Hl & Hw). pose proof (ri_range _ _ _ H) as Hr.
  assert (slice_wf (m_heap (rs_mem st)) dst) as Hdw.
  { destruct Hw as (? & ? & ? & ?). split; cbn [dst arr off len cap]; lia. }
  destruct (write_spec dst b got _ _ (ri_mem _ _ _ H)) as [Hi' Hb'];
    [set_solver +|done|cbn [dst cap]; lia|].
  assert (forall x, w (rs_rd st) <= x <= len b -> w' = x -> reader_inv F st' b) as Hinv.
  { intros x Hx ->. split; cbn [st' rs_rd rs_mem set_rw buf cleanedUp r w]; try apply H; auto; [|lia].
    apply Hb', H. }
  assert (array (m_heap (rs_mem st')) (arr b)
          = splice (w (rs_rd st)) got (array (m_heap (rs_mem st)) (arr b))) as Harr.
  { change (array (write_bytes dst got (m_heap (rs_mem st))) (arr dst)
      = splice (w (rs_rd st)) got (array (m_heap (rs_mem st)) (arr dst))).
    rewrite array_write_same. cbn [dst off]. by rewrite Ho. }
  split; [|split].
  - intros a Ha. cbn [st' rs_mem m_heap]. apply array_write_other. intros ->. by apply (ri_own _ _ _ H).
  - intros Hw'. split; [apply (Hinv _ ltac:(split; [reflexivity|lia]) Hw')|].
    unfold unread. cbn [st' rs_rd set_rw buf]. rewrite (ri_buf _ _ _ H).
    fold st'. rewrite Harr, Ho. unfold unreadBytes. cbn [st' rs_rd set_rw r w]. rewrite Hw'.
    apply splice_read_before; lia.
  - intros Hw'. split; [apply (Hinv (w (rs_rd st) + zlen got)); [lia|done]|].
    unfold unread. cbn [st' rs_rd set_rw buf]. rewrite (ri_buf _ _ _ H).
    fold st'. rewrite Harr, Ho. unfold unreadBytes. cbn [st' rs_rd set_rw r w]. rewrite Hw'.
    by apply splice_append; lia.
Qed.

(** What [io.ReadAtLeast] reports when the stream ends after [n] bytes. *)
Definition short_error (n : Z) (e : error) : error :=
  if (0 <? n) && bool_decide (e = EOF) then ErrUnexpectedEOF else e.

Lemma readAtLeast_ok F st b bytes :
  reader_inv F st b -> 0 < bytes <= len b - w (rs_rd st) ->
  if decide (bytes <= zlen (stream (rs_conn st))) then
    exists st', readAtLeast bytes st = (Ok tt, st') /\ reader_inv F st' b /\ frame F st st' /\
      pending st' = pending st /\ zlen (unread st) + bytes <= zlen (unread st')
  else
    exists st', readAtLeast bytes st =
        (Err (short_error (zlen (stream (rs_conn st))) (stream_end (rs_conn st))), st') /\
      reader_inv F st' b /\ frame F st st' /\ unread st' = unread st.
Proof.
  intros H Hby. destruct (ri_array _ _ _ H) as (Ho & Hc & Hl & Hw). pose proof (ri_range _ _ _ H) as Hr.
  unfold readAtLeast. cbv [gets lift mbind go_bind buf_slice read_into put_rd modify].
  unfold buf_len. rewrite (ri_buf _ _ _ H). cbv [result_bind]. rewrite reslice_ok by lia.
  cbn [opt_len len]. unfold io_ReadAtLeast. destruct (Z.ltb_spec (len b - w (rs_rd st)) bytes); [lia|].
  case_decide as Hen.
  - destruct (read_loop_enough (rs_conn st) (len b - w (rs_rd st)) bytes []) as (got & evs' & E & Hst & Hg);
      [lia|simpl; lia|done|].
    rewrite E. eexists. split; [reflexivity|].
    destruct (append_unread F st b got H ltac:(lia) evs' (w (rs_rd st) + zlen got)) as (Hf & _ & Hok).
    destruct (Hok eq_refl) as [Hi Hu]. split; [exact Hi|]. split; [exact Hf|].
    unfold pending. cbn [rs_conn]. cbn [rs_mem rs_rd m_heap m_pool]. rewrite Hu. split.
    + by rewrite <- app_assoc, Hst.
    + rewrite length_app. lia.
  - destruct (read_loop_short (rs_conn st) (len b - w (rs_rd st)) bytes []) as (evs' & E); [lia|simpl; lia|].
    rewrite E. cbn [app]. eexists. split; [reflexivity|].
    destruct (append_unread F st b (stream (rs_conn st)) H ltac:(lia) evs' (w (rs_rd st))) as (Hf & Hok & _).
    destruct (Hok eq_refl) as [Hi Hu].
    assert (set_rw (rs_rd st) (r (rs_rd st)) (w (rs_rd st)) = rs_rd st) as Hrd.
    { by destruct (rs_rd st). }
    rewrite Hrd in *. auto.
Qed.

Lemma ReadFull_ok ch F st b n :
  reader_inv F st b -> 0 <= n <= 2 ^ 60 ->
  if decide (n <= zlen (pending st)) then
    exists s st' b', ReadFull ch n st = (Ok (Some s), st') /\ reader_inv F st' b' /\ frame F st st' /\
      bytes_of (m_heap (rs_mem st')) s = ztake n (pending st) /\
      pending st' = zdrop n (pending st) /\ arr s = arr b'
  else
    exists st' b', ReadFull ch n st =
        (Err (short_error (zlen (stream (rs_conn st))) (stream_end (rs_conn st))), st') /\
      reader_inv F st' b' /\ frame F st st' /\ unread st' = unread st.
Proof.
  intros H Hn. pose proof (zlen_unread _ _ _ H) as Hzu. pose proof (ri_range _ _ _ H) as Hr.
  unfold ReadFull. destruct (Z.ltb_spec n 0); [lia|]. cbv [gets mbind go_bind].
  destruct (Z.leb_spec n (unreadBytes (rs_rd st))).
  { rewrite decide_True by (unfold pending; rewrite length_app; lia).
    destruct (take_slice_ok F st b n H) as (s & st' & E & Ha & Hi & Hm & Hc & Hbs & Hu); [lia|].
    exists s, st', b. split; [done|]. split; [done|]. split; [intros a _; by rewrite Hm|].
    unfold pending. rewrite Hbs, Hu, Hc, ztake_app_le, zdrop_app_le by lia. done. }
  destruct (make_room_ok ch F st b n H) as (st1 & b1 & E1 & Hi1 & Hu1 & Hc1 & Hf1 & Hr1 & Hlen1);
    [unfold unreadBytes in *; lia|unfold unreadBytes in *; lia|]. rewrite E1.
  pose proof (zlen_unread _ _ _ Hi1) as Hzu1. rewrite Hu1, Hzu in Hzu1.
  pose proof (readAtLeast_ok F st1 b1 (n - unreadBytes (rs_rd st1)) Hi1) as Hral.
  rewrite Hc1, <- Hzu1 in Hral.
  assert (0 < n - unreadBytes (rs_rd st) <= len b1 - w (rs_rd st1)) as Hpre.
  { unfold unreadBytes in *. lia. }
  specialize (Hral Hpre). rewrite <- Hzu1.
  assert (zlen (pending st) = unreadBytes (rs_rd st) + zlen (stream (rs_conn st))) as Hzp
    by (unfold pending; rewrite length_app; lia).
  rewrite Hzp. case_decide; case_decide; try lia.
  - destruct Hral as (st2 & E2 & Hi2 & Hf2 & Hp2 & Hlen2). rewrite E2.
    pose proof (zlen_unread _ _ _ Hi2) as Hzu2.
    destruct (take_slice_ok F st2 b1 n Hi2) as (s & st3 & E3 & Ha & Hi3 & Hm3 & Hc3 & Hbs & Hu3).
    { rewrite Hu1 in Hlen2. lia. }
    exists s, st3, b1. split; [done|]. split; [done|]. split.
    { intros a Hin. rewrite Hm3, Hf2, Hf1 by done. done. }
    assert (pending st2 = pending st) as Hpp by (rewrite Hp2; unfold pending; by rewrite Hu1, Hc1).
    rewrite <- Hpp. unfold pending. rewrite Hbs, Hu3, Hc3.
    rewrite Hu1 in Hlen2. rewrite ztake_app_le, zdrop_app_le by lia. done.
  - destruct Hral as (st2 & E2 & Hi2 & Hf2 & Hu2). rewrite E2.
    exists st2, b1. split; [done|]. split; [done|]. split; [|by rewrite Hu2].
    intros a Hin. by rewrite Hf2, Hf1.
Qed.

(** *** Opening, single bytes, closing *)

Lemma NewReader_ok ch conn size F m :
  inv F m -> req size ->
  exists st b, NewReader ch conn size m = Ok st /\ reader_inv F st b /\ len b = size /\
    pending st = stream conn /\
    (forall a, a ∈ F -> array (m_heap (rs_mem st)) a = array (m_heap m) a).
Proof.
  intros Hi Hr. destruct (alloc_spec ch size F m Hi Hr) as (b & m' & E & Hi' & Hnin & Hlen & Hb & _ & Har).
  unfold NewReader. rewrite E. do 2 eexists. split; [reflexivity|].
  destruct (buf_wf _ _ Hb) as [(_ & _ & Hl & _) _].
  split; [split; cbn [rs_rd rs_mem buf cleanedUp r w]; done || lia|]. split; [done|].
  split; [|done]. unfold pending, unread. cbn [rs_rd buf]. unfold unreadBytes. cbn [rs_rd r w].
  by rewrite Z.sub_diag.
Qed.

Lemma take_byte_ok F st b x xs :
  reader_inv F st b -> unread st = x :: xs ->
  exists st', take_byte st = (Ok x, st') /\ reader_inv F st' b /\ rs_mem st' = rs_mem st /\
    rs_conn st' = rs_conn st /\ unread st' = xs.
Proof.
  intros H Hu. destruct (ri_array _ _ _ H) as (Ho & Hc & Hl & Hw). pose proof (ri_range _ _ _ H) as Hr.
  pose proof (zlen_unread _ _ _ H) as Hzu. rewrite Hu in Hzu. unfold unreadBytes in Hzu. cbn [length] in Hzu.
  cbv [take_byte gets lift mbind go_bind mret go_ret put_rd modify panics]. rewrite (ri_buf _ _ _ H).
  destruct (Z.leb_spec 0 (r (rs_rd st))); [|lia]. destruct (Z.ltb_spec (r (rs_rd st)) (len b)); [|lia].
  cbn [andb].
  exists (mkR (rs_mem st) (set_rw (rs_rd st) (r (rs_rd st) + 1) (w (rs_rd st))) (rs_conn st)).
  split; [|split; [|split; [reflexivity|split; [reflexivity|]]]].
  - f_equal. f_equal. unfold unread in Hu. rewrite (ri_buf _ _ _ H) in Hu.
    apply (f_equal (fun l => nth 0 l 0)) in Hu. cbn [nth] in Hu. rewrite <- Hu.
    unfold ztake, zdrop, unreadBytes. rewrite nth_firstn.
    destruct (Nat.ltb_spec 0 (Z.to_nat (w (rs_rd st) - r (rs_rd st)))); [|lia].
    rewrite nth_skipn. f_equal. lia.
  - split; cbn [rs_rd rs_mem set_rw buf cleanedUp r w]; try apply H; lia.
  - unfold unread in *. cbn [rs_rd rs_mem set_rw buf]. rewrite (ri_buf _ _ _ H) in *.
    unfold unreadBytes in *. cbn [r w]. replace xs with (drop 1 (x :: xs)) by apply drop_0.
    rewrite <- Hu. unfold ztake, zdrop. rewrite skipn_firstn_comm, drop_drop. rewrite Ho.
    cbn [set_rw r w]. f_equal; [|f_equal]; lia.
Qed.

Lemma ReadByte_ok F st b :
  reader_inv F st b -> 0 < len b ->
  match pending st with
  | x :: rest => exists st', ReadByte st = (Ok x, st') /\ reader_inv F st' b /\ frame F st st' /\
      pending st' = rest
  | [] => exists st', ReadByte st = (Err (stream_end (rs_conn st)), st') /\ reader_inv F st' b
  end.
Proof.
  intros H Hlen. pose proof (zlen_unread _ _ _ H) as Hzu. pose proof (ri_range _ _ _ H) as Hr.
  unfold ReadByte. cbv [gets mbind go_bind]. destruct (Z.ltb_spec 0 (unreadBytes (rs_rd st))).
  { destruct (unread st) as [|x xs] eqn:Hu; [simpl in Hzu; lia|].
    destruct (take_byte_ok F st b x xs H Hu) as (st' & E & Hi & Hm & Hc & Hx).
    unfold pending. rewrite Hu. exists st'. split; [done|]. split; [done|].
    split; [intros a _; by rewrite Hm|]. by rewrite Hx, Hc. }
  rewrite (ri_open _ _ _ H), andb_false_r. unfold capLeft, buf_len. rewrite (ri_buf _ _ _ H).
  set (k := if len b - w (rs_rd st) =? 0 then put_rd (set_rw (rs_rd st) 0 0) else mret tt).
  assert (exists st1, k st = (Ok tt, st1) /\ reader_inv F st1 b /\ rs_mem st1 = rs_mem st /\
    rs_conn st1 = rs_conn st /\ unread st1 = [] /\ 1 <= len b - w (rs_rd st1)) as
    (st1 & E1 & Hi1 & Hm1 & Hc1 & Hu1 & Hw1).
  { assert (unread st = []) as Hu by (apply length_zero_iff_nil; lia).
    subst k. destruct (Z.eqb_spec (len b - w (rs_rd st)) 0).
    - eexists. split; [reflexivity|]. split; [split; cbn; try apply H; lia|].
      do 2 (split; [done|]). split; [|simpl; lia].
      unfold unread. cbn [rs_rd set_rw buf]. rewrite (ri_buf _ _ _ H). unfold unreadBytes. simpl.
      done.
    - exists st. repeat split; try done; [apply H..|]. lia. }
  rewrite E1. pose proof (readAtLeast_ok F st1 b 1 Hi1 ltac:(lia)) as Hral. rewrite Hc1 in Hral.
  assert (unread st = []) as Hu by (apply length_zero_iff_nil; lia).
  unfold pending. rewrite Hu. cbn [app]. destruct (stream (rs_conn st)) as [|x rest] eqn:Hs.
  - rewrite decide_False in Hral by (simpl; lia). destruct Hral as (st2 & E2 & Hi2 & _).
    rewrite E2. eauto.
  - rewrite decide_True in Hral by (simpl; lia). destruct Hral as (st2 & E2 & Hi2 & Hf2 & Hp2 & Hl2).
    rewrite E2. unfold pending in Hp2. rewrite Hu1, Hc1, Hs in Hp2. cbn [app] in Hp2.
    destruct (unread st2) as [|y ys] eqn:Hu2; [rewrite Hu1 in Hl2; simpl in Hl2; lia|].
    cbn [app] in Hp2. injection Hp2 as -> Hrest.
    destruct (take_byte_ok F st2 b x ys Hi2 Hu2) as (st3 & E3 & Hi3 & Hm3 & Hc3 & Hu3).
    exists st3. split; [done|]. split; [done|]. split; [|by rewrite Hu3, Hc3].
    intros a Ha. rewrite Hm3, Hf2, Hm1 by done. done.
Qed.

Lemma Close_ok F st b :
  reader_inv F st b ->
  exists st', Close st = (Ok tt, st') /\ inv F (rs_mem st') /\ frame F st st' /\
    rs_rd st' = mkReader None 0 0 true.
Proof.
  intros H. unfold Close. cbv [gets mbind go_bind put_rd modify on_mem].
  rewrite (ri_open _ _ _ H), (ri_buf _ _ _ H). cbn [rs_mem].
  destruct (free_spec b _ _ (ri_mem _ _ _ H)) as (m' & E & Hi' & Hh); [set_solver +|apply H|].
  rewrite E. eexists. split; [reflexivity|]. cbn [rs_mem rs_rd]. split; [|split; [|done]].
  - pose proof (ri_own _ _ _ H). replace F with (({[arr b]} ∪ F) ∖ {[arr b]}); [done|].
    clear -H0. set_solver.
  - intros a _. cbn [rs_mem]. by rewrite Hh.
Qed.
End refinement.

(** ** The gateway's readers *)

(** A reader of the gateway's pool [p], its buffer [b] next to the arrays [F]. *)
Definition gate_reader (p : SyncPool) : gset nat -> rstate -> slice -> Prop :=
  reader_inv (inv := pool_inv p gate_cap) (isbuf := whole_buf gate_cap).

Lemma gate_spec p : init_pool = Some (Ok p) ->
  PoolSpec pow2 (pool_inv p gate_cap) (whole_buf gate_cap).
Proof. intros E. apply slab_pool_spec, gate_policy, E. Qed.

Lemma init_pool_ok : exists p, init_pool = Some (Ok p) /\ pool_inv p gate_cap ∅ (fst (start p)).
Proof.
  destruct (NewSyncPool_ok 1024 65536 4) as (p & E & _ & _ & Hc & _); try lia.
  exists p. split; [exact E|]. apply (start_ok p gate_cap Hc).
Qed.

(** Reads in sequence, each result looked at before the next read. *)
Fixpoint read_seq (reqs : list (option nat * Z)) : go rstate (list (list Z)) :=
  match reqs with
  | [] => mret []
  | (ch, n) :: reqs =>
      s ← ReadFull ch n;
      h ← gets (fun st => m_heap (rs_mem st));
      rest ← read_seq reqs;
      mret (match s with Some s => bytes_of h s | None => [] end :: rest)
  end.

(** Consecutive segments of a byte string. *)
Fixpoint cut (ns : list Z) (l : list Z) : list (list Z) :=
  match ns with
  | [] => []
  | n :: ns => ztake n l :: cut ns (zdrop n l)
  end.

(** C2: [ReadFull(n)] on an open reader of the gateway's pool refines the byte
    stream: with [pending] the buffered unread bytes followed by what the
    connection delivers before failing, it returns a slice showing exactly the
    first [n] pending bytes and leaves the others pending, however the
    connection chunks its data and whatever buffer the pool recycles, without
    touching the arrays [F] of other readers; when fewer than [n] bytes are
    pending it returns the connection's error ([ErrUnexpectedEOF] at an end
    inside the message) and stays consistent. *)
Theorem ReadFull_refines (p : SyncPool) (F : gset nat) (st : rstate) (b : slice) (ch : option nat) (n : Z) :
  init_pool = Some (Ok p) -> gate_reader p F st b -> 0 <= n <= 2 ^ 60 ->
  (n <= zlen (pending st) ->
     exists s st' b', ReadFull ch n st = (Ok (Some s), st') /\
       bytes_of (m_heap (rs_mem st')) s = ztake n (pending st) /\
       pending st' = zdrop n (pending st) /\ gate_reader p F st' b' /\ frame F st st') /\
  (zlen (pending st) < n ->
     exists st' b', ReadFull ch n st =
         (Err (short_error (zlen (stream (rs_conn st))) (stream_end (rs_conn st))), st') /\
       unread st' = unread st /\ gate_reader p F st' b' /\ frame F st st').
Proof.
  intros E H Hn. pose proof (gate_spec p E) as PS.
  pose proof (ReadFull_ok (fun s Hs => Hs) ch F st b n H Hn) as HR.
  split; intros Hc.
  - rewrite decide_True in HR by done. destruct HR as (s & st' & b' & E' & Hi & Hf & Hb & Hp & _).
    exists s, st', b'. auto.
  - rewrite decide_False in HR by lia. destruct HR as (st' & b' & E' & Hi & Hf & Hu).
    exists st', b'. auto.
Qed.

Lemma read_seq_ok p reqs F st b :
  init_pool = Some (Ok p) -> gate_reader p F st b ->
  Forall (fun q => 0 <= snd q <= 2 ^ 60) reqs ->
  foldr (fun q => Z.add (snd q)) 0 reqs <= zlen (pending st) ->
  exists st', read_seq reqs st = (Ok (cut (map snd reqs) (pending st)), st').
Proof.
  intros E H Hb Hs. revert st b H Hs. induction Hb as [|[ch n] reqs Hn Hb IH]; intros st b H Hs.
  - cbn [read_seq]. by eexists.
  - cbn [foldr snd] in Hs, Hn. cbn [read_seq map snd cut].
    assert (0 <= foldr (fun q => Z.add (snd q)) 0 reqs) as Hpos.
    { clear -Hb. induction Hb; cbn [foldr]; lia. }
    pose proof (gate_spec p E) as PS. pose proof (ReadFull_ok (fun s Hs => Hs) ch F st b n H Hn) as HR.
    rewrite decide_True in HR by lia. destruct HR as (s & st' & b' & E' & Hi & _ & Hby & Hp & _).
    destruct (IH st' b' Hi) as (st'' & E''); [rewrite Hp, zlen_zdrop; lia|].
    exists st''. cbv [mbind go_bind gets mret go_ret] in *. rewrite E', E'', Hby, Hp. done.
Qed.

(** End to end: a reader opened with the worker's 8 KiB buffer on any
    connection returns, over any sequence of reads that the connection can
    serve, exactly the consecutive segments of the connection's byte stream;
    the chunking of the connection and the pool's choices do not matter. *)
Theorem reads_deliver_stream :
  exists p, init_pool = Some (Ok p) /\
    forall ch conn reqs, Forall (fun q => 0 <= snd q <= 2 ^ 60) reqs ->
      foldr (fun q => Z.add (snd q)) 0 reqs <= zlen (stream conn) ->
      exists st st', NewReader ch conn 8192 (fst (start p)) = Ok st /\
        read_seq reqs st = (Ok (cut (map snd reqs) (stream conn)), st').
Proof.
  destruct init_pool_ok as (p & E & Hi). exists p. split; [done|]. intros ch conn reqs Hb Hs.
  pose proof (gate_spec p E) as PS.
  destruct (NewReader_ok ch conn 8192 ∅ _ Hi) as (st & b & En & Hr & _ & Hp & _).
  { exists 13. split; [lia|done]. }
  rewrite <- Hp in Hs. destruct (read_seq_ok p reqs ∅ st b E Hr Hb Hs) as (st' & Es).
  exists st, st'. by rewrite <- Hp.
Qed.

(** [Close] returns the buffer to the pool exactly once: it succeeds on an
    open reader and leaves a memory in which the pool is consistent without the
    reader's array; afterwards [Close], [ReadByte] and [ReadFull] of any
    positive length fail with [ErrBufReaderAlreadyClosed] and change nothing. *)
Theorem Close_once (p : SyncPool) (F : gset nat) (st : rstate) (b : slice) :
  init_pool = Some (Ok p) -> gate_reader p F st b ->
  exists st', Close st = (Ok tt, st') /\ pool_inv p gate_cap F (rs_mem st') /\
    Close st' = (Err ErrBufReaderAlreadyClosed, st') /\
    ReadByte st' = (Err ErrBufReaderAlreadyClosed, st') /\
    (forall ch n, 0 < n -> ReadFull ch n st' = (Err ErrBufReaderAlreadyClosed, st')).
Proof.
  intros E H. pose proof (gate_spec p E) as PS.
  destruct (Close_ok F st b H) as (st' & Ec & Hi & _ & Hrd).
  exists st'. split; [done|]. split; [done|]. destruct st' as [m rd cn]. cbn [rs_rd] in Hrd. subst rd.
  split; [done|]. split; [done|]. intros ch n Hn.
  unfold ReadFull. destruct (Z.ltb_spec n 0); [lia|]. cbv [gets mbind go_bind].
  cbn [rs_rd]. change (unreadBytes _) with 0 at 1. destruct (Z.leb_spec n 0); [lia|].
  unfold make_room. cbv [gets mbind go_bind]. cbn [rs_rd].
  change (unreadBytes (mkReader None 0 0 true)) with 0. change (buf_len (mkReader None 0 0 true)) with 0.
  destruct (Z.ltb_spec 0 (n + 0)); [reflexivity|lia].
Qed.

(** ** Witnesses *)

Lemma nextPowerOfTwo_witness : nextPowerOfTwo 4228 = 8192 /\ 4228 <= nextPowerOfTwo 4228.
Proof. split; [reflexivity|]. apply (nextPowerOfTwo_log2_up 4228); lia. Defined.

Lemma ReadFull_refines_witness :
  exists p st s st', init_pool = Some (Ok p) /\
    NewReader None [RData [1; 2]; RData [3; 4; 5]] 4096 (fst (start p)) = Ok st /\
    ReadFull None 3 st = (Ok (Some s), st') /\ bytes_of (m_heap (rs_mem st')) s = [1; 2; 3].
Proof.
  destruct init_pool_ok as (p & E & Hi). pose proof (gate_spec p E) as PS.
  destruct (NewReader_ok None [RData [1; 2]; RData [3; 4; 5]] 4096 ∅ _ Hi) as (st & b & En & Hr & _ & Hp & _).
  { exists 12. split; [lia|done]. }
  destruct (ReadFull_refines p ∅ st b None 3 E Hr ltac:(lia)) as [H _].
  destruct H as (s & st' & b' & Er & Hb & _); [rewrite Hp; simpl; lia|].
  exists p, st, s, st'. rewrite Hb, Hp. done.
Defined.

Lemma reads_deliver_stream_witness :
  exists p st st', init_pool = Some (Ok p) /\
    NewReader None [RData [1; 2]; RData []; RData [3; 4; 5]] 8192 (fst (start p)) = Ok st /\
    read_seq [(None, 1); (None, 3)] st = (Ok [[1]; [2; 3; 4]], st').
Proof.
  destruct reads_deliver_stream as (p & E & H).
  destruct (H None [RData [1; 2]; RData []; RData [3; 4; 5]] [(None, 1); (None, 3)]) as (st & st' & E1 & E2).
  - repeat constructor; simpl; lia.
  - simpl. lia.
  - by exists p, st, st'.
Defined.

Lemma Close_once_witness :
  exists p st st', init_pool = Some (Ok p) /\ NewReader None [] 4096 (fst (start p)) = Ok st /\
    Close st = (Ok tt, st') /\ Close st' = (Err ErrBufReaderAlreadyClosed, st').
Proof.
  destruct init_pool_ok as (p & E & Hi). pose proof (gate_spec p E) as PS.
  destruct (NewReader_ok None [] 4096 ∅ _ Hi) as (st & b & En & Hr & _).
  { exists 12. split; [lia|done]. }
  destruct (Close_once p ∅ st b E Hr) as (st' & E1 & _ & E2 & _).
  by exists p, st, st'.
Defined.
