(* ===== verification/Session.v ===== *)
(** Sessions and packet encryption: src/pkg/net/session.go,
    src/pkg/net/internal/crypto.go.

    The ciphers ([crypto/cipher] blocks and the aes package of vulcan-pkg-tool)
    are not part of the repository: they are operations of a class, with their
    documented law, that decryption undoes encryption, as a second class. *)
From S2P Require Import Prelude.

(** The aes package: a block is made from a key; [Encrypt]/[Decrypt] take the
    key, the block and the data. *)
Class Cipher := {
  Block : Type;
  aes_NewBlock : list Z -> result Block;
  aes_Encrypt : list Z -> option Block -> list Z -> result (list Z);
  aes_Decrypt : list Z -> option Block -> list Z -> result (list Z);
}.

Class CipherLaws (C : Cipher) : Prop := {
  aes_round_trip : forall key block data out,
    aes_Encrypt key block data = Ok out -> aes_Decrypt key block out = Ok data;
}.

(** ** Index counters *)

Record indexInfo := mkIndex { start_index : Z; index : Z }.

Definition newIndexInfo (start : Z) : indexInfo := mkIndex start start.

(** [i.index.Add(1)]: the new value, wrapping at 64 bits. *)
Definition Increase (i : indexInfo) : Z * indexInfo :=
  let v := int64 (index i + 1) in (v, mkIndex (start_index i) v).

Definition Load (i : indexInfo) : Z := index i.

(** ** Sessions *)

Section session.
Context `{C : Cipher}.

Record encryptor := mkEncryptor { enc_encrypt : bool; enc_block : option Block; enc_key : list Z }.

Record session := mkSession {
  ss_enc : encryptor;
  userId : Z;
  serverId : Z;
  clientIP : string;
  color : string;
  status : Z;
  startTime : Z;
  csIndex : indexInfo;
  scIndex : indexInfo;
}.

Definition DefaultSession : session :=
  mkSession (mkEncryptor false None []) 0 0 EmptyString EmptyString 0 0 (newIndexInfo 0) (newIndexInfo 1).

Definition NewSession (userId sid st : Z) (block : option Block) (key : list Z)
    (crypto : bool) (color : string) (status : Z) : session :=
  mkSession (mkEncryptor crypto block key) userId sid EmptyString color status st
    (newIndexInfo 0) (newIndexInfo 1).

Definition IncreaseCSIndex (s : session) : Z * session :=
  let '(v, i) := Increase (csIndex s) in
  (v, mkSession (ss_enc s) (userId s) (serverId s) (clientIP s) (color s) (status s) (startTime s)
        i (scIndex s)).

Definition IncreaseSCIndex (s : session) : Z * session :=
  let '(v, i) := Increase (scIndex s) in
  (v, mkSession (ss_enc s) (userId s) (serverId s) (clientIP s) (color s) (status s) (startTime s)
        (csIndex s) i).

Definition CSIndex (s : session) : Z := Load (csIndex s).
Definition SCIndex (s : session) : Z := Load (scIndex s).
Definition StartTime (s : session) : Z := startTime s.
Definition UID (s : session) : Z := userId s.
Definition SID (s : session) : Z := serverId s.
Definition Color (s : session) : string :=
  if (String.length (color s) =? 0)%nat then EmptyString else color s.
Definition Status (s : session) : Z := status s.
Definition ClientIP (s : session) : string := clientIP s.
Definition SetClientIP (s : session) (ip : string) : session :=
  mkSession (ss_enc s) (userId s) (serverId s) ip (color s) (status s) (startTime s)
    (csIndex s) (scIndex s).

Definition IsCrypto (s : session) : bool := enc_encrypt (ss_enc s).
Definition Key (s : session) : list Z := enc_key (ss_enc s).
Definition session_Block (s : session) : option Block := enc_block (ss_enc s).

(** ** Packet encryption *)

Definition encrypt (ss : session) (data : list Z) : result (list Z) :=
  if negb (IsCrypto ss) then Ok data
  else map_err (fun e => EWrap e "packet encrypt failed" [])
         (aes_Encrypt (Key ss) (session_Block ss) data).

Definition decrypt (ss : session) (data : list Z) : result (list Z) :=
  if negb (IsCrypto ss) then Ok data
  else map_err (fun e => EWrap e "packet decrypt failed" [])
         (aes_Decrypt (Key ss) (session_Block ss) data).

Lemma decrypt_encrypt `{!CipherLaws C} ss data out :
  encrypt ss data = Ok out -> decrypt ss out = Ok data.
Proof.
  unfold encrypt, decrypt. destruct (IsCrypto ss); simpl; [|congruence].
  destruct (aes_Encrypt _ _ _) as [c|e|q] eqn:E; simpl; intros; simplify_eq.
  by rewrite (aes_round_trip _ _ _ _ E).
Qed.

(** Two sessions with the same encryptor encrypt and decrypt alike. *)
Lemma crypt_same ss ss' : ss_enc ss = ss_enc ss' -> encrypt ss = encrypt ss' /\ decrypt ss = decrypt ss'.
Proof. intros E. unfold encrypt, decrypt, IsCrypto, Key, session_Block. by rewrite E. Qed.

Lemma IncreaseCSIndex_enc s : ss_enc (snd (IncreaseCSIndex s)) = ss_enc s.
Proof. done. Qed.

Lemma Increase_val i : - 2 ^ 63 <= index i < 2 ^ 63 - 1 ->
  Increase i = (index i + 1, mkIndex (start_index i) (index i + 1)).
Proof. intros H. unfold Increase. rewrite wrapS_id by lia. done. Qed.
End session.

(** A concrete cipher for the witnesses: it marks a packet with its key. *)
Definition tag_cipher : Cipher := {|
  Block := unit;
  aes_NewBlock := fun _ => Ok tt;
  aes_Encrypt := fun key _ data => Ok (nth 0 key 0 :: data);
  aes_Decrypt := fun key _ data =>
    match data with x :: d => if x =? nth 0 key 0 then Ok d else Err (ENew "bad tag" []) | [] => Err (ENew "empty" []) end;
|}.

Lemma tag_cipher_laws : CipherLaws tag_cipher.
Proof. split. intros key block data out H. simpl in *. injection H as <-. by rewrite Z.eqb_refl. Qed.

Definition tag_session : session (C := tag_cipher) :=
  NewSession (C := tag_cipher) 7 1 0 (Some tt) [42] true EmptyString 0.
