(* ===== verification/Codec.v ===== *)
(** The wire format: a big-endian 32-bit length followed by the body.

    [Worker.read]/[Worker.write] of src/pkg/net/internal/worker.go,
    [Client.read]/[Client.write] of src/pkg/net/tcp/client/client.go and the
    limits of src/pkg/net/service.go. *)
From S2P Require Import Prelude Memory BufPool BufReader Session.

Definition PackLenSize : Z := 4.
Definition MaxBodySize : Z := int32 (Z.shiftl 1 14).

(** [binary.Write(&buf, binary.BigEndian, v)] for a [uint32]. *)
Definition be32 (v : Z) : list Z :=
  [Z.land (Z.shiftr v 24) 255; Z.land (Z.shiftr v 16) 255; Z.land (Z.shiftr v 8) 255; Z.land v 255].

(** [binary.Read(r, binary.BigEndian, &x)] for an [int32]: four bytes are
    needed, the value is the two's-complement reading of the 32 bits. *)
Definition read_be32 (l : list Z) : result Z :=
  match l with
  | b3 :: b2 :: b1 :: b0 :: _ =>
      Ok (int32 (Z.lor (Z.shiftl b3 24) (Z.lor (Z.shiftl b2 16) (Z.lor (Z.shiftl b1 8) b0))))
  | [] => Err EOF
  | _ => Err ErrUnexpectedEOF
  end.

(** The frame both sides write: [uint32(len(pack))] and the body. *)
Definition frame_of (pack : list Z) : list Z := be32 (uint32 (zlen pack)) ++ pack.

(** ** Reading frames *)

(** The bytes a returned slice shows at this moment. *)
Definition view (s : option slice) : go rstate (list Z) :=
  gets (fun st => match s with Some s => bytes_of (m_heap (rs_mem st)) s | None => [] end).

Section codec.
Context `{C : Cipher}.

(** [Worker.read]: the worker consumes the bytes before its next read, so the
    body is returned by value. *)
Definition worker_read (ss : session) (ch1 ch2 : option nat) : go rstate (list Z) :=
  lenBytes ← wrapping (fun e => EWrap e "read packet length failed" []) (ReadFull ch1 PackLenSize);
  lb ← view lenBytes;
  packLen ← lift (read_be32 lb);
  if packLen <=? 0 then throw (ENew "packet len must greater than 0" [])
  else if MaxBodySize <? packLen then
    throw (ENew "packet len=%d must less than %d" [AZ packLen; AZ MaxBodySize])
  else
    buf ← wrapping (fun e => EWrap e "read packet body failed. len=%d" [AZ packLen]) (ReadFull ch2 packLen);
    bs ← view buf;
    lift (decrypt ss bs).

(** [Client.read]: no length check, and the result is the reader's slice. *)
Definition client_read (ch1 ch2 : option nat) : go rstate (option slice) :=
  lb ← wrapping (fun e => EWrap e "read pack len failed. lenSize=%d" [AZ PackLenSize])
         (ReadFull ch1 PackLenSize);
  bs ← view lb;
  packLen ← lift (read_be32 bs);
  wrapping (fun e => EWrap e "read pack body failed. len=%d" [AZ packLen]) (ReadFull ch2 packLen).

(** ** Writing frames

    The write half of a connection: the bytes sent and the results of the
    coming [conn.Write] calls: success, or an error after some bytes went out
    (success once the list is used up). *)
Record wconn := mkWconn { sent : list Z; wresults : list (option (Z * error)) }.

Definition conn_Write (bs : list Z) : go wconn unit := fun c =>
  match wresults c with
  | Some (n, e) :: rs => (Err e, mkWconn (sent c ++ ztake n bs) rs)
  | None :: rs => (Ok tt, mkWconn (sent c ++ bs) rs)
  | [] => (Ok tt, mkWconn (sent c ++ bs) [])
  end.

(** [Worker.write] *)
Definition worker_write (ss : session) (pack : list Z) : go wconn unit :=
  pack ← lift (encrypt ss pack);
  wrapping (fun e => EWrap e "send packet failed" []) (conn_Write (frame_of pack)).

(** [Client.write] *)
Definition client_write (pack : list Z) : go wconn unit :=
  wrapping (fun e => EWrap e "write pack failed. len=%d" [AZ (zlen pack)]) (conn_Write (frame_of pack)).
End codec.

(** ** The length header *)

(** Bit [i] of the byte of [v] at position [s], put back in place. *)
Lemma byte_bit v s i : 0 <= s -> 0 <= i ->
  Z.testbit (Z.shiftl (Z.land (Z.shiftr v s) 255) s) i
  = (s <=? i) && (i <? s + 8) && Z.testbit v i.
Proof.
  intros Hs Hi. rewrite Z.shiftl_spec by done.
  destruct (Z.leb_spec s i); cbn [andb]; [|by rewrite Z.testbit_neg_r by lia].
  rewrite Z.land_spec, Z.shiftr_spec by lia. change 255 with (Z.ones 8).
  rewrite Z.testbit_ones_nonneg by lia. replace (i - s + s) with i by lia.
  rewrite andb_comm. f_equal. destruct (Z.ltb_spec (i - s) 8), (Z.ltb_spec i (s + 8)); done || lia.
Qed.

Lemma be32_value v : 0 <= v < 2 ^ 32 ->
  Z.lor (Z.shiftl (Z.land (Z.shiftr v 24) 255) 24)
    (Z.lor (Z.shiftl (Z.land (Z.shiftr v 16) 255) 16)
      (Z.lor (Z.shiftl (Z.land (Z.shiftr v 8) 255) 8) (Z.land v 255))) = v.
Proof.
  intros Hv. apply Z.bits_inj'. intros i Hi. rewrite !Z.lor_spec, !byte_bit by lia.
  assert (Z.testbit (Z.land v 255) i = (0 <=? i) && (i <? 0 + 8) && Z.testbit v i) as ->.
  { rewrite <- byte_bit by lia. by rewrite Z.shiftl_0_r, Z.shiftr_0_r. }
  destruct (Z.lt_ge_cases i 32).
  - zcase; try lia; cbn [andb orb]; by rewrite ?orb_false_r.
  - assert (Z.testbit v i = false) as ->.
    { destruct (decide (v = 0)) as [->|]; [apply Z.bits_0|]. apply Z.bits_above_log2; [lia|].
      apply Z.log2_lt_pow2; [lia|]. eapply Z.lt_le_trans; [apply Hv|]. apply Z.pow_le_mono_r; lia. }
    by rewrite !andb_false_r.
Qed.

Lemma read_be32_be32 v rest : 0 <= v < 2 ^ 32 -> read_be32 (be32 v ++ rest) = Ok (int32 v).
Proof. intros Hv. unfold be32, read_be32. cbn [app]. by rewrite be32_value. Qed.

Lemma zlen_be32 v : zlen (be32 v) = 4.
Proof. done. Qed.

Lemma frame_header (pack : list Z) : zlen pack < 2 ^ 31 -> read_be32 (be32 (uint32 (zlen pack))) = Ok (zlen pack).
Proof.
  intros H. rewrite <- (app_nil_r (be32 _)), read_be32_be32 by (apply wrapU_range; lia).
  rewrite wrapU_id, wrapS_id by lia. done.
Qed.

(** ** Reading what was written *)

Section frames.
Context `{C : Cipher} (p : SyncPool).
Hypothesis init : init_pool = Some (Ok p).

(** [ReadFull] as seen by the frame readers. *)
Lemma ReadFull_view F st b ch n :
  gate_reader p F st b -> 0 <= n <= 2 ^ 60 -> n <= zlen (pending st) ->
  exists s st' b', ReadFull ch n st = (Ok (Some s), st') /\ gate_reader p F st' b' /\
    bytes_of (m_heap (rs_mem st')) s = ztake n (pending st) /\
    pending st' = zdrop n (pending st) /\ arr s = arr b'.
Proof.
  intros H Hn Hp. pose proof (gate_spec p init) as PS.
  pose proof (ReadFull_ok (fun s Hs => Hs) ch F st b n H Hn) as HR. rewrite decide_True in HR by done.
  destruct HR as (s & st' & b' & E & Hi & _ & Hb & Hpe & Ha). exists s, st', b'. auto.
Qed.

(** The header of any frame is read as its signed 32-bit value. *)
Lemma worker_read_header F st b ss ch1 ch2 v rest :
  gate_reader p F st b -> pending st = be32 v ++ rest -> 0 <= v < 2 ^ 32 ->
  exists st' b', gate_reader p F st' b' /\ pending st' = rest /\
    worker_read ss ch1 ch2 st =
      (if int32 v <=? 0 then throw (ENew "packet len must greater than 0" [])
       else if MaxBodySize <? int32 v then
         throw (ENew "packet len=%d must less than %d" [AZ (int32 v); AZ MaxBodySize])
       else
         buf ← wrapping (fun e => EWrap e "read packet body failed. len=%d" [AZ (int32 v)])
                 (ReadFull ch2 (int32 v));
         bs ← view buf;
         lift (decrypt ss bs)) st'.
Proof.
  intros H Hp Hv.
  destruct (ReadFull_view F st b ch1 4 H) as (s & st' & b' & E & Hi & Hb & Hpe & _);
    [lia|rewrite Hp; simpl; lia|].
  exists st', b'. split; [done|]. rewrite Hp in Hb, Hpe. split; [exact Hpe|].
  cbv [worker_read wrapping mbind go_bind PackLenSize view gets lift]. rewrite E. cbn [map_err]. rewrite Hb. change (ztake 4 (be32 v ++ rest)) with (be32 v ++ []).
  rewrite read_be32_be32 by done. reflexivity.
Qed.

Lemma worker_read_frame F st b ss ch1 ch2 (body rest : list Z) :
  gate_reader p F st b -> pending st = frame_of body ++ rest ->
  0 < zlen body <= MaxBodySize ->
  exists st' b', worker_read ss ch1 ch2 st = (decrypt ss body, st') /\
    gate_reader p F st' b' /\ pending st' = rest.
Proof.
  intros H Hp Hl. change MaxBodySize with 16384 in Hl.
  unfold frame_of in Hp. rewrite <- app_assoc in Hp. rewrite wrapU_id in Hp by lia.
  destruct (worker_read_header F st b ss ch1 ch2 _ _ H Hp) as (st1 & b1 & H1 & Hp1 & E); [lia|].
  rewrite E, wrapS_id by lia. change MaxBodySize with 16384. zcase; try lia.
  destruct (ReadFull_view F st1 b1 ch2 (zlen body) H1) as (s & st2 & b2 & E2 & Hi2 & Hb2 & Hp2 & _);
    [lia|rewrite Hp1, length_app; lia|].
  exists st2, b2. rewrite Hp1 in Hb2, Hp2. rewrite ztake_app in Hb2 by done. rewrite zdrop_app in Hp2 by done.
  split; [|done]. cbv [wrapping mbind go_bind view gets lift]. rewrite E2. cbn [map_err]. by rewrite Hb2.
Qed.

Lemma client_read_frame F st b ch1 ch2 (body rest : list Z) :
  gate_reader p F st b -> pending st = frame_of body ++ rest -> zlen body < 2 ^ 31 ->
  exists s st' b', client_read ch1 ch2 st = (Ok (Some s), st') /\
    bytes_of (m_heap (rs_mem st')) s = body /\ gate_reader p F st' b' /\ pending st' = rest /\ arr s = arr b'.
Proof.
  intros H Hp Hl. unfold frame_of in Hp. rewrite <- app_assoc in Hp.
  destruct (ReadFull_view F st b ch1 4 H) as (s1 & st1 & b1 & E1 & Hi1 & Hb1 & Hp1 & _);
    [lia|rewrite Hp; simpl; lia|].
  rewrite Hp in Hb1, Hp1.
  change (ztake 4 _) with (be32 (uint32 (zlen body))) in Hb1. change (zdrop 4 _) with (body ++ rest) in Hp1.
  destruct (ReadFull_view F st1 b1 ch2 (zlen body) Hi1) as (s & st2 & b2 & E2 & Hi2 & Hb2 & Hp2 & Ha2);
    [lia|rewrite Hp1, length_app; lia|].
  rewrite Hp1 in Hb2, Hp2. rewrite ztake_app in Hb2 by done. rewrite zdrop_app in Hp2 by done.
  exists s, st2, b2. split; [|done].
  cbv [client_read wrapping mbind go_bind PackLenSize view gets lift]. rewrite E1. cbn [map_err].
  rewrite Hb1, frame_header by done. rewrite E2. done.
Qed.

(** On a connection that has ended, [Client.read] fails. *)
Lemma client_read_end F st b ch1 ch2 : gate_reader p F st b -> pending st = [] ->
  exists e st', client_read ch1 ch2 st = (Err e, st').
Proof.
  intros H Hp. pose proof (gate_spec p init) as PS.
  pose proof (ReadFull_ok (fun s Hs => Hs) ch1 F st b 4 H ltac:(lia)) as HR.
  rewrite decide_False in HR by (rewrite Hp; cbn; lia). destruct HR as (st' & b' & E & _).
  cbv [client_read wrapping mbind go_bind PackLenSize]. rewrite E. by eexists _, _.
Qed.

(** Reads [k] frames in sequence. *)
Fixpoint read_frames (ss : session) (chs : list (option nat * option nat)) : go rstate (list (list Z)) :=
  match chs with
  | [] => mret []
  | (c1, c2) :: chs => d ← worker_read ss c1 c2; ds ← read_frames ss chs; mret (d :: ds)
  end.

Lemma read_frames_ok `{!CipherLaws C} F ss chs packs bodies st b rest :
  Forall2 (fun pack body => encrypt ss pack = Ok body /\ 0 < zlen body <= MaxBodySize) packs bodies ->
  length chs = length packs ->
  gate_reader p F st b -> pending st = mjoin (map frame_of bodies) ++ rest ->
  exists st' b', read_frames ss chs st = (Ok packs, st') /\ gate_reader p F st' b' /\ pending st' = rest.
Proof.
  intros HF. revert chs st b. induction HF as [|pack body packs bodies [He Hl] HF IH];
    intros [|[c1 c2] chs] st b Hlen H Hp; try done.
  - exists st, b. done.
  - cbn [map mjoin list_join] in Hp. rewrite <- app_assoc in Hp.
    destruct (worker_read_frame F st b ss c1 c2 body _ H Hp Hl) as (st1 & b1 & E1 & H1 & Hp1).
    rewrite (decrypt_encrypt _ _ _ He) in E1.
    destruct (IH chs st1 b1) as (st2 & b2 & E2 & H2 & Hp2); [by injection Hlen|done|done|].
    exists st2, b2. split; [|done]. cbn [read_frames]. cbv [mbind go_bind mret go_ret].
    by rewrite E1, E2.
Qed.
End frames.

(** ** Properties *)

Lemma open_reader p conn size :
  init_pool = Some (Ok p) -> pow2 size -> pool_inv p gate_cap ∅ (fst (start p)) ->
  exists st b, NewReader None conn size (fst (start p)) = Ok st /\ gate_reader p ∅ st b /\
    pending st = stream conn.
Proof.
  intros E Hs Hi. pose proof (gate_spec p E) as PS.
  destruct (NewReader_ok None conn size ∅ _ Hi Hs) as (st & b & En & Hr & _ & Hp & _). eauto.
Qed.

(** C3: Packets survive the wire: when the peer sends [packs], each encrypted
    under the session to at most [MaxBodySize] bytes and framed, the worker's
    reads on the connection return exactly [packs], in order, whatever the
    chunking of the connection and the pool's choices. *)
Theorem frames_round_trip `{C : Cipher} `{!CipherLaws C} (ss : session)
    (packs bodies : list (list Z)) (chs : list (option nat * option nat)) (conn : list revent) :
  Forall2 (fun pack body => encrypt ss pack = Ok body /\ 0 < zlen body <= MaxBodySize) packs bodies ->
  length chs = length packs ->
  stream conn = mjoin (map frame_of bodies) ->
  exists p st st', init_pool = Some (Ok p) /\ NewReader None conn 8192 (fst (start p)) = Ok st /\
    read_frames ss chs st = (Ok packs, st').
Proof.
  intros HF Hlen Hs. destruct init_pool_ok as (p & E & Hi).
  destruct (open_reader p conn 8192 E) as (st & b & En & Hr & Hp); [by exists 13|done|].
  destruct (read_frames_ok p E ∅ ss chs packs bodies st b [] HF Hlen Hr) as (st' & b' & Er & _).
  { by rewrite Hp, Hs, app_nil_r. }
  exists p, st, st'. auto.
Qed.

(** C30: The length check: a header whose signed value is not in
    [1 .. MaxBodySize] is rejected before any byte of the body is read, zero and
    negative lengths with one error, too large ones with the other. *)
Theorem bad_length_rejected `{C : Cipher} (ss : session) (ch1 ch2 : option nat) (v : Z)
    (rest : list Z) (conn : list revent) :
  0 <= v < 2 ^ 32 -> ~ (0 < int32 v <= MaxBodySize) ->
  stream conn = be32 v ++ rest ->
  exists p st st', init_pool = Some (Ok p) /\ NewReader None conn 8192 (fst (start p)) = Ok st /\
    worker_read ss ch1 ch2 st =
      (Err (if int32 v <=? 0 then ENew "packet len must greater than 0" []
            else ENew "packet len=%d must less than %d" [AZ (int32 v); AZ MaxBodySize]), st') /\
    pending st' = rest.
Proof.
  intros Hv Hbad Hs. destruct init_pool_ok as (p & E & Hi).
  destruct (open_reader p conn 8192 E) as (st & b & En & Hr & Hp); [by exists 13|done|].
  destruct (worker_read_header p E ∅ st b ss ch1 ch2 v rest Hr) as (st' & b' & _ & Hp' & Ew);
    [by rewrite Hp|done|].
  exists p, st, st'. do 2 (split; [done|]). split; [|done]. rewrite Ew.
  destruct (Z.leb_spec (int32 v) 0); [done|]. destruct (Z.ltb_spec MaxBodySize (int32 v)); [done|lia].
Qed.

(** Server to client: when [Worker.write] succeeds, the bytes it adds to
    the connection are one frame; the client's [read] on those bytes returns a
    slice that shows, at that moment, a body which the session decrypts to the
    packet written. *)
Theorem write_then_client_read `{C : Cipher} `{!CipherLaws C} (ss : session) (pack body : list Z)
    (c c' : wconn) (conn : list revent) :
  encrypt ss pack = Ok body -> zlen body < 2 ^ 31 ->
  worker_write ss pack c = (Ok tt, c') -> stream conn = zdrop (zlen (sent c)) (sent c') ->
  exists p st s st', init_pool = Some (Ok p) /\ NewReader None conn 4096 (fst (start p)) = Ok st /\
    client_read None None st = (Ok (Some s), st') /\
    decrypt ss (bytes_of (m_heap (rs_mem st')) s) = Ok pack /\ pending st' = [].
Proof.
  intros He Hl Hw Hs.
  assert (sent c' = sent c ++ frame_of body) as Hsent.
  { cbv [worker_write lift mbind go_bind wrapping] in Hw. rewrite He in Hw. unfold conn_Write in Hw.
    destruct (wresults c) as [|[[n e]|] rs]; cbn in Hw; by simplify_eq. }
  rewrite Hsent, zdrop_app in Hs by done.
  destruct init_pool_ok as (p & E & Hi).
  destruct (open_reader p conn 4096 E) as (st & b & En & Hr & Hp); [by exists 12|done|].
  destruct (client_read_frame p E ∅ st b None None body [] Hr) as (s & st' & b' & Er & Hb & _ & Hp' & _);
    [by rewrite Hp, Hs, app_nil_r|done|].
  exists p, st, s, st'. rewrite Hb. do 3 (split; [done|]). split; [by eapply decrypt_encrypt|done].
Qed.

(** The reader the client's [Start] opens on the gateway pool. *)
Lemma client_reader_state p conn :
  init_pool = Some (Ok p) ->
  NewReader None conn 4096 (fst (start p)) =
    Ok (mkR (mkMem (mkHeap {[0%nat := replicate 5120 0]} 1) p)
            (mkReader (Some (mkSlice 0 0 4096 5120)) 0 0 false) conn).
Proof.
  intros E. unfold init_pool in E. destruct (gate_pool_sizes p E) as (_ & Hm & Hsz & Hc).
  unfold NewReader, start. cbn [fst].
  rewrite (Alloc_new p empty_heap 4096 3 (mkClass 5120 [])).
  - rewrite reslice_ok by (cbn [make_bytes fst c_new cap]; lia). done.
  - lia.
  - by rewrite (gate_lookup p 4096 E) by lia.
  - by rewrite Hc, Hsz.
Qed.

(** A packet the client puts on [receivePackChan] is a window on the
    reader's buffer: after the next [read] it can show other bytes.  Two frames
    arriving in separate chunks: the first packet reads [65], and after the
    second read the same slice reads [66]. *)
Theorem client_pack_overwritten :
  exists p st s1 st1 s2 st2, init_pool = Some (Ok p) /\
    NewReader None [RData (frame_of [65]); RData (frame_of [66])] 4096 (fst (start p)) = Ok st /\
    client_read None None st = (Ok (Some s1), st1) /\ bytes_of (m_heap (rs_mem st1)) s1 = [65] /\
    client_read None None st1 = (Ok (Some s2), st2) /\ bytes_of (m_heap (rs_mem st2)) s1 = [66] /\
    bytes_of (m_heap (rs_mem st2)) s2 = [66].
Proof.
  destruct init_pool_ok as (p & E & _). exists p.
  eexists. do 4 eexists. split; [done|]. split; [by apply client_reader_state|].
  split; [vm_compute; reflexivity|]. split; [vm_compute; reflexivity|].
  split; [vm_compute; reflexivity|]. split; vm_compute; reflexivity.
Qed.

(** ** Witnesses *)

Lemma frames_round_trip_witness :
  exists p st st', init_pool = Some (Ok p) /\
    NewReader None [RData (frame_of [42; 1; 2]); RData (frame_of [42; 3])] 8192 (fst (start p)) = Ok st /\
    read_frames (C := tag_cipher) tag_session [(None, None); (None, None)] st = (Ok [[1; 2]; [3]], st').
Proof.
  pose proof tag_cipher_laws as L.
  apply (frames_round_trip (C := tag_cipher) tag_session [[1; 2]; [3]] [[42; 1; 2]; [42; 3]]
           [(None, None); (None, None)] [RData (frame_of [42; 1; 2]); RData (frame_of [42; 3])]).
  - repeat constructor; vm_compute; discriminate.
  - reflexivity.
  - reflexivity.
Defined.

Lemma bad_length_rejected_witness :
  exists p st st', init_pool = Some (Ok p) /\
    NewReader None [RData (be32 4294967295 ++ [9])] 8192 (fst (start p)) = Ok st /\
    worker_read (C := tag_cipher) tag_session None None st =
      (Err (ENew "packet len must greater than 0" []), st') /\ pending st' = [9].
Proof.
  apply (bad_length_rejected (C := tag_cipher) tag_session None None 4294967295 [9]
           [RData (be32 4294967295 ++ [9])]).
  - lia.
  - vm_compute. intros [? _]. discriminate.
  - reflexivity.
Defined.

Lemma write_then_client_read_witness :
  exists p st s st', init_pool = Some (Ok p) /\
    NewReader None [RData (frame_of [42; 5])] 4096 (fst (start p)) = Ok st /\
    client_read None None st = (Ok (Some s), st') /\
    decrypt (C := tag_cipher) tag_session (bytes_of (m_heap (rs_mem st')) s) = Ok [5] /\ pending st' = [].
Proof.
  pose proof tag_cipher_laws as L.
  apply (write_then_client_read (C := tag_cipher) tag_session [5] [42; 5] (mkWconn [1] [])
           (mkWconn (1 :: frame_of [42; 5]) []) [RData (frame_of [42; 5])]); reflexivity.
Defined.
