(* ===== verification/Buckets.v ===== *)
(** The worker registry of src/pkg/net/internal/buckets.go: workers sharded by
    id into buckets, and the package-level map from user id to worker id.

    A [*Worker] is its address with the two fields the registry reads (its id
    and, through the session, its user id, both fixed once it is registered).
    Bucket operations run under the bucket's lock: each is one atomic step. *)
From S2P Require Import Prelude.

Record wref := mkW { w_ptr : nat; WID : Z; w_uid : Z }.

#[export] Instance wref_eq_dec : EqDecision wref.
Proof. solve_decision. Defined.

(** [w == dw]: pointer equality. *)
Definition same_worker (a b : wref) : bool := (w_ptr a =? w_ptr b)%nat.

Record Buckets := mkBuckets { buckets : list (gmap Z wref); bucketSize : Z }.

(** The buckets and the global [uidWidMap]. *)
Record bstate := mkB { bs : Buckets; uidWidMap : gmap Z Z }.

Definition ErrMakeSlice : error := ENew "runtime error: makeslice: len out of range" [].

Definition newBucket (workerSize : Z) : gmap Z wref := ∅.

Definition NewBuckets (BucketSize WorkerSize : Z) : result Buckets :=
  if BucketSize <? 0 then Panic (PanicErr ErrMakeSlice)
  else Ok (mkBuckets (replicate (Z.to_nat BucketSize) (newBucket WorkerSize)) (uint32 BucketSize)).

(** [key % uint64(bs.bucketSize)] and the bucket there. *)
Definition bucket_idx (b : Buckets) (key : Z) : result nat :=
  if bucketSize b =? 0 then Panic DivZero
  else
    let idx := Z.to_nat (key mod bucketSize b) in
    if (idx <? length (buckets b))%nat then Ok idx else Panic IndexRange.

Definition Bucket (b : Buckets) (key : Z) : result (gmap Z wref) :=
  idx ← bucket_idx b key; Ok (default ∅ (buckets b !! idx)).

(** [Bucket.get] and [Buckets.Worker]; [None] is a nil worker. *)
Definition bucket_get (b : gmap Z wref) (key : Z) : option wref := b !! key.

Definition Worker (b : Buckets) (key : Z) : result (option wref) :=
  m ← Bucket b key; Ok (bucket_get m key).

Definition set_bucket (s : bstate) (idx : nat) (m : gmap Z wref) (u : gmap Z Z) : bstate :=
  mkB (mkBuckets (<[idx := m]> (buckets (bs s))) (bucketSize (bs s))) u.

(** [Bucket.put] under [Buckets.Put]: returns the worker it replaced. *)
Definition Put (w : wref) : go bstate (option wref) := fun s =>
  match bucket_idx (bs s) (WID w) with
  | Ok idx =>
      let m := default ∅ (buckets (bs s) !! idx) in
      let old := m !! WID w in
      (Ok old, set_bucket s idx (<[WID w := w]> m) (<[w_uid w := WID w]> (uidWidMap s)))
  | Err e => (Err e, s)
  | Panic q => (Panic q, s)
  end.

(** [Bucket.del] under [Buckets.Del]. *)
Definition Del (dw : wref) : go bstate unit := fun s =>
  match bucket_idx (bs s) (WID dw) with
  | Ok idx =>
      let m := default ∅ (buckets (bs s) !! idx) in
      match m !! WID dw with
      | Some w =>
          if same_worker w dw then
            (Ok tt, set_bucket s idx (delete (WID w) m) (delete (w_uid w) (uidWidMap s)))
          else (Ok tt, s)
      | None => (Ok tt, s)
      end
  | Err e => (Err e, s)
  | Panic q => (Panic q, s)
  end.

(** [uidWidMap.Load(uid)] then [bs.Worker(wid)]: two steps, no common lock;
    [env] is what other goroutines do to the registry in between. *)
Definition GetByUID_env (env : bstate -> bstate) (uid : Z) (s : bstate) : result (option wref) * bstate :=
  match uidWidMap s !! uid with
  | None => (Ok None, s)
  | Some wid => let s' := env s in (Worker (bs s') wid, s')
  end.

Definition GetByUID (uid : Z) (s : bstate) : result (option wref) := fst (GetByUID_env (fun s => s) uid s).

(** [GetByUIDs]: appends [bs.Worker(wid)] unchecked, so a nil worker can be in
    the list. *)
Fixpoint GetByUIDs_env (envs : list (bstate -> bstate)) (uids : list Z) (s : bstate)
    : result (list (option wref)) :=
  match uids with
  | [] => Ok []
  | uid :: uids =>
      let env := hd (fun s => s) envs in
      match uidWidMap s !! uid with
      | None => GetByUIDs_env (tl envs) uids s
      | Some wid =>
          let s' := env s in
          w ← Worker (bs s') wid;
          ws ← GetByUIDs_env (tl envs) uids s';
          Ok (w :: ws)
      end
  end.

Definition GetByUIDs (uids : list Z) (s : bstate) : result (list (option wref)) := GetByUIDs_env [] uids s.

(** ** Walking *)

Section walk.
Context {S : Type}.

(** Go iterates a map in any order: [iter] is the order of this run. *)
Context (iter : gmap Z wref -> list wref).

(** [Bucket.snapshot]: a copy of the map. *)
Definition snapshot (b : gmap Z wref) : gmap Z wref := b.

Fixpoint walk_loop (f : wref -> S -> bool * S) (ws : list wref) (s : S) : S :=
  match ws with
  | [] => s
  | w :: ws => let '(continued, s') := f w s in if continued then walk_loop f ws s' else s'
  end.

(** [Bucket.walk] *)
Definition walk (f : wref -> S -> bool * S) (b : gmap Z wref) (s : S) : S :=
  walk_loop f (iter (snapshot b)) s.

Definition Walk (f : wref -> S -> bool * S) (b : Buckets) (s : S) : S :=
  foldl (fun s b => walk f b s) s (buckets b).
End walk.

(** ** Specification: one map from id to worker, one from user to id *)

Definition spec := (gmap Z wref * gmap Z Z)%type.

Definition spec_put (w : wref) (m : spec) : spec := (<[WID w := w]> m.1, <[w_uid w := WID w]> m.2).

Definition spec_del (dw : wref) (m : spec) : spec :=
  match m.1 !! WID dw with
  | Some w => if same_worker w dw then (delete (WID w) m.1, delete (w_uid w) m.2) else m
  | None => m
  end.

Inductive reg_op := RPut (w : wref) | RDel (w : wref).

Definition spec_op (o : reg_op) : spec -> spec :=
  match o with RPut w => spec_put w | RDel w => spec_del w end.

Definition reg_step (o : reg_op) : go bstate unit :=
  match o with RPut w => Put w ;; mret tt | RDel w => Del w end.

Fixpoint run_reg (ops : list reg_op) : go bstate unit :=
  match ops with [] => mret tt | o :: ops => reg_step o ;; run_reg ops end.

Definition spec_run (ops : list reg_op) (m : spec) : spec := foldl (fun m o => spec_op o m) m ops.

(** The shards hold exactly the entries of the map that hash to them, under
    their own ids. *)
Record shards (s : bstate) (m : spec) : Prop := {
  sh_size : 0 < bucketSize (bs s);
  sh_len : length (buckets (bs s)) = Z.to_nat (bucketSize (bs s));
  sh_entry : forall i b k, buckets (bs s) !! i = Some b ->
    b !! k = if decide (k mod bucketSize (bs s) = Z.of_nat i) then m.1 !! k else None;
  sh_uid : uidWidMap s = m.2;
  sh_key : forall k w, m.1 !! k = Some w -> WID w = k;
}.

Lemma bucket_idx_ok s m key : shards s m ->
  exists i b, bucket_idx (bs s) key = Ok i /\ buckets (bs s) !! i = Some b /\
    key mod bucketSize (bs s) = Z.of_nat i.
Proof.
  intros H. pose proof (sh_size _ _ H). pose proof (Z.mod_pos_bound key (bucketSize (bs s)) ltac:(lia)).
  assert (Z.to_nat (key mod bucketSize (bs s)) < length (buckets (bs s)))%nat as Hlt
    by (rewrite (sh_len _ _ H); lia).
  destruct (lookup_lt_is_Some_2 _ _ Hlt) as [b Hb].
  exists (Z.to_nat (key mod bucketSize (bs s))), b. unfold bucket_idx.
  destruct (Z.eqb_spec (bucketSize (bs s)) 0); [lia|].
  destruct (Nat.ltb_spec (Z.to_nat (key mod bucketSize (bs s))) (length (buckets (bs s)))); [|lia].
  repeat split; done || lia.
Qed.

Lemma Worker_spec s m key : shards s m -> Worker (bs s) key = Ok (m.1 !! key).
Proof.
  intros H. destruct (bucket_idx_ok s m key H) as (i & b & Ei & Hb & Hk).
  unfold Worker, Bucket. cbn. rewrite Ei. cbn. rewrite Hb. cbn. unfold bucket_get.
  by rewrite (sh_entry _ _ H i b key Hb), decide_True.
Qed.

(** Replacing one entry of the shard a key belongs to. *)
Lemma shards_update s m i b key (f : gmap Z wref -> gmap Z wref) m' u' :
  shards s m -> buckets (bs s) !! i = Some b -> key mod bucketSize (bs s) = Z.of_nat i ->
  (forall k, k <> key -> f b !! k = b !! k) -> f b !! key = m' !! key ->
  (forall k, k <> key -> m' !! k = m.1 !! k) -> (forall k w, m' !! k = Some w -> WID w = k) ->
  shards (set_bucket s i (f b) u') (m', u').
Proof.
  intros H Hb Hk Hne Heq Hm Hkey. split; cbn [set_bucket bs buckets bucketSize uidWidMap fst snd]; try done.
  - apply H.
  - rewrite length_insert. apply H.
  - intros j c k Hc. apply list_lookup_insert_Some in Hc as [(<- & <- & _)|[Hij Hc]].
    + destruct (decide (k = key)) as [->|Hkk]; [by rewrite decide_True|].
      rewrite Hne, Hm by done. by apply (sh_entry _ _ H).
    + rewrite (sh_entry _ _ H j c k Hc). case_decide as Hd; [|done].
      symmetry. apply Hm. intros ->. apply Hij. apply Nat2Z.inj. congruence.
Qed.

Lemma Put_spec w s m : shards s m ->
  exists s', Put w s = (Ok (m.1 !! WID w), s') /\ shards s' (spec_put w m).
Proof.
  intros H. destruct (bucket_idx_ok s m (WID w) H) as (i & b & Ei & Hb & Hk).
  unfold Put. rewrite Ei. cbn zeta. rewrite Hb. cbn [from_option id].
  rewrite (sh_entry _ _ H i b (WID w) Hb), decide_True by done. eexists. split; [reflexivity|].
  rewrite (sh_uid _ _ H).
  apply (shards_update s m i b (WID w) (fun b => <[WID w := w]> b)); try done.
  - intros k Hne. by apply lookup_insert_ne.
  - by rewrite !lookup_insert_eq.
  - intros k Hne. by apply lookup_insert_ne.
  - intros k w' Hw. apply lookup_insert_Some in Hw as [[<- <-]|[_ Hw]]; [done|]. by apply (sh_key _ _ H).
Qed.

Lemma Del_spec w s m : shards s m ->
  exists s', Del w s = (Ok tt, s') /\ shards s' (spec_del w m).
Proof.
  intros H. destruct (bucket_idx_ok s m (WID w) H) as (i & b & Ei & Hb & Hk).
  unfold Del, spec_del. rewrite Ei. cbn zeta. rewrite Hb. cbn [from_option id].
  rewrite (sh_entry _ _ H i b (WID w) Hb), decide_True by done.
  destruct (m.1 !! WID w) as [w'|] eqn:Ew; [|by eexists]. destruct (same_worker w' w); [|by eexists].
  eexists. split; [reflexivity|]. rewrite (sh_uid _ _ H). pose proof (sh_key _ _ H _ _ Ew) as E.
  apply (shards_update s m i b (WID w) (fun b => delete (WID w') b)); try done; rewrite ?E.
  - intros k Hne. by apply lookup_delete_ne.
  - by rewrite !lookup_delete_eq.
  - intros k Hne. by apply lookup_delete_ne.
  - intros k w'' Hw. apply lookup_delete_Some in Hw as [_ Hw]. by apply (sh_key _ _ H).
Qed.

Lemma run_reg_spec ops s m : shards s m ->
  exists s', run_reg ops s = (Ok tt, s') /\ shards s' (spec_run ops m).
Proof.
  revert s m. induction ops as [|o ops IH]; intros s m H; [by eexists|].
  assert (exists s', reg_step o s = (Ok tt, s') /\ shards s' (spec_op o m)) as (s1 & E1 & H1).
  { destruct o as [w|w]; cbn [reg_step spec_op].
    - destruct (Put_spec w s m H) as (s1 & E & H1). exists s1. cbv [mbind go_bind mret go_ret]. by rewrite E.
    - by apply Del_spec. }
  destruct (IH s1 _ H1) as (s2 & E2 & H2). exists s2. split; [|done].
  cbn [run_reg]. cbv [mbind go_bind]. by rewrite E1, E2.
Qed.

Lemma NewBuckets_shards n ws : 0 < n < 2 ^ 32 ->
  exists b, NewBuckets n ws = Ok b /\ shards (mkB b ∅) (∅, ∅).
Proof.
  intros Hn. unfold NewBuckets. destruct (Z.ltb_spec n 0); [lia|]. eexists. split; [reflexivity|].
  split; cbn [bs buckets bucketSize uidWidMap fst snd]; rewrite ?wrapU_id by lia; try done; [lia|by rewrite length_replicate|].
  intros i b k Hb. apply lookup_replicate in Hb as [-> _]. rewrite !lookup_empty. by case_decide.
Qed.

(** C6: The sharded registry refines one map from worker id to worker and one
    map from user id to worker id: after any sequence of [Put]s and [Del]s on a
    new [Buckets] no operation has failed or panicked, [Buckets.Worker] finds
    exactly the worker the map has under the key, and [uidWidMap] is the
    specification's. *)
Theorem registry_refines_map n ws ops : 0 < n < 2 ^ 32 ->
  exists b s', NewBuckets n ws = Ok b /\ run_reg ops (mkB b ∅) = (Ok tt, s') /\
    (forall key, Worker (bs s') key = Ok ((spec_run ops (∅, ∅)).1 !! key)) /\
    uidWidMap s' = (spec_run ops (∅, ∅)).2.
Proof.
  intros Hn. destruct (NewBuckets_shards n ws Hn) as (b & E & H).
  destruct (run_reg_spec ops _ _ H) as (s' & E' & H'). exists b, s'.
  repeat split; [done..| |apply H']. intros key. by apply Worker_spec.
Qed.

Definition wA : wref := mkW 0 7 100.
Definition wB : wref := mkW 1 8 100.
Definition wC : wref := mkW 2 263 200.

Lemma registry_refines_map_witness :
  exists b s', NewBuckets 256 16 = Ok b /\ run_reg [RPut wA; RPut wC; RDel wA] (mkB b ∅) = (Ok tt, s') /\
    Worker (bs s') 263 = Ok (Some wC) /\ Worker (bs s') 7 = Ok None.
Proof.
  destruct (registry_refines_map 256 16 [RPut wA; RPut wC; RDel wA]) as (b & s' & E & E' & Hw & _); [lia|].
  exists b, s'. repeat split; [done|done|rewrite Hw; reflexivity|rewrite Hw; reflexivity].
Defined.

(** *** Looking a user up *)

Definition put_wids (ops : list reg_op) : list Z :=
  omap (fun o => match o with RPut w => Some (WID w) | RDel _ => None end) ops.

(** Every user entry points at a registered worker of that user. *)
Definition uids_ok (m : spec) : Prop :=
  (forall k w, m.1 !! k = Some w -> WID w = k) /\
  (forall u k, m.2 !! u = Some k -> exists w, m.1 !! k = Some w /\ w_uid w = u).

Lemma uids_ok_del w m : uids_ok m -> uids_ok (spec_del w m).
Proof.
  intros [Hk Hu]. unfold spec_del. destruct (m.1 !! WID w) as [w'|] eqn:E; [|by split].
  destruct (same_worker w' w); [|by split]. split; cbn [fst snd].
  - intros k v Hv. apply lookup_delete_Some in Hv as [_ Hv]. by apply Hk.
  - intros u k Hv. apply lookup_delete_Some in Hv as [Hne Hv]. destruct (Hu u k Hv) as (v & Hv1 & Hv2).
    exists v. split; [|done]. apply lookup_delete_Some. split; [|done]. intros <-.
    rewrite (Hk _ _ E) in Hv1. congruence.
Qed.

Lemma uids_ok_put w m : uids_ok m -> m.1 !! WID w = None -> uids_ok (spec_put w m).
Proof.
  intros [Hk Hu] Hf. split; cbn [spec_put fst snd].
  - intros k v Hv. apply lookup_insert_Some in Hv as [[<- <-]|[_ Hv]]; [done|by apply Hk].
  - intros u k Hv. apply lookup_insert_Some in Hv as [[<- <-]|[Hne Hv]].
    + exists w. by rewrite lookup_insert_eq.
    + destruct (Hu u k Hv) as (v & Hv1 & Hv2). exists v. split; [|done].
      rewrite lookup_insert_ne; [done|]. intros <-. congruence.
Qed.

Lemma spec_del_sub w m k v : (spec_del w m).1 !! k = Some v -> m.1 !! k = Some v.
Proof.
  unfold spec_del. destruct (m.1 !! WID w) as [w'|]; [|done]. destruct (same_worker w' w); [|done].
  cbn. intros H. by apply lookup_delete_Some in H as [_ H].
Qed.

Lemma uids_ok_run ops m : uids_ok m -> NoDup (put_wids ops) ->
  (forall k, k ∈ put_wids ops -> m.1 !! k = None) -> uids_ok (spec_run ops m).
Proof.
  revert m. induction ops as [|o ops IH]; intros m Hm Hd Hf; [done|].
  cbn [spec_run foldl]. destruct o as [w|w]; cbn [spec_op put_wids omap list_omap] in *.
  - apply NoDup_cons in Hd as [Hni Hd]. apply IH; [apply uids_ok_put; [done|]; apply Hf; left|done|].
    intros k Hin. cbn [spec_put fst]. rewrite lookup_insert_ne; [apply Hf; by right|]. by intros <-.
  - apply IH; [by apply uids_ok_del|done|]. intros k Hin.
    destruct ((spec_del w m).1 !! k) eqn:E; [|done]. apply spec_del_sub in E. by rewrite Hf in E.
Qed.

Lemma GetByUID_spec uid s m : shards s m -> uids_ok m ->
  GetByUID uid s = Ok (m.2 !! uid ≫= fun k => m.1 !! k).
Proof.
  intros H [_ Hu]. unfold GetByUID, GetByUID_env. rewrite (sh_uid _ _ H).
  destruct (m.2 !! uid) as [k|] eqn:E; [|done]. cbn [fst]. by rewrite (Worker_spec s m k H).
Qed.

Lemma GetByUIDs_spec uids s m : shards s m -> uids_ok m ->
  exists ws, GetByUIDs uids s = Ok (Some <$> ws) /\
    w_uid <$> ws = filter (fun u => is_Some (m.2 !! u)) uids /\
    Forall (fun w => m.2 !! w_uid w = Some (WID w) /\ m.1 !! WID w = Some w) ws.
Proof.
  intros H Hm. unfold GetByUIDs. induction uids as [|u uids (ws & E & Eu & HF)]; [by exists []|].
  cbn [GetByUIDs_env hd tl]. rewrite (sh_uid _ _ H). destruct (m.2 !! u) as [k|] eqn:Ek.
  - destruct (proj2 Hm u k Ek) as (w & Ew & Hw). rewrite (Worker_spec s m k H), Ew. cbv [mbind result_bind].
    rewrite E. exists (w :: ws). rewrite filter_cons_True by (rewrite Ek; eauto). rewrite !fmap_cons, Eu, Hw.
    repeat split; [done..|]. constructor; [|done]. by rewrite (proj1 Hm k w Ew), Hw.
  - exists ws. rewrite filter_cons_False by (rewrite Ek; by intros [? ?]). done.
Qed.

(** While no other goroutine interferes, a user lookup never returns a
    stale or foreign worker, provided worker ids are handed out once (as
    [Server.idGen] does): for every operation sequence and every list of users,
    [GetByUIDs] returns workers only (no nil), one per user that has an entry,
    in the order asked, each of that user and each the one registered under its
    id; and [GetByUID] is the same lookup for one user. *)
Theorem GetByUIDs_registered n ws ops uids : 0 < n < 2 ^ 32 -> NoDup (put_wids ops) ->
  exists b s' found, NewBuckets n ws = Ok b /\ run_reg ops (mkB b ∅) = (Ok tt, s') /\
    GetByUIDs uids s' = Ok (Some <$> found) /\
    w_uid <$> found = filter (fun u => is_Some (uidWidMap s' !! u)) uids /\
    Forall (fun w => Worker (bs s') (WID w) = Ok (Some w) /\ GetByUID (w_uid w) s' = Ok (Some w)) found.
Proof.
  intros Hn Hd. destruct (NewBuckets_shards n ws Hn) as (b & E & H).
  destruct (run_reg_spec ops _ _ H) as (s' & E' & H').
  assert (uids_ok (spec_run ops (∅, ∅))) as Hok.
  { apply uids_ok_run; [by split; intros ? ? Hl; cbn in Hl; rewrite lookup_empty in Hl|done|]. intros. apply lookup_empty. }
  destruct (GetByUIDs_spec uids s' _ H' Hok) as (found & Ef & Eu & HF).
  exists b, s', found. rewrite (sh_uid _ _ H'). repeat split; [done..|].
  eapply Forall_impl; [exact HF|]. intros w [Hu Hw]. split.
  - by rewrite (Worker_spec _ _ _ H'), Hw.
  - rewrite (GetByUID_spec _ _ _ H' Hok), Hu. cbn. by rewrite Hw.
Qed.

Lemma GetByUIDs_registered_witness :
  exists b s' found, NewBuckets 4 16 = Ok b /\ run_reg [RPut wA; RPut wC; RPut wB] (mkB b ∅) = (Ok tt, s') /\
    GetByUIDs [300; 200; 100] s' = Ok (Some <$> found) /\
    Forall (fun w => Worker (bs s') (WID w) = Ok (Some w)) found.
Proof.
  destruct (GetByUIDs_registered 4 16 [RPut wA; RPut wC; RPut wB] [300; 200; 100])
    as (b & s' & found & E & E' & Ef & _ & HF); [lia|apply (bool_decide_unpack _); reflexivity|].
  exists b, s', found. repeat split; [done..|]. eapply Forall_impl; [exact HF|]. by intros w [? _].
Defined.

(** No worker is put while another of the same user is registered. *)
Fixpoint one_per_user (ops : list reg_op) (m : spec) : bool :=
  match ops with
  | [] => true
  | o :: ops =>
      match o with
      | RPut w => bool_decide (map_Forall (fun _ w' => w_uid w' <> w_uid w) m.1)
      | RDel _ => true
      end && one_per_user ops (spec_op o m)
  end.

(** Users and workers correspond one to one. *)
Definition uids_exact (m : spec) : Prop :=
  (forall k w, m.1 !! k = Some w -> WID w = k) /\
  (forall u k, m.2 !! u = Some k <-> exists w, m.1 !! k = Some w /\ w_uid w = u).

Lemma uids_exact_op o m : uids_exact m -> one_per_user [o] m ->
  match o with RPut w => m.1 !! WID w = None | RDel _ => True end -> uids_exact (spec_op o m).
Proof.
  intros [Hk Hu] H1 Hf. assert (uids_ok m) as Hok by (split; [done|]; intros; by apply Hu).
  destruct o as [w|w]; cbn [spec_op one_per_user] in *.
  - rewrite andb_true_r in H1. apply bool_decide_unpack in H1.
    destruct (uids_ok_put w m Hok Hf) as [Hk' Hu']. split; [done|]. intros u k. split; [by apply Hu'|].
    intros (v & Hv & Hvu). cbn [spec_put fst snd] in *. apply lookup_insert_Some in Hv as [[<- <-]|[Hne Hv]].
    + rewrite <- Hvu. by rewrite lookup_insert_eq.
    + pose proof (H1 _ _ Hv) as Hd. cbn beta in Hd. rewrite lookup_insert_ne by congruence. apply Hu. eauto.
  - destruct (uids_ok_del w m Hok) as [Hk' Hu']. split; [done|]. intros u k. split; [by apply Hu'|].
    intros (v & Hv & Hvu). revert Hv. unfold spec_del. destruct (m.1 !! WID w) as [w'|] eqn:E; [|intros; apply Hu; eauto].
    destruct (same_worker w' w); [|intros; apply Hu; eauto]. cbn [fst snd]. intros Hv.
    apply lookup_delete_Some in Hv as [Hne Hv]. assert (m.2 !! u = Some k) as E2 by (apply Hu; eauto).
    rewrite lookup_delete_ne; [done|]. intros E3. apply Hne. rewrite (Hk _ _ E).
    assert (m.2 !! u = Some (WID w)) by (apply Hu; eauto). congruence.
Qed.

Lemma uids_exact_run ops m : uids_exact m -> one_per_user ops m -> NoDup (put_wids ops) ->
  (forall k, k ∈ put_wids ops -> m.1 !! k = None) -> uids_exact (spec_run ops m).
Proof.
  revert m. induction ops as [|o ops IH]; intros m Hm H1 Hd Hf; [done|].
  cbn [one_per_user] in H1. apply andb_True in H1 as [Ha Hb]. cbn [spec_run foldl].
  assert (uids_exact (spec_op o m)) as Hm'.
  { apply uids_exact_op; [done|cbn; by rewrite andb_true_r|]. destruct o as [w|w]; [|done]. apply Hf. left. }
  apply IH; [done|done| |]; destruct o as [w|w]; cbn [put_wids omap list_omap spec_op] in *.
  - by apply NoDup_cons in Hd as [_ Hd].
  - done.
  - intros k Hin. apply NoDup_cons in Hd as [Hni _]. cbn [spec_put fst].
    rewrite lookup_insert_ne; [apply Hf; by right|]. by intros <-.
  - intros k Hin. destruct ((spec_del w m).1 !! k) eqn:E; [|done]. apply spec_del_sub in E. by rewrite Hf in E.
Qed.

(** As long as no user has two connections registered at once, the user
    index is exact: [GetByUID] finds a worker exactly when it is registered and
    is that user's, so a push by user id reaches the user's connection. *)
Theorem GetByUID_complete n ws ops uid w : 0 < n < 2 ^ 32 -> NoDup (put_wids ops) ->
  one_per_user ops (∅, ∅) ->
  exists b s', NewBuckets n ws = Ok b /\ run_reg ops (mkB b ∅) = (Ok tt, s') /\
    (GetByUID uid s' = Ok (Some w) <-> Worker (bs s') (WID w) = Ok (Some w) /\ w_uid w = uid).
Proof.
  intros Hn Hd H1. destruct (NewBuckets_shards n ws Hn) as (b & E & H).
  destruct (run_reg_spec ops _ _ H) as (s' & E' & H'). exists b, s'. split; [done|]. split; [done|].
  assert (uids_exact (spec_run ops (∅, ∅))) as [Hk Hu].
  { apply uids_exact_run; [|done|done|intros; apply lookup_empty]. split.
    - intros ? ? Hl. cbn in Hl. by rewrite lookup_empty in Hl.
    - intros u k. cbn. split; [intros Hl|intros (v & Hl & _)]; by rewrite lookup_empty in Hl. }
  rewrite (GetByUID_spec _ _ _ H'), (Worker_spec _ _ _ H') by (split; [done|]; intros; by apply Hu).
  split.
  - intros Hg. injection Hg as Hg. apply bind_Some in Hg as (k & Ek & Ew).
    destruct (proj1 (Hu _ _) Ek) as (w' & Ew' & Hw'). rewrite (Hk _ _ Ew), Ew. split; congruence.
  - intros [Hw <-]. injection Hw as Hw. assert ((spec_run ops (∅, ∅)).2 !! w_uid w = Some (WID w)) as -> by (apply Hu; eauto).
    cbn. by rewrite Hw.
Qed.

Lemma GetByUID_complete_witness :
  exists b s', NewBuckets 4 16 = Ok b /\ run_reg [RPut wA; RPut wC; RDel wA; RPut wB] (mkB b ∅) = (Ok tt, s') /\
    (GetByUID 100 s' = Ok (Some wB) <-> Worker (bs s') (WID wB) = Ok (Some wB) /\ w_uid wB = 100).
Proof.
  apply (GetByUID_complete 4 16 [RPut wA; RPut wC; RDel wA; RPut wB] 100 wB);
    [lia|apply (bool_decide_unpack _); reflexivity|reflexivity].
Defined.

(** C22: When a user reconnects before the old connection is torn down, the
    teardown of the old worker removes the user's entry although it points at
    the new one: the new worker stays registered and can no longer be found by
    user id, whatever the other ids and the number of buckets are. *)
Theorem reconnect_loses_user n ws uid wid1 wid2 : 0 < n < 2 ^ 32 -> wid1 <> wid2 ->
  exists b s', NewBuckets n ws = Ok b /\
    run_reg [RPut (mkW 0 wid1 uid); RPut (mkW 1 wid2 uid); RDel (mkW 0 wid1 uid)] (mkB b ∅) = (Ok tt, s') /\
    Worker (bs s') wid2 = Ok (Some (mkW 1 wid2 uid)) /\ GetByUID uid s' = Ok None.
Proof.
  intros Hn Hne. destruct (NewBuckets_shards n ws Hn) as (b & E & H).
  destruct (run_reg_spec [RPut (mkW 0 wid1 uid); RPut (mkW 1 wid2 uid); RDel (mkW 0 wid1 uid)] _ _ H)
    as (s' & E' & H'). exists b, s'.
  unfold spec_run, foldl, spec_op, spec_put, spec_del in H'. cbn [fst snd WID w_uid] in H'.
  rewrite lookup_insert_ne, lookup_insert_eq in H' by congruence.
  unfold same_worker in H'. cbn [w_ptr Nat.eqb WID w_uid] in H'.
  repeat split; [done..| |].
  - rewrite (Worker_spec _ _ _ H'). cbn [fst]. by rewrite lookup_delete_ne, lookup_insert_eq by congruence.
  - unfold GetByUID, GetByUID_env. rewrite (sh_uid _ _ H'). cbn [snd]. by rewrite lookup_delete_eq.
Qed.

Lemma reconnect_loses_user_witness :
  exists b s', NewBuckets 4 16 = Ok b /\
    run_reg [RPut (mkW 0 7 100); RPut (mkW 1 8 100); RDel (mkW 0 7 100)] (mkB b ∅) = (Ok tt, s') /\
    Worker (bs s') 8 = Ok (Some (mkW 1 8 100)) /\ GetByUID 100 s' = Ok None.
Proof. apply (reconnect_loses_user 4 16 100 7 8); lia. Defined.

(** *** Walking *)

Definition visit (w : wref) (ws : list wref) : bool * list wref := (true, ws ++ [w]).

Lemma walk_loop_visit ws acc : walk_loop visit ws acc = acc ++ ws.
Proof.
  revert acc. induction ws as [|w ws IH]; intros acc; [by rewrite app_nil_r|].
  cbn. by rewrite IH, <- app_assoc.
Qed.

Lemma Walk_visit iter b acc : Walk iter visit b acc = acc ++ concat (iter <$> buckets b).
Proof.
  unfold Walk. destruct b as [l n]. cbn [buckets]. revert acc.
  induction l as [|m l IH]; intros acc; cbn; [by rewrite app_nil_r|].
  rewrite IH. unfold walk, snapshot. by rewrite walk_loop_visit, <- app_assoc.
Qed.

(** Lists whose elements carry the index of their list have nothing in common. *)
Lemma NoDup_concat_tagged {A} (tag : A -> Z) (ls : list (list A)) (off : Z) :
  (forall i l, ls !! i = Some l -> NoDup l) ->
  (forall i l x, ls !! i = Some l -> x ∈ l -> tag x = off + Z.of_nat i) -> NoDup (concat ls).
Proof.
  revert off. induction ls as [|l ls IH]; intros off Hn Ht; cbn; [constructor|].
  apply NoDup_app. repeat split; [by apply (Hn 0%nat)| |].
  - intros x Hx Hc. apply list_elem_of_In, in_concat in Hc as (l' & Hl' & Hx').
    apply list_elem_of_In, list_elem_of_lookup in Hl' as [i Hi]. apply list_elem_of_In in Hx'.
    pose proof (Ht 0%nat l x eq_refl Hx). pose proof (Ht (S i) l' x Hi Hx'). lia.
  - apply (IH (off + 1)); [intros i; apply (Hn (S i))|]. intros i l' x Hi Hx.
    rewrite (Ht (S i) l' x Hi Hx). lia.
Qed.

Section walk_spec.
Context (iter : gmap Z wref -> list wref) (s : bstate) (m : spec).
Hypothesis iter_perm : forall m, iter m ≡ₚ (map_to_list m).*2.
Hypothesis H : shards s m.

(** A bucket's iteration holds the registered workers that hash to it. *)
Lemma iter_bucket i b w : buckets (bs s) !! i = Some b ->
  w ∈ iter b <-> m.1 !! WID w = Some w /\ WID w mod bucketSize (bs s) = Z.of_nat i.
Proof.
  intros Hb. rewrite (iter_perm b), list_elem_of_fmap. split.
  - intros ([k v] & -> & Hk). apply elem_of_map_to_list in Hk. cbn.
    rewrite (sh_entry _ _ H i b k Hb) in Hk. case_decide as Hd; [|done].
    by rewrite (sh_key _ _ H _ _ Hk).
  - intros [Hw Hi]. exists (WID w, w). split; [done|]. apply elem_of_map_to_list.
    by rewrite (sh_entry _ _ H i b _ Hb), decide_True.
Qed.

Lemma iter_NoDup i b : buckets (bs s) !! i = Some b -> NoDup (iter b).
Proof.
  intros Hb. rewrite (iter_perm b). apply NoDup_fmap_2_strong; [|apply NoDup_map_to_list].
  intros [k1 v1] [k2 v2] H1 H2 E. cbn in E. subst v2.
  apply elem_of_map_to_list in H1, H2. rewrite (sh_entry _ _ H i b k1 Hb) in H1.
  rewrite (sh_entry _ _ H i b k2 Hb) in H2. case_decide; [|done]. case_decide; [|done].
  by rewrite <- (sh_key _ _ H _ _ H1), (sh_key _ _ H _ _ H2).
Qed.

Lemma concat_iter_NoDup : NoDup (concat (iter <$> buckets (bs s))).
Proof.
  apply (NoDup_concat_tagged (fun w => WID w mod bucketSize (bs s)) _ 0).
  - intros i l Hl. apply list_lookup_fmap_Some in Hl as (b & -> & Hb). by eapply iter_NoDup.
  - intros i l w Hl Hw. apply list_lookup_fmap_Some in Hl as (b & -> & Hb).
    apply (iter_bucket i b w Hb) in Hw as [_ ->]. lia.
Qed.

Lemma elem_of_concat_iter w : w ∈ concat (iter <$> buckets (bs s)) <-> m.1 !! WID w = Some w.
Proof.
  rewrite list_elem_of_In, in_concat. split.
  - intros (l & Hl & Hw). apply list_elem_of_In, list_elem_of_fmap in Hl as (b & -> & Hb).
    apply list_elem_of_lookup in Hb as [i Hb]. apply list_elem_of_In in Hw.
    by apply (iter_bucket i b w Hb) in Hw as [? _].
  - intros Hw. destruct (bucket_idx_ok s m (WID w) H) as (i & b & _ & Hb & Hi). exists (iter b).
    rewrite <- !list_elem_of_In. split; [|by apply (iter_bucket i b w Hb)].
    apply list_elem_of_fmap. exists b. split; [done|]. by eapply list_elem_of_lookup_2.
Qed.
End walk_spec.

(** Whatever order Go's map iteration takes, [Walk] with a callback that
    never stops visits exactly the registered workers, each once: a broadcast
    reaches every connection and reaches none twice. *)
Theorem Walk_visits_all iter n ws ops :
  0 < n < 2 ^ 32 -> (forall m, iter m ≡ₚ (map_to_list m).*2) ->
  exists b s', NewBuckets n ws = Ok b /\ run_reg ops (mkB b ∅) = (Ok tt, s') /\
    NoDup (Walk iter visit (bs s') []) /\
    forall w, w ∈ Walk iter visit (bs s') [] <-> Worker (bs s') (WID w) = Ok (Some w).
Proof.
  intros Hn Hit. destruct (NewBuckets_shards n ws Hn) as (b & E & H).
  destruct (run_reg_spec ops _ _ H) as (s' & E' & H'). exists b, s'. split; [done|]. split; [done|].
  rewrite Walk_visit, app_nil_l.
  split; [by eapply concat_iter_NoDup|]. intros w. rewrite (elem_of_concat_iter iter s' _ Hit H').
  rewrite (Worker_spec _ _ _ H'). split; congruence.
Qed.

Definition in_order (m : gmap Z wref) : list wref := (map_to_list m).*2.

Lemma Walk_visits_all_witness :
  exists b s', NewBuckets 4 16 = Ok b /\ run_reg [RPut wA; RPut wC; RPut wB] (mkB b ∅) = (Ok tt, s') /\
    NoDup (Walk in_order visit (bs s') []) /\
    forall w, w ∈ Walk in_order visit (bs s') [] <-> Worker (bs s') (WID w) = Ok (Some w).
Proof. apply (Walk_visits_all in_order 4 16 [RPut wA; RPut wC; RPut wB]); [lia|done]. Defined.

(** Stops at the first worker. *)
Definition visit_one (w : wref) (ws : list wref) : bool * list wref := (false, ws ++ [w]).

Lemma walk_loop_one ws acc : walk_loop visit_one ws acc = acc ++ take 1 ws.
Proof. destruct ws; cbn; by rewrite ?app_nil_r. Qed.

(** A callback that returns [false] does not stop the walk: it only ends the
    walk of the current bucket. With a callback that always asks to stop, [Walk]
    still visits the first worker of every bucket. *)
Theorem Walk_false_stops_bucket_only iter b acc :
  Walk iter visit_one b acc = acc ++ concat ((fun m => take 1 (iter m)) <$> buckets b).
Proof.
  unfold Walk. destruct b as [l n]. cbn [buckets]. revert acc.
  induction l as [|m l IH]; intros acc; cbn; [by rewrite app_nil_r|].
  rewrite IH. unfold walk, snapshot. by rewrite walk_loop_one, <- app_assoc.
Qed.

(** ** Interference

    [GetByUIDs] reads the user index and the bucket in two steps without a
    common lock. *)

Definition env_op (o : reg_op) (s : bstate) : bstate := snd (reg_step o s).

(** If the worker found for a user is removed between the two steps of
    [GetByUIDs], the list returned holds a nil worker. *)
Lemma put_then_race n ws w : 0 < n < 2 ^ 32 ->
  exists b s, NewBuckets n ws = Ok b /\ run_reg [RPut w] (mkB b ∅) = (Ok tt, s) /\
    GetByUIDs [w_uid w] s = Ok [Some w] /\
    GetByUIDs_env [env_op (RDel w)] [w_uid w] s = Ok [None].
Proof.
  intros Hn. destruct (NewBuckets_shards n ws Hn) as (b & E & H).
  destruct (run_reg_spec [RPut w] _ _ H) as (s & E' & H'). exists b, s.
  unfold spec_run, foldl, spec_op, spec_put in H'. cbn [fst snd] in H'. repeat split; [done..| |].
  - unfold GetByUIDs. cbn [GetByUIDs_env hd]. rewrite (sh_uid _ _ H'). cbn [snd]. rewrite lookup_insert_eq.
    rewrite (Worker_spec _ _ _ H'). cbn [fst]. by rewrite lookup_insert_eq.
  - cbn [GetByUIDs_env hd]. rewrite (sh_uid _ _ H'). cbn [snd]. rewrite lookup_insert_eq.
    destruct (Del_spec w s _ H') as (s2 & E2 & H2). unfold env_op. cbn [reg_step]. rewrite E2. cbn [snd].
    rewrite (Worker_spec _ _ _ H2). unfold spec_del. cbn [fst]. rewrite lookup_insert_eq.
    unfold same_worker. rewrite Nat.eqb_refl. cbn [fst]. by rewrite lookup_delete_eq.
Qed.
