(* ===== verification/Context.v ===== *)
(** Request metadata: src/pkg/net/context/context.go.

    The gateway describes a connection to the services behind it by metadata
    entries of the request context.  The metadata container and its transport
    are kratos code: a class [Metadata] of operations, with what the gateway
    relies on (the receiver sees the entries the sender appended last) as the
    class [MetadataLaws].  [strconv] and [strings] are modelled. *)
From Stdlib Require Import Ascii.
From S2P Require Import Prelude.
#[local] Open Scope Z_scope.

(** ** strconv *)

Definition digit (d : Z) : ascii := ascii_of_nat (48 + Z.to_nat d).

(** The decimal digits of [n] in front of [acc]; [fuel] bounds their number. *)
Fixpoint fmt_loop (fuel : nat) (n : Z) (acc : string) : string :=
  match fuel with
  | O => acc
  | S fuel =>
      let acc := String (digit (n mod 10)) acc in
      if n <? 10 then acc else fmt_loop fuel (n / 10) acc
  end.

(** [strconv.FormatUint(i, 10)], [strconv.FormatInt(i, 10)]: a 64-bit number
    has at most 20 digits. *)
Definition FormatUint (i : Z) : string := fmt_loop 20 i EmptyString.

Definition FormatInt (i : Z) : string :=
  if i <? 0 then String "-" (FormatUint (- i)) else FormatUint i.

Definition ErrSyntax : error := ENew "invalid syntax" [].
Definition ErrRange : error := ENew "value out of range" [].

Definition digit_val (c : ascii) : option Z :=
  let k := Z.of_nat (nat_of_ascii c) in
  if (48 <=? k) && (k <=? 57) then Some (k - 48) else None.

Fixpoint parse_loop (bits : Z) (s : string) (n : Z) : result Z :=
  match s with
  | EmptyString => Ok n
  | String c s =>
      match digit_val c with
      | None => Err ErrSyntax
      | Some d => if 2 ^ bits - 1 <? n * 10 + d then Err ErrRange else parse_loop bits s (n * 10 + d)
      end
  end.

Definition ParseUint (bits : Z) (s : string) : result Z :=
  match s with EmptyString => Err ErrSyntax | _ => parse_loop bits s 0 end.

(** [strconv.ParseInt(s, 10, bits)] *)
Definition ParseInt_bits (bits : Z) (s : string) : result Z :=
  let '(neg, body) :=
    match s with
    | String "-" s' => (true, s')
    | String "+" s' => (false, s')
    | _ => (false, s)
    end in
  match s with
  | EmptyString => Err ErrSyntax
  | _ =>
      un ← ParseUint bits body;
      if negb neg && (2 ^ (bits - 1) <=? un) then Err ErrRange
      else if neg && (2 ^ (bits - 1) <? un) then Err ErrRange
      else Ok (if neg then - un else un)
  end.

(** [strconv.ParseInt(s, 10, 64)] *)
Definition ParseInt : string -> result Z := ParseInt_bits 64.

(** [strings.Split(s, ":")[0]]: the part before the first colon. *)
Fixpoint before_colon (s : string) : string :=
  match s with
  | EmptyString => EmptyString
  | String c s => if ascii_dec c ":" then EmptyString else String c (before_colon s)
  end.

(** ** Keys *)

Definition CtxSID := "x-md-global-sid".
Definition CtxUID := "x-md-global-uid".
Definition CtxOID := "x-md-global-oid".
Definition CtxColor := "x-md-global-color".
Definition CtxStatus := "x-md-global-status".
Definition CtxReferer := "x-md-global-referer".
Definition CtxClientIP := "x-md-global-client-ip".
Definition CtxGateReferer := "x-md-global-gate-referer".

Definition Keys : list string :=
  [CtxSID; CtxUID; CtxOID; CtxStatus; CtxColor; CtxReferer; CtxClientIP; CtxGateReferer].

(** ** The metadata container *)

Class Metadata := {
  Ctx : Type;
  MD : Type;
  AppendToClientContext : Ctx -> string -> string -> Ctx;
  FromServerContext : Ctx -> option MD;
  md_Get : MD -> string -> string;
  (** the context the called service sees for a call made under this one *)
  transmit : Ctx -> Ctx;
  (** a context without client metadata *)
  Background : Ctx;
}.

(** The value the called service reads under a key. *)
Definition received `{Metadata} (ctx : Ctx) (k : string) : option string :=
  (fun md => md_Get md k) <$> FromServerContext (transmit ctx).

Class MetadataLaws (M : Metadata) : Prop := {
  received_some : forall ctx, is_Some (FromServerContext (transmit ctx));
  received_background : forall k, received Background k = Some EmptyString;
  received_same : forall ctx k v, received (AppendToClientContext ctx k v) k = Some v;
  received_other : forall ctx k v k', k <> k' ->
    received (AppendToClientContext ctx k v) k' = received ctx k';
}.

Section ctx.
Context `{M : Metadata}.

Definition ErrNoMetadata : error := ENew "metadata not in context" [].

Definition SetColor (ctx : Ctx) (color : string) : Ctx := AppendToClientContext ctx CtxColor color.

(** The readers that fall back to an empty string. *)
Definition get_string (k : string) (ctx : Ctx) : string :=
  match FromServerContext ctx with Some md => md_Get md k | None => EmptyString end.

Definition ctx_Color : Ctx -> string := get_string CtxColor.

(** The readers of a number under a key. *)
Definition get_int (k fmt : string) (ctx : Ctx) : result Z :=
  match FromServerContext ctx with
  | None => Err ErrNoMetadata
  | Some md =>
      let str := md_Get md k in
      map_err (fun e => EWrap e fmt [AS str]) (ParseInt str)
  end.

Definition SetUID (ctx : Ctx) (id : Z) : Ctx := AppendToClientContext ctx CtxUID (FormatInt id).
Definition ctx_UID : Ctx -> result Z := get_int CtxUID "uid must be int64, uid=%s".

Definition SetOID (ctx : Ctx) (id : Z) : Ctx := AppendToClientContext ctx CtxOID (FormatInt id).
Definition ctx_OID : Ctx -> result Z := get_int CtxOID "oid must be int64, oid=%s".

Definition SetSID (ctx : Ctx) (id : Z) : Ctx := AppendToClientContext ctx CtxSID (FormatInt id).
Definition ctx_SID : Ctx -> result Z := get_int CtxSID "sid must be int64, sid=%s".

Definition SetStatus (ctx : Ctx) (status : Z) : Ctx :=
  if status =? 0 then ctx else AppendToClientContext ctx CtxStatus (FormatInt status).

Definition ctx_Status (ctx : Ctx) : Z :=
  match FromServerContext ctx with
  | Some md => match ParseInt (md_Get md CtxStatus) with Ok status => status | _ => 0 end
  | None => 0
  end.

Definition ctx_SetClientIP (ctx : Ctx) (ip : string) : Ctx :=
  if (String.length ip =? 0)%nat then ctx
  else AppendToClientContext ctx CtxClientIP (before_colon ip).

Definition ctx_ClientIP : Ctx -> string := get_string CtxClientIP.

Definition SetGateReferer (ctx : Ctx) (server : string) (wid : Z) : Ctx :=
  if (String.length server =? 0)%nat then ctx
  else AppendToClientContext ctx CtxGateReferer (server +:+ "#" +:+ FormatUint wid).

Definition GateReferer : Ctx -> string := get_string CtxGateReferer.

(** The entries [Worker.Run] sets for the connection. *)
Definition worker_ctx (ctx : Ctx) (uid sid : Z) (color : string) (status : Z)
    (referer : string) (wid : Z) (ip : string) : Ctx :=
  let ctx := SetUID ctx uid in
  let ctx := SetSID ctx sid in
  let ctx := SetColor ctx color in
  let ctx := SetStatus ctx status in
  let ctx := SetGateReferer ctx referer wid in
  ctx_SetClientIP ctx ip.
End ctx.

(** [RemoteAddr]/[LocalAddr]: a connection (or nil) with its addresses (or nil). *)
Record conn_addrs := mkAddrs { remote_addr : option string; local_addr : option string }.

Definition RemoteAddr (conn : option conn_addrs) : string :=
  match conn with None => EmptyString | Some c => default EmptyString (remote_addr c) end.

Definition LocalAddr (conn : option conn_addrs) : string :=
  match conn with None => EmptyString | Some c => default EmptyString (local_addr c) end.

(** *** Deadlines

    Each function starts a goroutine that waits, then makes one call on the
    connection or listener, whose error is only logged.  [when_ready] is that
    goroutine's step: [None] while it waits. *)

Definition when_ready {S} (ready : bool) (call : go S unit) (s : S) : option S :=
  if ready then Some (snd (call s)) else None.

Definition SetDeadlineWithContext {S} (ctx_done : bool) (SetDeadline : Z -> go S unit) (now : Z) : S -> option S :=
  when_ready ctx_done (SetDeadline now).
Definition CloseOnCancel {S} (ctx_done : bool) (Close : go S unit) : S -> option S :=
  when_ready ctx_done Close.
Definition SetDeadlineWithTimeout {S} (elapsed timeout : Z) (SetDeadline : Z -> go S unit) (now : Z) : S -> option S :=
  when_ready (timeout <=? elapsed) (SetDeadline now).

(** ** Facts: decimal round trip *)

Lemma digit_val_digit d : 0 <= d < 10 -> digit_val (digit d) = Some d.
Proof.
  intros Hd. assert (exists k, d = Z.of_nat k /\ (k < 10)%nat) as (k & -> & Hk)
    by (exists (Z.to_nat d); lia).
  do 10 (destruct k as [|k]; [reflexivity|]). lia.
Qed.

Lemma digit_not_sign d s : 0 <= d < 10 ->
  (match String (digit d) s with
   | String "-" s' => (true, s') | String "+" s' => (false, s') | _ => (false, String (digit d) s)
   end) = (false, String (digit d) s).
Proof.
  intros Hd. assert (exists k, d = Z.of_nat k /\ (k < 10)%nat) as (k & -> & Hk)
    by (exists (Z.to_nat d); lia).
  do 10 (destruct k as [|k]; [reflexivity|]). lia.
Qed.

(** Reading the printed digits of [n] after a prefix worth [m]. *)
Lemma parse_fmt_loop fuel n acc m :
  0 <= n < 10 ^ Z.of_nat fuel -> 0 <= m ->
  exists k, 0 <= k /\ (n < 10 ^ k) /\
    (m * 10 ^ k + n <= 2 ^ 64 - 1 -> parse_loop 64 (fmt_loop fuel n acc) m = parse_loop 64 acc (m * 10 ^ k + n)).
Proof.
  revert n acc m. induction fuel as [|fuel IH]; intros n acc m Hn Hm.
  { simpl in Hn. exists 0. split; [lia|]. split; [lia|]. intros _. cbn [fmt_loop]. f_equal. lia. }
  cbn [fmt_loop]. pose proof (Z.mod_pos_bound n 10 ltac:(lia)) as Hmod.
  destruct (Z.ltb_spec n 10) as [Hlt|Hge].
  - exists 1. split; [lia|]. split; [lia|]. intros Hb. cbn [parse_loop].
    rewrite digit_val_digit by lia. rewrite Z.mod_small by lia. rewrite Z.pow_1_r in *.
    destruct (Z.ltb_spec (2 ^ 64 - 1) (m * 10 + n)); [lia|done].
  - rewrite Nat2Z.inj_succ, Z.pow_succ_r in Hn by lia.
    pose proof (Z.div_mod n 10 ltac:(lia)) as Hdm.
    destruct (IH (n / 10) (String (digit (n mod 10)) acc) m) as (k & Hk & Hlt & E);
      [split; [apply Z.div_pos; lia|apply Z.div_lt_upper_bound; [lia|apply Hn]]|done|].
    exists (Z.succ k). rewrite Z.pow_succ_r by lia. split; [lia|]. split; [lia|]. intros Hb.
    rewrite E by lia. cbn [parse_loop]. rewrite digit_val_digit by lia.
    replace ((m * 10 ^ k + n / 10) * 10 + n mod 10) with (m * (10 * 10 ^ k) + n) by lia.
    destruct (Z.ltb_spec (2 ^ 64 - 1) (m * (10 * 10 ^ k) + n)); [lia|done].
Qed.

(** What is printed starts with a digit. *)
Lemma fmt_loop_head fuel n acc : 0 <= n -> 
  exists d s, 0 <= d < 10 /\ fmt_loop (S fuel) n acc = String (digit d) s.
Proof.
  revert n acc. induction fuel as [|fuel IH]; intros n acc Hn;
    pose proof (Z.mod_pos_bound n 10 ltac:(lia)) as Hmod.
  - exists (n mod 10), acc. split; [done|]. cbn. by destruct (n <? 10).
  - cbn [fmt_loop]. destruct (Z.ltb_spec n 10); [by exists (n mod 10), acc|].
    apply IH. apply Z.div_pos; lia.
Qed.

Lemma ParseUint_FormatUint n : 0 <= n < 2 ^ 64 -> ParseUint 64 (FormatUint n) = Ok n.
Proof.
  intros Hn. unfold FormatUint, ParseUint.
  destruct (fmt_loop_head 19 n EmptyString ltac:(lia)) as (d & s & Hd & E).
  destruct (parse_fmt_loop 20 n EmptyString 0) as (k & Hk & Hlt & Hp); [|lia|].
  - split; [lia|]. eapply Z.lt_trans; [apply Hn|]. reflexivity.
  - rewrite E in *. rewrite Hp by lia. done.
Qed.

Lemma ParseInt_FormatInt i : - 2 ^ 63 <= i < 2 ^ 63 -> ParseInt (FormatInt i) = Ok i.
Proof.
  intros Hi. unfold FormatInt. destruct (Z.ltb_spec i 0).
  - unfold ParseInt, ParseInt_bits. rewrite ParseUint_FormatUint by lia. cbv [mbind result_bind]. cbn [negb andb].
    destruct (Z.ltb_spec (2 ^ (64 - 1)) (- i)); [lia|]. f_equal. lia.
  - pose proof (ParseUint_FormatUint i ltac:(lia)) as HP.
    destruct (fmt_loop_head 19 i EmptyString ltac:(lia)) as (d & s & Hd & E).
    unfold ParseInt, ParseInt_bits. unfold FormatUint in *. rewrite E in *. rewrite digit_not_sign by done. rewrite HP.
    cbv [mbind result_bind]. cbn [negb andb]. destruct (Z.leb_spec (2 ^ (64 - 1)) i); [lia|done].
Qed.

(** ** Facts: what the called service reads *)

Fixpoint has_colon (s : string) : bool :=
  match s with
  | EmptyString => false
  | String c s => (if ascii_dec c ":" then true else false) || has_colon s
  end.

Lemma before_colon_app host rest : has_colon host = false ->
  before_colon (host +:+ String ":" rest) = host.
Proof.
  induction host as [|c host IH]; [done|].
  change (String c host +:+ String ":" rest) with (String c (host +:+ String ":" rest)).
  cbn [before_colon has_colon]. destruct (ascii_dec c ":"); [done|]. intros H. by rewrite IH.
Qed.

Section reading.
Context `{M : Metadata} {L : MetadataLaws M}.

Lemma get_string_received k ctx : get_string k (transmit ctx) = default EmptyString (received ctx k).
Proof. unfold get_string, received. by destruct (FromServerContext (transmit ctx)). Qed.

Lemma get_int_received k fmt ctx i : - 2 ^ 63 <= i < 2 ^ 63 -> received ctx k = Some (FormatInt i) ->
  get_int k fmt (transmit ctx) = Ok i.
Proof.
  intros Hi. unfold received, get_int. destruct (FromServerContext (transmit ctx)) as [md|]; [|done].
  cbn. intros E. injection E as ->. by rewrite ParseInt_FormatInt.
Qed.

Lemma ctx_Status_received ctx : ctx_Status (transmit ctx) =
  match ParseInt (default EmptyString (received ctx CtxStatus)) with Ok status => status | _ => 0 end.
Proof. unfold ctx_Status, received. by destruct (FromServerContext (transmit ctx)). Qed.

(** Entries under other keys are kept by the conditional setters. *)
Lemma SetStatus_other ctx st k : k <> CtxStatus -> received (SetStatus ctx st) k = received ctx k.
Proof. intros. unfold SetStatus. destruct (st =? 0); [done|]. by rewrite received_other. Qed.

Lemma SetGateReferer_other ctx srv wid k : k <> CtxGateReferer ->
  received (SetGateReferer ctx srv wid) k = received ctx k.
Proof. intros. unfold SetGateReferer. destruct (_ =? _)%nat; [done|]. by rewrite received_other. Qed.

Lemma SetClientIP_other ctx ip k : k <> CtxClientIP ->
  received (ctx_SetClientIP ctx ip) k = received ctx k.
Proof. intros. unfold ctx_SetClientIP. destruct (_ =? _)%nat; [done|]. by rewrite received_other. Qed.
End reading.

(** Reduces [received] of a chain of setters to the entry that sets the key. *)
Ltac received_simpl :=
  unfold worker_ctx, SetOID, SetUID, SetSID, SetColor;
  repeat first
    [ rewrite received_same
    | rewrite received_other by done
    | rewrite SetClientIP_other by done
    | rewrite SetGateReferer_other by done
    | rewrite SetStatus_other by done ].

(** C29: The service behind the gateway reads the connection's identity
    unchanged: for every session ([uid], [sid], [status], [oid] of 64 bits), the
    context built by [Worker.Run] and [SetOID] and received by a service yields
    exactly the user, server and object ids (printed and parsed in decimal, the
    smallest int64 included), the color, the status (0 when it was not sent),
    the gateway reference and, for a remote address [host:port] without a colon
    in the host, the host as client IP. *)
Theorem worker_ctx_received `{M : Metadata} {L : MetadataLaws M} uid sid color status referer wid host port oid :
  - 2 ^ 63 <= uid < 2 ^ 63 -> - 2 ^ 63 <= sid < 2 ^ 63 -> - 2 ^ 63 <= status < 2 ^ 63 ->
  - 2 ^ 63 <= oid < 2 ^ 63 -> has_colon host = false -> referer <> EmptyString ->
  let ctx := transmit (SetOID (worker_ctx Background uid sid color status referer wid
                                 (host +:+ String ":" port)) oid) in
  ctx_UID ctx = Ok uid /\ ctx_SID ctx = Ok sid /\ ctx_OID ctx = Ok oid /\ ctx_Color ctx = color /\
  ctx_Status ctx = status /\ GateReferer ctx = referer +:+ "#" +:+ FormatUint wid /\ ctx_ClientIP ctx = host.
Proof.
  intros Hu Hs Ht Ho Hh Hr ctx. unfold ctx.
  unfold ctx_UID, ctx_SID, ctx_OID, ctx_Color, GateReferer, ctx_ClientIP.
  rewrite !get_string_received, ctx_Status_received.
  repeat split; try (apply get_int_received; [done|]); received_simpl; try done.
  - unfold SetStatus. destruct (Z.eqb_spec status 0) as [->|].
    + received_simpl. by rewrite received_background.
    + received_simpl. cbn [default from_option id]. by rewrite ParseInt_FormatInt.
  - unfold SetGateReferer. destruct referer; [done|]. cbn [String.length Nat.eqb]. by received_simpl.
  - unfold ctx_SetClientIP. destruct (Nat.eqb_spec (String.length (host +:+ String ":" port)) 0) as [E|_].
    + destruct host; discriminate E.
    + received_simpl. cbn [from_option id]. by apply before_colon_app.
Qed.

(** An IPv6 remote address does not survive: [SetClientIP] cuts at the first
    colon, so of [[g:...]:port] the services see only an opening bracket and the
    first group, for every group [g] and every remainder. *)
Theorem client_ip_ipv6_cut `{M : Metadata} {L : MetadataLaws M} ctx group rest : has_colon group = false ->
  ctx_ClientIP (transmit (ctx_SetClientIP ctx (String "[" (group +:+ String ":" rest)))) = String "[" group.
Proof.
  intros Hg. unfold ctx_ClientIP. rewrite get_string_received. unfold ctx_SetClientIP.
  cbn [String.length Nat.eqb]. rewrite received_same. cbn [from_option id]. cbn [before_colon].
  destruct (ascii_dec "[" ":"); [done|]. by rewrite before_colon_app.
Qed.

(** *** Witnesses: metadata as a map, handed over as it is *)

Definition map_metadata : Metadata := {|
  Ctx := gmap string string;
  MD := gmap string string;
  AppendToClientContext := fun ctx k v => <[k := v]> ctx;
  FromServerContext := fun ctx => Some ctx;
  md_Get := fun md k => default EmptyString (md !! k);
  transmit := fun ctx => ctx;
  Background := ∅;
|}.

Lemma map_metadata_laws : MetadataLaws map_metadata.
Proof.
  split; unfold received; cbn.
  - by eexists.
  - intros k. by rewrite lookup_empty.
  - intros. by rewrite lookup_insert_eq.
  - intros. by rewrite lookup_insert_ne.
Qed.

Lemma worker_ctx_received_witness :
  let ctx := transmit (Metadata := map_metadata)
    (SetOID (worker_ctx Background (- 2 ^ 63) 3 "red" 0 "10.0.1.31:9100" 10001 "10.1.2.3:5000") 42) in
  ctx_UID ctx = Ok (- 2 ^ 63) /\ ctx_SID ctx = Ok 3 /\ ctx_OID ctx = Ok 42 /\ ctx_Color ctx = "red" /\
  ctx_Status ctx = 0 /\ GateReferer ctx = "10.0.1.31:9100#10001" /\ ctx_ClientIP ctx = "10.1.2.3".
Proof.
  apply (worker_ctx_received (M := map_metadata) (L := map_metadata_laws)
           (- 2 ^ 63) 3 "red" 0 "10.0.1.31:9100" 10001 "10.1.2.3" "5000" 42); lia || done.
Defined.

Lemma client_ip_ipv6_cut_witness :
  ctx_ClientIP (M := map_metadata)
    (transmit (ctx_SetClientIP Background "[2001:db8::1]:5000")) = "[2001".
Proof. apply (client_ip_ipv6_cut (M := map_metadata) (L := map_metadata_laws) Background "2001" "db8::1]:5000"). done. Defined.
