(* ===== verification/Messages.v ===== *)
(** Protobuf messages the gateway handles and the pools they are recycled in.

    src/gen/api/client/packet/packet.pb.go, client/message/system.pb.go (the
    handshake), server/{player,room}/intra/v1/tunnel.pb.go,
    server/gate/intra/v1/auth.pb.go, client/module/modules.pb.go,
    client/sequence/system.pb.go; the interface [tunnel.ForwardMessage]; the
    pools of src/app/gate/internal/pkg/pool/packet.go and of the player and room
    tunnels.  The protobuf runtime itself (encoding, reflection, unknown fields)
    is not modelled: the wire codec is the class [Proto]. *)
From S2P Require Import Prelude.

(** ** Messages *)

Record Packet := mkPacket {
  p_Ver : Z; p_Index : Z; p_Compress : bool; p_Mod : Z; p_Seq : Z; p_Obj : Z;
  p_Data : list Z; p_DataVersion : Z;
}.

(** [intrav1.Message] of the player service and of the room service. *)
Record player_Message := mkPlayerMessage {
  pm_Mod : Z; pm_Seq : Z; pm_Obj : Z; pm_Data : list Z; pm_DataVersion : Z;
}.

Record room_Message := mkRoomMessage {
  rm_Mod : Z; rm_Seq : Z; rm_Obj : Z; rm_Data : list Z; rm_DataVersion : Z;
}.

Record CSHandshake := mkCSHandshake { Token : string; ServerId : Z; Pub : list Z }.
Record SCHandshake := mkSCHandshake { StartIndex : Z; sc_Key : list Z }.

Record AuthToken := mkAuthToken {
  Location : Z; AccountId : Z; Rand : string; Timeout : Z; Unencrypted : bool;
  t_Color : string; t_Status : Z;
}.

#[export] Instance Packet_eq_dec : EqDecision Packet.
Proof. solve_decision. Defined.
#[export] Instance player_Message_eq_dec : EqDecision player_Message.
Proof. solve_decision. Defined.
#[export] Instance room_Message_eq_dec : EqDecision room_Message.
Proof. solve_decision. Defined.

(** [ModuleID] and [SystemSeq] constants. *)
Definition ModuleID_ModuleUnknown : Z := 0.
Definition ModuleID_System : Z := 1.
Definition ModuleID_Dev : Z := 2.
Definition ModuleID_User : Z := 3.
Definition ModuleID_Storage : Z := 4.
Definition ModuleID_Hero : Z := 5.
Definition ModuleID_Room : Z := 6.

Definition SystemSeq_SystemUnknown : Z := 0.
Definition SystemSeq_Handshake : Z := 1.
Definition SystemSeq_Heartbeat : Z := 2.
Definition SystemSeq_ServerUnknownErr : Z := 3.
Definition SystemSeq_ServerLogout : Z := 4.

(** *** Getters: on a nil message they return the field's zero value *)

Definition getter {A B} (f : A -> B) (zero : B) (x : option A) : B :=
  match x with Some x => f x | None => zero end.

Definition GetVer : option Packet -> Z := getter p_Ver 0.
Definition GetIndex : option Packet -> Z := getter p_Index 0.
Definition GetCompress : option Packet -> bool := getter p_Compress false.
Definition GetDataVersion : option Packet -> Z := getter p_DataVersion 0.

(** The interface [tunnel.ForwardMessage] and its three implementations. *)
Class ForwardMessage (A : Type) := {
  GetMod : option A -> Z;
  GetSeq : option A -> Z;
  GetObj : option A -> Z;
  GetData : option A -> list Z;
}.

#[export] Instance Packet_ForwardMessage : ForwardMessage Packet := {|
  GetMod := getter p_Mod 0; GetSeq := getter p_Seq 0; GetObj := getter p_Obj 0;
  GetData := getter p_Data [];
|}.

#[export] Instance player_ForwardMessage : ForwardMessage player_Message := {|
  GetMod := getter pm_Mod 0; GetSeq := getter pm_Seq 0; GetObj := getter pm_Obj 0;
  GetData := getter pm_Data [];
|}.

#[export] Instance room_ForwardMessage : ForwardMessage room_Message := {|
  GetMod := getter rm_Mod 0; GetSeq := getter rm_Seq 0; GetObj := getter rm_Obj 0;
  GetData := getter rm_Data [];
|}.

Definition player_GetDataVersion : option player_Message -> Z := getter pm_DataVersion 0.
Definition room_GetDataVersion : option room_Message -> Z := getter rm_DataVersion 0.

Definition GetToken : option CSHandshake -> string := getter Token EmptyString.
Definition GetServerId : option CSHandshake -> Z := getter ServerId 0.
Definition GetPub : option CSHandshake -> list Z := getter Pub [].
Definition GetStartIndex : option SCHandshake -> Z := getter StartIndex 0.
Definition GetKey : option SCHandshake -> list Z := getter sc_Key [].

Definition GetLocation : option AuthToken -> Z := getter Location 0.
Definition GetAccountId : option AuthToken -> Z := getter AccountId 0.
Definition GetRand : option AuthToken -> string := getter Rand EmptyString.
Definition GetTimeout : option AuthToken -> Z := getter Timeout 0.
Definition GetUnencrypted : option AuthToken -> bool := getter Unencrypted false.
Definition GetColor : option AuthToken -> string := getter t_Color EmptyString.
Definition GetStatus : option AuthToken -> Z := getter t_Status 0.

(** *** [Reset]: the zero message *)

Class Resettable (A : Type) := Reset : A.

#[export] Instance Packet_Reset : Resettable Packet := mkPacket 0 0 false 0 0 0 [] 0.
#[export] Instance player_Message_Reset : Resettable player_Message := mkPlayerMessage 0 0 0 [] 0.
#[export] Instance room_Message_Reset : Resettable room_Message := mkRoomMessage 0 0 0 [] 0.

(** ** The protobuf wire codec

    [proto.Marshal]/[proto.Unmarshal] for the messages above.  [Unmarshal] into
    an object resets it first, so the result does not depend on what the object
    held. *)
Class ProtoMsg (A : Type) := {
  Marshal : A -> result (list Z);
  Unmarshal : list Z -> result A;
}.

(** The documented contract: what [Marshal] produced decodes to the message,
    and no panic escapes. *)
Class ProtoLaws (A : Type) {P : ProtoMsg A} : Prop := {
  proto_round_trip : forall m bs, Marshal m = Ok bs -> Unmarshal bs = Ok m;
  marshal_no_panic : forall m q, Marshal m <> Panic q;
  unmarshal_no_panic : forall bs q, Unmarshal bs <> Panic q;
}.

(** ** Message pools

    A [sync.Pool] of pointers to messages: the objects are cells of a store, so
    that two holders of one pointer share it. *)
Section pool.
Context {A : Type} `{R : Resettable A}.

Record ostate := mkO { objs : gmap nat A; free : list nat; next_obj : nat }.

Definition newPool : ostate := mkO ∅ [] 0.

(** [p.pool.Get().( *A)]: any free object, or a [new(A)] from [New]; [ch] is
    which free object the pool happens to hand out, if any. *)
Definition pool_get (ch : option nat) : go ostate nat := fun s =>
  match ch with
  | Some i =>
      match free s !! i with
      | Some p => (Ok p, mkO (objs s) (delete i (free s)) (next_obj s))
      | None => (Ok (next_obj s), mkO (<[next_obj s := Reset]> (objs s)) (free s) (S (next_obj s)))
      end
  | None => (Ok (next_obj s), mkO (<[next_obj s := Reset]> (objs s)) (free s) (S (next_obj s)))
  end.

(** [put]: a nil pointer is ignored, the object is reset before it is free. *)
Definition pool_put (p : option nat) : go ostate unit := fun s =>
  match p with
  | None => (Ok tt, s)
  | Some p => (Ok tt, mkO (<[p := Reset]> (objs s)) (p :: free s) (next_obj s))
  end.

(** A holder writes to its object. *)
Definition pool_set (p : nat) (v : A) (s : ostate) : ostate := mkO (<[p := v]> (objs s)) (free s) (next_obj s).

(** The callers and the pool: [O] is the set of objects callers hold. *)
Inductive pool_step : gset nat * ostate -> gset nat * ostate -> Prop :=
  | PGet O s ch p s' : pool_get ch s = (Ok p, s') -> pool_step (O, s) (O ∪ {[p]}, s')
  | PPut O s p s' : p ∈ O -> pool_put (Some p) s = (Ok tt, s') -> pool_step (O, s) (O ∖ {[p]}, s')
  | PSet O s p v : p ∈ O -> pool_step (O, s) (O, pool_set p v s).

Definition pool_init (x : gset nat * ostate) : Prop := x = (∅, newPool).

(** Free objects are reset, listed once, and held by nobody. *)
Record pool_ok (O : gset nat) (s : ostate) : Prop := {
  po_nodup : NoDup (free s);
  po_disj : forall p, p ∈ free s -> p ∉ O;
  po_reset : forall p, p ∈ free s -> objs s !! p = Some Reset;
  po_free : forall p, p ∈ free s -> (p < next_obj s)%nat;
  po_held : forall p, p ∈ O -> (p < next_obj s)%nat;
}.

Lemma pool_get_ok O s ch p s' : pool_ok O s -> pool_get ch s = (Ok p, s') ->
  p ∉ O /\ objs s' !! p = Some Reset /\ pool_ok (O ∪ {[p]}) s'.
Proof.
  intros H. assert (forall p s', (Ok (next_obj s), mkO (<[next_obj s := Reset]> (objs s)) (free s) (S (next_obj s)))
      = (Ok p, s') -> p ∉ O /\ objs s' !! p = Some Reset /\ pool_ok (O ∪ {[p]}) s') as Hnew.
  { intros q s0 E. simplify_eq. cbn [objs]. rewrite lookup_insert_eq. repeat split; cbn [free objs next_obj].
    - intros Hin. apply (po_held _ _ H) in Hin. lia.
    - apply H.
    - intros p' Hp'. pose proof (po_free _ _ H _ Hp'). pose proof (po_disj _ _ H _ Hp').
      assert (p' <> next_obj s) by lia. set_solver.
    - intros p' Hp'. pose proof (po_free _ _ H _ Hp'). rewrite lookup_insert_ne by lia. by apply H.
    - intros p' Hp'. pose proof (po_free _ _ H _ Hp'). lia.
    - intros p' Hp'. apply elem_of_union in Hp' as [Hp'|Hp']; [apply (po_held _ _ H) in Hp'; lia|].
      apply elem_of_singleton in Hp'. lia. }
  unfold pool_get. destruct ch as [i|]; [|apply Hnew]. destruct (free s !! i) as [q|] eqn:Ei; [|apply Hnew].
  intros E. simplify_eq. cbn [objs]. pose proof (list_elem_of_lookup_2 _ _ _ Ei) as Hin.
  pose proof (po_nodup _ _ H) as Hnd. rewrite (delete_Permutation _ _ _ Ei) in Hnd.
  apply NoDup_cons in Hnd as [Hni Hnd].
  assert (forall p', p' ∈ delete i (free s) -> p' ∈ free s) as Hsub.
  { intros p' Hp'. rewrite (delete_Permutation _ _ _ Ei). by right. }
  split; [by apply (po_disj _ _ H)|]. split; [by apply (po_reset _ _ H)|].
  split; cbn [free objs next_obj].
  - done.
  - intros p' Hp'. pose proof (po_disj _ _ H _ (Hsub _ Hp')). assert (p' <> p) by congruence. set_solver.
  - intros p' Hp'. by apply (po_reset _ _ H), Hsub.
  - intros p' Hp'. by apply (po_free _ _ H), Hsub.
  - intros p' Hp'. apply elem_of_union in Hp' as [Hp'|Hp']; [by apply (po_held _ _ H)|].
    apply elem_of_singleton in Hp' as ->. by apply (po_free _ _ H).
Qed.

Lemma pool_step_ok x x' : pool_step x x' -> pool_ok x.1 x.2 -> pool_ok x'.1 x'.2.
Proof.
  intros Hs H. destruct Hs as [O s ch p s' E|O s p s' Hp E|O s p v Hp]; cbn [fst snd] in *.
  - by apply (pool_get_ok O s ch p s').
  - cbn in E. simplify_eq. split; cbn [free objs next_obj].
    + constructor; [|apply H]. intros Hin. by apply (po_disj _ _ H) in Hin.
    + intros q Hq. apply elem_of_cons in Hq as [->|Hq]; [set_solver|].
      pose proof (po_disj _ _ H _ Hq). set_solver.
    + intros q Hq. destruct (decide (q = p)) as [->|Hne]; [by rewrite lookup_insert_eq|].
      rewrite lookup_insert_ne by done. apply (po_reset _ _ H). set_solver.
    + intros q Hq. apply elem_of_cons in Hq as [->|Hq]; [by apply (po_held _ _ H)|by apply (po_free _ _ H)].
    + intros q Hq. apply (po_held _ _ H). set_solver.
  - split; cbn [pool_set free objs next_obj]; try apply H.
    intros q Hq. rewrite lookup_insert_ne; [by apply (po_reset _ _ H)|].
    intros <-. by apply (po_disj _ _ H) in Hq.
Qed.

(** What one group of holders does leaves the messages of another group alone. *)
Lemma pool_step_frame O s O' s' H : pool_step (O, s) (O', s') -> pool_ok (O ∪ H) s -> (forall m, m ∈ H -> m ∉ O) ->
  pool_ok (O' ∪ H) s' /\ forall m, m ∈ H -> m ∉ O' /\ objs s' !! m = objs s !! m.
Proof.
  intros Hs Hp Hd. inversion Hs as [? ? ch p ? E|? ? p ? Hin E|? ? p v Hin]; subst.
  - destruct (pool_get_ok _ _ _ _ _ Hp E) as (Hni & _ & H1). split.
    + replace (O ∪ {[p]} ∪ H) with (O ∪ H ∪ {[p]}) by set_solver. done.
    + intros m Hm. split; [set_solver|]. revert E. unfold pool_get.
      pose proof (po_held _ _ Hp m ltac:(set_solver)) as Hlt.
      assert (objs s !! m = <[next_obj s := Reset]> (objs s) !! m) as Hne by (by rewrite lookup_insert_ne by lia).
      destruct ch as [i|]; [destruct (free s !! i)|]; intros [= <- <-]; done.
  - injection E as <-. split.
    + replace (O ∖ {[p]} ∪ H) with ((O ∪ H) ∖ {[p]}) by set_solver.
      exact (pool_step_ok (O ∪ H, s) _ (PPut (O ∪ H) s p _ ltac:(set_solver) eq_refl) Hp).
    + intros m Hm. split; [set_solver|]. cbn. rewrite lookup_insert_ne; [done|]. intros <-. by apply (Hd p).
  - split.
    + exact (pool_step_ok (O' ∪ H, s) _ (PSet (O' ∪ H) s p v ltac:(set_solver)) Hp).
    + intros m Hm. split; [set_solver|]. cbn. rewrite lookup_insert_ne; [done|]. intros <-. by apply (Hd p).
Qed.

Lemma pool_reachable_ok x : reachable pool_init pool_step x -> pool_ok x.1 x.2.
Proof.
  apply (reachable_inv _ _ (fun x => pool_ok x.1 x.2)).
  - intros s ->. split; cbn; intros; [constructor|set_solver..].
  - intros s s' _ HI Hs. by eapply pool_step_ok.
Qed.
End pool.
Arguments ostate : clear implicits.
Arguments newPool {A}.

(** [pool.GetPacket]/[PutPacket] and the message pools of the two tunnels. *)
Definition GetPacket : option nat -> go (ostate Packet) nat := pool_get.
Definition PutPacket : option nat -> go (ostate Packet) unit := pool_put.
Definition player_getMessage : option nat -> go (ostate player_Message) nat := pool_get.
Definition player_putMessage : option nat -> go (ostate player_Message) unit := pool_put.
Definition room_getMessage : option nat -> go (ostate room_Message) nat := pool_get.
Definition room_putMessage : option nat -> go (ostate room_Message) unit := pool_put.

(** A pooled packet is clean and exclusive: whatever callers did before
    (taking packets, filling those they hold, returning each once), the packet
    [GetPacket] hands out next has every field zero and is held by nobody else,
    whichever free object the [sync.Pool] picks. *)
Theorem GetPacket_clean (O : gset nat) (s s' : ostate Packet) ch p :
  reachable pool_init pool_step (O, s) -> GetPacket ch s = (Ok p, s') ->
  (p ∉ O) /\ objs s' !! p = Some (mkPacket 0 0 false 0 0 0 [] 0).
Proof.
  intros Hr E. apply pool_reachable_ok in Hr.
  destruct (pool_get_ok O s ch p s' Hr E) as (? & ? & _). done.
Qed.

Lemma GetPacket_clean_witness :
  exists O s s', reachable pool_init pool_step (O, s) /\ free s = [0%nat] /\
    GetPacket (Some 0%nat) s = (Ok 0%nat, s') /\ objs s' !! 0%nat = Some (mkPacket 0 0 false 0 0 0 [] 0).
Proof.
  pose proof (reach_init pool_init pool_step (∅, @newPool Packet) eq_refl) as H0.
  pose proof (reach_step _ _ _ _ H0 (PGet ∅ newPool None 0%nat _ eq_refl)) as H1.
  pose proof (reach_step _ _ _ _ H1
    (PSet (∅ ∪ {[0%nat]}) _ 0%nat (mkPacket 1 2 true 3 4 5 [6] 7) ltac:(set_solver))) as H2.
  pose proof (reach_step _ _ _ _ H2 (PPut (A := Packet) (∅ ∪ {[0%nat]}) _ 0%nat _ ltac:(set_solver) eq_refl)) as H3.
  do 3 eexists. split; [exact H3|]. split; [reflexivity|]. split; [reflexivity|].
  apply (GetPacket_clean _ _ _ (Some 0%nat) 0%nat H3). reflexivity.
Defined.

(** A flat codec for the witnesses: the fields, then the data. *)
Definition flat_packet : ProtoMsg Packet := {|
  Marshal := fun p => Ok (p_Ver p :: p_Index p :: Z.b2z (p_Compress p) :: p_Mod p :: p_Seq p :: p_Obj p
                            :: p_DataVersion p :: p_Data p);
  Unmarshal := fun bs =>
    match bs with
    | v :: i :: c :: m :: s :: o :: dv :: d => Ok (mkPacket v i (negb (c =? 0)) m s o d dv)
    | _ => Err (ENew "proto: cannot parse" [])
    end;
|}.

Lemma flat_packet_laws : ProtoLaws (P := flat_packet) Packet.
Proof.
  split; [|done|].
  - intros p bs E. injection E as <-. by destruct p as [v i [] m s o d dv].
  - intros bs q. do 7 (destruct bs as [|? bs]; [discriminate|]). discriminate.
Qed.
