(* ===== verification/TunnelHolder.v ===== *)
(** The tunnels of one connection: src/pkg/net/internal/tunnel.go and
    [Worker.Tunnel] of src/pkg/net/internal/worker.go.

    A holder maps tunnel type and object id to a tunnel.  [Stoppable] is the
    interface of vulcan-pkg-tool/sync that tunnels implement; its state is part
    of the world [W] outside the holder. *)
From S2P Require Import Prelude.

Class Stoppable (T W : Type) := {
  IsStopping : T -> W -> bool;
  TriggerStop : T -> W -> W;
}.

Section holder.
Context {T W : Type} `{ST : Stoppable T W}.

Record tunnelHolder := mkHolder { tunnelGroups : gmap Z (gmap Z T); world : W }.

Definition newTunnelHolder (w : W) : tunnelHolder := mkHolder ∅ w.

(** [tunnel]: under the read lock. *)
Definition tunnel (tp oid : Z) (h : tunnelHolder) : option T :=
  match tunnelGroups h !! tp with
  | None => None
  | Some tg =>
      match tg !! oid with
      | None => None
      | Some t => if IsStopping t (world h) then None else Some t
      end
  end.

Definition create_insert (tp oid : Z) (create : Z -> Z -> go W T) : go tunnelHolder T := fun h =>
  match create tp oid (world h) with
  | (Ok t, w) =>
      let tg := default ∅ (tunnelGroups h !! tp) in
      (Ok t, mkHolder (<[tp := <[oid := t]> tg]> (tunnelGroups h)) w)
  | (Err e, w) => (Err e, mkHolder (tunnelGroups h) w)
  | (Panic q, w) => (Panic q, mkHolder (tunnelGroups h) w)
  end.

(** [createTunnel]: under the write lock, checks again before creating.  A
    missing group is added before the creation and stays when it fails. *)
Definition createTunnel (tp oid : Z) (create : Z -> Z -> go W T) : go tunnelHolder T := fun h =>
  let tg := default ∅ (tunnelGroups h !! tp) in
  let h := mkHolder (<[tp := tg]> (tunnelGroups h)) (world h) in
  match tg !! oid with
  | Some t => if negb (IsStopping t (world h)) then (Ok t, h) else create_insert tp oid create h
  | None => create_insert tp oid create h
  end.

(** [stop]: [iterG] and [iterT] are the orders Go's map iterations take. *)
Definition stop (iterG : gmap Z (gmap Z T) -> list (gmap Z T)) (iterT : gmap Z T -> list T)
    (h : tunnelHolder) : tunnelHolder :=
  mkHolder (tunnelGroups h)
    (foldl (fun w tg => foldl (fun w t => TriggerStop t w) w (iterT tg)) (world h) (iterG (tunnelGroups h))).

(** [Worker.Tunnel]: look up, then create; two critical sections. *)
Definition Tunnel (TunnelType : Z -> result Z) (create : Z -> Z -> go W T) (mod_ oid : Z)
    : go tunnelHolder T := fun h =>
  match TunnelType mod_ with
  | Ok tp =>
      match tunnel tp oid h with
      | Some t => (Ok t, h)
      | None => createTunnel tp oid create h
      end
  | Err e => (Err e, h)
  | Panic q => (Panic q, h)
  end.

(** ** Facts *)

(** The stored tunnel, stopping or not. *)
Definition stored (h : tunnelHolder) (tp oid : Z) : option T :=
  tunnelGroups h !! tp ≫= fun tg => tg !! oid.

Lemma tunnel_stored tp oid h t :
  tunnel tp oid h = Some t <-> stored h tp oid = Some t /\ IsStopping t (world h) = false.
Proof.
  unfold tunnel, stored. destruct (tunnelGroups h !! tp) as [tg|]; cbn; [|intuition congruence].
  destruct (tg !! oid) as [u|]; [|intuition congruence].
  destruct (IsStopping u (world h)) eqn:E; intuition congruence.
Qed.

Lemma stored_insert h tp oid t tp' oid' w :
  stored (mkHolder (<[tp := <[oid := t]> (default ∅ (tunnelGroups h !! tp))]> (tunnelGroups h)) w) tp' oid' =
    if decide (tp' = tp /\ oid' = oid) then Some t else stored h tp' oid'.
Proof.
  unfold stored. cbn [tunnelGroups]. destruct (decide (tp' = tp)) as [->|Hne].
  - rewrite lookup_insert_eq. cbn. destruct (decide (oid' = oid)) as [->|Hne].
    + by rewrite lookup_insert_eq, decide_True.
    + rewrite lookup_insert_ne by done. rewrite decide_False by naive_solver.
      destruct (tunnelGroups h !! tp); cbn; [done|apply lookup_empty].
  - rewrite lookup_insert_ne by done. by rewrite decide_False by naive_solver.
Qed.

(** Adding an empty group changes no stored tunnel. *)
Lemma stored_group h tp tp' oid' w :
  stored (mkHolder (<[tp := default ∅ (tunnelGroups h !! tp)]> (tunnelGroups h)) w) tp' oid' = stored h tp' oid'.
Proof.
  unfold stored. cbn [tunnelGroups]. destruct (decide (tp' = tp)) as [->|Hne].
  - rewrite lookup_insert_eq. cbn. destruct (tunnelGroups h !! tp); cbn; [done|apply lookup_empty].
  - by rewrite lookup_insert_ne by done.
Qed.

(** The three ways [createTunnel] ends. *)
Lemma createTunnel_cases tp oid create h :
  (exists t h', tunnel tp oid h = Some t /\ createTunnel tp oid create h = (Ok t, h') /\
     world h' = world h /\ forall a b, stored h' a b = stored h a b) \/
  (tunnel tp oid h = None /\
    ((exists t w h', create tp oid (world h) = (Ok t, w) /\ createTunnel tp oid create h = (Ok t, h') /\
       world h' = w /\
       forall a b, stored h' a b = if decide (a = tp /\ b = oid) then Some t else stored h a b) \/
     (exists r w h', create tp oid (world h) = (r, w) /\ createTunnel tp oid create h = (r, h') /\
       world h' = w /\ (forall t, r <> Ok t) /\ forall a b, stored h' a b = stored h a b))).
Proof.
  set (tg := default ∅ (tunnelGroups h !! tp)).
  assert (tg !! oid = stored h tp oid) as Etg.
  { unfold tg, stored. destruct (tunnelGroups h !! tp); cbn; [done|apply lookup_empty]. }
  set (h0 := mkHolder (<[tp := tg]> (tunnelGroups h)) (world h)).
  assert (forall a b w, stored (mkHolder (tunnelGroups h0) w) a b = stored h a b) as Eg.
  { intros. apply stored_group. }
  unfold createTunnel. fold tg. fold h0.
  destruct (tunnel tp oid h) as [t|] eqn:Et.
  - left. apply tunnel_stored in Et as [Es Ei]. exists t, h0. rewrite Etg, Es. cbn [world h0]. rewrite Ei. cbn.
    repeat split. intros. apply (Eg a b (world h)).
  - right. split; [done|].
    assert ((match tg !! oid with
             | Some t => if negb (IsStopping t (world h0)) then (Ok t, h0) else create_insert tp oid create h0
             | None => create_insert tp oid create h0 end) = create_insert tp oid create h0) as ->.
    { rewrite Etg. destruct (stored h tp oid) as [u|] eqn:Es; [|done]. cbn [world h0].
      destruct (IsStopping u (world h)) eqn:Ei; [done|].
      assert (tunnel tp oid h = Some u) by (by apply tunnel_stored). congruence. }
    unfold create_insert. cbn [world h0]. destruct (create tp oid (world h)) as [[t|e|q] w] eqn:Ec.
    + left. do 3 eexists. repeat split. intros a b. rewrite stored_insert. case_decide; [done|].
      apply (Eg a b (world h)).
    + right. do 3 eexists. repeat split; [done|]. intros. apply Eg.
    + right. do 3 eexists. repeat split; [done|]. intros. apply Eg.
Qed.
End holder.
Arguments tunnelHolder : clear implicits.

(** ** Goroutines asking for tunnels

    Any number of goroutines run [Worker.Tunnel] on one holder: the lookup under
    the read lock is one step, the creation under the write lock another.
    [log] lists, newest first, what [create] made for which key; the world can
    change between steps as long as a stopping tunnel stays stopping. *)
Section concurrent.
Context {T W : Type} `{ST : Stoppable T W}.
Context (create : Z -> Z -> go W T) (log : W -> list (Z * Z * T)).

Inductive asker := Asking (tp oid : Z) | Creating (tp oid : Z) | Got (tp oid : Z) (t : T) | Failed.

Record cstate := mkC { askers : gmap nat asker; holder : tunnelHolder T W }.

Definition stays_stopping (w w' : W) : Prop := forall t, IsStopping t w -> IsStopping t w'.

Inductive ask_step : cstate -> cstate -> Prop :=
  | AStart i tp oid a h :
      a !! i = None -> ask_step (mkC a h) (mkC (<[i := Asking tp oid]> a) h)
  | AFound i tp oid t a h :
      a !! i = Some (Asking tp oid) -> tunnel tp oid h = Some t ->
      ask_step (mkC a h) (mkC (<[i := Got tp oid t]> a) h)
  | AMissed i tp oid a h :
      a !! i = Some (Asking tp oid) -> tunnel tp oid h = None ->
      ask_step (mkC a h) (mkC (<[i := Creating tp oid]> a) h)
  | ACreated i tp oid t a h h' :
      a !! i = Some (Creating tp oid) -> createTunnel tp oid create h = (Ok t, h') ->
      ask_step (mkC a h) (mkC (<[i := Got tp oid t]> a) h')
  | AFailed i tp oid r a h h' :
      a !! i = Some (Creating tp oid) -> createTunnel tp oid create h = (r, h') -> (forall t, r <> Ok t) ->
      ask_step (mkC a h) (mkC (<[i := Failed]> a) h')
  | AWorld a h w :
      stays_stopping (world h) w -> log w = log (world h) ->
      ask_step (mkC a h) (mkC a (mkHolder (tunnelGroups h) w)).

Definition ask_init (s : cstate) : Prop :=
  askers s = ∅ /\ tunnelGroups (holder s) = ∅ /\ log (world (holder s)) = [].

(** [create] makes one tunnel per successful call and revives none. *)
Hypothesis create_log : forall tp oid w r w', create tp oid w = (r, w') ->
  stays_stopping w w' /\
  log w' = match r with Ok t => (tp, oid, t) :: log w | _ => log w end.

Record ask_inv (s : cstate) : Prop := {
  ai_stored : forall tp oid t, stored (holder s) tp oid = Some t -> (tp, oid, t) ∈ log (world (holder s));
  ai_live : forall tp oid t, (tp, oid, t) ∈ log (world (holder s)) ->
    IsStopping t (world (holder s)) = false -> stored (holder s) tp oid = Some t;
  ai_got : forall i tp oid t, askers s !! i = Some (Got tp oid t) -> (tp, oid, t) ∈ log (world (holder s));
}.

Lemma stays_live w w' t : stays_stopping w w' -> IsStopping t w' = false -> IsStopping t w = false.
Proof. intros H E. destruct (IsStopping t w) eqn:Ew; [|done]. specialize (H t). rewrite Ew, E in H. by destruct H. Qed.

(** What [createTunnel] does to the holder part of the invariant. *)
Lemma createTunnel_inv tp oid a h r h' :
  ask_inv (mkC a h) -> createTunnel tp oid create h = (r, h') ->
  ask_inv (mkC a h') /\ (forall t, r = Ok t -> (tp, oid, t) ∈ log (world h')).
Proof.
  intros [Hst Hlv Hgt] E. cbn [holder askers] in *.
  destruct (createTunnel_cases tp oid create h) as [(t & h1 & Et & E1 & Ew & Es)|
    [Hn [(t & w & h1 & Ec & E1 & Ew & Es)|(r1 & w & h1 & Ec & E1 & Ew & Hr & Es)]]];
    rewrite E1 in E; simplify_eq.
  - split; [|intros u [= <-]; rewrite Ew; apply Hst; by apply tunnel_stored].
    split; cbn [holder askers]; intros *; rewrite ?Ew, ?Es; eauto.
  - destruct (create_log _ _ _ _ _ Ec) as [Hs Hl].
    split; [|intros u [= <-]; rewrite Hl; left].
    split; cbn [holder askers].
    + intros a' b u. rewrite Es, Hl. case_decide as Hd; [destruct Hd as [-> ->]; intros [= <-]; left|].
      intros. right. by apply Hst.
    + intros a' b u. rewrite Hl, Es. intros Hin Hlive. case_decide as Hd.
      * destruct Hd as [-> ->]. apply elem_of_cons in Hin as [Hin|Hin]; [congruence|].
        exfalso. pose proof (stays_live _ _ _ Hs Hlive) as Hl0. specialize (Hlv _ _ _ Hin Hl0).
        assert (tunnel tp oid h = Some u) by (by apply tunnel_stored). congruence.
      * apply elem_of_cons in Hin as [Hin|Hin]; [simplify_eq; tauto|].
        apply Hlv; [done|]. by eapply stays_live.
    + intros i a' b u Hi. rewrite Hl. right. by eapply Hgt.
  - destruct (create_log _ _ _ _ _ Ec) as [Hs Hl].
    split; [|intros u ->; by destruct (Hr u)].
    assert (log (world h') = log (world h)) as Hl' by (rewrite Hl; by destruct r; try by destruct (Hr a0)).
    split; cbn [holder askers]; intros *; rewrite ?Hl', ?Es; eauto.
    intros Hin Hlive. apply Hlv; [done|]. by eapply stays_live.
Qed.

Lemma ask_step_inv s s' : ask_step s s' -> ask_inv s -> ask_inv s'.
Proof.
  intros Hs H. destruct Hs as [i tp oid a h Hi|i tp oid t a h Hi Et|i tp oid a h Hi Et
    |i tp oid t a h h' Hi E|i tp oid r a h h' Hi E Hr|a h w Hw Hl].
  all: try (destruct (createTunnel_inv _ _ _ _ _ _ H E) as [H' Hgot]).
  all: split; cbn [holder askers tunnelGroups world]; try apply H; try apply H'.
  - intros j a' b u Hj. apply lookup_insert_Some in Hj as [[_ ?]|[_ Hj]]; [done|]. by eapply (ai_got _ H).
  - intros j a' b u Hj. apply lookup_insert_Some in Hj as [[_ ?]|[_ Hj]]; [simplify_eq|by eapply (ai_got _ H)].
    apply (ai_stored _ H). by apply tunnel_stored.
  - intros j a' b u Hj. apply lookup_insert_Some in Hj as [[_ ?]|[_ Hj]]; [done|]. by eapply (ai_got _ H).
  - intros j a' b u Hj. apply lookup_insert_Some in Hj as [[_ ?]|[_ Hj]]; [simplify_eq; by apply Hgot|].
    by eapply (ai_got _ H').
  - intros j a' b u Hj. apply lookup_insert_Some in Hj as [[_ ?]|[_ Hj]]; [done|]. by eapply (ai_got _ H').
  - intros a' b u Hu. rewrite Hl. by apply (ai_stored _ H).
  - intros a' b u Hin Hlive. rewrite Hl in Hin. apply (ai_live _ H); [done|]. cbn. by eapply stays_live.
  - intros j a' b u Hj. rewrite Hl. by eapply (ai_got _ H).
Qed.

Lemma ask_reachable_inv s : reachable ask_init ask_step s -> ask_inv s.
Proof.
  apply reachable_inv.
  - intros s0 (Ha & Hg & Hl). split; intros *; rewrite ?Ha, ?Hl; unfold stored; rewrite ?Hg, ?lookup_empty; cbn;
      done || (intros Hin; by apply not_elem_of_nil in Hin).
  - intros s0 s1 _ HI Hs. by eapply ask_step_inv.
Qed.
End concurrent.
Arguments cstate : clear implicits.
Arguments asker : clear implicits.

(** C9: Double-checked creation is safe: however the goroutines of a connection
    interleave their lookups and creations and whatever stops meanwhile, at any
    moment at most one live tunnel was created per tunnel type and object, the
    holder knows it, and every goroutine that got a tunnel got one created for
    the type and object it asked for; in particular two goroutines that hold
    live tunnels of one object hold the same. *)
Theorem one_live_tunnel {T W} `{ST : Stoppable T W} (create : Z -> Z -> go W T)
    (log : W -> list (Z * Z * T)) (s : cstate T W) :
  (forall tp oid w r w', create tp oid w = (r, w') ->
    stays_stopping w w' /\ log w' = match r with Ok t => (tp, oid, t) :: log w | _ => log w end) ->
  reachable (ask_init log) (ask_step create log) s ->
  (forall tp oid t, (tp, oid, t) ∈ log (world (holder s)) -> IsStopping t (world (holder s)) = false ->
     tunnel tp oid (holder s) = Some t) /\
  (forall i j tp oid t u, askers s !! i = Some (Got tp oid t) -> askers s !! j = Some (Got tp oid u) ->
     IsStopping t (world (holder s)) = false -> IsStopping u (world (holder s)) = false -> t = u).
Proof.
  intros Hc Hr. pose proof (ask_reachable_inv create log Hc s Hr) as H.
  assert (forall tp oid t, (tp, oid, t) ∈ log (world (holder s)) -> IsStopping t (world (holder s)) = false ->
     tunnel tp oid (holder s) = Some t) as Hlive.
  { intros tp oid t Hin Hl. apply tunnel_stored. split; [by apply (ai_live _ _ H)|done]. }
  split; [done|]. intros i j tp oid t u Hi Hj Ht Hu.
  pose proof (Hlive _ _ _ (ai_got _ _ H _ _ _ _ Hi) Ht). pose proof (Hlive _ _ _ (ai_got _ _ H _ _ _ _ Hj) Hu).
  congruence.
Qed.

(** A concrete world: the tunnels made so far, numbered, and those stopping. *)
Module DemoWorld.
Record dworld := mkWorld { made : list (Z * Z * nat); stopping : gset nat }.

#[global] Instance demo_stoppable : Stoppable nat dworld := {|
  IsStopping := fun t w => bool_decide (t ∈ stopping w);
  TriggerStop := fun t w => mkWorld (made w) ({[t]} ∪ stopping w);
|}.

Definition demo_create (tp oid : Z) : go dworld nat := fun w =>
  let t := length (made w) in (Ok t, mkWorld ((tp, oid, t) :: made w) (stopping w)).
End DemoWorld.

Lemma one_live_tunnel_witness :
  exists s, reachable (ask_init DemoWorld.made) (ask_step DemoWorld.demo_create DemoWorld.made) s /\
    askers s !! 0%nat = Some (Got 0 7 0%nat) /\ askers s !! 1%nat = Some (Got 0 7 0%nat) /\
    tunnel 0 7 (holder s) = Some 0%nat.
Proof.
  pose (h0 := newTunnelHolder (T := nat) (DemoWorld.mkWorld [] ∅)).
  assert (reachable (ask_init DemoWorld.made) (ask_step DemoWorld.demo_create DemoWorld.made) (mkC ∅ h0)) as H0.
  { apply reach_init. repeat split. }
  pose (cr := DemoWorld.demo_create). pose (lg := DemoWorld.made).
  pose (h1 := snd (createTunnel 0 7 cr h0)). pose (h2 := snd (createTunnel 0 7 cr h1)).
  pose (a1 := <[0%nat := Asking 0 7]> (∅ : gmap nat (asker nat))). pose (a2 := <[1%nat := Asking 0 7]> a1).
  pose (a3 := <[0%nat := Creating 0 7]> a2). pose (a4 := <[1%nat := Creating 0 7]> a3).
  pose (a5 := <[0%nat := Got 0 7 0%nat]> a4).
  pose proof (reach_step _ _ _ _ H0 (AStart cr lg 0 0 7 ∅ h0 eq_refl)) as H1.
  pose proof (reach_step _ _ _ _ H1 (AStart cr lg 1 0 7 a1 h0 eq_refl)) as H2.
  pose proof (reach_step _ _ _ _ H2 (AMissed cr lg 0 0 7 a2 h0 eq_refl eq_refl)) as H3.
  pose proof (reach_step _ _ _ _ H3 (AMissed cr lg 1 0 7 a3 h0 eq_refl eq_refl)) as H4.
  pose proof (reach_step _ _ _ _ H4 (ACreated cr lg 0 0 7 0%nat a4 h0 h1 eq_refl eq_refl)) as H5.
  pose proof (reach_step _ _ _ _ H5 (ACreated cr lg 1 0 7 0%nat a5 h1 h2 eq_refl eq_refl)) as H6.
  eexists. split; [exact H6|]. split; [reflexivity|]. split; [reflexivity|].
  refine (proj1 (one_live_tunnel DemoWorld.demo_create DemoWorld.made _ _ H6) 0 7 0%nat _ _); [|left|reflexivity].
  intros tp oid w r w' E. cbv [DemoWorld.demo_create] in E. injection E as <- <-. split; [by intros t|done].
Defined.

(** [stop] reaches every tunnel: whatever order the two map iterations take,
    it triggers exactly the stored tunnels, one [TriggerStop] call each, and
    leaves the map as it is. *)
Theorem stop_triggers_all {T W} `{ST : Stoppable T W} iterG iterT (h : tunnelHolder T W) :
  (forall m, iterG m ≡ₚ (map_to_list m).*2) -> (forall m, iterT m ≡ₚ (map_to_list m).*2) ->
  exists order, stop iterG iterT h = mkHolder (tunnelGroups h) (foldl (fun w t => TriggerStop t w) (world h) order) /\
    order ≡ₚ concat ((fun g => (map_to_list g).*2) <$> (map_to_list (tunnelGroups h)).*2) /\
    forall t, t ∈ order <-> exists tp oid, stored h tp oid = Some t.
Proof.
  intros HG HT. exists (concat (iterT <$> iterG (tunnelGroups h))).
  assert (concat (iterT <$> iterG (tunnelGroups h)) ≡ₚ
    concat ((fun g => (map_to_list g).*2) <$> (map_to_list (tunnelGroups h)).*2)) as HP.
  { rewrite <- (HG (tunnelGroups h)). induction (iterG (tunnelGroups h)) as [|g l IH]; [done|].
    cbn. by rewrite IH, HT. }
  split; [|split; [done|]].
  - unfold stop. f_equal. clear HP. generalize (world h). induction (iterG (tunnelGroups h)) as [|g l IH]; intros w; [done|].
    rewrite fmap_cons. cbn [concat foldl]. rewrite foldl_app. apply IH.
  - intros t. rewrite HP, list_elem_of_In, in_concat. unfold stored. split.
    + intros (l & Hl & Ht). apply list_elem_of_In, list_elem_of_fmap in Hl as (g & -> & Hg).
      apply list_elem_of_fmap in Hg as ([tp g'] & -> & Hg). apply elem_of_map_to_list in Hg. cbn in Ht.
      apply list_elem_of_In, list_elem_of_fmap in Ht as ([oid t'] & -> & Ht). apply elem_of_map_to_list in Ht.
      exists tp, oid. by rewrite Hg.
    + intros (tp & oid & Hs). apply bind_Some in Hs as (g & Hg & Ht). exists ((map_to_list g).*2).
      rewrite <- !list_elem_of_In. split; apply list_elem_of_fmap.
      * exists g. split; [done|]. apply list_elem_of_fmap. exists (tp, g). by rewrite elem_of_map_to_list.
      * exists (oid, t). by rewrite elem_of_map_to_list.
Qed.

Lemma stop_triggers_all_witness :
  let h := mkHolder (T := nat) {[0 := {[7 := 3%nat]}; 1 := {[9 := 4%nat]}]} (DemoWorld.mkWorld [] ∅) in
  exists order, stop (fun m => (map_to_list m).*2) (fun m => (map_to_list m).*2) h =
      mkHolder (tunnelGroups h) (foldl (fun w t => TriggerStop t w) (world h) order) /\
    forall t, t ∈ order <-> exists tp oid, stored h tp oid = Some t.
Proof.
  intros h. destruct (stop_triggers_all (fun m => (map_to_list m).*2) (fun m => (map_to_list m).*2) h)
    as (order & E & _ & Ho); [done|done|]. by exists order.
Defined.
