(* ===== verification/Security.v ===== *)
(** Keys and tokens: src/app/gate/internal/pkg/security/crypto.go.

    Cryptography is not modelled: base64, PKCS#8 parsing, RSA and random strings
    are operations of the class [Crypto], next to the AES operations of
    [Cipher].  The package's three variables are explicit state. *)
From Stdlib Require Import Ascii.
From S2P Require Import Prelude Session.
#[local] Open Scope Z_scope.

(** [x509.ParsePKCS8PrivateKey] returns a key of one of several types. *)
Inductive pkcs8_key (K : Type) := RsaKey (k : K) | OtherKey.
Arguments RsaKey {K} k.
Arguments OtherKey {K}.

Class Crypto := {
  PrivateKey : Type;
  PublicKey : Type;
  base64_Decode : string -> result (list Z);
  x509_ParsePKCS8 : list Z -> result (pkcs8_key PrivateKey);
  rsa_ParsePublicKey : list Z -> result PublicKey;
  (** [seed] stands for the random source *)
  rsa_Encrypt : nat -> PublicKey -> list Z -> result (list Z);
  rsa_Decrypt : option PrivateKey -> list Z -> result (list Z);
  rand_AlphaNum : nat -> Z -> result string;
}.

(** [[]byte(s)] *)
Fixpoint string_bytes (s : string) : list Z :=
  match s with
  | EmptyString => []
  | String c s => Z.of_nat (nat_of_ascii c) :: string_bytes s
  end.

Section security.
Context `{C : Cipher} `{K : Crypto}.

(** The package variables. *)
Record secrets := mkSecrets {
  handshakePriKey : option PrivateKey;
  tokenAESKey : list Z;
  tokenAESBlock : option Block;
}.

(** [Init]: the variables assigned before a failure keep their new value. *)
Definition Init (aesKey priKey : string) : go secrets unit :=
  priKeyBytes ← lift (map_err (fun e => EWrap e "base64 DecodeString failed." []) (base64_Decode priKey));
  priKeyIface ← lift (map_err (fun e => EWrap e "x509 ParsePKCS8PrivateKey failed." [])
                        (x509_ParsePKCS8 priKeyBytes));
  k ← lift (match priKeyIface with RsaKey k => Ok k | OtherKey => Panic TypeAssert end);
  modify (fun s => mkSecrets (Some k) (tokenAESKey s) (tokenAESBlock s)) ;;
  modify (fun s => mkSecrets (handshakePriKey s) (string_bytes aesKey) (tokenAESBlock s)) ;;
  block ← lift (map_err (fun e => EWrap e "aes NewBlock failed." []) (aes_NewBlock (string_bytes aesKey)));
  modify (fun s => mkSecrets (handshakePriKey s) (tokenAESKey s) (Some block)).

Definition InitApiCrypto (seed : nat) : result (option Block * list Z) :=
  str ← map_err (fun e => EWrap e "xrand RandString failed." []) (rand_AlphaNum seed 32);
  let key := string_bytes str in
  block ← map_err (fun e => EWrap e "create aes block failed." []) (aes_NewBlock key);
  Ok (Some block, key).

Definition DecryptCSHandshake (s : secrets) (secret : list Z) : result (list Z) :=
  rsa_Decrypt (handshakePriKey s) secret.

Definition DecryptToken (s : secrets) (secret : string) : result (list Z) :=
  ser ← map_err (fun e => EWrap e "base64 DecodeString failed." []) (base64_Decode secret);
  map_err (fun e => EWrap e "aes Decrypt failed." []) (aes_Decrypt (tokenAESKey s) (tokenAESBlock s) ser).

(** What a successful [Init] leaves. *)
Lemma Init_ok aesKey priKey s s' : Init aesKey priKey s = (Ok tt, s') ->
  exists bs k block, base64_Decode priKey = Ok bs /\ x509_ParsePKCS8 bs = Ok (RsaKey k) /\
    aes_NewBlock (string_bytes aesKey) = Ok block /\ s' = mkSecrets (Some k) (string_bytes aesKey) (Some block).
Proof.
  cbv [Init mbind go_bind lift map_err modify].
  destruct (base64_Decode priKey) as [bs|e|q] eqn:E1; try discriminate.
  destruct (x509_ParsePKCS8 bs) as [[k|]|e|q] eqn:E2; try discriminate.
  destruct (aes_NewBlock (string_bytes aesKey)) as [b|e|q] eqn:E3; try discriminate.
  intros [= <-]. by exists bs, k, b.
Qed.
End security.
Arguments secrets {C K}.
