(* ===== verification/Service.v ===== *)
(** The gateway's packet service: src/app/gate/internal/intra/net/service/
    ([service.go], [tunnel.go], [auth.go]) and the tunnel types of
    src/app/gate/internal/intra/net/tunnels/types.go.

    [handle] works against the interface [TunnelOps], the part of
    [tunnel.Holder]/[tunnel.Tunnel] it uses; compression is the class
    [Compressor], the protobuf codec [ProtoMsg]. *)
From S2P Require Import Prelude Session Context Messages Security.

(** ** Interfaces *)

(** vulcan-pkg-tool/compress: [Compress] says whether it compressed. *)
Class Compressor := {
  Compress : list Z -> result (list Z * bool);
  Decompress : list Z -> result (list Z);
}.

Class CompressorLaws (Cp : Compressor) : Prop := {
  compress_round_trip : forall data out c, Compress data = Ok (out, c) ->
    if c then Decompress out = Ok data else out = data;
}.

(** [th.Tunnel] and [t.Forward] over the world [W] of the holder. *)
Class TunnelOps `{M : Metadata} (W T : Type) := {
  th_Tunnel : Ctx -> Z -> Z -> go W T;
  t_Forward : Ctx -> T -> Packet -> go W unit;
}.

(** ** Tunnel types *)

Definition PlayerTunnelType : Z := 0.
Definition RoomTunnelType : Z := 1.
Definition TeamTunnelType : Z := 2.
Definition FightTunnelType : Z := 3.
Definition ChatTunnelType : Z := 4.
Definition MailTunnelType : Z := 5.

(** [Service.TunnelType] *)
Definition TunnelType (mod_ : Z) : result Z :=
  if mod_ =? ModuleID_Room then Ok RoomTunnelType else Ok PlayerTunnelType.

(** [Service.createAppTunnel] and [Service.CreateTunnel]: the player and room
    constructors and [tunnels.NewTunnel] are passed in; they act on [W]. *)
Definition createAppTunnel {W A : Type} (ss_uid : Z) (ss_color : string)
    (newPlayer : go W A) (newRoom : Z -> go W A) (tp oid : Z) : go W A :=
  if tp =? PlayerTunnelType then newPlayer
  else if tp =? RoomTunnelType then newRoom oid
  else throw (ENew "TunnelType invalid. TunnelType=%d uid=%d color=%s oid=%d"
                [AZ tp; AZ ss_uid; AS ss_color; AZ oid]).

Definition CreateTunnel {W A T : Type} (ss_uid : Z) (ss_color : string)
    (newPlayer : go W A) (newRoom : Z -> go W A) (NewTunnel : A -> go W T) (tp oid : Z) : go W T :=
  app ← createAppTunnel ss_uid ss_color newPlayer newRoom tp oid;
  NewTunnel app.

(** ** Handling a packet *)

Section handle.
Context `{C : Cipher} `{M : Metadata} `{Cp : Compressor} {W T : Type}.
Context `{TO : !TunnelOps W T} `{PM : !ProtoMsg Packet}.

(** The session, the packet pool and the holder's world. *)
Record svc_state := mkSvc { sv_ss : session; sv_pkts : ostate Packet; sv_w : W }.

Definition on_w {A} (f : go W A) : go svc_state A := fun st =>
  let '(r, w) := f (sv_w st) in (r, mkSvc (sv_ss st) (sv_pkts st) w).
Definition on_pkts {A} (f : go (ostate Packet) A) : go svc_state A := fun st =>
  let '(r, s) := f (sv_pkts st) in (r, mkSvc (sv_ss st) s (sv_w st)).
Definition put_ss (ss : session) : go svc_state unit := fun st => (Ok tt, mkSvc ss (sv_pkts st) (sv_w st)).

(** Assignments to the pooled packet [p], whose value is then [v]. *)
Definition set_packet (p : nat) (v : Packet) : go svc_state unit := fun st =>
  (Ok tt, mkSvc (sv_ss st) (pool_set p v (sv_pkts st)) (sv_w st)).

Definition with_msg (p : Packet) (e : error) : error :=
  EWrap e "mod=%d seq=%d obj=%d" [AZ (p_Mod p); AZ (p_Seq p); AZ (p_Obj p)].

Definition set_Data (p : Packet) (d : list Z) : Packet :=
  mkPacket (p_Ver p) (p_Index p) (p_Compress p) (p_Mod p) (p_Seq p) (p_Obj p) d (p_DataVersion p).
Definition set_Obj (p : Packet) (o : Z) : Packet :=
  mkPacket (p_Ver p) (p_Index p) (p_Compress p) (p_Mod p) (p_Seq p) o (p_Data p) (p_DataVersion p).

(** The sequence check of an encrypted session. *)
Definition check_index (pk : Packet) : go svc_state unit :=
  ss ← gets sv_ss;
  if IsCrypto ss then
    if negb (CSIndex ss =? p_Index pk) then
      throw (ENew "csindex validation failed. want=%d give=%d" [AZ (CSIndex ss); AZ (p_Index pk)])
    else put_ss (snd (IncreaseCSIndex ss))
  else mret tt.

(** From the decompression on. *)
Definition deliver (ctx : Ctx) (p : nat) (pk : Packet) : go svc_state unit :=
  pk ← (if p_Compress pk then
          d ← lift (map_err (with_msg pk) (Decompress (p_Data pk)));
          set_packet p (set_Data pk d) ;; mret (set_Data pk d)
        else mret pk);
  ss ← gets sv_ss;
  pk ← (if p_Obj pk =? 0 then set_packet p (set_Obj pk (UID ss)) ;; mret (set_Obj pk (UID ss)) else mret pk);
  let ctx := SetOID ctx (p_Obj pk) in
  t ← wrapping (with_msg pk) (on_w (th_Tunnel ctx (p_Mod pk) (p_Obj pk)));
  wrapping (with_msg pk) (on_w (t_Forward ctx t pk)).

(** The body of [handle] on the pooled packet [p]. *)
Definition handle_body (ctx : Ctx) (in_ : list Z) (p : nat) : go svc_state unit :=
  pk ← lift (map_err (fun e => EWrap e "packet unmarshal failed" []) (Unmarshal in_));
  set_packet p pk ;;
  check_index pk ;;
  deliver ctx p pk.

(** [defer pool.PutPacket(p)] *)
Definition put_packet (p : nat) (st : svc_state) : svc_state :=
  mkSvc (sv_ss st) (snd (PutPacket (Some p) (sv_pkts st))) (sv_w st).

(** [handle]; [ch] is the pool's choice. *)
Definition handle (ch : option nat) (ctx : Ctx) (in_ : list Z) : go svc_state unit :=
  p ← on_pkts (GetPacket ch);
  deferring (put_packet p) (handle_body ctx in_ p).

(** [Service.Handle]: the message names the session. *)
Definition Handle (ch : option nat) (ctx : Ctx) (in_ : list Z) : go svc_state unit := fun st =>
  let '(r, st') := handle ch ctx in_ st in
  (map_err (fun e => EWrap e "uid=%d color=%s status=%d"
     [AZ (UID (sv_ss st')); AS (Session.Color (sv_ss st')); AZ (Status (sv_ss st'))]) r, st').

(** *** Facts *)

Lemma GetPacket_returns ch s : exists p s', GetPacket ch s = (Ok p, s').
Proof.
  unfold GetPacket, pool_get. destruct ch as [i|]; [|by eexists _, _].
  destruct (free s !! i); by eexists _, _.
Qed.

(** Writing a held packet and returning it keep the pool's invariant. *)
Lemma packet_set_ok O p (v : Packet) s : p ∈ O -> pool_ok O s -> pool_ok O (pool_set p v s).
Proof. intros Hp H. exact (pool_step_ok (A := Packet) (O, s) (O, pool_set p v s) (PSet O s p v Hp) H). Qed.

Lemma packet_put_ok O p (s : ostate Packet) : p ∈ O -> pool_ok O s ->
  pool_ok (O ∖ {[p]}) (snd (PutPacket (Some p) s)).
Proof.
  intros Hp H. exact (pool_step_ok (A := Packet) (O, s) (O ∖ {[p]}, snd (PutPacket (Some p) s))
                       (PPut O s p _ Hp eq_refl) H).
Qed.

(** A computation that leaves the session alone and writes only to packet [p]. *)
Definition local_to {A} (p : nat) (m : go svc_state A) : Prop :=
  forall st r st', m st = (r, st') -> sv_ss st' = sv_ss st /\
    forall O, p ∈ O -> pool_ok O (sv_pkts st) -> pool_ok O (sv_pkts st').

Lemma local_bind {A B} p (m : go svc_state A) (k : A -> go svc_state B) :
  local_to p m -> (forall a, local_to p (k a)) -> local_to p (m ≫= k).
Proof.
  intros Hm Hk st r st'. cbv [mbind go_bind]. destruct (m st) as [[a|e|q] st1] eqn:E;
    destruct (Hm _ _ _ E) as [Hs Hp]; [|by intros; simplify_eq..].
  intros E2. destruct (Hk a _ _ _ E2) as [Hs2 Hp2]. split; [congruence|eauto].
Qed.

Lemma local_lift {A} p (r : result A) : local_to p (lift r).
Proof. intros st r' st' E. injection E as <- <-. by split. Qed.

Lemma local_ret {A} p (a : A) : local_to p (mret a).
Proof. intros st r' st' E. injection E as <- <-. by split. Qed.

Lemma local_gets {A} p (f : svc_state -> A) : local_to p (gets f).
Proof. intros st r' st' E. injection E as <- <-. by split. Qed.

Lemma local_on_w {A} p (f : go W A) : local_to p (on_w f).
Proof. intros st r st'. unfold on_w. destruct (f (sv_w st)). intros [= <- <-]. by split. Qed.

Lemma local_wrapping {A} p f (m : go svc_state A) : local_to p m -> local_to p (wrapping f m).
Proof. intros H st r st'. unfold wrapping. destruct (m st) eqn:E. intros E2. simplify_eq/=. by eapply H. Qed.

Lemma local_set_packet p v : local_to p (set_packet p v).
Proof.
  intros st r st' E. unfold set_packet in E. simplify_eq/=. split; [done|]. intros O Hp H.
  by apply packet_set_ok.
Qed.

Lemma local_deliver ctx p pk : local_to p (deliver ctx p pk).
Proof.
  unfold deliver. repeat first
    [ apply local_bind; [|intros ?] | apply local_lift | apply local_ret | apply local_gets | apply local_on_w
    | apply local_wrapping | apply local_set_packet | case_match ].
Qed.

Lemma handle_shape ch ctx in_ st : exists p pl, GetPacket ch (sv_pkts st) = (Ok p, pl) /\
  handle ch ctx in_ st =
    (let '(r, st') := handle_body ctx in_ p (mkSvc (sv_ss st) pl (sv_w st)) in (r, put_packet p st')).
Proof.
  destruct (GetPacket_returns ch (sv_pkts st)) as (p & pl & E). exists p, pl. split; [done|].
  cbv [handle mbind go_bind on_pkts deferring]. by rewrite E.
Qed.

(** The outcome of [handle] by what happened before the delivery. *)
Lemma handle_cases ch ctx in_ st r st' : handle ch ctx in_ st = (r, st') ->
  (forall pk, Unmarshal in_ <> Ok pk) /\ r <> Ok tt /\ sv_ss st' = sv_ss st /\ sv_w st' = sv_w st \/
  exists pk, Unmarshal in_ = Ok pk /\
    ((IsCrypto (sv_ss st) = true /\ CSIndex (sv_ss st) <> p_Index pk /\
      r = Err (ENew "csindex validation failed. want=%d give=%d" [AZ (CSIndex (sv_ss st)); AZ (p_Index pk)]) /\
      sv_ss st' = sv_ss st /\ sv_w st' = sv_w st) \/
     (IsCrypto (sv_ss st) = true /\ CSIndex (sv_ss st) = p_Index pk /\
      sv_ss st' = snd (IncreaseCSIndex (sv_ss st))) \/
     (IsCrypto (sv_ss st) = false /\ sv_ss st' = sv_ss st)).
Proof.
  destruct (handle_shape ch ctx in_ st) as (p & pl & _ & ->).
  destruct (handle_body ctx in_ p (mkSvc (sv_ss st) pl (sv_w st))) as [r1 st1] eqn:E. intros [= <- <-].
  unfold put_packet. cbn [sv_ss sv_w]. revert E. cbv [handle_body mbind go_bind lift].
  destruct (Unmarshal in_) as [pk|e|q]; cbn [map_err]; [|intros [= <- <-]; by left..].
  intros E. right. exists pk. split; [done|]. revert E.
  cbv [set_packet check_index mbind go_bind gets throw put_ss mret go_ret]. cbn [sv_ss sv_pkts sv_w].
  destruct (IsCrypto (sv_ss st)).
  - destruct (Z.eqb_spec (CSIndex (sv_ss st)) (p_Index pk)) as [Ei|Ei]; cbn [negb].
    + intros E. right; left. split; [done|]. split; [done|]. by apply local_deliver in E as [-> _].
    + intros [= <- <-]. by left.
  - intros E. right; right. split; [done|]. by apply local_deliver in E as [-> _].
Qed.

Lemma handle_pool ch ctx in_ st r st' O :
  handle ch ctx in_ st = (r, st') -> pool_ok O (sv_pkts st) -> pool_ok O (sv_pkts st').
Proof.
  destruct (handle_shape ch ctx in_ st) as (p & pl & Eg & ->). intros E H.
  destruct (pool_get_ok O _ ch p pl H Eg) as (Hp & _ & H1).
  destruct (handle_body ctx in_ p (mkSvc (sv_ss st) pl (sv_w st))) as [r1 st1] eqn:Eb.
  injection E as <- <-. cbn [put_packet sv_pkts].
  assert (pool_ok (O ∪ {[p]}) (sv_pkts st1)) as H2.
  { revert Eb. cbv [handle_body mbind go_bind lift].
    destruct (Unmarshal in_) as [pk|e|q]; cbn [map_err]; [|by intros [= <- <-]..].
    cbv [set_packet check_index mbind go_bind gets throw put_ss mret go_ret]. cbn [sv_ss sv_pkts sv_w].
    pose proof (packet_set_ok (O ∪ {[p]}) p pk pl ltac:(set_solver) H1) as H2.
    destruct (IsCrypto (sv_ss st)); [destruct (negb (CSIndex (sv_ss st) =? p_Index pk)); [by intros [= <- <-]|]|].
    all: intros E; apply local_deliver in E as [_ E]; apply E; [set_solver|done]. }
  pose proof (packet_put_ok (O ∪ {[p]}) p (sv_pkts st1) ltac:(set_solver) H2) as H3.
  replace ((O ∪ {[p]}) ∖ {[p]}) with O in H3 by set_solver. exact H3.
Qed.

(** Packets handled one after the other, as the worker's read loop does. *)
Fixpoint handle_all (ctx : Ctx) (ins : list (option nat * list Z)) : go svc_state unit :=
  match ins with
  | [] => mret tt
  | (ch, in_) :: ins => handle ch ctx in_ ;; handle_all ctx ins
  end.

Lemma handle_all_indices ctx ins st st' :
  handle_all ctx ins st = (Ok tt, st') -> IsCrypto (sv_ss st) = true ->
  0 <= CSIndex (sv_ss st) -> CSIndex (sv_ss st) + zlen ins < 2 ^ 63 ->
  IsCrypto (sv_ss st') = true /\ CSIndex (sv_ss st') = CSIndex (sv_ss st) + zlen ins /\
  exists pks, Forall2 (fun i pk => Unmarshal (snd i) = Ok pk) ins pks /\
    p_Index <$> pks = seqZ (CSIndex (sv_ss st)) (zlen ins).
Proof.
  revert st. induction ins as [|[ch in_] ins IH]; intros st E Hc Hi Hb.
  - injection E as <-. split; [done|]. split; [cbn; lia|]. by exists [].
  - cbn [handle_all] in E. cbv [mbind go_bind] in E.
    destruct (handle ch ctx in_ st) as [[[]|e|q] st1] eqn:E1; try discriminate.
    destruct (handle_cases _ _ _ _ _ _ E1) as [(_ & Hr & _)|(pk & Eu & [(_ & _ & Hr & _)|[(_ & Ei & Es)|(Hf & _)]])];
      [done|done| |congruence].
    unfold CSIndex in *. cbn [length] in Hb. rewrite Nat2Z.inj_succ in Hb.
    assert (csIndex (sv_ss st1) = mkIndex (start_index (csIndex (sv_ss st))) (Load (csIndex (sv_ss st)) + 1)) as Ec.
    { rewrite Es. unfold IncreaseCSIndex. unfold Load in *. rewrite (Increase_val (csIndex (sv_ss st))) by lia. done. }
    assert (Load (csIndex (sv_ss st1)) = Load (csIndex (sv_ss st)) + 1) as El by (by rewrite Ec).
    destruct (IH st1 E) as (Hc' & Hi' & pks & HF & Hx); [by rewrite Es|lia|lia|].
    split; [done|]. cbn [length]. rewrite Nat2Z.inj_succ. split; [rewrite Hi', El; lia|]. exists (pk :: pks).
    split; [by constructor|]. rewrite fmap_cons, Hx, El, (seqZ_cons (Load (csIndex (sv_ss st)))), <- Ei by lia. f_equal. f_equal; lia.
Qed.
End handle.
Arguments svc_state C W : clear implicits.

(** ** Properties of [handle] *)

(** C5: On an encrypted session packets are taken strictly in order: when a
    sequence of packets has been handled without error, their indices were
    consecutive from the session's counter on, and the counter has moved by
    their number (as long as it stays below [2^63]). *)
Theorem packets_in_order `{C : Cipher} `{M : Metadata} `{Cp : Compressor} {W T} `{TO : !TunnelOps W T}
    `{PM : !ProtoMsg Packet} ctx ins (st st' : svc_state C W) :
  handle_all ctx ins st = (Ok tt, st') -> IsCrypto (sv_ss st) = true ->
  0 <= CSIndex (sv_ss st) -> CSIndex (sv_ss st) + zlen ins < 2 ^ 63 ->
  CSIndex (sv_ss st') = CSIndex (sv_ss st) + zlen ins /\
  exists pks, Forall2 (fun i pk => Unmarshal (snd i) = Ok pk) ins pks /\
    p_Index <$> pks = seqZ (CSIndex (sv_ss st)) (zlen ins).
Proof. intros E Hc Hi Hb. by destruct (handle_all_indices ctx ins st st' E Hc Hi Hb) as (_ & ? & ?). Qed.

(** C14: Replays are rejected: a packet handled once on an encrypted session is
    refused when it is sent again, right away or after any further packets;
    the refusal forwards nothing, opens no tunnel and leaves the session as it
    was.  (Only an encrypted session's packets have their index checked: on a
    plain one a replay passes.) *)
Theorem replay_rejected `{C : Cipher} `{M : Metadata} `{Cp : Compressor} {W T} `{TO : !TunnelOps W T}
    `{PM : !ProtoMsg Packet} ctx ch in_ ins ch' ctx' (st st' : svc_state C W) :
  handle_all ctx ((ch, in_) :: ins) st = (Ok tt, st') -> IsCrypto (sv_ss st) = true ->
  0 <= CSIndex (sv_ss st) -> CSIndex (sv_ss st) + zlen ((ch, in_) :: ins) < 2 ^ 63 ->
  exists e st'', handle ch' ctx' in_ st' = (Err e, st'') /\
    e = ENew "csindex validation failed. want=%d give=%d"
          [AZ (CSIndex (sv_ss st) + zlen ((ch, in_) :: ins)); AZ (CSIndex (sv_ss st))] /\
    sv_ss st'' = sv_ss st' /\ sv_w st'' = sv_w st'.
Proof.
  intros E Hc Hi Hb. destruct (handle_all_indices _ _ _ _ E Hc Hi Hb) as (Hc' & Hi' & pks & HF & Hx).
  apply Forall2_cons_inv_l in HF as (pk & pks' & Eu & _ & ->). cbn [snd] in Eu.
  cbn [length] in *. rewrite Nat2Z.inj_succ in *. rewrite fmap_cons, seqZ_cons in Hx by lia. injection Hx as Ei _.
  destruct (handle ch' ctx' in_ st') as [r st''] eqn:E2. exists (ENew "csindex validation failed. want=%d give=%d"
          [AZ (CSIndex (sv_ss st')); AZ (p_Index pk)]), st''.
  destruct (handle_cases _ _ _ _ _ _ E2) as [(Hn & _)|(pk' & Eu' & [(_ & _ & -> & Hs & Hw)|[(_ & Ei' & _)|(Hf & _)]])].
  - by destruct (Hn pk).
  - assert (pk' = pk) as -> by congruence. rewrite Hi', Ei. done.
  - assert (pk' = pk) as -> by congruence. lia.
  - congruence.
Qed.

(** The packet index is an [int32] but the counter an [int64]: once the
    counter has passed [2^31 - 1] no packet is accepted any more, and the
    session has to be given up. *)
Theorem csindex_exhausted `{C : Cipher} `{M : Metadata} `{Cp : Compressor} {W T} `{TO : !TunnelOps W T}
    `{PM : !ProtoMsg Packet} ch ctx in_ (st st' : svc_state C W) r :
  (forall bs pk, Unmarshal bs = Ok pk -> - 2 ^ 31 <= p_Index pk < 2 ^ 31) ->
  IsCrypto (sv_ss st) = true -> 2 ^ 31 <= CSIndex (sv_ss st) ->
  handle ch ctx in_ st = (r, st') -> r <> Ok tt /\ sv_ss st' = sv_ss st /\ sv_w st' = sv_w st.
Proof.
  intros H32 Hc Hi E.
  destruct (handle_cases _ _ _ _ _ _ E) as [(_ & ? & ? & ?)|(pk & Eu & [(_ & _ & -> & Hs & Hw)|[(_ & Ei & _)|(Hf & _)]])].
  - done.
  - done.
  - pose proof (H32 _ _ Eu). lia.
  - congruence.
Qed.

(** [Handle] gives its pooled packet back on every outcome, errors and
    panics included: if the packet pool is sound with the set [O] of packets
    held by others, it is sound with the same set afterwards. *)
Theorem Handle_returns_packet `{C : Cipher} `{M : Metadata} `{Cp : Compressor} {W T} `{TO : !TunnelOps W T}
    `{PM : !ProtoMsg Packet} ch ctx in_ (st st' : svc_state C W) r O :
  Handle ch ctx in_ st = (r, st') -> pool_ok O (sv_pkts st) -> pool_ok O (sv_pkts st').
Proof.
  unfold Handle. destruct (handle ch ctx in_ st) as [r1 st1] eqn:E. intros [= _ <-]. by eapply handle_pool.
Qed.

(** What the client sends is what the tunnel gets: a packet the client
    numbered with the session's counter, compressed with [Compress] when that
    shrank it, and marshalled is forwarded with its original data to the tunnel
    of its module and object (the user's own id for object 0), under a context
    that carries that object id; the outcome is the tunnel's, and the counter
    moves by one. *)
Lemma handle_forwards `{C : Cipher} `{M : Metadata} `{Cp : Compressor} {W T} `{TO : !TunnelOps W T}
    `{PM : !ProtoMsg Packet} {CL : CompressorLaws Cp} {PL : ProtoLaws Packet} ch ctx (st : svc_state C W)
    (pk : Packet) data out c bs t w w' r :
  Compress data = Ok (out, c) -> p_Data pk = out -> p_Compress pk = c -> Marshal pk = Ok bs ->
  (IsCrypto (sv_ss st) = true -> p_Index pk = CSIndex (sv_ss st)) ->
  let obj := if p_Obj pk =? 0 then UID (sv_ss st) else p_Obj pk in
  let ss' := if IsCrypto (sv_ss st) then snd (IncreaseCSIndex (sv_ss st)) else sv_ss st in
  let pk' := set_Obj (set_Data pk data) obj in
  th_Tunnel (SetOID ctx obj) (p_Mod pk) obj (sv_w st) = (Ok t, w) ->
  t_Forward (SetOID ctx obj) t pk' w = (r, w') ->
  exists pl, handle ch ctx bs st = (map_err (with_msg pk') r, mkSvc ss' pl w').
Proof.
  intros Hcmp Hd Hc Hm Hi obj ss' pk' Ht Hf.
  destruct (handle_shape ch ctx bs st) as (p & pl & _ & ->).
  cbv [handle_body mbind go_bind lift]. rewrite (proto_round_trip _ _ Hm). cbn [map_err].
  assert (check_index pk (mkSvc (sv_ss st) (pool_set p pk pl) (sv_w st)) =
    (Ok tt, mkSvc ss' (pool_set p pk pl) (sv_w st))) as Hck.
  { cbv [check_index mbind go_bind gets throw put_ss mret go_ret]. cbn [sv_ss sv_pkts sv_w]. unfold ss'.
    destruct (IsCrypto (sv_ss st)); [|done]. rewrite (Hi eq_refl), Z.eqb_refl. done. }
  cbv [set_packet]. cbn [sv_ss sv_pkts sv_w]. rewrite Hck.
  assert (UID ss' = UID (sv_ss st)) as Hu by (unfold ss'; by destruct (IsCrypto (sv_ss st))).
  assert (exists pl2, deliver ctx p pk (mkSvc ss' (pool_set p pk pl) (sv_w st)) =
    (map_err (with_msg pk') r, mkSvc ss' pl2 w')) as (pl2 & ->); [|by eexists].
  assert (set_Data pk (p_Data pk) = pk) as Hsame by (by destruct pk).
  pose proof (compress_round_trip _ _ _ Hcmp) as Hrt.
  assert (exists pl1, (if p_Compress pk then
     d ← lift (map_err (with_msg pk) (Decompress (p_Data pk)));
     set_packet p (set_Data pk d) ;; mret (set_Data pk d) else mret pk)
     (mkSvc ss' (pool_set p pk pl) (sv_w st)) = (Ok (set_Data pk data), mkSvc ss' pl1 (sv_w st))) as (pl1 & E1).
  { rewrite Hc. destruct c.
    - cbv [mbind go_bind lift]. rewrite Hd, Hrt. cbn. by eexists.
    - rewrite <- Hrt, <- Hd, Hsame. by eexists. }
  unfold deliver. cbv [mbind go_bind] in E1 |- *. rewrite E1. cbn [gets sv_ss].
  cbv [gets]. cbn [sv_ss set_Data p_Obj]. rewrite Hu.
  assert (forall pl, (wrapping (with_msg pk') (on_w (th_Tunnel (SetOID ctx obj) (p_Mod pk) obj)))
    (mkSvc ss' pl (sv_w st)) = (Ok t, mkSvc ss' pl w)) as E2.
  { intros. cbv [wrapping on_w]. cbn [sv_w]. by rewrite Ht. }
  assert (forall pl, (wrapping (with_msg pk') (on_w (t_Forward (SetOID ctx obj) t pk')))
    (mkSvc ss' pl w) = (map_err (with_msg pk') r, mkSvc ss' pl w')) as E3.
  { intros. cbv [wrapping on_w]. cbn [sv_w]. by rewrite Hf. }
  unfold pk', obj in *. destruct (p_Obj pk =? 0) eqn:E0.
  - cbv [set_packet mret go_ret]. cbn [set_Obj set_Data p_Obj p_Mod sv_ss sv_pkts sv_w] in *. rewrite E2, E3. by eexists.
  - assert (set_Obj (set_Data pk data) (p_Obj pk) = set_Data pk data) as Hso by (by destruct pk).
    rewrite Hso in *. cbv [mret go_ret]. cbn [set_Data p_Obj p_Mod] in *. rewrite E2, E3. by eexists.
Qed.

(** *** Witnesses: the flat codec, a reversing compressor and a logging holder *)

#[local] Existing Instances flat_packet flat_packet_laws.

Definition reverser : Compressor := {|
  Compress := fun d => if (length d <? 2)%nat then Ok (d, false) else Ok (rev d, true);
  Decompress := fun d => Ok (rev d);
|}.

Lemma reverser_laws : CompressorLaws reverser.
Proof.
  split. intros data out c. cbn [Compress Decompress reverser]. destruct (length data <? 2)%nat; intros E; injection E as E <-; subst out; [done|by rewrite rev_involutive].
Qed.

(** The holder's world is the log of forwarded packets; a tunnel is its key. *)
#[local] Instance log_ops : TunnelOps (M := map_metadata) (list (Z * Z * Packet)) (Z * Z) := {|
  th_Tunnel := fun _ m o w => (Ok (m, o), w);
  t_Forward := fun _ t p w => (Ok tt, (t, p) :: w);
|}.

Definition demo_st : svc_state tag_cipher (list (Z * Z * Packet)) :=
  mkSvc (C := tag_cipher) (snd (IncreaseCSIndex (C := tag_cipher) tag_session)) newPool [].

Definition demo_in (i : Z) : list Z := [0; i; 1; 6; 5; 0; 0; 12; 11; 10].

(** Handling two packets on the demonstration state. *)
Definition demo_run : result unit * svc_state tag_cipher (list (Z * Z * Packet)) :=
  handle_all (C := tag_cipher) (M := map_metadata) (Cp := reverser) (T := Z * Z) ∅
    [(None, demo_in 1); (Some 0%nat, demo_in 2)] demo_st.

Lemma demo_run_ok : handle_all (C := tag_cipher) (M := map_metadata) (Cp := reverser) (T := Z * Z) ∅
    [(None, demo_in 1); (Some 0%nat, demo_in 2)] demo_st = (Ok tt, snd demo_run).
Proof. vm_compute. reflexivity. Qed.

Lemma packets_in_order_witness : CSIndex (sv_ss (snd demo_run)) = 1 + 2.
Proof.
  refine (proj1 (packets_in_order (C := tag_cipher) (M := map_metadata) (Cp := reverser) (T := Z * Z) ∅
    [(None, demo_in 1); (Some 0%nat, demo_in 2)] demo_st (snd demo_run) demo_run_ok eq_refl _ _)); vm_compute; done.
Defined.

Lemma replay_rejected_witness :
  exists e st'', handle (C := tag_cipher) (M := map_metadata) (Cp := reverser) (T := Z * Z) None ∅ (demo_in 1)
      (snd demo_run) = (Err e, st'') /\ sv_w st'' = sv_w (snd demo_run).
Proof.
  destruct (replay_rejected (C := tag_cipher) (M := map_metadata) (Cp := reverser) (T := Z * Z) ∅ None (demo_in 1)
    [(Some 0%nat, demo_in 2)] None ∅ demo_st (snd demo_run) demo_run_ok) as (e & st'' & E2 & _ & _ & Ew);
    [reflexivity|vm_compute; done|vm_compute; done|].
  exists e, st''. split; [exact E2|exact Ew].
Defined.

(** A codec whose packets carry 32-bit indices. *)
#[local] Instance flat32_packet : ProtoMsg Packet := {|
  Marshal := fun p => Marshal (ProtoMsg := flat_packet) p;
  Unmarshal := fun bs =>
    match Unmarshal (ProtoMsg := flat_packet) bs with
    | Ok p => Ok (mkPacket (p_Ver p) (int32 (p_Index p)) (p_Compress p) (p_Mod p) (p_Seq p) (p_Obj p) (p_Data p)
                    (p_DataVersion p))
    | r => r
    end;
|}.

Definition worn_st : svc_state tag_cipher (list (Z * Z * Packet)) :=
  mkSvc (C := tag_cipher) (mkSession (ss_enc tag_session) 7 1 EmptyString EmptyString 0 0 (mkIndex 0 (2 ^ 31)) (newIndexInfo 1))
    newPool [].

Lemma csindex_exhausted_witness :
  exists r st', handle (C := tag_cipher) (M := map_metadata) (Cp := reverser) (T := Z * Z) (PM := flat32_packet)
      None ∅ (demo_in (2 ^ 31)) worn_st = (r, st') /\ r <> Ok tt.
Proof.
  destruct (handle (C := tag_cipher) (M := map_metadata) (Cp := reverser) (T := Z * Z) (PM := flat32_packet)
      None ∅ (demo_in (2 ^ 31)) worn_st) as [r st'] eqn:E. exists r, st'. split; [done|].
  refine (proj1 (csindex_exhausted (C := tag_cipher) (M := map_metadata) (Cp := reverser) (T := Z * Z)
    (PM := flat32_packet) None ∅ (demo_in (2 ^ 31)) worn_st st' r _ eq_refl _ E)); [|cbn; lia].
  intros bs pk. unfold Unmarshal at 1. cbn [flat32_packet]. destruct (Unmarshal bs) as [p| |]; intros [= <-].
  cbn [p_Index]. pose proof (wrapS_range 32 (p_Index p)). lia.
Defined.

Lemma Handle_returns_packet_witness :
  exists st', Handle (C := tag_cipher) (M := map_metadata) (Cp := reverser) (T := Z * Z) None ∅ (demo_in 9) demo_st
      = (Err (EWrap (ENew "csindex validation failed. want=%d give=%d" [AZ 1; AZ 9])
               "uid=%d color=%s status=%d" [AZ 7; AS EmptyString; AZ 0]), st') /\ pool_ok ∅ (sv_pkts st').
Proof.
  eexists. split; [reflexivity|].
  eapply (Handle_returns_packet (C := tag_cipher) (M := map_metadata) (Cp := reverser) (T := Z * Z) None ∅ (demo_in 9)
           demo_st _ _ ∅); [reflexivity|].
  split; cbn; intros; [constructor|set_solver..].
Defined.

Lemma handle_forwards_witness :
  exists pl, handle (C := tag_cipher) (M := map_metadata) (Cp := reverser) (T := Z * Z) None ∅ (demo_in 1) demo_st =
    (Ok tt, mkSvc (C := tag_cipher) (snd (IncreaseCSIndex (C := tag_cipher) (sv_ss demo_st))) pl
       [((6, 7), mkPacket 0 1 true 6 5 7 [10; 11; 12] 0)]).
Proof.
  destruct (handle_forwards (C := tag_cipher) (M := map_metadata) (Cp := reverser) (T := Z * Z)
    (CL := reverser_laws) None ∅ demo_st (mkPacket 0 1 true 6 5 0 [12; 11; 10] 0) [10; 11; 12] [12; 11; 10] true
    (demo_in 1) (6, 7) [] [((6, 7), mkPacket 0 1 true 6 5 7 [10; 11; 12] 0)] (Ok tt)) as (pl & E);
    [vm_compute; reflexivity..|].
  exists pl. etransitivity; [exact E|]. vm_compute. reflexivity.
Defined.
