(* ===== verification/Auth.v ===== *)
(** The handshake: src/app/gate/internal/intra/net/service/auth.go.

    The client sends a packet with a [CSHandshake] that carries a token sealed
    by the account service and its RSA public key; the gateway answers with a
    session key and the first packet index. *)
From S2P Require Import Prelude Session Messages Security.

(** vulcan-pkg-tool/time: the instant a token's [timeout] field stands for. *)
Class VulcanTime := { time_Time : Z -> Z }.

Section auth.
Context `{C : Cipher} `{K : Crypto} `{VT : VulcanTime}.
Context `{PM : !ProtoMsg Packet} `{PC : !ProtoMsg CSHandshake} `{PS : !ProtoMsg SCHandshake} `{PT : !ProtoMsg AuthToken}.

(** [Time.Unix] of an instant in nanoseconds. *)
Definition Unix (now : Z) : Z := now / 10 ^ 9.

Definition decryptAccountToken (sec : secrets) (token : string) : result AuthToken :=
  if (String.length token <=? 0)%nat then Err (ENew "token is empty" [])
  else
    bytes ← map_err (fun e => EWrap e "token decrypt failed" []) (DecryptToken sec token);
    map_err (fun e => EWrap e "AuthToken proto decode failed" []) (Unmarshal bytes).

(** [Service.auth] at the instant [now], with [seed] as random source. *)
Definition auth (encrypted : bool) (sec : secrets) (now : Z) (seed : nat) (authToken : string) (sid : Z)
    : result (list Z * session) :=
  if (String.length authToken <=? 0)%nat then Err (ENew "[net.auth] token is empty" [])
  else
    token ← decryptAccountToken sec authToken;
    if time_Time (Timeout token) <? now then Err (ENew "token expired" [])
    else
      bk ← InitApiCrypto seed;
      let '(block, key) := bk in
      Ok (key, NewSession (AccountId token) sid (Unix now) block key encrypted (t_Color token) (t_Status token)).

(** The reply packet, built in the pooled packet [p]. *)
Definition reply_packet (inp : Packet) (data : list Z) (scindex : Z) : Packet :=
  mkPacket 0 (int32 scindex) false (p_Mod inp) (p_Seq inp) 0 data 0.

Definition seal_reply (encrypted : bool) (seed : nat) (cs : CSHandshake) (out : list Z) : result (list Z) :=
  if encrypted then
    pub ← map_err (fun e => EWrap e "RSA public key decode failed" []) (rsa_ParsePublicKey (Pub cs));
    map_err (fun e => EWrap e "Packet encrypt failed" []) (rsa_Encrypt seed pub out)
  else Ok out.

(** From [pool.GetPacket] to the end, on the pooled packet. *)
Definition reply (encrypted : bool) (seed : nat) (inp : Packet) (cs : CSHandshake) (ss : session) (data : list Z)
    (p : nat) : go (ostate Packet) (list Z * session) :=
  let '(scindex, ss) := IncreaseSCIndex ss in
  let oup := reply_packet inp data scindex in
  modify (pool_set p oup) ;;
  out ← lift (map_err (fun e => EWrap e "Packet encode failed" []) (Marshal oup));
  out ← lift (seal_reply encrypted seed cs out);
  mret (out, ss).

(** [Service.Auth] *)
Definition Auth (encrypted : bool) (sec : secrets) (now : Z) (seed seed' : nat) (ch : option nat) (in_ : list Z)
    : go (ostate Packet) (list Z * session) :=
  if (length in_ <=? 0)%nat then throw (ENew "proto is empty" [])
  else
    in_ ← lift (if encrypted then DecryptCSHandshake sec in_ else Ok in_);
    inp ← lift (Unmarshal in_ : result Packet);
    if negb (p_Seq inp =? SystemSeq_Handshake) then throw (ENew "not handshake msg" [])
    else
      cs ← lift (map_err (fun e => EWrap e "CSHandshake decode failed" []) (Unmarshal (p_Data inp) : result CSHandshake));
      ks ← lift (auth encrypted sec now seed (Token cs) (ServerId cs));
      let '(key, ss) := ks in
      let '(csindex, ss) := IncreaseCSIndex ss in
      let sc := mkSCHandshake (int32 csindex) key in
      data ← lift (map_err (fun e => EWrap e "SCHandshake encode failed" []) (Marshal sc));
      p ← GetPacket ch;
      deferring (fun s => snd (PutPacket (Some p) s)) (reply encrypted seed' inp cs ss data p).

(** *** Facts *)

Lemma auth_ok encrypted sec now seed tok sid key ss : auth encrypted sec now seed tok sid = Ok (key, ss) ->
  exists bytes token block, DecryptToken sec tok = Ok bytes /\ Unmarshal bytes = Ok token /\
    now <= time_Time (Timeout token) /\
    ss = NewSession (AccountId token) sid (Unix now) block key encrypted (t_Color token) (t_Status token).
Proof.
  unfold auth, decryptAccountToken. destruct (String.length tok <=? 0)%nat; [discriminate|].
  cbv [mbind result_bind]. destruct (DecryptToken sec tok) as [bytes| |] eqn:E1; try discriminate. cbn [map_err].
  destruct (Unmarshal bytes) as [token| |] eqn:E2; try discriminate. cbn [map_err].
  destruct (Z.ltb_spec (time_Time (Timeout token)) now); [discriminate|].
  destruct (InitApiCrypto seed) as [[block k]| |]; try discriminate. intros [= <- <-]. by exists bytes, token, block.
Qed.

(** What a successful [Auth] went through. *)
Lemma Auth_ok encrypted sec now seed seed' ch in_ s out ss s' :
  Auth encrypted sec now seed seed' ch in_ s = (Ok (out, ss), s') ->
  exists plain inp cs key ss0 data oup bytes,
    (if encrypted then DecryptCSHandshake sec in_ else Ok in_) = Ok plain /\
    Unmarshal plain = Ok inp /\ p_Seq inp = SystemSeq_Handshake /\
    Unmarshal (p_Data inp) = Ok cs /\ auth encrypted sec now seed (Token cs) (ServerId cs) = Ok (key, ss0) /\
    Marshal (mkSCHandshake (int32 (fst (IncreaseCSIndex ss0))) key) = Ok data /\
    oup = reply_packet inp data (fst (IncreaseSCIndex (snd (IncreaseCSIndex ss0)))) /\
    ss = snd (IncreaseSCIndex (snd (IncreaseCSIndex ss0))) /\
    Marshal oup = Ok bytes /\ seal_reply encrypted seed' cs bytes = Ok out.
Proof.
  unfold Auth. destruct (length in_ <=? 0)%nat; [discriminate|]. cbv [mbind go_bind lift].
  destruct (if encrypted then _ else _) as [plain| |] eqn:E1; try discriminate.
  destruct (Unmarshal plain) as [inp| |] eqn:E2; try discriminate.
  destruct (Z.eqb_spec (p_Seq inp) SystemSeq_Handshake) as [Eq|]; [|discriminate]. cbn [negb].
  destruct (Unmarshal (p_Data inp)) as [cs| |] eqn:E3; try discriminate. cbn [map_err].
  destruct (auth encrypted sec now seed (Token cs) (ServerId cs)) as [[key ss0]| |] eqn:E4; try discriminate.
  destruct (IncreaseCSIndex ss0) as [ci ss1] eqn:E5. cbn [fst snd].
  destruct (Marshal (mkSCHandshake (int32 ci) key)) as [data| |] eqn:E6; try discriminate. cbn [map_err].
  destruct (GetPacket ch s) as [[p| |] s1]; try discriminate. cbv [deferring reply].
  destruct (IncreaseSCIndex ss1) as [sci ss2] eqn:E7. cbn [fst snd]. cbv [mbind go_bind modify lift].
  destruct (Marshal (reply_packet inp data sci)) as [bytes| |] eqn:E8; try discriminate. cbn [map_err].
  destruct (seal_reply encrypted seed' cs bytes) as [o| |] eqn:E9; try discriminate.
  intros [= <- <- <-]. exists plain, inp, cs, key, ss0, data, (reply_packet inp data sci), bytes.
  rewrite E5. cbn [fst snd]. rewrite E6, E7. cbn [fst snd]. repeat split; done.
Qed.

(** The counters of a session that has been through [Auth]. *)
Lemma new_session_indices uid sid st block key enc color status :
  let ss0 := NewSession uid sid st block key enc color status in
  fst (IncreaseCSIndex ss0) = 1 /\ fst (IncreaseSCIndex (snd (IncreaseCSIndex ss0))) = 2 /\
  snd (IncreaseSCIndex (snd (IncreaseCSIndex ss0))) =
    mkSession (mkEncryptor enc block key) uid sid EmptyString color status st (mkIndex 0 1) (mkIndex 1 2).
Proof. done. Qed.
End auth.

(** C13: Who logs in is decided by the sealed token alone: when [Auth] succeeds,
    the handshake carried a token that decrypts under the gateway's token key
    and decodes, that has not expired, and the session's user id, color and
    status are the token's; the server id is the client's choice; encryption
    and the key are the gateway's. *)
Theorem auth_identity `{C : Cipher} `{K : Crypto} `{VT : VulcanTime} `{PM : !ProtoMsg Packet}
    `{PC : !ProtoMsg CSHandshake} `{PS : !ProtoMsg SCHandshake} `{PT : !ProtoMsg AuthToken}
    encrypted sec now seed seed' ch in_ s out ss s' :
  Auth encrypted sec now seed seed' ch in_ s = (Ok (out, ss), s') ->
  exists plain inp cs bytes token,
    (if encrypted then DecryptCSHandshake sec in_ else Ok in_) = Ok plain /\
    Unmarshal plain = Ok inp /\ p_Seq inp = SystemSeq_Handshake /\ Unmarshal (p_Data inp) = Ok cs /\
    DecryptToken sec (Token cs) = Ok bytes /\ Unmarshal bytes = Ok token /\
    now <= time_Time (Timeout token) /\
    UID ss = AccountId token /\ Color ss = t_Color token /\ Status ss = t_Status token /\
    SID ss = ServerId cs /\ IsCrypto ss = encrypted.
Proof.
  intros E. apply Auth_ok in E as (plain & inp & cs & key & ss0 & data & oup & bs & E1 & E2 & E3 & E4 & Ea & _ & _ & -> & _).
  apply auth_ok in Ea as (bytes & token & block & E5 & E6 & E7 & ->).
  exists plain, inp, cs, bytes, token. repeat split; try done.
  unfold Color. cbn. by destruct (t_Color token).
Qed.

(** What the reply says to a client that can open it. *)
Lemma Auth_reply `{C : Cipher} `{K : Crypto} `{VT : VulcanTime} `{PM : !ProtoMsg Packet}
    `{PC : !ProtoMsg CSHandshake} `{PS : !ProtoMsg SCHandshake} `{PT : !ProtoMsg AuthToken}
    {LP : ProtoLaws Packet} {LS : ProtoLaws SCHandshake}
    encrypted sec now seed seed' ch in_ s out ss s' (cli : PrivateKey) :
  (forall plain inp cs pub sd m c, DecryptCSHandshake sec in_ = Ok plain ->
     Unmarshal plain = Ok inp -> Unmarshal (p_Data inp) = Ok cs ->
     rsa_ParsePublicKey (Pub cs) = Ok pub -> rsa_Encrypt sd pub m = Ok c -> rsa_Decrypt (Some cli) c = Ok m) ->
  Auth encrypted sec now seed seed' ch in_ s = (Ok (out, ss), s') ->
  exists bytes oup sc, (if encrypted then rsa_Decrypt (Some cli) out else Ok out) = Ok bytes /\
    Unmarshal bytes = Ok oup /\ p_Seq oup = SystemSeq_Handshake /\ p_Index oup = SCIndex ss /\
    Unmarshal (p_Data oup) = Ok sc /\ sc_Key sc = Key ss /\ StartIndex sc = CSIndex ss.
Proof.
  intros Hrsa E.
  apply Auth_ok in E as (plain & inp & cs & key & ss0 & data & oup & bs & E1 & E2 & E3 & E4 & Ea & Em & -> & -> & Eo & Es).
  apply auth_ok in Ea as (bytes & token & block & _ & _ & _ & ->).
  destruct (new_session_indices (AccountId token) (ServerId cs) (Unix now) block key encrypted (t_Color token)
              (t_Status token)) as (Ei & Ej & Ek). rewrite Ei in Em. rewrite Ej in *. rewrite Ek.
  exists bs, (reply_packet inp data 2), (mkSCHandshake (int32 1) key).
  split.
  { destruct encrypted; unfold seal_reply in Es; [|by injection Es as ->]. cbv [mbind result_bind] in Es.
    destruct (rsa_ParsePublicKey (Pub cs)) as [pub| |] eqn:Ep; try discriminate. cbn [map_err] in Es.
    destruct (rsa_Encrypt seed' pub bs) as [c| |] eqn:Ec; try discriminate. injection Es as <-. eauto. }
  split; [by apply proto_round_trip|]. split; [done|]. split; [done|]. split; [by apply proto_round_trip|]. done.
Qed.

(** C12: Client and gateway agree after the handshake: the reply a successful
    [Auth] returns opens with the private key that belongs to the client's
    public key (or as it is when encryption is off) and decodes to a handshake
    reply whose key is the session's key and whose start index is exactly the
    index the session will demand of the client's first packet. *)
Theorem handshake_agreement `{C : Cipher} `{K : Crypto} `{VT : VulcanTime} `{PM : !ProtoMsg Packet}
    `{PC : !ProtoMsg CSHandshake} `{PS : !ProtoMsg SCHandshake} `{PT : !ProtoMsg AuthToken}
    {LP : ProtoLaws Packet} {LS : ProtoLaws SCHandshake}
    encrypted sec now seed seed' ch in_ s out ss s' (cli : PrivateKey) :
  (forall plain inp cs pub sd m c, DecryptCSHandshake sec in_ = Ok plain ->
     Unmarshal plain = Ok inp -> Unmarshal (p_Data inp) = Ok cs ->
     rsa_ParsePublicKey (Pub cs) = Ok pub -> rsa_Encrypt sd pub m = Ok c -> rsa_Decrypt (Some cli) c = Ok m) ->
  Auth encrypted sec now seed seed' ch in_ s = (Ok (out, ss), s') ->
  exists bytes oup sc, (if encrypted then rsa_Decrypt (Some cli) out else Ok out) = Ok bytes /\
    Unmarshal bytes = Ok oup /\ p_Seq oup = SystemSeq_Handshake /\ p_Index oup = SCIndex ss /\
    Unmarshal (p_Data oup) = Ok sc /\ sc_Key sc = Key ss /\ StartIndex sc = CSIndex ss.
Proof. intros. by eapply Auth_reply. Qed.

(** *** Witnesses: transparent cryptography and flat codecs *)

#[local] Instance plain_crypto : Crypto := {|
  PrivateKey := Z; PublicKey := Z;
  base64_Decode := fun s => Ok (string_bytes s);
  x509_ParsePKCS8 := fun bs => Ok (RsaKey (nth 0 bs 0));
  rsa_ParsePublicKey := fun bs => Ok (nth 0 bs 0);
  rsa_Encrypt := fun _ k m => Ok (k :: m);
  rsa_Decrypt := fun k c =>
    match k, c with Some k, x :: m => if x =? k then Ok m else Err (ENew "rsa" []) | _, _ => Err (ENew "rsa" []) end;
  rand_AlphaNum := fun _ _ => Ok "k";
|}.

#[local] Instance second_time : VulcanTime := {| time_Time := fun t => t * 10 ^ 9 |}.

#[local] Existing Instances flat_packet flat_packet_laws.

#[local] Instance flat_sc : ProtoMsg SCHandshake := {|
  Marshal := fun m => Ok (StartIndex m :: sc_Key m);
  Unmarshal := fun bs => match bs with i :: k => Ok (mkSCHandshake i k) | [] => Err (ENew "proto: cannot parse" []) end;
|}.

#[local] Instance flat_sc_laws : ProtoLaws SCHandshake.
Proof.
  split; [|done|].
  - intros [i k] bs E. by injection E as <-.
  - intros [|? bs] q; discriminate.
Qed.

(** A handshake is its server id, its public key (one number), and the token "t". *)
#[local] Instance flat_cs : ProtoMsg CSHandshake := {|
  Marshal := fun m => Ok (ServerId m :: Pub m);
  Unmarshal := fun bs => match bs with i :: k => Ok (mkCSHandshake "t" i k) | [] => Err (ENew "proto: cannot parse" []) end;
|}.

(** Every token is user 100, valid to second 50. *)
#[local] Instance flat_token : ProtoMsg AuthToken := {|
  Marshal := fun _ => Ok [];
  Unmarshal := fun _ => Ok (mkAuthToken 0 100 EmptyString 50 false "red" 2);
|}.

(** Tokens are sealed under the key byte 107. *)
Definition open_cipher : Cipher := {|
  Block := unit;
  aes_NewBlock := fun _ => Ok tt;
  aes_Encrypt := fun _ _ data => Ok data;
  aes_Decrypt := fun _ _ data => Ok data;
|}.

Definition demo_secrets : secrets (C := open_cipher) := mkSecrets (C := open_cipher) (Some 9) [107] (Some tt).

(** The client's handshake packet for server 3, sealed under the gateway's key 9. *)
Definition demo_handshake : list Z := [9; 0; 0; 0; 1; 1; 0; 0; 3; 77].

Definition demo_auth : result (list Z * session) * ostate Packet :=
  Auth (C := open_cipher) true demo_secrets (10 ^ 9) 0 0 None demo_handshake newPool.

Definition demo_session : session (C := open_cipher) :=
  mkSession (C := open_cipher) (mkEncryptor (C := open_cipher) true (Some tt) [107]) 100 3 EmptyString "red" 2 1
    (mkIndex 0 1) (mkIndex 1 2).

Lemma demo_auth_ok :
  Auth (C := open_cipher) true demo_secrets (10 ^ 9) 0 0 None demo_handshake newPool =
    (Ok ([77; 0; 2; 0; 1; 1; 0; 0; 1; 107], demo_session), snd demo_auth).
Proof. vm_compute. reflexivity. Qed.

Lemma auth_identity_witness :
  exists token, UID demo_session = AccountId token /\ 10 ^ 9 <= time_Time (Timeout token) /\
    IsCrypto demo_session = true.
Proof.
  destruct (auth_identity (C := open_cipher) true demo_secrets (10 ^ 9) 0 0 None demo_handshake newPool _ _ _ demo_auth_ok)
    as (plain & inp & cs & bytes & token & _ & _ & _ & _ & _ & _ & Ht & Hu & _ & _ & _ & Hc).
  exists token. split; [exact Hu|]. split; [exact Ht|exact Hc].
Defined.

Lemma handshake_agreement_witness :
  exists bytes oup sc, rsa_Decrypt (Some 77) [77; 0; 2; 0; 1; 1; 0; 0; 1; 107] = Ok bytes /\
    Unmarshal bytes = Ok oup /\ Unmarshal (p_Data oup) = Ok sc /\ StartIndex sc = CSIndex demo_session.
Proof.
  refine (_ (handshake_agreement (C := open_cipher) true demo_secrets (10 ^ 9) 0 0 None demo_handshake newPool
    _ _ _ 77 _ demo_auth_ok)).
  - intros (bytes & oup & sc & E1 & E2 & _ & _ & E3 & _ & E4). exists bytes, oup, sc.
    split; [exact E1|]. split; [exact E2|]. split; [exact E3|exact E4].
  - intros plain inp cs pub sd m c E1 E2 E3 Ep Ec.
    injection E1 as <-. injection E2 as <-. injection E3 as <-. injection Ep as <-. injection Ec as <-. reflexivity.
Defined.
