(* ===== verification/Tunnels.v ===== *)
(** Tunnels to the services behind the gateway:
    src/app/gate/internal/intra/net/tunnels/ ([tunnel.go], [base/base.go],
    [player/tunnel.go], [room/tunnel.go]).

    The gRPC stream, the worker's countdown and the route table are outside:
    their results are arguments and the calls made to them are recorded, in
    order, as [call]s. *)
From S2P Require Import Prelude Session Messages Service.

(** ** The base tunnel *)

Section base.
Context `{C : Cipher}.

Record base_Tunnel := mkBase { tunnelType : Z; base_oid : Z; base_session : session }.

Definition base_NewTunnel (tp oid : Z) (ss : session) : base_Tunnel := mkBase tp oid ss.

Definition base_Type (t : base_Tunnel) : Z := int32 (tunnelType t).
Definition base_UID (t : base_Tunnel) : Z := UID (base_session t).
Definition base_OID (t : base_Tunnel) : Z := base_oid t.
Definition base_Color (t : base_Tunnel) : string := Color (base_session t).
Definition base_Session (t : base_Tunnel) : session := base_session t.

(** ** The player and room tunnels *)

(** Calls to the outside. *)
Inductive call :=
  | WorkerReset
  | WorkerSetExpiryTime (now : Z)
  | RouteDelDelay (color : string) (uid : Z)
  | StreamCloseSend.

Inductive app_kind := PlayerApp | RoomApp.

(** [player.Tunnel] and [room.Tunnel]: the embedded base and the stream. *)
Record app_tunnel := mkApp { app_kind_of : app_kind; app_base : base_Tunnel; app_stream : nat }.

Definition log_call (c : call) : go (list call) unit := fun w => (Ok tt, w ++ [c]).

(** [player.NewTunnel]; [opened] is what [cli.Tunnel(ctx)] returned.  The object
    id is the user's, whatever was asked for. *)
Definition player_NewTunnel (opened : result nat) (ss : session) : go (list call) app_tunnel :=
  stream ← lift (map_err (fun e => EWrap e "get tunnel stream failed. uid=%d color=%s %+v"
                            [AZ (UID ss); AS (Color ss)]) opened);
  log_call WorkerReset ;;
  mret (mkApp PlayerApp (base_NewTunnel PlayerTunnelType (UID ss) ss) stream).

(** [room.NewTunnel] *)
Definition room_NewTunnel (opened : result nat) (oid : Z) (ss : session) : go (list call) app_tunnel :=
  stream ← lift (map_err (fun e => EWrap e "get tunnel failed. uid=%d color=%s oid=%d %+v"
                            [AZ (UID ss); AS (Color ss); AZ oid]) opened);
  mret (mkApp RoomApp (base_NewTunnel RoomTunnelType oid ss) stream).

(** [Tunnel.Session] of both packages is [return t.Session()]: the method
    shadows the embedded one and calls itself.  [depth] is how many frames fit
    on the goroutine's stack. *)
Fixpoint app_Session (depth : nat) (t : app_tunnel) : result session :=
  match depth with
  | O => Panic StackOverflow
  | S depth => app_Session depth t
  end.

(** [TransformMessage]: fills a pooled message from the packet. *)
Definition player_TransformMessage (ch : option nat) (p : Packet) : go (ostate player_Message) nat :=
  m ← player_getMessage ch;
  modify (pool_set m (mkPlayerMessage (p_Mod p) (p_Seq p) (p_Obj p) (p_Data p) (p_DataVersion p))) ;;
  mret m.

Definition room_TransformMessage (ch : option nat) (p : Packet) : go (ostate room_Message) nat :=
  m ← room_getMessage ch;
  modify (pool_set m (mkRoomMessage (p_Mod p) (p_Seq p) (p_Obj p) (p_Data p) (p_DataVersion p))) ;;
  mret m.

(** [CSHandle]: [sent] is what [stream.Send] returned; the message goes back to
    its pool either way.  The value sent is returned too. *)
Definition player_CSHandle (sent : result unit) (m : nat) : go (ostate player_Message) player_Message :=
  deferring (fun s => snd (player_putMessage (Some m) s))
    (v ← gets (fun s => default Reset (objs s !! m));
     lift (map_err (fun e => EWrap e "stream send failed" []) sent) ;;
     mret v).

Definition room_CSHandle (sent : result unit) (m : nat) : go (ostate room_Message) room_Message :=
  deferring (fun s => snd (room_putMessage (Some m) s))
    (v ← gets (fun s => default Reset (objs s !! m));
     lift (map_err (fun e => EWrap e "stream send failed" []) sent) ;;
     mret v).

(** [SCHandle] *)
Definition SCHandle {A} (received : result A) : result A :=
  map_err (fun e => EWrap e "stream receive failed" []) received.

(** [room.Tunnel.ResetMessage]: ignores messages of another type. *)
Definition room_ResetMessage (m : option nat) : go (ostate room_Message) unit := room_putMessage m.

(** [OnStop]: errors of the two calls are only logged. *)
Definition OnStop (t : app_tunnel) : go (list call) unit :=
  match app_kind_of t with
  | PlayerApp => log_call (RouteDelDelay (base_Color (app_base t)) (base_UID (app_base t))) ;; log_call StreamCloseSend
  | RoomApp => log_call StreamCloseSend
  end.

Definition OnGroupStop (now : Z) (t : app_tunnel) : go (list call) unit :=
  match app_kind_of t with
  | PlayerApp => log_call (WorkerSetExpiryTime now)
  | RoomApp => mret tt
  end.

(** ** Pushing to the client *)

Section push.
Context `{Cp : Compressor} `{PM : !ProtoMsg Packet} {A : Type} `{FM : ForwardMessage A}.

(** The application behind a tunnel, as [push] sees it: its [Session] method. *)
Definition push_packet (sc : option A) (newData : list Z) (compressed : bool) (index : Z) : Packet :=
  mkPacket 0 index compressed (GetMod sc) (GetSeq sc) (GetObj sc) newData 0.

(** [Tunnel.push]: [sess] is the outcome of [t.app.Session()], [pusher] is
    [t.Push].  The packet comes from the pool with empty data, and it is this
    data that is compressed. *)
Definition push_body (sess : result session) (pusher : list Z -> result unit) (sc : option A)
    (p : nat) : go (ostate Packet) session :=
  v ← gets (fun s => default Reset (objs s !! p));
  nc ← lift (Compress (p_Data v));
  let '(newData, compressed) := nc in
  ss ← lift sess;
  let '(idx, ss) := IncreaseSCIndex ss in
  let pk := push_packet sc newData compressed (int32 idx) in
  modify (pool_set p pk) ;;
  bytes ← lift (map_err (fun e => EWrap e "packet marshal failed" []) (Marshal pk));
  lift (pusher bytes) ;;
  mret ss.

Definition push (sess : result session) (pusher : list Z -> result unit) (ch : option nat) (sc : option A)
    : go (ostate Packet) session :=
  p ← GetPacket ch;
  deferring (fun s => snd (PutPacket (Some p) s)) (push_body sess pusher sc p).
End push.
End base.

(** No message from a service ever reaches a client through the player or
    room tunnel: their [Session] method calls itself, so whatever the stack
    size, [push] of any message ends in a stack overflow (which Go cannot
    recover) as soon as compression of the still empty packet succeeds. *)
Theorem push_overflows `{C : Cipher} `{Cp : Compressor} `{PM : !ProtoMsg Packet} {A} `{FM : ForwardMessage A}
    depth (t : app_tunnel) pusher ch (sc : option A) (O : gset nat) s d c :
  pool_ok O s -> Compress [] = Ok (d, c) ->
  exists s', push (app_Session depth t) pusher ch sc s = (Panic StackOverflow, s').
Proof.
  intros Hs Hc. destruct (GetPacket_returns ch s) as (p & s1 & E).
  destruct (pool_get_ok O s ch p s1 Hs E) as (_ & Hz & _).
  assert (app_Session depth t = Panic StackOverflow) as Hd by (by induction depth).
  cbv [push mbind go_bind deferring push_body gets lift]. rewrite E, Hz. cbn [from_option id].
  change (p_Data Reset) with (@nil Z). rewrite Hc. cbn. rewrite Hd. by eexists.
Qed.

(** The data a client recovers from a packet. *)
Definition client_data `{Cp : Compressor} (pk : Packet) : result (list Z) :=
  if p_Compress pk then Decompress (p_Data pk) else Ok (p_Data pk).

(** C38: Even with a [Session] that returns, the payload is lost: when [push] of a
    message succeeds, the bytes it handed to the client decode to a packet with
    the message's module, sequence and object and the session's next index, and
    with empty data, whatever the message's data was. *)
Theorem push_drops_data `{C : Cipher} `{Cp : Compressor} `{PM : !ProtoMsg Packet} {A} `{FM : ForwardMessage A}
    {CL : CompressorLaws Cp} {PL : ProtoLaws Packet} ss ss' pusher ch (sc : option A) (O : gset nat) s s' :
  pool_ok O s -> push (Ok ss) pusher ch sc s = (Ok ss', s') ->
  exists bytes pk, pusher bytes = Ok tt /\ Unmarshal bytes = Ok pk /\
    p_Mod pk = GetMod sc /\ p_Seq pk = GetSeq sc /\ p_Obj pk = GetObj sc /\
    p_Index pk = int32 (fst (IncreaseSCIndex ss)) /\ client_data pk = Ok [].
Proof.
  intros Hs. destruct (GetPacket_returns ch s) as (p & s1 & E).
  destruct (pool_get_ok O s ch p s1 Hs E) as (_ & Hz & _).
  cbv [push mbind go_bind deferring push_body gets lift]. rewrite E, Hz. cbn [from_option id].
  change (p_Data Reset) with (@nil Z). destruct (Compress []) as [[d c]| |] eqn:Ec; try discriminate.
  destruct (IncreaseSCIndex ss) as [idx ss1] eqn:Ei. cbv [modify]. cbn [fst].
  destruct (Marshal _) as [bytes| |] eqn:Em; try discriminate. cbn [map_err].
  destruct (pusher bytes) as [[]| |] eqn:Ep; try discriminate. intros _.
  exists bytes, (push_packet sc d c (int32 idx)). split; [done|]. split; [by apply proto_round_trip|].
  repeat split. unfold client_data, push_packet. cbn [p_Compress p_Data].
  pose proof (compress_round_trip _ _ _ Ec) as Hr. destruct c; [done|by subst d].
Qed.

(** *** Witnesses *)

Definition plain_compressor : Compressor := {| Compress := fun d => Ok (d, false); Decompress := fun d => Ok d |}.

Lemma plain_compressor_laws : CompressorLaws plain_compressor.
Proof. split. intros data out c [= <- <-]. done. Qed.

#[local] Existing Instances flat_packet flat_packet_laws.

Lemma empty_pool_ok : pool_ok (A := Packet) ∅ newPool.
Proof. split; cbn; intros; [constructor|set_solver..]. Qed.

(** A message of the player service: module 3, sequence 4, object 5, data [7]. *)
Definition demo_msg : option player_Message := Some (mkPlayerMessage 3 4 5 [7] 0).

Definition demo_app : app_tunnel (C := tag_cipher) :=
  mkApp PlayerApp (base_NewTunnel (C := tag_cipher) PlayerTunnelType 7 tag_session) 0.

Lemma push_overflows_witness :
  exists s', push (C := tag_cipher) (Cp := plain_compressor) (app_Session 1000 demo_app) (fun _ => Ok tt) None demo_msg
    newPool = (Panic StackOverflow, s').
Proof.
  apply (push_overflows (C := tag_cipher) (Cp := plain_compressor) 1000 demo_app (fun _ => Ok tt) None demo_msg ∅
           newPool [] false empty_pool_ok eq_refl).
Defined.

Definition demo_push : result (session (C := tag_cipher)) * ostate Packet :=
  push (C := tag_cipher) (Cp := plain_compressor) (Ok tag_session) (fun _ => Ok tt) None demo_msg newPool.

Lemma demo_push_ok : push (C := tag_cipher) (Cp := plain_compressor) (Ok tag_session) (fun _ => Ok tt) None demo_msg
  newPool = (Ok (snd (IncreaseSCIndex (C := tag_cipher) tag_session)), snd demo_push).
Proof. vm_compute. reflexivity. Qed.

Lemma push_drops_data_witness :
  exists pk, p_Mod pk = 3 /\ p_Obj pk = 5 /\ client_data (Cp := plain_compressor) pk = Ok [].
Proof.
  destruct (push_drops_data (C := tag_cipher) (CL := plain_compressor_laws) tag_session _ (fun _ => Ok tt) None demo_msg ∅
    newPool _ empty_pool_ok demo_push_ok) as (bytes & pk & _ & _ & Em & _ & Eo & _ & Ed).
  exists pk. split; [exact Em|]. split; [exact Eo|exact Ed].
Defined.
