(* ===== verification/TunnelLoop.v ===== *)
(** The goroutines of a tunnel: [Tunnel] of
    src/app/gate/internal/intra/net/tunnels/tunnel.go.

    The reading goroutine of the connection calls [Forward]; [run] starts the
    stop watcher, [csLoop] and [scLoop] in an errgroup and stops the tunnel when
    all three have returned.  Each step below is one of their blocking points;
    the stop trigger, the parent context and the other users of the global
    message pool are the environment. *)
From S2P Require Import Prelude Session Messages Tunnels.

(** [make(chan tunnel.ForwardMessage, 1024)] *)
Definition csChan_cap : nat := 1024.

Section loop.
Context {A : Type} `{R : Resettable A}.

(** The player or room [TransformMessage], as the value it fills in; the calls
    [OnGroupStop] and [OnStop] make. *)
Context (msg_of : Packet -> A) (stop_calls : list call).

Record tun := mkTun {
  csChan : list nat;          (** queued message pointers *)
  cs_closed : bool;
  inflight : option nat;      (** the message of a [Forward] about to send *)
  msgs : ostate A;            (** the global message pool *)
  others : gset nat;          (** messages other tunnels hold *)
  stopTriggered : bool;
  ctx_done : bool;            (** the errgroup's context *)
  watch_done : bool; cs_done : bool; sc_done : bool;
  recv_failed : bool;         (** [stream.Recv] has returned an error *)
  panicked : bool;            (** a send on the closed channel *)
  calls : list call;
  forwarded : list A;         (** history: values queued by [Forward] *)
  sent : list A;              (** history: values the stream accepted *)
}.

Definition content (s : ostate A) (m : nat) : A := default Reset (objs s !! m).

(** The checks of [Forward] and [transform]; [from] is the packet when the
    argument is one, [ErrTunnelStopped] the error of vulcan-pkg-app.  The stopper is stopping once [DoStop] runs the body that
    closes the channel. *)
Definition Forward_check (ErrTunnelStopped : error) (from : option Packet) (t : tun) : result Packet :=
  if cs_closed t then Err ErrTunnelStopped
  else match from with Some p => Ok p | None => Err (ENew "invalid packet type" []) end.

(** [TransformMessage] on the packet: [Forward] up to the channel send. *)
Definition Forward_transform (ch : option nat) (p : Packet) (t : tun) : tun :=
  let '(r, s) := pool_get ch (msgs t) in
  match r with
  | Ok m => mkTun (csChan t) (cs_closed t) (Some m) (pool_set m (msg_of p) s) (others t) (stopTriggered t)
      (ctx_done t) (watch_done t) (cs_done t) (sc_done t) (recv_failed t) (panicked t) (calls t) (forwarded t) (sent t)
  | _ => t
  end.

(** [t.csChan <- msg] on an open channel with room. *)
Definition Forward_send (m : nat) (t : tun) : tun :=
  mkTun (csChan t ++ [m]) (cs_closed t) None (msgs t) (others t) (stopTriggered t) (ctx_done t) (watch_done t)
    (cs_done t) (sc_done t) (recv_failed t) (panicked t) (calls t) (forwarded t ++ [content (msgs t) m]) (sent t).

(** The same on a closed channel: a panic; the message is never returned. *)
Definition Forward_panic (m : nat) (t : tun) : tun :=
  mkTun (csChan t) (cs_closed t) None (msgs t) (others t ∪ {[m]}) (stopTriggered t) (ctx_done t) (watch_done t)
    (cs_done t) (sc_done t) (recv_failed t) true (calls t) (forwarded t) (sent t).

(** [case cs := <-t.csChan] of [csLoop] and [CSHandle]; an error ends the loop. *)
Definition csLoop_handle (ok : bool) (m : nat) (rest : list nat) (t : tun) : tun :=
  mkTun rest (cs_closed t) (inflight t) (snd (pool_put (Some m) (msgs t))) (others t) (stopTriggered t)
    (if ok then ctx_done t else true) (watch_done t) (if ok then cs_done t else true) (sc_done t) (recv_failed t)
    (panicked t) (calls t) (forwarded t) (if ok then sent t ++ [content (msgs t) m] else sent t).

(** [csLoop] returns because the context is done or a stop was triggered. *)
Definition csLoop_exit (t : tun) : tun :=
  mkTun (csChan t) (cs_closed t) (inflight t) (msgs t) (others t) (stopTriggered t) true (watch_done t) true
    (sc_done t) (recv_failed t) (panicked t) (calls t) (forwarded t) (sent t).

Definition watch_exit (t : tun) : tun :=
  mkTun (csChan t) (cs_closed t) (inflight t) (msgs t) (others t) (stopTriggered t) true true (cs_done t) (sc_done t)
    (recv_failed t) (panicked t) (calls t) (forwarded t) (sent t).

(** [scLoop] returns on a receive error, and on nothing else. *)
Definition scLoop_exit (t : tun) : tun :=
  mkTun (csChan t) (cs_closed t) (inflight t) (msgs t) (others t) (stopTriggered t) true (watch_done t) (cs_done t)
    true true (panicked t) (calls t) (forwarded t) (sent t).

(** After [eg.Wait]: [OnGroupStop], then [stop] closes the channel and calls
    [OnStop]. *)
Definition run_end (t : tun) : tun :=
  mkTun (csChan t) true (inflight t) (msgs t) (others t) (stopTriggered t) (ctx_done t) (watch_done t) (cs_done t)
    (sc_done t) (recv_failed t) (panicked t) (calls t ++ stop_calls) (forwarded t) (sent t).

Definition set_env (stop ctx : bool) (t : tun) : tun :=
  mkTun (csChan t) (cs_closed t) (inflight t) (msgs t) (others t) (stopTriggered t || stop) (ctx_done t || ctx)
    (watch_done t) (cs_done t) (sc_done t) (recv_failed t) (panicked t) (calls t) (forwarded t) (sent t).

Definition set_pool (O : gset nat) (s : ostate A) (t : tun) : tun :=
  mkTun (csChan t) (cs_closed t) (inflight t) s O (stopTriggered t) (ctx_done t) (watch_done t) (cs_done t) (sc_done t)
    (recv_failed t) (panicked t) (calls t) (forwarded t) (sent t).

Inductive tun_step : tun -> tun -> Prop :=
  | TTransform e ch from p t : Forward_check e from t = Ok p -> inflight t = None -> tun_step t (Forward_transform ch p t)
  | TSend m t : inflight t = Some m -> cs_closed t = false -> (length (csChan t) < csChan_cap)%nat ->
      tun_step t (Forward_send m t)
  | TPanic m t : inflight t = Some m -> cs_closed t = true -> tun_step t (Forward_panic m t)
  | THandle ok m rest t : cs_done t = false -> csChan t = m :: rest -> tun_step t (csLoop_handle ok m rest t)
  | TCsExit t : cs_done t = false -> ctx_done t || stopTriggered t = true -> tun_step t (csLoop_exit t)
  | TWatch t : watch_done t = false -> ctx_done t || stopTriggered t = true -> tun_step t (watch_exit t)
  | TRecv t : sc_done t = false -> tun_step t t
  | TRecvFail t : sc_done t = false -> tun_step t (scLoop_exit t)
  | TRunEnd t : watch_done t = true -> cs_done t = true -> sc_done t = true -> cs_closed t = false ->
      tun_step t (run_end t)
  | TEnv stop ctx t : tun_step t (set_env stop ctx t)
  | TPool O s t : pool_step (others t, msgs t) (O, s) -> tun_step t (set_pool O s t).

Definition tun_init (t : tun) : Prop :=
  csChan t = [] /\ cs_closed t = false /\ inflight t = None /\ pool_ok (others t) (msgs t) /\
  watch_done t = false /\ cs_done t = false /\ sc_done t = false /\ recv_failed t = false /\ panicked t = false /\
  calls t = [] /\ forwarded t = [] /\ sent t = [].

(** The messages this tunnel holds. *)
Definition mine (t : tun) : list nat := csChan t ++ option_list (inflight t).

Record tun_inv (t : tun) : Prop := {
  ti_pool : pool_ok (others t ∪ list_to_set (mine t)) (msgs t);
  ti_nodup : NoDup (mine t);
  ti_disj : forall m, m ∈ mine t -> m ∉ others t;
  ti_fifo : cs_done t = false -> forwarded t = sent t ++ (content (msgs t) <$> csChan t);
  ti_prefix : sent t `prefix_of` forwarded t;
  ti_closed : cs_closed t = true -> watch_done t = true /\ cs_done t = true /\ sc_done t = true /\ calls t = stop_calls;
  ti_open : cs_closed t = false -> calls t = [] /\ panicked t = false;
  ti_recv : sc_done t = true -> recv_failed t = true;
}.

Lemma content_fmap s s' (l : list nat) : (forall m, m ∈ l -> objs s' !! m = objs s !! m) -> content s' <$> l = content s <$> l.
Proof. intros H. apply list_fmap_ext. intros i m Hm. unfold content. rewrite H; [done|]. by eapply list_elem_of_lookup_2. Qed.

Lemma mine_set (l : list nat) (m : nat) : m ∈ (list_to_set l : gset nat) <-> m ∈ l.
Proof. apply elem_of_list_to_set. Qed.

Lemma tun_init_inv t : tun_init t -> tun_inv t.
Proof.
  intros (E1 & E2 & E3 & Hp & E4 & E5 & E6 & E7 & E8 & E9 & E10 & E11).
  split; unfold mine; rewrite ?E1, ?E2, ?E3, ?E6, ?E9, ?E10, ?E11; cbn; try done.
  - by rewrite union_empty_r_L.
  - constructor.
  - intros m Hm. by apply not_elem_of_nil in Hm.
Qed.

(** [Forward]'s two pool operations. *)
Lemma transform_inv ch p t : inflight t = None -> tun_inv t -> tun_inv (Forward_transform ch p t).
Proof.
  intros Hi H. unfold Forward_transform. destruct (pool_get ch (msgs t)) as [r s] eqn:E.
  destruct r as [m|e|q]; [|done..]. pose proof (ti_pool _ H) as Hp. pose proof (ti_disj _ H) as Hd.
  pose proof (ti_nodup _ H) as Hn. unfold mine in *. rewrite Hi in *. cbn [option_list] in *. rewrite app_nil_r in *.
  set (M := list_to_set (csChan t) : gset nat) in *.
  assert (forall m, m ∈ others t -> m ∉ M) as Hd' by (intros x Hx HM; apply mine_set in HM; by apply (Hd x)).
  destruct (pool_step_frame M (msgs t) (M ∪ {[m]}) s (others t) (PGet M (msgs t) ch m s E)) as [Hp1 Hf1];
    [by rewrite union_comm_L|done|].
  destruct (pool_get_ok _ _ _ _ _ Hp E) as (Hm & Hz & _).
  destruct (pool_step_frame (M ∪ {[m]}) s (M ∪ {[m]}) (pool_set m (msg_of p) s) (others t)
    (PSet (M ∪ {[m]}) s m (msg_of p) ltac:(set_solver))) as [Hp2 Hf2]; [done|intros x Hx; by apply Hf1|].
  assert (forall x, x ∈ csChan t -> objs (pool_set m (msg_of p) s) !! x = objs (msgs t) !! x) as Hsame.
  { intros x Hx. apply mine_set in Hx. assert (x <> m) by set_solver. cbn. rewrite lookup_insert_ne by done.
    destruct (pool_step_frame ∅ (msgs t) (∅ ∪ {[m]}) s (others t ∪ M) (PGet ∅ (msgs t) ch m s E)) as [_ Hf];
      [by rewrite union_empty_l_L|set_solver|]. apply Hf. set_solver. }
  split; cbn [csChan inflight msgs others cs_done forwarded sent cs_closed watch_done sc_done calls panicked recv_failed];
    try apply H; unfold mine; cbn [csChan inflight option_list].
  - replace (others t ∪ list_to_set (csChan t ++ [m])) with (M ∪ {[m]} ∪ others t); [done|].
    rewrite list_to_set_app_L. cbn. set_solver.
  - apply NoDup_app. repeat split; [done| |by apply NoDup_singleton]. intros x Hx. apply mine_set in Hx. set_solver.
  - intros x Hx. apply elem_of_app in Hx as [Hx|Hx]; [by apply Hd|]. set_solver.
  - intros Hc. rewrite (content_fmap _ _ _ Hsame). by apply (ti_fifo _ H).
Qed.

Lemma handle_inv ok m rest t : cs_done t = false -> csChan t = m :: rest -> tun_inv t ->
  tun_inv (csLoop_handle ok m rest t).
Proof.
  intros Hc Hch H. pose proof (ti_pool _ H) as Hp. pose proof (ti_disj _ H) as Hd. pose proof (ti_nodup _ H) as Hn.
  pose proof (ti_fifo _ H Hc) as Hf. unfold mine in *. rewrite Hch in *. cbn [app] in *.
  apply NoDup_cons in Hn as [Hni Hn]. set (l := rest ++ option_list (inflight t)) in *.
  assert (m ∉ others t) as Hmo by (apply Hd; left).
  destruct (pool_step_frame {[m]} (msgs t) ({[m]} ∖ {[m]}) (snd (pool_put (Some m) (msgs t))) (others t ∪ list_to_set l)
    (PPut {[m]} (msgs t) m _ ltac:(set_solver) eq_refl)) as [Hp1 Hf1].
  { replace ({[m]} ∪ (others t ∪ list_to_set l)) with (others t ∪ list_to_set (m :: l)) by (cbn; set_solver). done. }
  { intros x Hx. apply elem_of_union in Hx as [Hx|Hx]; [set_solver|]. apply mine_set in Hx. set_solver. }
  assert (forall x, x ∈ rest -> objs (snd (pool_put (Some m) (msgs t))) !! x = objs (msgs t) !! x) as Hsame.
  { intros x Hx. apply Hf1. apply elem_of_union_r, mine_set. apply elem_of_app. by left. }
  split; cbn [csLoop_handle csChan inflight msgs others cs_done forwarded sent cs_closed watch_done sc_done calls panicked recv_failed];
    try apply H; unfold mine; cbn [csLoop_handle csChan inflight]; fold l.
  - by rewrite difference_diag_L, union_empty_l_L in Hp1.
  - done.
  - intros x Hx. apply Hd. by right.
  - destruct ok; [|done]. intros _. rewrite (content_fmap _ _ _ Hsame), Hf, fmap_cons, <- app_assoc. done.
  - rewrite Hf, fmap_cons. destruct ok; [|by eexists].
    exists (content (msgs t) <$> rest). by rewrite <- app_assoc.
  - intros Hcl. destruct (ti_closed _ H Hcl) as (_ & Hd2 & _). congruence.
Qed.

Lemma tun_step_inv t t' : tun_step t t' -> tun_inv t -> tun_inv t'.
Proof.
  intros Hs H. destruct Hs as [e ch from p t Hk Hi|m t Hi Hc Hl|m t Hi Hc|ok m rest t Hc Hch|t Hc Hx|t Hw Hx|t Hc|t Hc
    |t Hw Hcs Hsc Hcl|b c t|O s t Hps].
  - by apply transform_inv.
  - pose proof (ti_pool _ H) as Hp. pose proof (ti_disj _ H) as Hd. pose proof (ti_nodup _ H) as Hn.
    unfold mine in *. rewrite Hi in *. cbn [option_list] in *.
    split; unfold mine; cbn [Forward_send csChan inflight msgs others cs_done forwarded sent cs_closed watch_done sc_done
      calls panicked recv_failed option_list]; rewrite ?app_nil_r; try done; try apply H.
    + intros Hcs. rewrite fmap_app, app_assoc. by rewrite (ti_fifo _ H Hcs).
    + apply prefix_app_r, H.
  - pose proof (ti_pool _ H) as Hp. pose proof (ti_disj _ H) as Hd. pose proof (ti_nodup _ H) as Hn.
    unfold mine in *. rewrite Hi in *. cbn [option_list] in *. apply NoDup_app in Hn as (Hn1 & Hn2 & _).
    split; unfold mine; cbn [Forward_panic csChan inflight msgs others cs_done forwarded sent cs_closed watch_done sc_done
      calls panicked recv_failed option_list]; rewrite ?app_nil_r; try done; try apply H.
    + replace (others t ∪ {[m]} ∪ list_to_set (csChan t)) with (others t ∪ list_to_set (csChan t ++ [m])); [done|].
      rewrite list_to_set_app_L. cbn. set_solver.
    + intros x Hx. apply not_elem_of_union. split; [apply Hd; set_solver|]. intros Hm. apply elem_of_singleton in Hm as ->.
      apply (Hn2 m Hx). left.
    + congruence.
  - by apply handle_inv.
  - split; try apply H; cbn; [done|]. intros Hcl. destruct (ti_closed _ H Hcl) as (_ & ? & _). congruence.
  - split; try apply H; cbn. intros Hcl. destruct (ti_closed _ H Hcl) as (? & _). congruence.
  - done.
  - split; try apply H; cbn; [|done]. intros Hcl. destruct (ti_closed _ H Hcl) as (_ & _ & ? & _). congruence.
  - split; try apply H; cbn; [|done]. intros _. destruct (ti_open _ H Hcl) as [-> _]. done.
  - split; apply H.
  - destruct (pool_step_frame (others t) (msgs t) O s (list_to_set (mine t)) Hps (ti_pool _ H)) as [Hp Hf].
    { intros x Hx. apply (ti_disj _ H). by apply mine_set. }
    split; try apply H; unfold mine; cbn [set_pool csChan inflight msgs others cs_done forwarded sent]; fold (mine t).
    + done.
    + intros x Hx. apply Hf. by apply mine_set.
    + intros Hc. rewrite (content_fmap (msgs t)); [by apply (ti_fifo _ H)|]. intros x Hx. apply Hf.
      apply mine_set. unfold mine. apply elem_of_app. by left.
Qed.

Lemma tun_reachable_inv t : reachable tun_init tun_step t -> tun_inv t.
Proof. apply reachable_inv; [apply tun_init_inv|]. intros s s' _ HI Hs. by eapply tun_step_inv. Qed.
End loop.
Arguments tun : clear implicits.

(** The value [player.Tunnel.TransformMessage] fills in, and the calls the end
    of a player tunnel makes. *)
Definition player_msg_of (p : Packet) : player_Message :=
  mkPlayerMessage (p_Mod p) (p_Seq p) (p_Obj p) (p_Data p) (p_DataVersion p).

Lemma player_transform_fills ch (p : Packet) s : exists m s1,
  pool_get ch s = (Ok m, s1) /\ player_TransformMessage ch p s = (Ok m, pool_set m (player_msg_of p) s1).
Proof.
  unfold player_TransformMessage, player_getMessage. cbv [mbind go_bind modify mret go_ret].
  destruct (pool_get ch s) as [r s1] eqn:E.
  assert (exists m, r = Ok m) as [m ->].
  { revert E. unfold pool_get. destruct ch as [i|]; [destruct (free s !! i)|]; intros [= <- _]; eauto. }
  by exists m, s1.
Qed.

(** C11: Messages to a service keep their order and content: whatever the
    goroutines of the tunnel and the other users of the shared message pool do,
    the values the stream has accepted are a prefix, in order, of the values
    [Forward] queued, and while [csLoop] runs the rest is exactly what the queued
    messages still hold; no queued message is free or held by another tunnel. *)
Theorem tunnel_fifo {A} `{R : Resettable A} (msg_of : Packet -> A) stop_calls (t : tun A) :
  reachable tun_init (tun_step msg_of stop_calls) t ->
  sent t `prefix_of` forwarded t /\
  (cs_done t = false -> forwarded t = sent t ++ (content (msgs t) <$> csChan t)) /\
  NoDup (csChan t) /\ forall m, m ∈ csChan t -> (m ∉ free (msgs t)) /\ (m ∉ others t).
Proof.
  intros Hr. apply tun_reachable_inv in Hr. split; [apply Hr|]. split; [apply Hr|].
  pose proof (ti_nodup _ _ Hr) as Hn. unfold mine in Hn. apply NoDup_app in Hn as (Hn & _). split; [done|].
  intros m Hm. assert (m ∈ mine t) as Hm' by (apply elem_of_app; by left). split.
  - intros Hf. apply (po_disj _ _ (ti_pool _ _ Hr) _ Hf). apply elem_of_union_r. by apply mine_set.
  - by apply (ti_disj _ _ Hr).
Qed.

(** A tunnel stops only when its stream breaks: the channel is closed and
    [OnGroupStop]/[OnStop] run (exactly once) only after [stream.Recv] has
    returned an error; a triggered stop alone never gets there, because
    [scLoop] watches neither the trigger nor the context. Until then no send
    can hit the closed channel. *)
Theorem stop_needs_stream_error {A} `{R : Resettable A} (msg_of : Packet -> A) stop_calls (t : tun A) :
  reachable tun_init (tun_step msg_of stop_calls) t ->
  (cs_closed t = true -> recv_failed t = true /\ calls t = stop_calls) /\
  (recv_failed t = false -> calls t = [] /\ panicked t = false).
Proof.
  intros Hr. apply tun_reachable_inv in Hr. split.
  - intros Hc. destruct (ti_closed _ _ Hr Hc) as (_ & _ & Hs & ?). split; [by apply (ti_recv _ _ Hr)|done].
  - intros Hf. apply (ti_open _ _ Hr). destruct (cs_closed t) eqn:E; [|done].
    destruct (ti_closed _ _ Hr E) as (_ & _ & Hs & _). pose proof (ti_recv _ _ Hr Hs). congruence.
Qed.

(** *** Witnesses: a packet goes through, then a stop is triggered *)

Definition tun0 : tun player_Message :=
  mkTun [] false None newPool ∅ false false false false false false false [] [] [].
Definition pkt0 : Packet := mkPacket 0 1 false 3 4 5 [6] 0.
Definition player_stop_calls : list call := [WorkerSetExpiryTime 0; RouteDelDelay EmptyString 7; StreamCloseSend].

Definition tun1 : tun player_Message := Forward_transform player_msg_of None pkt0 tun0.
Definition tun2 : tun player_Message := Forward_send 0 tun1.
Definition tun3 : tun player_Message := csLoop_handle true 0 [] tun2.
Definition tun4 : tun player_Message := set_env true false tun3.

Lemma demo_tunnel : reachable tun_init (tun_step player_msg_of player_stop_calls) tun4.
Proof.
  assert (tun_init tun0) as H0.
  { repeat split; cbn; intros; try constructor; set_solver. }
  eapply reach_step; [|apply (TEnv player_msg_of player_stop_calls true false)].
  eapply reach_step; [|by apply (THandle player_msg_of player_stop_calls true 0)].
  eapply reach_step; [|apply (TSend player_msg_of player_stop_calls 0); [reflexivity|reflexivity|cbv; lia]].
  eapply reach_step; [|by apply (TTransform player_msg_of player_stop_calls (ENew EmptyString []) None (Some pkt0) pkt0)].
  by apply reach_init.
Qed.

Lemma tunnel_fifo_witness : sent tun4 `prefix_of` forwarded tun4 /\ sent tun4 = [mkPlayerMessage 3 4 5 [6] 0].
Proof.
  split; [|reflexivity]. exact (proj1 (tunnel_fifo player_msg_of player_stop_calls tun4 demo_tunnel)).
Defined.

Lemma stop_needs_stream_error_witness : stopTriggered tun4 = true /\ calls tun4 = [] /\ panicked tun4 = false.
Proof.
  split; [reflexivity|].
  apply (stop_needs_stream_error player_msg_of player_stop_calls tun4 demo_tunnel). reflexivity.
Defined.
