(* ===== verification/Conf.v ===== *)
(** Network configuration: src/pkg/net/conf/conf.go.

    Flags and environment variables are arguments; durations are nanoseconds. *)
From Stdlib Require Import Ascii.
From S2P Require Import Prelude Context.
#[local] Open Scope Z_scope.

Record conf_Env := mkEnv {
  Debug : bool; Region : string; Zone : string; DeployEnv : string; Host : string;
  Weight : Z; Offline : bool; Addrs : list string;
}.

Record conf_Server := mkServerConf {
  s_WorkerSize : Z; s_Bind : string; WriteBufSize : Z; ReadBufSize : Z; KeepAlive : bool; s_StopTimeout : Z;
}.

Record conf_Worker := mkWorkerConf {
  ReaderBufSize : Z; ReplyChanSize : Z; HandshakeTimeout : Z; RequestIdleTimeout : Z;
  WaitMainTunnelTimeout : Z; StopTimeout : Z;
}.

Record conf_Bucket := mkBucketConf { BucketSize : Z; WorkerSize : Z }.

Record Config := mkConfig {
  c_Env : conf_Env; c_Server : conf_Server; c_Worker : conf_Worker; c_Bucket : conf_Bucket;
}.

Definition Second : Z := 10 ^ 9.

(** [Default]; [NumCPU] is [runtime.NumCPU()]. *)
Definition Default (NumCPU : Z) (env : conf_Env) : Config :=
  mkConfig env
    (mkServerConf NumCPU ":7000" 30000 30000 true (30 * Second))
    (mkWorkerConf 8192 1024 (10 * Second) (60 * Second) (30 * Second) (3 * Second))
    (mkBucketConf 32 1024).

(** [strings.Split(s, ",")] *)
Fixpoint split_comma (s acc : string) : list string :=
  match s with
  | EmptyString => [acc]
  | String c s =>
      if ascii_dec c "," then acc :: split_comma s EmptyString
      else split_comma s (acc +:+ String c EmptyString)
  end.

(** The value part of [strconv.ParseInt(s, 10, 32)]: the nearest bound when out
    of range, 0 on a syntax error. *)
Definition ParseInt32_val (s : string) : Z :=
  match ParseInt_bits 32 s with
  | Ok v => v
  | Err e =>
      if bool_decide (e = ErrRange) then
        match s with String "-" _ => - 2 ^ 31 | _ => 2 ^ 31 - 1 end
      else 0
  | Panic _ => 0
  end.

(** The value part of [strconv.ParseBool]: false on an error. *)
Definition ParseBool_val (s : string) : bool :=
  bool_decide (s ∈ ["1"; "t"; "T"; "TRUE"; "true"; "True"]).

(** The package's flag variables. *)
Record flag_vars := mkFlags {
  region : string; zone : string; deployEnv : string; host : string; addrs : string; weight : Z; offline : bool;
}.

(** [init]: the defaults registered for the flags. *)
Definition conf_init (Hostname : string) (Getenv : string -> string) : flag_vars :=
  mkFlags (Getenv "REGION") (Getenv "ZONE") (Getenv "DEPLOY_ENV") Hostname (Getenv "ADDRS")
    (ParseInt32_val (Getenv "WEIGHT")) (ParseBool_val (Getenv "OFFLINE")).

(** [Init]: what it assigns to [Conf]. *)
Definition conf_Init (NumCPU : Z) (f : flag_vars) : Config :=
  Default NumCPU
    (mkEnv false (region f) (zone f) (deployEnv f) (host f) (weight f) (offline f) (split_comma (addrs f) EmptyString)).

(** ** Facts *)

Fixpoint join_comma (l : list string) : string :=
  match l with
  | [] => EmptyString
  | [s] => s
  | s :: l => s +:+ String "," (join_comma l)
  end.

Fixpoint has_comma (s : string) : bool :=
  match s with
  | EmptyString => false
  | String c s => (if ascii_dec c "," then true else false) || has_comma s
  end.

Lemma string_app_nil_r (s : string) : s +:+ EmptyString = s.
Proof. induction s as [|c s IH]; [done|]. change (String c (s +:+ EmptyString) = String c s). by rewrite IH. Qed.

Lemma string_app_assoc (a b c : string) : (a +:+ b) +:+ c = a +:+ (b +:+ c).
Proof. induction a as [|x a IH]; [done|]. change (String x ((a +:+ b) +:+ c) = String x (a +:+ (b +:+ c))). by rewrite IH. Qed.

Lemma split_comma_app s acc rest : has_comma s = false ->
  split_comma (s +:+ String "," rest) acc = (acc +:+ s) :: split_comma rest EmptyString.
Proof.
  revert acc. induction s as [|c s IH]; intros acc H; [by rewrite string_app_nil_r|].
  change (String c s +:+ String "," rest) with (String c (s +:+ String "," rest)). cbn [split_comma has_comma] in *.
  destruct (ascii_dec c ","); [done|]. rewrite IH by done. f_equal. by rewrite string_app_assoc.
Qed.

Lemma split_comma_last s acc : has_comma s = false -> split_comma s acc = [acc +:+ s].
Proof.
  revert acc. induction s as [|c s IH]; intros acc H; [by rewrite string_app_nil_r|].
  cbn [split_comma has_comma] in *. destruct (ascii_dec c ","); [done|]. rewrite IH by done.
  by rewrite string_app_assoc.
Qed.

Lemma split_join l : l <> [] -> Forall (fun s => has_comma s = false) l -> split_comma (join_comma l) EmptyString = l.
Proof.
  intros Hl. induction l as [|s l IH]; [done|]. intros HF. apply Forall_cons in HF as [Hs HF].
  destruct l as [|s' l]; [by rewrite split_comma_last|].
  change (join_comma (s :: s' :: l)) with (s +:+ String "," (join_comma (s' :: l))).
  rewrite split_comma_app by done. f_equal. by apply IH.
Qed.

(** The public addresses survive the configuration: whatever non-empty list
    of addresses without commas is joined with commas in [ADDRS], [Init] puts
    exactly this list in the configuration, with the default bind address,
    bucket count and buffer sizes. *)
Theorem Init_addrs NumCPU (f : flag_vars) (l : list string) :
  l <> [] -> Forall (fun s => has_comma s = false) l -> addrs f = join_comma l ->
  let c := conf_Init NumCPU f in
  Addrs (c_Env c) = l /\ s_Bind (c_Server c) = ":7000" /\ BucketSize (c_Bucket c) = 32 /\
  ReaderBufSize (c_Worker c) = 8192 /\ s_WorkerSize (c_Server c) = NumCPU.
Proof. intros Hl HF Ha c. split; [|done]. unfold c, conf_Init. cbn. rewrite Ha. by apply split_join. Qed.

Lemma Init_addrs_witness :
  Addrs (c_Env (conf_Init 8 (conf_init "gate-1" (fun k => if String.eqb k "ADDRS" then "10.0.0.1:7000,10.0.0.2:7000"
    else EmptyString)))) = ["10.0.0.1:7000"; "10.0.0.2:7000"].
Proof.
  refine (proj1 (Init_addrs 8 (conf_init "gate-1" (fun k => if String.eqb k "ADDRS" then
    "10.0.0.1:7000,10.0.0.2:7000" else EmptyString)) ["10.0.0.1:7000"; "10.0.0.2:7000"] _ _ _)).
  - done.
  - repeat constructor.
  - reflexivity.
Defined.
