(* ===== verification/Worker.v ===== *)
(** One connection: [Worker] of src/pkg/net/internal/worker.go, its sequential
    operations (start, handshake, reading and writing packets, stop).  The
    goroutines of [Run] are in WorkerRun.v.

    [Stoppable], [CountdownStopper], the service and the TCP connection's
    deadlines are outside: the service is the class [NetService], deadline calls
    are recorded with their results as arguments. *)
From S2P Require Import Prelude Memory BufPool BufReader Session Codec Context Conf.

(** [vnet.Service], the part a worker uses outside its tunnels.  The session
    [Handle] gets is an object it changes in place: the changes stay when it
    returns an error. *)
Class NetService `{C : Cipher} (W : Type) := {
  svc_Auth : list Z -> go W (list Z * session);
  svc_OnConnected : session -> go W unit;
  svc_OnDisconnect : session -> go W unit;
  svc_Handle : list Z -> go (session * W) unit;
}.

(** What a worker does to the outside, in order. *)
Inductive wevent :=
  | EvDeadline (timeout : Z)      (** [conn.SetDeadline(now + timeout)] *)
  | EvOnDisconnect (ok : bool)
  | EvCloseReply                  (** [close(w.replyChan)] *)
  | EvWaitReply                   (** [<-w.replyChanCompleted] *)
  | EvReaderClose (ok : bool)
  | EvTunnelsStop                 (** [w.tunnelHolder.stop()] *)
  | EvConnClose (ok : bool)
  | EvDeadlineOnDone              (** [SetDeadlineWithContext] *)
  | EvExpiry (at_ : Z).           (** [CountdownStopper.SetExpiryTime] *)

#[export] Instance wevent_eq_dec : EqDecision wevent.
Proof. solve_decision. Defined.

Section worker.
Context `{C : Cipher} {W : Type} `{NS : !NetService W}.

Record Worker := mkWorker {
  w_conf : conf_Worker;
  w_reader : rstate;
  w_conn : wconn;
  w_remote : option conn_addrs;
  w_referer : string;
  w_id : Z;
  w_started : bool;
  w_session : option session;     (** [None] is a nil interface *)
  w_replyStarted : bool;
  w_world : W;
  w_events : list wevent;
}.

(** [NewWorker] on a reader made by [bufreader.NewReader(conn, conf.ReaderBufSize)]. *)
Definition NewWorker (ch : option nat) (wid : Z) (conn : list revent) (out : wconn) (addrs : option conn_addrs)
    (conf : conf_Worker) (referer : string) (m : mem_state) (w : W) : result Worker :=
  rd ← NewReader ch conn (ReaderBufSize conf) m;
  Ok (mkWorker conf rd out addrs referer wid false (Some DefaultSession) false w []).

Definition set_reader (r : rstate) (w : Worker) : Worker :=
  mkWorker (w_conf w) r (w_conn w) (w_remote w) (w_referer w) (w_id w) (w_started w) (w_session w)
    (w_replyStarted w) (w_world w) (w_events w).
Definition set_conn (c : wconn) (w : Worker) : Worker :=
  mkWorker (w_conf w) (w_reader w) c (w_remote w) (w_referer w) (w_id w) (w_started w) (w_session w)
    (w_replyStarted w) (w_world w) (w_events w).
Definition set_session (s : option session) (w : Worker) : Worker :=
  mkWorker (w_conf w) (w_reader w) (w_conn w) (w_remote w) (w_referer w) (w_id w) (w_started w) s
    (w_replyStarted w) (w_world w) (w_events w).
Definition set_started (b : bool) (w : Worker) : Worker :=
  mkWorker (w_conf w) (w_reader w) (w_conn w) (w_remote w) (w_referer w) (w_id w) b (w_session w)
    (w_replyStarted w) (w_world w) (w_events w).
Definition set_world (x : W) (w : Worker) : Worker :=
  mkWorker (w_conf w) (w_reader w) (w_conn w) (w_remote w) (w_referer w) (w_id w) (w_started w) (w_session w)
    (w_replyStarted w) x (w_events w).
Definition log_event (e : wevent) (w : Worker) : Worker :=
  mkWorker (w_conf w) (w_reader w) (w_conn w) (w_remote w) (w_referer w) (w_id w) (w_started w) (w_session w)
    (w_replyStarted w) (w_world w) (w_events w ++ [e]).

(** Running a component's operation on the worker. *)
Definition on_reader {A} (f : go rstate A) : go Worker A := fun w =>
  let '(r, x) := f (w_reader w) in (r, set_reader x w).
Definition on_conn {A} (f : go wconn A) : go Worker A := fun w =>
  let '(r, x) := f (w_conn w) in (r, set_conn x w).
Definition on_world {A} (f : go W A) : go Worker A := fun w =>
  let '(r, x) := f (w_world w) in (r, set_world x w).

(** The session the code calls methods on. *)
Definition the_session : go Worker session := fun w =>
  match w_session w with Some s => (Ok s, w) | None => (Panic NilDeref, w) end.

Definition read (ch1 ch2 : option nat) : go Worker (list Z) :=
  ss ← the_session; on_reader (worker_read ss ch1 ch2).

Definition write (pack : list Z) : go Worker unit :=
  ss ← the_session; on_conn (worker_write ss pack).

(** [conn.SetDeadline(time.Now().Add(d))], with its outcome. *)
Definition SetDeadline (r : result unit) (d : Z) : go Worker unit :=
  modify (log_event (EvDeadline d)) ;; lift r.

(** [handshake] *)
Definition handshake (ch1 ch2 : option nat) : go Worker unit :=
  in_ ← read ch1 ch2;
  os ← on_world (svc_Auth in_);
  let '(out, ss) := os in
  write out ;;
  addrs ← gets w_remote;
  modify (set_session (Some (SetClientIP ss (RemoteAddr addrs)))) : go Worker unit.

(** [Start]; [d1], [d2] are the outcomes of the two deadline calls. *)
Definition Start (d1 d2 : result unit) (ch1 ch2 : option nat) : go Worker unit :=
  c ← gets w_conf;
  wrapping (fun e => EWrap e "set conn deadline before handshake failed" []) (SetDeadline d1 (HandshakeTimeout c)) ;;
  handshake ch1 ch2 ;;
  ss ← the_session;
  on_world (svc_OnConnected ss) ;;
  wrapping (fun e => EWrap e "set conn deadline after handshake failed" []) (SetDeadline d2 (RequestIdleTimeout c)) ;;
  modify (set_started true).

(** A middleware wraps a handler. *)
Definition handler (A B : Type) := A -> go Worker B.

(** [writePack] with the filter applied to [writeNext]. *)
Definition writePack (writeFilter : option (handler (list Z) (list Z) -> handler (list Z) (list Z)))
    (pack : list Z) : go Worker unit :=
  let next : handler (list Z) (list Z) := fun pk => mret pk in
  let filtered : handler (list Z) (list Z) := match writeFilter with Some f => f next | None => next end in
  filtered pack ≫= write.

(** [handle] *)
Definition w_handle (req : list Z) : go Worker unit :=
  ss ← the_session;
  (fun w => let '(r, (ss', x)) := svc_Handle req (ss, w_world w) in (r, set_session (Some ss') (set_world x w))) : go Worker unit.

(** [readPack]: the deadline's outcome is ignored. *)
Definition readPack (readFilter : option (handler (list Z) unit -> handler (list Z) unit)) (d : result unit)
    (ch1 ch2 : option nat) : go Worker unit :=
  in_ ← read ch1 ch2;
  (match readFilter with Some f => f w_handle | None => w_handle end) in_ ;;
  c ← gets w_conf;
  modify (log_event (EvDeadline (RequestIdleTimeout c))).

(** [if err := f(); err != nil { log }]: the outcome is only recorded. *)
Definition attempt (f : go Worker unit) (ev : bool -> wevent) : go Worker unit := fun w =>
  match f w with
  | (Ok _, w') => (Ok tt, log_event (ev true) w')
  | (Err _, w') => (Ok tt, log_event (ev false) w')
  | (Panic q, w') => (Panic q, w')
  end.

Definition event (e : wevent) : go Worker unit := modify (log_event e).

(** The body of [Stop] ([DoStop] runs it once); [closeOk] says whether
    [conn.Close] succeeds.  Failures are logged and the next step is taken. *)
Definition Stop (closeOk : bool) : go Worker unit :=
  started ← gets w_started;
  (if started : bool then
     ss ← the_session; attempt (on_world (svc_OnDisconnect ss)) EvOnDisconnect
   else mret tt) ;;
  event EvCloseReply ;;
  rs ← gets w_replyStarted;
  (if rs : bool then event EvWaitReply else mret tt) ;;
  attempt (on_reader Close) EvReaderClose ;;
  event EvTunnelsStop ;;
  event (EvConnClose closeOk) ;;
  (if closeOk then mret tt else event EvDeadlineOnDone).

(** The getters: a nil session reads as zero values. *)
Definition w_UID (w : Worker) : Z := match w_session w with Some s => UID s | None => 0 end.
Definition w_SID (w : Worker) : Z := match w_session w with Some s => SID s | None => 0 end.
Definition w_Color (w : Worker) : string := match w_session w with Some s => Color s | None => EmptyString end.
Definition w_Status (w : Worker) : Z := match w_session w with Some s => Status s | None => 0 end.
Definition w_WID (w : Worker) : Z := w_id w.
Definition w_IsStarted (w : Worker) : bool := w_started w.
Definition w_Session (w : Worker) : option session := w_session w.
Definition w_Endpoint (w : Worker) : string := RemoteAddr (w_remote w).
Definition SetStopCountDownTime (now : Z) : go Worker unit :=
  c ← gets w_conf; modify (log_event (EvExpiry (now + WaitMainTunnelTimeout c))).

(** The context [Run] builds from the connection. *)
Definition run_ctx `{M : Metadata} (w : Worker) (ctx : Ctx) : Ctx :=
  worker_ctx ctx (w_UID w) (w_SID w) (w_Color w) (w_Status w) (w_referer w) (w_WID w)
    (match w_session w with Some s => ClientIP s | None => EmptyString end).

End worker.
Arguments Worker C W : clear implicits.

(** What the default session writes: one plain frame. *)
Lemma sent_default `{C : Cipher} pack (c c' : wconn) :
  worker_write DefaultSession pack c = (Ok tt, c') -> sent c' = sent c ++ frame_of pack.
Proof.
  cbv [worker_write mbind go_bind lift wrapping]. change (encrypt DefaultSession pack) with (Ok pack). unfold conn_Write.
  destruct (wresults c) as [|[[n e]|] rs]; cbn [map_err]; intros [= <-]; done.
Qed.

(** [handshake] of a new connection, call by call. *)
Lemma handshake_eq `{C : Cipher} {W} `{NS : !NetService W} ch1 ch2 (w : Worker C W) : w_session w = Some DefaultSession ->
  handshake ch1 ch2 w =
  match worker_read DefaultSession ch1 ch2 (w_reader w) with
  | (Ok in_, rd) =>
      match svc_Auth in_ (w_world w) with
      | (Ok (out, ss), x) =>
          match worker_write DefaultSession out (w_conn w) with
          | (Ok _, c) => (Ok tt, set_session (Some (SetClientIP ss (RemoteAddr (w_remote w)))) (set_conn c (set_world x (set_reader rd w))))
          | (Err e, c) => (Err e, set_conn c (set_world x (set_reader rd w)))
          | (Panic q, c) => (Panic q, set_conn c (set_world x (set_reader rd w)))
          end
      | (Err e, x) => (Err e, set_world x (set_reader rd w))
      | (Panic q, x) => (Panic q, set_world x (set_reader rd w))
      end
  | (Err e, rd) => (Err e, set_reader rd w)
  | (Panic q, rd) => (Panic q, set_reader rd w)
  end.
Proof.
  intros Hs. cbv [handshake read write mbind go_bind the_session on_reader on_world on_conn gets modify]. rewrite Hs.
  destruct (worker_read _ _ _ _) as [[in_|e|q] rd]; try done. cbn [set_reader w_world].
  destruct (svc_Auth _ _) as [[[out ss]|e|q] x]; try done. cbn [set_world set_reader w_session w_conn]. rewrite Hs.
  by destruct (worker_write _ _ _) as [[[]|e|q] c].
Qed.

(** Everything [Start] asks for has succeeded: the frame [in_] was read and left
    the reader [rd], [Auth] of it gave the reply and the session, the reply was
    written, and the service took the connection. *)
Definition start_calls `{C : Cipher} {W} `{NS : !NetService W} (d1 d2 : result unit) (ch1 ch2 : option nat) (w : Worker C W)
    (in_ out : list Z) (ss : session) (rd : rstate) (c : wconn) (x x' : W) : Prop :=
  d1 = Ok tt /\ d2 = Ok tt /\
  worker_read DefaultSession ch1 ch2 (w_reader w) = (Ok in_, rd) /\
  svc_Auth in_ (w_world w) = (Ok (out, ss), x) /\
  worker_write DefaultSession out (w_conn w) = (Ok tt, c) /\
  svc_OnConnected (SetClientIP ss (RemoteAddr (w_remote w))) x = (Ok tt, x').

Lemma start_runs `{C : Cipher} {W} `{NS : !NetService W} d1 d2 ch1 ch2 (w : Worker C W) in_ out ss rd c x x' :
  w_session w = Some DefaultSession -> start_calls d1 d2 ch1 ch2 w in_ out ss rd c x x' ->
  Start d1 d2 ch1 ch2 w = (Ok tt, mkWorker (w_conf w) rd c (w_remote w) (w_referer w) (w_id w) true
    (Some (SetClientIP ss (RemoteAddr (w_remote w)))) (w_replyStarted w) x'
    ((w_events w ++ [EvDeadline (HandshakeTimeout (w_conf w))]) ++ [EvDeadline (RequestIdleTimeout (w_conf w))])).
Proof.
  intros Hs (-> & -> & Er & Ea & Ew & Ec). cbv [Start mbind go_bind gets wrapping SetDeadline modify lift]. cbn [map_err].
  rewrite handshake_eq by exact Hs. cbn [log_event w_reader w_world w_conn w_remote]. rewrite Er, Ea, Ew.
  cbv [the_session on_world]. cbn [set_session set_conn set_world set_reader w_session w_world w_remote log_event]. by rewrite Ec.
Qed.

(** C24: Starting a connection either completes the handshake or leaves the
    worker not started.  It completes exactly when the deadlines are set, a frame
    is read, the service's [Auth] accepts the bytes read, its reply is written
    and [OnConnected] accepts its session; then the connection got exactly one
    plain frame, that reply, the worker has that session with the peer's address,
    the reader stands behind the frame, and the deadline has been moved from the
    handshake's to the idle one.  Otherwise the worker is not started, so that
    [Stop] will not report a disconnect. *)
Theorem Start_handshake `{C : Cipher} {W} `{NS : !NetService W} d1 d2 ch1 ch2 (w w' : Worker C W) r :
  w_session w = Some DefaultSession -> w_started w = false -> Start d1 d2 ch1 ch2 w = (r, w') ->
  (r = Ok tt <-> exists in_ out ss rd c x x', start_calls d1 d2 ch1 ch2 w in_ out ss rd c x x') /\
  (forall in_ out ss rd c x x', start_calls d1 d2 ch1 ch2 w in_ out ss rd c x x' ->
     w_started w' = true /\ w_session w' = Some (SetClientIP ss (RemoteAddr (w_remote w))) /\
     w_reader w' = rd /\ w_conn w' = c /\ sent c = sent (w_conn w) ++ frame_of out /\ w_world w' = x' /\
     w_events w' = w_events w ++ [EvDeadline (HandshakeTimeout (w_conf w)); EvDeadline (RequestIdleTimeout (w_conf w))]) /\
  (r <> Ok tt -> w_started w' = false).
Proof.
  intros Hs Hst E. split; [|split].
  - split.
    + intros ->. revert E. cbv [Start mbind go_bind gets wrapping SetDeadline modify lift].
      destruct d1 as [[]|e|q]; try done. cbn [map_err]. rewrite handshake_eq by exact Hs. cbn [log_event w_reader w_world w_conn].
      destruct (worker_read _ _ _ _) as [[in_|e|q] rd] eqn:Er; try done. destruct (svc_Auth _ _) as [[[out ss]|e|q] x] eqn:Ea; try done.
      destruct (worker_write _ _ _) as [[[]|e|q] c] eqn:Ew; try done. cbv [the_session on_world].
      cbn [set_session set_conn set_world set_reader log_event w_session w_world w_remote].
      destruct (svc_OnConnected _ _) as [[[]|e|q] x'] eqn:Ec; try done. destruct d2 as [[]|e|q]; try done. intros _.
      exists in_, out, ss, rd, c, x, x'. by repeat split.
    + intros (in_ & out & ss & rd & c & x & x' & Hc). pose proof (start_runs _ _ _ _ _ _ _ _ _ _ _ _ Hs Hc) as E'. congruence.
  - intros in_ out ss rd c x x' Hc. rewrite (start_runs _ _ _ _ _ _ _ _ _ _ _ _ Hs Hc) in E. injection E as _ <-.
    destruct Hc as (_ & _ & _ & _ & Ew & _). cbn. rewrite <- app_assoc. by rewrite (sent_default _ _ _ Ew).
  - intros Hr. revert E. cbv [Start mbind go_bind gets wrapping SetDeadline modify lift].
    destruct d1 as [[]|e|q]; cbn [map_err]; [|by intros [= <- <-]..]. rewrite handshake_eq by exact Hs.
    cbn [log_event w_reader w_world w_conn].
    destruct (worker_read _ _ _ _) as [[in_|e|q] rd]; [|by intros [= <- <-]..].
    destruct (svc_Auth _ _) as [[[out ss]|e|q] x]; [|by intros [= <- <-]..].
    destruct (worker_write _ _ _) as [[[]|e|q] c]; [|by intros [= <- <-]..]. cbv [the_session on_world].
      cbn [set_session set_conn set_world set_reader log_event w_session w_world w_remote].
    destruct (svc_OnConnected _ _) as [[[]|e|q] x']; [|by intros [= <- <-]..].
    destruct d2 as [[]|e|q]; cbn [map_err]; intros [= <- <-]; done.
Qed.

Section fields.
Context `{C : Cipher} {W : Type}.
Implicit Types w : Worker C W.

Lemma bind_ok {S A B} (m : go S A) (k : A -> go S B) s a s' : m s = (Ok a, s') -> (m ≫= k) s = k a s'.
Proof. intros E. cbv [mbind go_bind]. by rewrite E. Qed.

Lemma event_ok e w : event e w = (Ok tt, log_event e w).
Proof. done. Qed.

Lemma event_log e w : w_events (log_event e w) = w_events w ++ [e] /\ w_reader (log_event e w) = w_reader w /\
  w_replyStarted (log_event e w) = w_replyStarted w.
Proof. done. Qed.

Lemma attempt_close w st' : Close (w_reader w) = (Ok tt, st') ->
  exists w', attempt (on_reader Close) EvReaderClose w = (Ok tt, w') /\
    w_events w' = w_events w ++ [EvReaderClose true] /\ w_reader w' = st'.
Proof. intros E. cbv [attempt on_reader]. rewrite E. by eexists. Qed.
End fields.

(** C23: [Stop] always runs to its end, in this order: the disconnect report
    (only for a started worker), closing the reply channel, waiting for the
    writer (if it ever started), returning the reader's buffer to the pool,
    stopping the tunnels, closing the connection; no failure of a step skips
    the later ones, and the buffer goes back exactly once. *)
Theorem Stop_completes `{C : Cipher} {W} `{NS : !NetService W} p F b closeOk (w : Worker C W) ss :
  init_pool = Some (Ok p) -> gate_reader p F (w_reader w) b -> w_session w = Some ss ->
  (forall x q, fst (svc_OnDisconnect ss x) <> Panic q) ->
  exists w' ok, Stop closeOk w = (Ok tt, w') /\
    w_events w' = w_events w ++ (if w_started w then [EvOnDisconnect ok] else []) ++ [EvCloseReply] ++
      (if w_replyStarted w then [EvWaitReply] else []) ++ [EvReaderClose true; EvTunnelsStop; EvConnClose closeOk] ++
      (if closeOk then [] else [EvDeadlineOnDone]) /\
    pool_inv p gate_cap F (rs_mem (w_reader w')).
Proof.
  intros E Hr Hs Hnp. pose proof (gate_spec p E) as PS. destruct (Close_ok F _ b Hr) as (st' & Ec & Hi & _ & _).
  assert (exists w1 ok, (if w_started w then ss ← the_session; attempt (on_world (svc_OnDisconnect ss)) EvOnDisconnect
      else mret tt) w = (Ok tt, w1) /\ w_events w1 = w_events w ++ (if w_started w then [EvOnDisconnect ok] else []) /\
      w_replyStarted w1 = w_replyStarted w /\ w_reader w1 = w_reader w) as (w1 & ok & E1 & Ev & Hrs & Hrd).
  { destruct (w_started w); [|exists w, true; by rewrite app_nil_r].
    cbv [mbind go_bind the_session attempt on_world]. rewrite Hs. specialize (Hnp (w_world w)).
    destruct (svc_OnDisconnect ss (w_world w)) as [[[]|e|q] x]; [by eexists _, true|by eexists _, false|].
    by destruct (Hnp q). }
  unfold Stop. rewrite (bind_ok _ _ _ _ _ (eq_refl : gets w_started w = (Ok (w_started w), w))), (bind_ok _ _ _ _ _ E1).
  rewrite (bind_ok _ _ _ _ _ (event_ok EvCloseReply w1)).
  destruct (event_log EvCloseReply w1) as (Ev2 & Hrd2 & Hrs2). rewrite Hrd in Hrd2. rewrite Hrs in Hrs2. rewrite Ev in Ev2.
  generalize dependent (log_event EvCloseReply w1). intros w2 Ev2 Hrd2 Hrs2.
  rewrite (bind_ok _ _ _ _ _ (eq_refl : gets w_replyStarted w2 = (Ok (w_replyStarted w2), w2))), Hrs2.
  assert (exists w3, (if w_replyStarted w then event EvWaitReply else mret tt) w2 = (Ok tt, w3) /\
    w_events w3 = w_events w2 ++ (if w_replyStarted w then [EvWaitReply] else []) /\ w_reader w3 = w_reader w2)
    as (w3 & E3 & Ev3 & Hrd3).
  { destruct (w_replyStarted w); [by eexists|exists w2; by rewrite app_nil_r]. }
  rewrite (bind_ok _ _ _ _ _ E3). rewrite Hrd2 in Hrd3. rewrite Ev2 in Ev3.
  destruct (attempt_close w3 st') as (w4 & E4 & Ev4 & Hrd4); [by rewrite Hrd3|]. rewrite (bind_ok _ _ _ _ _ E4).
  rewrite (bind_ok _ _ _ _ _ (event_ok EvTunnelsStop w4)).
  destruct (event_log EvTunnelsStop w4) as (Ev5 & Hrd5 & _).
  generalize dependent (log_event EvTunnelsStop w4). intros w5 Ev5 Hrd5.
  rewrite (bind_ok _ _ _ _ _ (event_ok (EvConnClose closeOk) w5)).
  destruct (event_log (EvConnClose closeOk) w5) as (Ev6 & Hrd6 & _).
  generalize dependent (log_event (EvConnClose closeOk) w5). intros w6 Ev6 Hrd6.
  exists (if closeOk then w6 else log_event EvDeadlineOnDone w6), ok.
  split; [by destruct closeOk|].
  rewrite Ev5, Ev4, Ev3 in Ev6. destruct (event_log EvDeadlineOnDone w6) as (Ev7 & Hrd7 & _).
  split; destruct closeOk; rewrite ?Ev7, ?Hrd7, ?Ev6, ?Hrd6, ?Hrd5, ?Hrd4; try exact Hi; by rewrite <- ?app_assoc.
Qed.

(** *** Witnesses *)

(** A service whose [Auth] answers with the bytes it got and a session of user 7. *)
#[local] Instance echo_service : NetService (C := tag_cipher) unit := {|
  svc_Auth := fun in_ _ => (Ok (in_, tag_session), tt);
  svc_OnConnected := fun _ _ => (Ok tt, tt);
  svc_OnDisconnect := fun _ _ => (Err (ENew "log off failed" []), tt);
  svc_Handle := fun _ sx => (Ok tt, sx);
|}.

(** A worker as [NewWorker] makes it. *)
Definition demo_worker (st : rstate) : Worker tag_cipher unit :=
  mkWorker (mkWorkerConf 8192 1024 10 60 30 3) st (mkWconn [] []) None EmptyString 1 false
    (Some (DefaultSession (C := tag_cipher))) false tt [].

Lemma Start_handshake_witness :
  exists p st rd w', init_pool = Some (Ok p) /\ NewReader None [RData (frame_of [65])] 8192 (fst (start p)) = Ok st /\
    worker_read (DefaultSession (C := tag_cipher)) None None st = (Ok [65], rd) /\
    Start (Ok tt) (Ok tt) None None (demo_worker st) = (Ok tt, w') /\ w_started w' = true /\
    sent (w_conn w') = frame_of [65] /\ w_reader w' = rd.
Proof.
  destruct init_pool_ok as (p & E & Hi).
  destruct (open_reader p [RData (frame_of [65])] 8192 E) as (st & b & En & Hr & Hp); [by exists 13|done|].
  destruct (worker_read_frame p E ∅ st b (DefaultSession (C := tag_cipher)) None None [65] [] Hr Hp) as (rd & b' & Er & _);
    [change MaxBodySize with 16384; cbn; lia|]. change (decrypt DefaultSession [65]) with (Ok [65]) in Er.
  destruct (Start (Ok tt) (Ok tt) None None (demo_worker st)) as [r w'] eqn:Es.
  destruct (Start_handshake (Ok tt) (Ok tt) None None (demo_worker st) w' r eq_refl eq_refl Es) as ([_ Hok] & Hst & _).
  assert (start_calls (Ok tt) (Ok tt) None None (demo_worker st) [65] [65] tag_session rd (mkWconn (frame_of [65]) []) tt tt) as Hc
    by (by repeat split).
  destruct (Hst _ _ _ _ _ _ _ Hc) as (H1 & _ & H2 & H3 & _). exists p, st, rd, w'.
  split; [exact E|]. split; [exact En|]. split; [exact Er|]. split; [|by rewrite H3].
  rewrite Es. f_equal. apply Hok. by do 7 eexists.
Defined.

Lemma Stop_completes_witness :
  exists p st w', init_pool = Some (Ok p) /\ NewReader None [] 8192 (fst (start p)) = Ok st /\
    Stop false (demo_worker st) = (Ok tt, w') /\
    w_events w' = [EvCloseReply; EvReaderClose true; EvTunnelsStop; EvConnClose false; EvDeadlineOnDone].
Proof.
  destruct init_pool_ok as (p & E & Hi). pose proof (gate_spec p E) as PS.
  destruct (NewReader_ok None [] 8192 ∅ _ Hi) as (st & b & En & Hr & _).
  { exists 13. split; [lia|done]. }
  destruct (Stop_completes p ∅ b false (demo_worker st) _ E Hr eq_refl) as (w' & ok & Es & Ev & _); [by intros x q|].
  exists p, st, w'. split; [done|]. split; [done|]. split; [done|exact Ev].
Defined.
