(* ===== verification/Gateway.v ===== *)
(** The gateway's inbound path put together: the worker's [readPack] of
    src/pkg/net/internal/worker.go with the packet service of
    src/app/gate/internal/intra/net/service behind it.

    [gate_service] is the service's implementation of the worker's interface
    [NetService]; [readPacks_deliver] follows a client's packets from the bytes
    of the connection to the tunnels, through the pooled reader, the framing,
    the cipher, the codec, the sequence check, the decompression and the routing;
    Handshake.v has the theorem. *)
From S2P Require Import Prelude Memory BufPool BufReader Session Codec Context Messages Security Service Auth Conf Worker.

Section gateway.
Context `{C : Cipher} `{K : Crypto} `{VT : VulcanTime} `{M : Metadata} `{Cp : Compressor} {W T : Type}.
Context `{TO : !TunnelOps W T} `{PM : !ProtoMsg Packet} `{PC : !ProtoMsg CSHandshake} `{PS : !ProtoMsg SCHandshake}.
Context `{PT : !ProtoMsg AuthToken}.

(** What is behind a worker: the choices the packet pool will make, the pool,
    and the world of the tunnels. *)
Record gworld := mkG { g_choices : list (option nat); g_pkts : ostate Packet; g_w : W }.

Definition next_choice (x : gworld) : option nat := default None (head (g_choices x)).

(** [Service] as the worker's [vnet.Service]; [ctx] is the context [Run] made,
    the other arguments are the service's configuration, clock and randomness. *)
Definition gate_service (ctx : Ctx) (encrypted : bool) (sec : secrets) (now : Z) (seed seed' : nat) : NetService gworld := {|
  svc_Auth := fun in_ x =>
    let '(r, s) := Auth encrypted sec now seed seed' (next_choice x) in_ (g_pkts x) in
    (r, mkG (tail (g_choices x)) s (g_w x));
  svc_OnConnected := fun _ x => (Ok tt, x);
  svc_OnDisconnect := fun _ x => (Ok tt, x);
  svc_Handle := fun in_ '(ss, x) =>
    let '(r, st) := Handle (next_choice x) ctx in_ (mkSvc ss (g_pkts x) (g_w x)) in
    (r, (sv_ss st, mkG (tail (g_choices x)) (sv_pkts st) (sv_w st)));
|}.

(** [readPackLoop] as long as neither context nor stop end it: [chs] are the
    buffer pool's choices, two per packet, and the deadlines' outcomes. *)
Fixpoint readPacks `{NS : !NetService gworld} (chs : list (result unit * option nat * option nat)) : go (Worker C gworld) unit :=
  match chs with
  | [] => mret tt
  | (d, c1, c2) :: chs => readPack None d c1 c2 ;; readPacks chs
  end.

(** ** The client's side *)

(** A packet as the client makes it: the message, its payload before
    compression, the encoded packet and the body of its frame. *)
Record client_packet := mkCp { cp_pkt : Packet; cp_data : list Z; cp_bytes : list Z; cp_body : list Z }.

Definition prepared (ss : session) (i : Z) (c : client_packet) : Prop :=
  Compress (cp_data c) = Ok (p_Data (cp_pkt c), p_Compress (cp_pkt c)) /\ Marshal (cp_pkt c) = Ok (cp_bytes c) /\
  encrypt ss (cp_bytes c) = Ok (cp_body c) /\ 0 < zlen (cp_body c) <= MaxBodySize /\
  (IsCrypto ss = true -> p_Index (cp_pkt c) = i).

(** Packets numbered from [i] on. *)
Fixpoint prepared_from (ss : session) (i : Z) (cs : list client_packet) : Prop :=
  match cs with [] => True | c :: cs => prepared ss i c /\ prepared_from ss (i + 1) cs end.

(** ** The specification: every packet goes, with its payload, to the tunnel of
    its module and object *)

Definition forward_one (ctx : Ctx) (uid : Z) (c : client_packet) : go W unit :=
  let obj := if p_Obj (cp_pkt c) =? 0 then uid else p_Obj (cp_pkt c) in
  t ← th_Tunnel (SetOID ctx obj) (p_Mod (cp_pkt c)) obj;
  t_Forward (SetOID ctx obj) t (set_Obj (set_Data (cp_pkt c) (cp_data c)) obj).

Fixpoint forward_all (ctx : Ctx) (uid : Z) (cs : list client_packet) : go W unit :=
  match cs with [] => mret tt | c :: cs => forward_one ctx uid c ;; forward_all ctx uid cs end.

(** ** One packet *)

(** [readPack] on a connection whose next bytes are one frame. *)
Lemma readPack_frame {LC : CipherLaws C} `{NS : !NetService gworld} p F b d c1 c2 (w : Worker C gworld) ss bs body rest ss' x' :
  init_pool = Some (Ok p) -> gate_reader p F (w_reader w) b -> w_session w = Some ss ->
  pending (w_reader w) = frame_of body ++ rest -> encrypt ss bs = Ok body -> 0 < zlen body <= MaxBodySize ->
  svc_Handle bs (ss, w_world w) = (Ok tt, (ss', x')) ->
  exists w' b', readPack None d c1 c2 w = (Ok tt, w') /\ gate_reader p F (w_reader w') b' /\
    pending (w_reader w') = rest /\ w_session w' = Some ss' /\ w_world w' = x'.
Proof.
  intros E Hr Hs Hp He Hl Hh.
  destruct (worker_read_frame p E F (w_reader w) b ss c1 c2 body rest Hr Hp Hl) as (st & b' & Er & Hr' & Hp').
  rewrite (decrypt_encrypt _ _ _ He) in Er.
  eexists (log_event (EvDeadline (RequestIdleTimeout (w_conf w))) (set_session (Some ss') (set_world x' (set_reader st w)))), b'.
  split; [|done].
  unfold readPack. rewrite (bind_ok (read c1 c2) _ w bs (set_reader st w)).
  - rewrite (bind_ok (w_handle bs) _ _ tt (set_session (Some ss') (set_world x' (set_reader st w)))); [done|].
    cbv [w_handle mbind go_bind the_session on_world]. cbn [w_session set_reader]. rewrite Hs.
    cbn [w_world set_reader]. by rewrite Hh.
  - cbv [read mbind go_bind the_session on_reader]. rewrite Hs. by rewrite Er.
Qed.

Lemma forward_one_parts ctx uid c x x' : forward_one ctx uid c x = (Ok tt, x') ->
  exists t x1, th_Tunnel (SetOID ctx (if p_Obj (cp_pkt c) =? 0 then uid else p_Obj (cp_pkt c))) (p_Mod (cp_pkt c))
      (if p_Obj (cp_pkt c) =? 0 then uid else p_Obj (cp_pkt c)) x = (Ok t, x1) /\
    t_Forward (SetOID ctx (if p_Obj (cp_pkt c) =? 0 then uid else p_Obj (cp_pkt c))) t
      (set_Obj (set_Data (cp_pkt c) (cp_data c)) (if p_Obj (cp_pkt c) =? 0 then uid else p_Obj (cp_pkt c))) x1 = (Ok tt, x').
Proof.
  unfold forward_one. cbv [mbind go_bind]. destruct (th_Tunnel _ _ _ x) as [[t|e|q] x1]; try discriminate. by eauto.
Qed.

(** The service hands a prepared packet on, and moves the counter. *)
Lemma service_forwards {CL : CompressorLaws Cp} {PL : ProtoLaws Packet} ctx en sec now seed seed' ss c x xw :
  prepared ss (CSIndex ss) c -> forward_one ctx (UID ss) c (g_w x) = (Ok tt, xw) ->
  exists x', svc_Handle (NetService := gate_service ctx en sec now seed seed') (cp_bytes c) (ss, x) =
      (Ok tt, (if IsCrypto ss then snd (IncreaseCSIndex ss) else ss, x')) /\ g_w x' = xw.
Proof.
  intros (Hc & Hm & _ & _ & Hi) Hf. destruct (forward_one_parts _ _ _ _ _ Hf) as (t & x1 & Ht & Hw).
  destruct (handle_forwards (next_choice x) ctx (mkSvc ss (g_pkts x) (g_w x)) (cp_pkt c) (cp_data c) _ _ (cp_bytes c)
    t x1 xw (Ok tt) Hc eq_refl eq_refl Hm Hi Ht Hw) as (pl & E).
  cbn [svc_Handle gate_service]. unfold Handle. rewrite E. cbn. by eexists.
Qed.

(** ** All packets *)

Lemma next_session (ss : session) (n : Z) :
  0 <= CSIndex ss -> CSIndex ss + (1 + n) < 2 ^ 63 -> 0 <= n ->
  let ss' := if IsCrypto ss then snd (IncreaseCSIndex ss) else ss in
  ss_enc ss' = ss_enc ss /\ UID ss' = UID ss /\ (IsCrypto ss = true -> CSIndex ss' = CSIndex ss + 1).
Proof.
  intros H1 H2 H3 ss'. unfold ss', CSIndex in *. destruct (IsCrypto ss); [|by repeat split].
  split; [done|]. split; [done|]. intros _. unfold IncreaseCSIndex, Load in *. by rewrite Increase_val by lia.
Qed.

(** Preparation depends on the session's key and the numbering only. *)
Lemma prepared_from_session ss ss' i j cs :
  ss_enc ss' = ss_enc ss -> (IsCrypto ss = true -> i = j) -> prepared_from ss i cs -> prepared_from ss' j cs.
Proof.
  intros He. destruct (crypt_same ss ss' (eq_sym He)) as [Hen _].
  assert (IsCrypto ss' = IsCrypto ss) as Hc by (unfold IsCrypto; by rewrite He).
  revert i j. induction cs as [|c cs IH]; intros i j Hij; [done|].
  intros [(H1 & H2 & H3 & H4 & H5) HF]. split.
  - repeat (split; [done|]). split; [by rewrite <- Hen|]. split; [done|]. rewrite Hc. intros Hcr.
    rewrite <- (Hij Hcr). by apply H5.
  - eapply IH; [|exact HF]. intros Hcr. by rewrite (Hij Hcr).
Qed.
End gateway.
Arguments gworld : clear implicits.

Section deliver.
Context `{C : Cipher} {LC : CipherLaws C} `{K : Crypto} `{VT : VulcanTime} `{M : Metadata} `{Cp : Compressor} {W T : Type}.
Context `{TO : !TunnelOps W T} `{PM : !ProtoMsg Packet} `{PC : !ProtoMsg CSHandshake} `{PS : !ProtoMsg SCHandshake}.
Context `{PT : !ProtoMsg AuthToken} {CL : CompressorLaws Cp} {PL : ProtoLaws Packet}.
Context (ctx : Ctx) (en : bool) (sec : secrets) (now : Z) (seed seed' : nat).

Lemma readPacks_deliver p F cs : init_pool = Some (Ok p) ->
  forall chs b ss (w : Worker C (gworld W)) rest xw,
  gate_reader p F (w_reader w) b -> w_session w = Some ss -> length chs = length cs ->
  pending (w_reader w) = mjoin (map (fun c => frame_of (cp_body c)) cs) ++ rest ->
  prepared_from ss (CSIndex ss) cs -> 0 <= CSIndex ss -> CSIndex ss + zlen cs < 2 ^ 63 ->
  forward_all ctx (UID ss) cs (g_w (w_world w)) = (Ok tt, xw) ->
  exists w' ss', readPacks (NS := gate_service ctx en sec now seed seed') chs w = (Ok tt, w') /\ pending (w_reader w') = rest /\ g_w (w_world w') = xw /\
    w_session w' = Some ss' /\ ss_enc ss' = ss_enc ss /\ (IsCrypto ss = true -> CSIndex ss' = CSIndex ss + zlen cs) /\
    (exists b', gate_reader p F (w_reader w') b').
Proof.
  intros E. induction cs as [|c cs IH]; intros [|[[d c1] c2] chs] b ss w rest xw Hr Hs Hl Hp Hc H0 Hb Hf; try done.
  { injection Hf as <-. exists w, ss. repeat split; try done; [intros _; cbn; lia|by eauto]. }
  destruct Hc as [Hc Hcs]. cbn [forward_all] in Hf. cbv [mbind go_bind] in Hf.
  destruct (forward_one ctx (UID ss) c (g_w (w_world w))) as [[[]|e|q] x1] eqn:Ef; try discriminate.
  destruct (service_forwards ctx en sec now seed seed' ss c (w_world w) x1 Hc Ef) as (x' & Eh & Hx).
  cbn [length] in Hl, Hb. rewrite Nat2Z.inj_succ in Hb.
  destruct (next_session ss (zlen cs) H0 ltac:(lia) ltac:(lia)) as (He & Hu & Hi).
  set (ss1 := if IsCrypto ss then snd (IncreaseCSIndex ss) else ss) in *.
  pose proof Hc as (_ & _ & Hen & Hbl & _). cbn [map mjoin list_join] in Hp. rewrite <- app_assoc in Hp.
  destruct (readPack_frame (NS := gate_service ctx en sec now seed seed') p F b d c1 c2 w ss (cp_bytes c) (cp_body c) _ ss1 x' E Hr Hs Hp Hen Hbl Eh)
    as (w1 & b1 & E1 & Hr1 & Hp1 & Hs1 & Hw1).
  assert (IsCrypto ss1 = IsCrypto ss) as Hcr by (unfold IsCrypto; by rewrite He).
  assert (0 <= CSIndex ss1 <= CSIndex ss + 1) as Hx1.
  { destruct (IsCrypto ss) eqn:Ec; [rewrite Hi by done; lia|]. unfold ss1. lia. }
  rewrite <- Hx, <- Hw1, <- Hu in Hf.
  destruct (IH chs b1 ss1 w1 rest xw) as (w' & ss' & E2 & Hp2 & Hx2 & Hs2 & He2 & Hi2 & Hr2);
    [done|done|by injection Hl|done| |lia|lia|exact Hf|].
  { eapply prepared_from_session; [exact He| |exact Hcs]. intros Hy. symmetry. by apply Hi. }
  exists w', ss'. split; [|repeat split; try done; [congruence|]].
  - cbn [readPacks]. cbv [mbind go_bind]. by rewrite E1.
  - intros Hy. rewrite Hi2 by congruence. rewrite (Hi Hy). cbn [length]. lia.
Qed.
End deliver.

(** Tunnels that record what they were handed, for the witnesses. *)
#[local] Instance gw_ops : TunnelOps (M := map_metadata) (list (Z * Z * list Z)) (Z * Z) := {|
  th_Tunnel := fun _ m o w => (Ok (m, o), w);
  t_Forward := fun _ t p w => (Ok tt, w ++ [(t, p_Data p)]);
|}.
