(* ===== verification/Handshake.v ===== *)
(** A connection from its first byte on: [Start] and then the reading loop of
    src/pkg/net/internal/worker.go, with [Auth] and [Handle] of
    src/app/gate/internal/intra/net/service behind them, on one buffered reader.

    The client sends its handshake in a plain frame, opens the reply with its
    private key, and from then on numbers its packets from the start index and
    encrypts them under the session's key. *)
From S2P Require Import Prelude Memory BufPool BufReader Session Codec Context Messages Security Service Auth Conf Worker Gateway.

Section start.
Context `{C : Cipher} {W : Type} `{NS : !NetService W}.

(** [handshake] on a connection whose next bytes are the handshake's frame,
    when the service accepts it and the socket takes the reply. *)
Lemma handshake_accepted p F b c1 c2 (w : Worker C W) hs rest out ss x1 :
  init_pool = Some (Ok p) -> gate_reader p F (w_reader w) b -> w_session w = Some DefaultSession ->
  wresults (w_conn w) = [] -> pending (w_reader w) = frame_of hs ++ rest -> 0 < zlen hs <= MaxBodySize ->
  svc_Auth hs (w_world w) = (Ok (out, ss), x1) ->
  exists st b', gate_reader p F st b' /\ pending st = rest /\
    handshake c1 c2 w = (Ok tt, set_session (Some (SetClientIP ss (RemoteAddr (w_remote w))))
      (set_conn (mkWconn (sent (w_conn w) ++ frame_of out) []) (set_world x1 (set_reader st w)))).
Proof.
  intros E Hr Hs Hw Hp Hl Ha.
  destruct (worker_read_frame p E F (w_reader w) b DefaultSession c1 c2 hs rest Hr Hp Hl) as (st & b' & Er & Hr' & Hp').
  exists st, b'. split; [done|]. split; [done|].
  destruct w as [cf rd [sn wr] rm rf id sd se rs wo ev]. cbn in *. subst se wr.
  unfold handshake, read, write. cbv [mbind go_bind the_session on_reader on_world on_conn gets modify].
  cbn [w_session w_reader]. rewrite Er. cbn [decrypt negb IsCrypto DefaultSession ss_enc enc_encrypt].
  unfold decrypt. cbn -[worker_write]. rewrite Ha. done.
Qed.

Lemma Start_accepted p F b c1 c2 (w : Worker C W) hs rest out ss x1 x2 :
  init_pool = Some (Ok p) -> gate_reader p F (w_reader w) b -> w_session w = Some DefaultSession ->
  wresults (w_conn w) = [] -> pending (w_reader w) = frame_of hs ++ rest -> 0 < zlen hs <= MaxBodySize ->
  svc_Auth hs (w_world w) = (Ok (out, ss), x1) ->
  svc_OnConnected (SetClientIP ss (RemoteAddr (w_remote w))) x1 = (Ok tt, x2) ->
  exists w' b', Start (Ok tt) (Ok tt) c1 c2 w = (Ok tt, w') /\ w_started w' = true /\
    sent (w_conn w') = sent (w_conn w) ++ frame_of out /\
    w_session w' = Some (SetClientIP ss (RemoteAddr (w_remote w))) /\ w_world w' = x2 /\
    gate_reader p F (w_reader w') b' /\ pending (w_reader w') = rest.
Proof.
  intros E Hr Hs Hw Hp Hl Ha Ho.
  destruct (handshake_accepted p F b c1 c2 (log_event (EvDeadline (HandshakeTimeout (w_conf w))) w) hs rest out ss x1
    E Hr Hs Hw Hp Hl Ha) as (st & b' & Hr' & Hp' & Eh).
  eexists _, b'. split; [|shelve]. unfold Start.
  cbv [mbind go_bind gets wrapping SetDeadline modify lift]. cbn [map_err]. rewrite Eh.
  cbv [the_session on_world]. cbn [w_session set_session w_world set_conn set_world set_reader log_event w_remote]. rewrite Ho.
  cbn [map_err]. reflexivity.
  Unshelve. cbn. done.
Qed.
End start.

(** The session [Auth] makes expects packet 1 next. *)
Lemma Auth_index `{C : Cipher} `{K : Crypto} `{VT : VulcanTime} `{PM : !ProtoMsg Packet} `{PC : !ProtoMsg CSHandshake}
    `{PS : !ProtoMsg SCHandshake} `{PT : !ProtoMsg AuthToken} encrypted sec now seed seed' ch in_ s out ss s' :
  Auth encrypted sec now seed seed' ch in_ s = (Ok (out, ss), s') -> CSIndex ss = 1.
Proof.
  intros E. apply Auth_ok in E as (plain & inp & cs & key & ss0 & data & oup & bs & _ & _ & _ & _ & Ea & _ & _ & -> & _).
  apply auth_ok in Ea as (bytes & token & block & _ & _ & _ & ->). by vm_compute.
Qed.

(** What the client learns from the reply [out] with its private key: the
    number of its first packet. *)
Definition told_index `{K : Crypto} `{PM : !ProtoMsg Packet} `{PS : !ProtoMsg SCHandshake} (encrypted : bool) (cli : PrivateKey)
    (out : list Z) : result Z :=
  bytes ← (if encrypted then rsa_Decrypt (Some cli) out else Ok out);
  oup ← (Unmarshal bytes : result Packet);
  sc ← (Unmarshal (p_Data oup) : result SCHandshake);
  Ok (StartIndex sc).

(** C1: A connection works from its first byte on: let the client send a
    handshake the service accepts and then, numbered from the index the reply
    tells it, packets compressed, encoded, encrypted under the session and
    framed, all on one stream in any chunks.  Then [Start] succeeds and sends
    exactly the reply, and the reading loop takes every packet and forwards it,
    with its payload and in order, to the tunnel of its module and object. *)
Theorem connection_delivers `{C : Cipher} {LC : CipherLaws C} `{K : Crypto} `{VT : VulcanTime} `{M : Metadata}
    `{Cp : Compressor} {W T : Type} `{TO : !TunnelOps W T} `{PM : !ProtoMsg Packet} `{PC : !ProtoMsg CSHandshake}
    `{PS : !ProtoMsg SCHandshake} `{PT : !ProtoMsg AuthToken} {CL : CompressorLaws Cp} {PL : ProtoLaws Packet}
    {LS : ProtoLaws SCHandshake}
    ctx en sec now seed seed' (cli : PrivateKey) hs out ss s' c1 c2 (cs : list client_packet) chs conn (w0 : Worker C (gworld W)) i xw :
  w_session w0 = Some DefaultSession -> wresults (w_conn w0) = [] -> 0 < zlen hs <= MaxBodySize ->
  Auth en sec now seed seed' (next_choice (w_world w0)) hs (g_pkts (w_world w0)) = (Ok (out, ss), s') ->
  (forall plain inp h pub sd m c, DecryptCSHandshake sec hs = Ok plain ->
     Unmarshal plain = Ok inp -> Unmarshal (p_Data inp) = Ok h ->
     rsa_ParsePublicKey (Pub h) = Ok pub -> rsa_Encrypt sd pub m = Ok c -> rsa_Decrypt (Some cli) c = Ok m) ->
  told_index en cli out = Ok i -> prepared_from ss i cs -> zlen cs < 2 ^ 62 ->
  stream conn = frame_of hs ++ mjoin (map (fun c => frame_of (cp_body c)) cs) -> length chs = length cs ->
  forward_all ctx (UID ss) cs (g_w (w_world w0)) = (Ok tt, xw) ->
  let NS := gate_service ctx en sec now seed seed' in
  exists p st w1 w', init_pool = Some (Ok p) /\ NewReader None conn 8192 (fst (start p)) = Ok st /\
    Start (NS := NS) (Ok tt) (Ok tt) c1 c2 (set_reader st w0) = (Ok tt, w1) /\
    sent (w_conn w1) = sent (w_conn w0) ++ frame_of out /\
    readPacks (NS := NS) chs w1 = (Ok tt, w') /\ g_w (w_world w') = xw /\ pending (w_reader w') = [].
Proof.
  intros Hs Hw Hl Ha Hrsa Hi Hc Hb Hst Hlen Hf NS. destruct init_pool_ok as (p & E & Hpi).
  destruct (open_reader p conn 8192 E) as (st & b & En & Hr & Hp); [by exists 13|done|].
  pose proof (Auth_index _ _ _ _ _ _ _ _ _ _ _ Ha) as H1.
  destruct (Auth_reply en sec now seed seed' _ hs _ out ss s' cli Hrsa Ha) as (bytes & oup & sc & E1 & E2 & _ & _ & E3 & _ & E4).
  assert (i = CSIndex ss) as ->.
  { unfold told_index in Hi. rewrite E1 in Hi. cbn [mbind result_bind] in Hi. rewrite E2 in Hi. cbn [mbind result_bind] in Hi.
    rewrite E3 in Hi. cbn in Hi. congruence. }
  set (x1 := mkG (tail (g_choices (w_world w0))) s' (g_w (w_world w0))).
  destruct (Start_accepted (NS := NS) p ∅ b c1 c2 (set_reader st w0) hs (mjoin (map (fun c => frame_of (cp_body c)) cs)) out ss x1 x1)
    as (w1 & b1 & Es & _ & Hsent & Hs1 & Hx1 & Hr1 & Hp1); try done.
  - cbn [w_reader set_reader]. by rewrite Hp, Hst.
  - cbn. by rewrite Ha.
  - destruct (readPacks_deliver ctx en sec now seed seed' p ∅ cs E chs b1 _ w1 [] xw Hr1 Hs1 Hlen) as (w' & ss' & Erp & Hp' & Hx & _).
    + by rewrite app_nil_r.
    + eapply prepared_from_session; [| |exact Hc]; done.
    + change (0 <= CSIndex ss). lia.
    + change (CSIndex ss + zlen cs < 2 ^ 63). lia.
    + rewrite Hx1. exact Hf.
    + exists p, st, w1, w'. by repeat (split; [done|]).
Qed.

(** ** Witness: the handshake of [demo_auth], then two packets, in two chunks *)

#[local] Existing Instances flat_packet flat_packet_laws plain_crypto second_time flat_sc flat_sc_laws flat_cs flat_token gw_ops.

Lemma open_cipher_laws : CipherLaws open_cipher.
Proof. split. intros key block data out [= <-]. done. Qed.

Definition hw_packet (i obj : Z) (payload : list Z) : client_packet :=
  let pk := mkPacket 0 i true 6 5 obj (rev payload) 0 in
  let bytes := match Marshal pk with Ok bs => bs | _ => [] end in
  mkCp pk payload bytes bytes.
Definition hw_packets : list client_packet := [hw_packet 1 0 [10; 11; 12]; hw_packet 2 9 [20; 21]].
Definition hw_stream : list Z := frame_of demo_handshake ++ mjoin (map (fun c => frame_of (cp_body c)) hw_packets).
Definition hw_reply : list Z := [77; 0; 2; 0; 1; 1; 0; 0; 1; 107].

Definition hw_worker (st : rstate) : Worker open_cipher (gworld (list (Z * Z * list Z))) :=
  mkWorker (C := open_cipher) (mkWorkerConf 8192 1024 10 60 30 3) st (mkWconn [] []) None EmptyString 1 false
    (Some (DefaultSession (C := open_cipher))) false (mkG [None; None; Some 0%nat] newPool []) [].

Definition hw_service : NetService (C := open_cipher) (gworld (list (Z * Z * list Z))) :=
  gate_service (C := open_cipher) (Cp := reverser) (M := map_metadata) ∅ true demo_secrets (10 ^ 9) 0 0.

Lemma connection_delivers_witness :
  exists p st w1 w', init_pool = Some (Ok p) /\
    NewReader None [RData (take 17 hw_stream); RData (drop 17 hw_stream)] 8192 (fst (start p)) = Ok st /\
    Start (NS := hw_service) (Ok tt) (Ok tt) None None (hw_worker st) = (Ok tt, w1) /\ sent (w_conn w1) = frame_of hw_reply /\
    readPacks (NS := hw_service) [(Ok tt, None, None); (Ok tt, None, None)] w1 = (Ok tt, w') /\
    g_w (w_world w') = [((6, 100), [10; 11; 12]); ((6, 9), [20; 21])].
Proof.
  destruct (connection_delivers (C := open_cipher) (LC := open_cipher_laws) (M := map_metadata) (Cp := reverser) (CL := reverser_laws)
    ∅ true demo_secrets (10 ^ 9) 0 0 77 demo_handshake hw_reply demo_session (snd demo_auth) None None hw_packets
    [(Ok tt, None, None); (Ok tt, None, None)] [RData (take 17 hw_stream); RData (drop 17 hw_stream)]
    (hw_worker (mkR (mkMem empty_heap (mkPool [] [] 0 0 ∅)) (mkReader None 0 0 false) [])) 1
    [((6, 100), [10; 11; 12]); ((6, 9), [20; 21])]) as (p & st & w1 & w' & E & En & Es & Hse & Er & Hx & _).
  - reflexivity.
  - reflexivity.
  - vm_compute. split; [reflexivity|discriminate].
  - exact demo_auth_ok.
  - intros plain inp cs pub sd m c E1 E2 E3 Ep Ec.
    injection E1 as <-. injection E2 as <-. injection E3 as <-. injection Ep as <-. injection Ec as <-. reflexivity.
  - vm_compute. reflexivity.
  - vm_compute. repeat split; discriminate.
  - vm_compute. reflexivity.
  - vm_compute. reflexivity.
  - reflexivity.
  - vm_compute. reflexivity.
  - exists p, st, w1, w'. split; [exact E|]. split; [exact En|]. split; [exact Es|]. split; [exact Hse|].
    split; [exact Er|exact Hx].
Defined.
