(* ===== verification/WorkerRun.v ===== *)
(** The goroutines of a connection: [Run], [Push], the read, write and tick loops
    and [Stop] of src/pkg/net/internal/worker.go.

    [Run] starts four goroutines in an errgroup: the stop watcher, the writer
    ([writePackLoop]), the reader ([readPackLoop]) and the ticker
    ([tickStopSign]); the first error cancels their context.  [Push] is called by
    any goroutine.  [Server.work] calls [Stop] when [Run] has returned.  Each
    step below is one of the points where they block or act on shared state;
    network results, the stop trigger and timers are the environment. *)
From S2P Require Import Prelude BufReader Session Codec.

Section run.
Context `{C : Cipher}.

(** The session (for encryption), the capacity of the reply channel and the
    write filter ([middleware] around [writeNext]). *)
Context (ss : session) (ReplyChanSize : nat) (filter : list Z -> result (list Z)).

Record run := mkRun {
  replyChan : list (list Z);       (** queued packets *)
  reply_closed : bool;
  pending : list (list Z);         (** pushers between the stopping check and the send *)
  stopTriggered : bool;
  isStopping : bool;               (** [IsStopping()]/[Stopping()], set by the stopper *)
  ctx_done : bool;                 (** the errgroup's context *)
  watch_done : bool;
  write_done : bool;               (** [writePackLoop] has returned; [replyChanCompleted] is closed *)
  read_done : bool;
  tick_done : bool;
  run_returned : bool;
  stopped : bool;                  (** [Stop]'s body has passed [close(w.replyChan)] *)
  write_failed : bool;             (** [writePack] has returned an error *)
  panicked : bool;                 (** a send on the closed channel *)
  conn : wconn;
  pushed : list (list Z);          (** history: packets queued *)
  taken : list (list Z);           (** history: packets the writer has sent *)
}.

(** [Push] up to the send: refused while stopping and for an empty packet. *)
Definition Push_check (out : list Z) (t : run) : result run :=
  if isStopping t then Err (ENew "worker is stopping" [])
  else if (length out <=? 0)%nat then Err (ENew "push msg len <= 0" [])
  else Ok (mkRun (replyChan t) (reply_closed t) (pending t ++ [out]) (stopTriggered t) (isStopping t) (ctx_done t)
         (watch_done t) (write_done t) (read_done t) (tick_done t) (run_returned t) (stopped t) (write_failed t)
         (panicked t) (conn t) (pushed t) (taken t)).

(** [w.replyChan <- out] by the pusher at position [i]. *)
Definition Push_send (i : nat) (out : list Z) (t : run) : run :=
  mkRun (replyChan t ++ [out]) (reply_closed t) (delete i (pending t)) (stopTriggered t) (isStopping t) (ctx_done t)
    (watch_done t) (write_done t) (read_done t) (tick_done t) (run_returned t) (stopped t) (write_failed t)
    (panicked t) (conn t) (pushed t ++ [out]) (taken t).

Definition Push_panic (i : nat) (t : run) : run :=
  mkRun (replyChan t) (reply_closed t) (delete i (pending t)) (stopTriggered t) (isStopping t) (ctx_done t)
    (watch_done t) (write_done t) (read_done t) (tick_done t) (run_returned t) (stopped t) (write_failed t)
    true (conn t) (pushed t) (taken t).

(** [writePack]: filter, then [write]. *)
Definition writePack (pack : list Z) : go wconn unit := fun c =>
  match filter pack with
  | Ok out => worker_write ss out c
  | Err e => (Err e, c)
  | Panic q => (Panic q, c)
  end.

(** One turn of [writePackLoop] on the packet at the head of the channel; an
    error ends the loop and cancels the context. *)
Definition write_turn (pack : list Z) (rest : list (list Z)) (t : run) : run :=
  match writePack pack (conn t) with
  | (Ok _, c) =>
      mkRun rest (reply_closed t) (pending t) (stopTriggered t) (isStopping t) (ctx_done t) (watch_done t) (write_done t)
        (read_done t) (tick_done t) (run_returned t) (stopped t) (write_failed t) (panicked t) c (pushed t)
        (taken t ++ [pack])
  | (_, c) =>
      mkRun rest (reply_closed t) (pending t) (stopTriggered t) (isStopping t) true (watch_done t) true
        (read_done t) (tick_done t) (run_returned t) (stopped t) true (panicked t) c (pushed t) (taken t)
  end.

(** The channel is closed and drained: the loop returns nil. *)
Definition write_exit (t : run) : run :=
  mkRun (replyChan t) (reply_closed t) (pending t) (stopTriggered t) (isStopping t) (ctx_done t) (watch_done t) true
    (read_done t) (tick_done t) (run_returned t) (stopped t) (write_failed t) (panicked t) (conn t) (pushed t) (taken t).

(** [readPackLoop] ends: with an error it cancels the context, on [Stopping] it
    returns nil. *)
Definition read_exit (err : bool) (t : run) : run :=
  mkRun (replyChan t) (reply_closed t) (pending t) (stopTriggered t) (isStopping t) (ctx_done t || err) (watch_done t)
    (write_done t) true (tick_done t) (run_returned t) (stopped t) (write_failed t) (panicked t) (conn t) (pushed t) (taken t).

(** [tickStopSign] ends: cancelled, or the countdown has expired and it triggers
    the stop; it always returns an error. *)
Definition tick_exit (expired : bool) (t : run) : run :=
  mkRun (replyChan t) (reply_closed t) (pending t) (stopTriggered t || expired) (isStopping t) true (watch_done t)
    (write_done t) (read_done t) true (run_returned t) (stopped t) (write_failed t) (panicked t) (conn t) (pushed t) (taken t).

Definition watch_exit (t : run) : run :=
  mkRun (replyChan t) (reply_closed t) (pending t) (stopTriggered t) (isStopping t) true true
    (write_done t) (read_done t) (tick_done t) (run_returned t) (stopped t) (write_failed t) (panicked t) (conn t) (pushed t) (taken t).

(** [eg.Wait()] returns. *)
Definition run_return (t : run) : run :=
  mkRun (replyChan t) (reply_closed t) (pending t) (stopTriggered t) (isStopping t) (ctx_done t) (watch_done t)
    (write_done t) (read_done t) (tick_done t) true (stopped t) (write_failed t) (panicked t) (conn t) (pushed t) (taken t).

(** [Stop]: [close(w.replyChan)]; the writer has returned by then. *)
Definition Stop_close (t : run) : run :=
  mkRun (replyChan t) true (pending t) (stopTriggered t) (isStopping t) (ctx_done t) (watch_done t)
    (write_done t) (read_done t) (tick_done t) (run_returned t) true (write_failed t) (panicked t) (conn t) (pushed t) (taken t).

Definition set_env (trig stopping ctx : bool) (t : run) : run :=
  mkRun (replyChan t) (reply_closed t) (pending t) (stopTriggered t || trig) (isStopping t || stopping) (ctx_done t || ctx)
    (watch_done t) (write_done t) (read_done t) (tick_done t) (run_returned t) (stopped t) (write_failed t) (panicked t)
    (conn t) (pushed t) (taken t).

Inductive run_step : run -> run -> Prop :=
  | RPushCheck out t t' : Push_check out t = Ok t' -> run_step t t'
  | RPushSend i out t : pending t !! i = Some out -> reply_closed t = false ->
      (length (replyChan t) < ReplyChanSize)%nat -> run_step t (Push_send i out t)
  | RPushPanic i out t : pending t !! i = Some out -> reply_closed t = true -> run_step t (Push_panic i t)
  | RWrite pack rest t : write_done t = false -> replyChan t = pack :: rest -> run_step t (write_turn pack rest t)
  | RWriteExit t : write_done t = false -> replyChan t = [] -> reply_closed t = true -> run_step t (write_exit t)
  | RRead t : read_done t = false -> run_step t t
  | RReadErr t : read_done t = false -> run_step t (read_exit true t)
  | RReadCtx t : read_done t = false -> ctx_done t = true -> run_step t (read_exit true t)
  | RReadStop t : read_done t = false -> isStopping t = true -> run_step t (read_exit false t)
  | RTickCtx t : tick_done t = false -> ctx_done t = true -> run_step t (tick_exit false t)
  | RTickExpired t : tick_done t = false -> run_step t (tick_exit true t)
  | RWatch t : watch_done t = false -> stopTriggered t || ctx_done t = true -> run_step t (watch_exit t)
  | RReturn t : watch_done t = true -> write_done t = true -> read_done t = true -> tick_done t = true ->
      run_step t (run_return t)
  | RStop t : run_returned t = true -> stopped t = false -> run_step t (Stop_close t)
  | REnv trig stopping ctx t : run_step t (set_env trig stopping ctx t).

Definition run_init (t : run) : Prop :=
  replyChan t = [] /\ reply_closed t = false /\ write_done t = false /\ run_returned t = false /\ stopped t = false /\
  write_failed t = false /\ panicked t = false /\ pushed t = [] /\ taken t = [] /\ sent (conn t) = [].

(** The bytes the packets sent make. *)
Definition frame_bytes (packs : list (list Z)) (bs : list Z) : Prop :=
  exists bodies, Forall2 (fun pack body => exists out, filter pack = Ok out /\ encrypt ss out = Ok body) packs bodies /\
    bs = mjoin (map frame_of bodies).

Record run_inv (t : run) : Prop := {
  rn_fifo : write_done t = false -> pushed t = taken t ++ replyChan t;
  rn_prefix : taken t `prefix_of` pushed t;
  rn_bytes : exists bs part, sent (conn t) = bs ++ part /\ frame_bytes (taken t) bs /\
    (write_failed t = false -> part = []);
  rn_cap : (length (replyChan t) <= ReplyChanSize)%nat;
  rn_write : write_done t = true -> write_failed t = true;
  rn_fail : write_failed t = true -> write_done t = true;
  rn_return : run_returned t = true -> write_done t = true;
  rn_stop : stopped t = true -> run_returned t = true;
  rn_closed : reply_closed t = stopped t;
  rn_panic : panicked t = true -> stopped t = true;
}.

Lemma frame_bytes_snoc packs bs pack out body : frame_bytes packs bs -> filter pack = Ok out ->
  encrypt ss out = Ok body -> frame_bytes (packs ++ [pack]) (bs ++ frame_of body).
Proof.
  intros (bodies & HF & ->) Hf He. exists (bodies ++ [body]). split.
  - apply Forall2_app; [done|]. constructor; [eauto|constructor].
  - rewrite map_app, join_app. cbn. by rewrite app_nil_r.
Qed.

Lemma worker_write_ok out c c' : worker_write ss out c = (Ok tt, c') ->
  exists body, encrypt ss out = Ok body /\ sent c' = sent c ++ frame_of body.
Proof.
  cbv [worker_write lift mbind go_bind wrapping]. destruct (encrypt ss out) as [body|e|q]; try discriminate.
  unfold conn_Write. destruct (wresults c) as [|[[n e]|] rs]; cbn [map_err]; try discriminate; intros [= <-]; by exists body.
Qed.

Lemma worker_write_fail out c r c' : worker_write ss out c = (r, c') -> r <> Ok tt ->
  exists part, sent c' = sent c ++ part.
Proof.
  cbv [worker_write lift mbind go_bind wrapping].
  destruct (encrypt ss out) as [body|e|q]; [|intros [= <- <-]; exists []; by rewrite app_nil_r..].
  unfold conn_Write. destruct (wresults c) as [|[[n e]|] rs]; cbn [map_err]; intros [= <- <-]; try done. by eexists.
Qed.

Lemma run_init_inv t : run_init t -> run_inv t.
Proof.
  intros (E1 & E2 & E3 & E4 & E5 & E6 & E7 & E8 & E9 & E10).
  split; rewrite ?E1, ?E2, ?E3, ?E4, ?E5, ?E6, ?E7, ?E8, ?E9, ?E10; try done; [|cbn; lia].
  exists [], []. split; [done|]. split; [|done]. exists []. by split.
Qed.

Lemma write_turn_inv pack rest t : write_done t = false -> replyChan t = pack :: rest -> run_inv t ->
  run_inv (write_turn pack rest t).
Proof.
  intros Hw Hc H. pose proof (rn_fifo _ H Hw) as Hf. pose proof (rn_cap _ H) as Hcap. rewrite Hc in *. cbn [length] in Hcap.
  destruct (rn_bytes _ H) as (bs & part & Hs & Hb & Hp).
  assert (write_failed t = false) as Hnf.
  { destruct (write_failed t) eqn:E; [|done]. by rewrite (rn_fail _ H E) in Hw. }
  rewrite (Hp Hnf), app_nil_r in Hs.
  unfold write_turn, writePack. destruct (filter pack) as [out|e|q] eqn:Ef.
  2,3: split; cbn; try apply H; try done; try lia; exists bs, []; by rewrite app_nil_r.
  destruct (worker_write ss out (conn t)) as [r c] eqn:E.
  destruct r as [[]|e|q].
  - destruct (worker_write_ok _ _ _ E) as (body & He & Hs2). split; cbn; try apply H; try lia.
    + intros _. by rewrite Hf, <- app_assoc.
    + rewrite Hf. exists rest. by rewrite <- app_assoc.
    + exists (bs ++ frame_of body), []. rewrite app_nil_r, Hs2, Hs. repeat split. by eapply frame_bytes_snoc.
  - destruct (worker_write_fail _ _ _ _ E ltac:(done)) as [part' Hs2].
    split; cbn; try apply H; try done; try lia. exists bs, part'. by rewrite Hs2, Hs.
  - destruct (worker_write_fail _ _ _ _ E ltac:(done)) as [part' Hs2].
    split; cbn; try apply H; try done; try lia. exists bs, part'. by rewrite Hs2, Hs.
Qed.

Lemma run_step_inv t t' : run_step t t' -> run_inv t -> run_inv t'.
Proof.
  intros Hs H.
  destruct Hs as [out t t' E|i out t Hi Hc Hl|i out t Hi Hc|pack rest t Hw Hc|t Hw He Hc|t Hr|t Hr|t Hr Hx|t Hr Hx
    |t Ht Hx|t Ht|t Hw Hx|t Ha Hb Hc Hd|t Hr Hs|b1 b2 b3 t].
  - unfold Push_check in E. destruct (isStopping t); [discriminate|]. destruct (length out <=? 0)%nat; [discriminate|].
    injection E as <-. split; apply H.
  - split; cbn; try apply H.
    + intros Hw. by rewrite (rn_fifo _ H Hw), app_assoc.
    + apply prefix_app_r, H.
    + rewrite length_app. cbn. lia.
  - split; cbn; try apply H. intros _. by rewrite <- (rn_closed _ H).
  - by apply write_turn_inv.
  - split; cbn; try apply H; try done. intros _. apply (rn_write _ H), (rn_return _ H), (rn_stop _ H).
    by rewrite <- (rn_closed _ H).
  - done.
  - split; apply H.
  - split; apply H.
  - split; apply H.
  - split; apply H.
  - split; apply H.
  - split; apply H.
  - split; cbn; try apply H; done.
  - split; cbn; try apply H; done.
  - split; apply H.
Qed.

Lemma run_reachable_inv t : reachable run_init run_step t -> run_inv t.
Proof. apply reachable_inv; [apply run_init_inv|]. intros s s' _ HI Hs. by eapply run_step_inv. Qed.
End run.

(** C10: Packets pushed to a connection are written in order and whole: whatever
    the pushing goroutines, the loops and the stop do, the packets sent are a
    prefix of the packets queued, the bytes on the wire are exactly their frames
    (filtered, encrypted, length-prefixed) one after the other, never mixed, up
    to a part of a last frame whose write failed; and while the writer runs what
    is left of the queue is the rest, within the channel's capacity. *)
Theorem writes_in_order `{C : Cipher} ss size filter (t : run) :
  reachable run_init (run_step ss size filter) t ->
  taken t `prefix_of` pushed t /\
  (exists bs part, sent (conn t) = bs ++ part /\ frame_bytes ss filter (taken t) bs /\
     (write_failed t = false -> part = [])) /\
  (write_done t = false -> pushed t = taken t ++ replyChan t) /\ (length (replyChan t) <= size)%nat.
Proof. intros Hr. apply run_reachable_inv in Hr. repeat split; apply Hr. Qed.

(** A connection whose peer has gone can hang for ever: [Run] returns only
    after a write has failed. The reader's error, an expired countdown or a
    triggered stop cancel the context, but [writePackLoop] only watches its
    channel, which [Stop] closes, and [Stop] runs after [Run] has returned. So
    in every reachable state in which no write has failed, [Run] has not
    returned, the channel is open and [Stop] has not begun. *)
Theorem run_needs_failed_write `{C : Cipher} ss size filter (t : run) :
  reachable run_init (run_step ss size filter) t -> write_failed t = false ->
  run_returned t = false /\ reply_closed t = false /\ stopped t = false.
Proof.
  intros Hr Hw. apply run_reachable_inv in Hr.
  assert (run_returned t = false) as E1.
  { destruct (run_returned t) eqn:E; [|done]. pose proof (rn_write _ _ _ _ Hr (rn_return _ _ _ _ Hr E)). congruence. }
  assert (stopped t = false) as E2.
  { destruct (stopped t) eqn:E; [|done]. pose proof (rn_stop _ _ _ _ Hr E). congruence. }
  split; [done|]. split; [|done]. by rewrite (rn_closed _ _ _ _ Hr).
Qed.

(** The writer has returned and the queue is full. *)
Definition jammed (size : nat) (t : run) : Prop := write_done t = true /\ (size <= length (replyChan t))%nat.

Lemma jammed_step `{C : Cipher} ss size filter t t' : jammed size t -> run_step ss size filter t t' ->
  replyChan t' = replyChan t /\ pushed t' = pushed t /\ write_done t' = true /\
  (panicked t' = false -> panicked t = false /\ pending t `prefix_of` pending t').
Proof.
  intros [Hw Hl] Hs.
  destruct Hs as [out t t' E|i out t Hi Hc Hn| |pack rest t Hn|t Hn| | | | | | | | | |]; try (by repeat split); try congruence.
  - unfold Push_check in E. repeat case_match; simplify_eq. cbn. repeat split; try done. by apply prefix_app_r.
  - lia.
Qed.

Lemma jammed_run `{C : Cipher} ss size filter t t' : jammed size t -> rtc (run_step ss size filter) t t' ->
  replyChan t' = replyChan t /\ pushed t' = pushed t /\ write_done t' = true /\
  (panicked t' = false -> panicked t = false /\ pending t `prefix_of` pending t').
Proof.
  intros Hj Hr. induction Hr as [t|t u t' Hs Hr IH]; [by repeat split; destruct Hj|].
  destruct (jammed_step _ _ _ _ _ Hj Hs) as (E1 & E2 & E3 & E4).
  destruct IH as (F1 & F2 & F3 & F4); [split; [done|by rewrite E1; apply Hj]|].
  repeat split; try congruence; destruct (F4 ltac:(done)) as [Hp Hpre]; destruct (E4 Hp) as [? ?]; [done|by etrans].
Qed.

(** C18: A push can wait for ever: [Push] sends on a bounded channel that only
    the writer empties, and the writer returns at the first error. From then on,
    once the channel is full, nothing is queued any more and every pusher that
    has passed the check stays in its send, whatever the others do, as long as
    nobody panics; [Stop] does not release them: it closes the channel, and then
    each of them panics. No pusher panics before that. *)
Theorem push_blocks `{C : Cipher} ss size filter (t t' : run) :
  reachable run_init (run_step ss size filter) t -> write_done t = true -> (size <= length (replyChan t))%nat ->
  rtc (run_step ss size filter) t t' ->
  replyChan t' = replyChan t /\ pushed t' = pushed t /\
  (panicked t' = false -> pending t `prefix_of` pending t') /\ (panicked t' = true -> stopped t' = true) /\
  (stopped t' = true -> forall i out, pending t' !! i = Some out ->
     run_step ss size filter t' (Push_panic i t') /\ panicked (Push_panic i t') = true).
Proof.
  intros Hr Hw Hl Hrt. destruct (jammed_run ss size filter t t' (conj Hw Hl) Hrt) as (E1 & E2 & _ & E4).
  pose proof (run_reachable_inv _ _ _ _ (reachable_rtc _ _ _ _ Hr Hrt)) as Hr'. do 2 (split; [done|]). split; [by intros H; apply E4|]. split; [apply Hr'|].
  intros Hs i out Hi. split; [|done]. eapply RPushPanic; [exact Hi|]. by rewrite (rn_closed _ _ _ _ Hr').
Qed.

(** ** The end of [Run] *)

(** A step of the goroutines [Run] waits for: no pusher moves, and not [Stop]. *)
Definition quiet_step `{C : Cipher} ss size filter (t t' : run) : Prop :=
  run_step ss size filter t t' /\ stopped t' = stopped t /\ pending t' = pending t.

Lemma failed_ctx `{C : Cipher} ss size filter t : reachable run_init (run_step ss size filter) t ->
  write_failed t = true -> ctx_done t = true.
Proof.
  revert t. apply (reachable_inv _ _ (fun t => write_failed t = true -> ctx_done t = true)).
  - intros t (_ & _ & _ & _ & _ & E & _). congruence.
  - intros t t' _ IH Hs. destruct Hs as [out t t' E| | |pack rest t Hn| | | | | | | | | | |]; cbn; try done.
    1: unfold Push_check in E; by repeat case_match; simplify_eq.
    1: unfold write_turn; by repeat case_match.
    all: intros Hf; by rewrite (IH Hf).
Qed.

(** Once the writer has returned and the context is cancelled, the other loops
    have nothing to wait for (the reader once its read has ended). *)
Lemma run_can_return `{C : Cipher} ss size filter t : write_done t = true -> ctx_done t = true ->
  exists t', rtc (quiet_step ss size filter) t t' /\ run_returned t' = true.
Proof.
  intros Hw Hc.
  assert (exists t1, rtc (quiet_step ss size filter) t t1 /\ write_done t1 = true /\ ctx_done t1 = true /\ read_done t1 = true)
    as (t1 & R1 & W1 & C1 & D1).
  { destruct (read_done t) eqn:E; [by exists t; split; [apply rtc_refl|]|].
    exists (read_exit true t). split; [apply rtc_once; split; [by apply RReadCtx|done]|]. cbn. by rewrite Hc. }
  assert (exists t2, rtc (quiet_step ss size filter) t1 t2 /\ write_done t2 = true /\ ctx_done t2 = true /\ read_done t2 = true /\
    tick_done t2 = true) as (t2 & R2 & W2 & C2 & D2 & K2).
  { destruct (tick_done t1) eqn:E; [by exists t1; split; [apply rtc_refl|]|].
    exists (tick_exit false t1). split; [apply rtc_once; split; [by apply RTickCtx|done]|done]. }
  assert (exists t3, rtc (quiet_step ss size filter) t2 t3 /\ write_done t3 = true /\ watch_done t3 = true /\ read_done t3 = true /\
    tick_done t3 = true) as (t3 & R3 & W3 & C3 & D3 & K3).
  { destruct (watch_done t2) eqn:E; [by exists t2; split; [apply rtc_refl|]|].
    exists (watch_exit t2). split; [apply rtc_once; split; [apply RWatch; [done|by rewrite C2; apply orb_true_r]|done]|done]. }
  exists (run_return t3). split; [|done]. etrans; [exact R1|]. etrans; [exact R2|]. etrans; [exact R3|].
  apply rtc_once. split; [by apply RReturn|done].
Qed.

(** Extends the run that ends in the state of [H] by the step [R]. *)
Ltac run_to H R H' :=
  match type of H with
  | reachable ?i ?st ?t =>
      let t' := open_constr:(_) in
      assert (reachable i st t') as H'
        by (refine (reach_step i st t _ H _); eapply R; first [reflexivity | eassumption])
  end.

(** *** Witnesses: a packet is pushed and written, then the peer goes away *)

Definition demo_ss : session (C := tag_cipher) := tag_session.
Definition pass (p : list Z) : result (list Z) := Ok p.

Definition run0 : run := mkRun [] false [] false false false false false false false false false false false
  (mkWconn [] []) [] [].
Definition run1 : run := mkRun [] false [] false false false false false false false false false false false
  (mkWconn (frame_of [42; 65]) []) [[65]] [[65]].
(** The reader, the ticker and the watcher have returned. *)
Definition run2 : run := mkRun [] false [] false false true true false true true false false false false
  (mkWconn (frame_of [42; 65]) []) [[65]] [[65]].

Lemma demo_run1 : reachable run_init (run_step (C := tag_cipher) demo_ss 4 pass) run1.
Proof.
  assert (reachable run_init (run_step (C := tag_cipher) demo_ss 4 pass) run0) as H0
    by (apply reach_init; repeat split).
  assert ((0 < 4)%nat) as Hn by lia.
  run_to H0 (RPushCheck (C := tag_cipher) demo_ss 4 pass [65]) H1.
  run_to H1 (RPushSend (C := tag_cipher) demo_ss 4 pass 0 [65]) H2.
  run_to H2 (RWrite (C := tag_cipher) demo_ss 4 pass [65] []) H3. exact H3.
Qed.

Lemma demo_run2 : reachable run_init (run_step (C := tag_cipher) demo_ss 4 pass) run2.
Proof.
  pose proof demo_run1 as H0.
  run_to H0 (RReadErr (C := tag_cipher) demo_ss 4 pass) H1.
  run_to H1 (RTickCtx (C := tag_cipher) demo_ss 4 pass) H2.
  run_to H2 (RWatch (C := tag_cipher) demo_ss 4 pass) H3. exact H3.
Qed.

Lemma writes_in_order_witness : taken run1 `prefix_of` pushed run1 /\ taken run1 = [[65]].
Proof. split; [exact (proj1 (writes_in_order (C := tag_cipher) demo_ss 4 pass run1 demo_run1))|reflexivity]. Defined.

Lemma run_needs_failed_write_witness :
  read_done run2 = true /\ tick_done run2 = true /\ watch_done run2 = true /\ run_returned run2 = false.
Proof.
  do 3 (split; [reflexivity|]).
  exact (proj1 (run_needs_failed_write (C := tag_cipher) demo_ss 4 pass run2 demo_run2 eq_refl)).
Defined.

(** One packet fails to be written, the next fills the channel, the third waits. *)
Definition run3 : run := mkRun [[66]] false [[67]] false false true false true false false false false true false
  (mkWconn [] []) [[65]; [66]] [].
(** The peer's end of the connection is noticed, [Run] returns and [Stop] closes the channel. *)
Definition run4 : run := mkRun [[66]] true [[67]] false false true true true true true true true true false
  (mkWconn [] []) [[65]; [66]] [].

Lemma demo_run3 : reachable run_init (run_step (C := tag_cipher) demo_ss 1 pass) run3.
Proof.
  pose (r0 := mkRun [] false [] false false false false false false false false false false false
    (mkWconn [] [Some (0, EOF)]) [] []).
  assert (reachable run_init (run_step (C := tag_cipher) demo_ss 1 pass) r0) as H0
    by (apply reach_init; repeat split).
  assert ((0 < 1)%nat) as Hn by lia.
  run_to H0 (RPushCheck (C := tag_cipher) demo_ss 1 pass [65]) H1.
  run_to H1 (RPushCheck (C := tag_cipher) demo_ss 1 pass [66]) H2.
  run_to H2 (RPushCheck (C := tag_cipher) demo_ss 1 pass [67]) H3.
  run_to H3 (RPushSend (C := tag_cipher) demo_ss 1 pass 0 [65]) H4.
  run_to H4 (RWrite (C := tag_cipher) demo_ss 1 pass [65] []) H5.
  run_to H5 (RPushSend (C := tag_cipher) demo_ss 1 pass 0 [66]) H6. exact H6.
Qed.

Lemma demo_run4 : rtc (run_step (C := tag_cipher) demo_ss 1 pass) run3 run4.
Proof.
  eapply rtc_l; [by apply RReadErr|]. eapply rtc_l; [by apply RTickCtx|]. eapply rtc_l; [by apply RWatch|].
  eapply rtc_l; [by apply RReturn|]. eapply rtc_l; [by apply RStop|]. apply rtc_refl.
Qed.

Lemma push_blocks_witness : pending run3 `prefix_of` pending run4 /\
  exists t, run_step (C := tag_cipher) demo_ss 1 pass run4 t /\ panicked t = true.
Proof.
  destruct (push_blocks (C := tag_cipher) demo_ss 1 pass run3 run4 demo_run3 eq_refl (le_n 1) demo_run4)
    as (_ & _ & Hp & _ & Hs).
  split; [by apply Hp|]. exists (Push_panic 0 run4). by apply (Hs eq_refl 0%nat [67]).
Defined.
