(* ===== verification/Outbound.v ===== *)
(** The way out, end to end: the worker's goroutines (WorkerRun.v), the wire
    (Codec.v) and the client's reads of src/pkg/net/tcp/client/client.go.

    What [Push] queues is written by the worker's writer; the client reads
    frames from the bytes that were sent, in whatever chunks they arrive, and
    looks at each packet before it reads the next. *)
From S2P Require Import Prelude Memory BufPool BufReader Session Codec WorkerRun.

Section outbound.
Context `{C : Cipher}.

(** The client's reads, each packet copied out before the next read. *)
Fixpoint client_frames (chs : list (option nat * option nat)) : go rstate (list (list Z)) :=
  match chs with
  | [] => mret []
  | (c1, c2) :: chs => s ← client_read c1 c2; d ← view s; ds ← client_frames chs; mret (d :: ds)
  end.

Lemma client_frames_ok p F chs bodies st b rest : init_pool = Some (Ok p) ->
  Forall (fun body => zlen body < 2 ^ 31) bodies -> length chs = length bodies ->
  gate_reader p F st b -> BufReader.pending st = mjoin (map frame_of bodies) ++ rest ->
  exists st' b', client_frames chs st = (Ok bodies, st') /\ gate_reader p F st' b' /\ BufReader.pending st' = rest.
Proof.
  intros E HF. revert chs st b. induction HF as [|body bodies Hl HF IH]; intros [|[c1 c2] chs] st b Hlen H Hp; try done.
  - by exists st, b.
  - cbn [map mjoin list_join] in Hp. rewrite <- app_assoc in Hp.
    destruct (client_read_frame p E F st b c1 c2 body _ H Hp Hl) as (s & st1 & b1 & E1 & Hb & H1 & Hp1 & _).
    destruct (IH chs st1 b1) as (st2 & b2 & E2 & H2 & Hp2); [by injection Hlen|done|done|].
    exists st2, b2. split; [|done]. cbn [client_frames]. cbv [mbind go_bind mret go_ret view gets].
    by rewrite E1, Hb, E2.
Qed.

(** What is on the wire decrypts to what the filter made of the packets sent. *)
Lemma bodies_decrypt {L : CipherLaws C} ss (filter : list Z -> result (list Z)) packs bodies :
  Forall2 (fun pack body => exists out, filter pack = Ok out /\ encrypt ss out = Ok body) packs bodies ->
  Forall2 (fun pack body => exists out, filter pack = Ok out /\ decrypt ss body = Ok out) packs bodies.
Proof.
  intros HF. eapply Forall2_impl; [exact HF|]. intros pack body (out & Hf & He).
  exists out. split; [exact Hf|by eapply decrypt_encrypt].
Qed.

Lemma bodies_short ss (filter : list Z -> result (list Z)) packs bodies :
  Forall2 (fun pack body => exists out, filter pack = Ok out /\ encrypt ss out = Ok body) packs bodies ->
  (forall pack out body, pack ∈ packs -> filter pack = Ok out -> encrypt ss out = Ok body -> zlen body < 2 ^ 31) ->
  Forall (fun body => zlen body < 2 ^ 31) bodies.
Proof.
  intros HF Hs. apply Forall_lookup. intros i body Hb. destruct (Forall2_lookup_r _ _ _ _ _ HF Hb) as (pack & Hp & out & Hf & He).
  eapply Hs; [by eapply list_elem_of_lookup_2|done|done].
Qed.
End outbound.

(** What a client reads from the bytes of a worker. *)
Lemma client_reads_taken `{C : Cipher} {L : CipherLaws C} ss size filter (t : run) (cn : list revent)
    (chs : list (option nat * option nat)) :
  run_inv ss size filter t ->
  (forall pack out body, pack ∈ taken t -> filter pack = Ok out -> encrypt ss out = Ok body -> zlen body < 2 ^ 31) ->
  stream cn = sent (WorkerRun.conn t) -> length chs = length (taken t) ->
  exists p st bodies st', init_pool = Some (Ok p) /\ NewReader None cn 4096 (fst (start p)) = Ok st /\
    client_frames chs st = (Ok bodies, st') /\
    Forall2 (fun pack body => exists out, filter pack = Ok out /\ decrypt ss body = Ok out) (taken t) bodies.
Proof.
  intros Hr Hs Hc Hlen. destruct (rn_bytes _ _ _ _ Hr) as (bs & part & Es & (bodies & HF & ->) & _).
  destruct init_pool_ok as (p & E & Hi).
  destruct (open_reader p cn 4096 E) as (st & b & En & Hg & Hp); [by exists 12|done|].
  pose proof (bodies_short ss filter _ _ HF Hs) as Hb.
  destruct (client_frames_ok p ∅ chs bodies st b part E Hb) as (st' & b' & Er & _).
  - rewrite Hlen. by eapply Forall2_length.
  - done.
  - by rewrite Hp, Hc, Es.
  - exists p, st, bodies, st'. do 3 (split; [done|]). by apply bodies_decrypt.
Qed.
