(* ===== verification/Server.v ===== *)
(** The TCP server: src/pkg/net/tcp/server/server.go.

    The worker's own operations enter as their outcomes (see Worker.v and
    WorkerRun.v); middleware chaining is kratos code, and the socket calls
    are outcomes too. *)
From S2P Require Import Prelude Buckets Context Conf.

(** ** Construction *)

(** [Mw] is a middleware; [Chain] and [recovery] are kratos'. *)
Class Middleware := { Mw : Type; Chain : list Mw -> Mw; recovery : Mw }.

Section server.
Context `{MW : Middleware}.

(** [WrapFunc]: called with color and user id. *)
Definition WrapFunc := string -> Z -> result unit.

Record Server := mkServer {
  sv_conf : Config;
  sv_logger : nat;
  referer : string;
  sv_buckets : option Buckets;
  sv_workerSize : Z;
  readFilter : option Mw;
  writeFilter : option Mw;
  afterConnectFunc : option WrapFunc;
  afterDisconnectFunc : option WrapFunc;
}.

Definition Option := Server -> Server.

Definition set_bind (b : string) (c : Config) : Config :=
  mkConfig (c_Env c)
    (mkServerConf (s_WorkerSize (c_Server c)) b (WriteBufSize (c_Server c)) (ReadBufSize (c_Server c))
       (KeepAlive (c_Server c)) (s_StopTimeout (c_Server c)))
    (c_Worker c) (c_Bucket c).

Definition Bind (bind : string) : Option := fun s =>
  mkServer (set_bind bind (sv_conf s)) (sv_logger s) (referer s) (sv_buckets s) (sv_workerSize s) (readFilter s)
    (writeFilter s) (afterConnectFunc s) (afterDisconnectFunc s).
Definition Referer (r : string) : Option := fun s =>
  mkServer (sv_conf s) (sv_logger s) r (sv_buckets s) (sv_workerSize s) (readFilter s) (writeFilter s)
    (afterConnectFunc s) (afterDisconnectFunc s).
Definition Logger (l : nat) : Option := fun s =>
  mkServer (sv_conf s) l (referer s) (sv_buckets s) (sv_workerSize s) (readFilter s) (writeFilter s)
    (afterConnectFunc s) (afterDisconnectFunc s).
Definition ReadFilter (m : Mw) : Option := fun s =>
  mkServer (sv_conf s) (sv_logger s) (referer s) (sv_buckets s) (sv_workerSize s)
    (Some (match readFilter s with None => m | Some f => Chain [f; m] end)) (writeFilter s)
    (afterConnectFunc s) (afterDisconnectFunc s).
Definition WriteFilter (m : Mw) : Option := fun s =>
  mkServer (sv_conf s) (sv_logger s) (referer s) (sv_buckets s) (sv_workerSize s) (readFilter s)
    (Some (match writeFilter s with None => m | Some f => Chain [f; m] end))
    (afterConnectFunc s) (afterDisconnectFunc s).
Definition AfterConnectFunc (f : WrapFunc) : Option := fun s =>
  mkServer (sv_conf s) (sv_logger s) (referer s) (sv_buckets s) (sv_workerSize s) (readFilter s) (writeFilter s)
    (Some f) (afterDisconnectFunc s).
Definition AfterDisconnectFunc (f : WrapFunc) : Option := fun s =>
  mkServer (sv_conf s) (sv_logger s) (referer s) (sv_buckets s) (sv_workerSize s) (readFilter s) (writeFilter s)
    (afterConnectFunc s) (Some f).

(** [NewServer] on the configuration [conf.Init] made; it returns no error. *)
Definition NewServer (conf : Config) (opts : list Option) : result Server :=
  let s := mkServer conf 0 EmptyString None 0 (Some (Chain [recovery])) (Some (Chain [recovery])) None None in
  let s := foldl (fun s o => o s) s opts in
  b ← NewBuckets (BucketSize (c_Bucket (sv_conf s))) (WorkerSize (c_Bucket (sv_conf s)));
  Ok (mkServer (sv_conf s) (sv_logger s) (referer s) (Some b) (s_WorkerSize (c_Server (sv_conf s))) (readFilter s)
        (writeFilter s) (afterConnectFunc s) (afterDisconnectFunc s)).

(** ** Accepting *)

(** [idGen.Inc()] *)
Definition Inc (idGen : Z) : Z * Z := let v := uint64 (idGen + 1) in (v, v).

(** [accept]: [accepted] is the outcome of [AcceptTCP]; on success the id of the
    worker whose [serve] is started. *)
Definition accept (accepted : result unit) : go Z Z :=
  lift (map_err (fun e => EWrap e "accept failed" []) accepted) ;;
  ((fun idGen => let '(wid, g) := Inc idGen in (Ok wid, g)) : go Z Z).

(** The accept loops, by the outcomes of their calls: the ids handed out. *)
Fixpoint acceptLoop (outcomes : list (result unit)) (idGen : Z) : list Z :=
  match outcomes with
  | [] => []
  | o :: outcomes =>
      match accept o idGen with
      | (Ok wid, g) => wid :: acceptLoop outcomes g
      | (_, g) => acceptLoop outcomes g
      end
  end.

(** ** Serving a connection *)

(** What [work] does, in order. *)
Inductive sevent :=
  | SStart | SPut (old : option wref) | SConnect (uid : Z) | SRun | SDel | SStop | SDisconnect (uid : Z).

(** The registry and the trace. *)
Record sstate := mkS { s_reg : bstate; s_trace : list sevent }.

Definition on_reg {A} (f : go bstate A) : go sstate A := fun s =>
  let '(r, b) := f (s_reg s) in (r, mkS b (s_trace s)).
Definition trace (e : sevent) : go sstate unit := modify (fun s => mkS (s_reg s) (s_trace s ++ [e])).

(** [putBucket] *)
Definition putBucket (w : wref) : go sstate unit :=
  ow ← on_reg (Put w); trace (SPut ow).

(** The body of [work]: [started] is the outcome of [w.Start], after which the
    worker is [w]; [connected] that of [afterConnectFunc]; [ran] that of
    [w.Run]. *)
Definition work_body (cf : option WrapFunc) (color : string) (started : result unit) (w : wref) (ran : result unit)
    : go sstate unit :=
  trace SStart ;; lift started ;;
  putBucket w ;;
  deferring (fun s => snd ((trace SDel ;; on_reg (Del w)) s))
    ((match cf with Some f => trace (SConnect (w_uid w)) ;; lift (f color (w_uid w)) | None => mret tt end) ;;
     trace SRun ;; lift ran).

(** [work]: the deferred function wraps the error, stops the worker, and assigns
    [afterDisconnectFunc]'s result to it.  [w] and [color] are the worker as
    [w.Start] left it: when the handshake failed that is the default session's
    user 0 and empty color. *)
Definition work (cf df : option WrapFunc) (color : string) (st : Z) (started : result unit) (w : wref) (ran : result unit)
    : go sstate unit := fun s =>
  let '(r, s) := work_body cf color started w ran s in
  let r := map_err (fun e => EWrap e "uid=%d color=%s state=%d" [AZ (w_uid w); AS color; AZ st]) r in
  let '(_, s) := trace SStop s in
  match df with
  | None => (r, s)
  | Some f =>
      let '(_, s) := trace (SDisconnect (w_uid w)) s in
      match r, f color (w_uid w) with
      | Panic q, _ => (Panic q, s)
      | _, r' => (r', s)
      end
  end.

(** [serve]: the socket options first. *)
Definition serve (keepAlive readBuf writeBuf : result unit) (v1 v2 v3 : Z) (k : go sstate unit) : go sstate unit :=
  lift (map_err (fun e => EWrap e "SetKeepAlive failed v=%v" [AZ v1]) keepAlive) ;;
  lift (map_err (fun e => EWrap e "SetReadBuffer failed v=%d" [AZ v2]) readBuf) ;;
  lift (map_err (fun e => EWrap e "SetWriteBuffer failed v=%d" [AZ v3]) writeBuf) ;;
  k.

(** ** Operations on registered workers *)

Section push.
Context {W : Type}.

(** [Worker.Push], [TriggerStop], [WaitStopped] on the worker's world. *)
Context (wPush : wref -> list Z -> go W unit) (TriggerStop WaitStopped : wref -> W -> W).
Context (iter : gmap Z wref -> list wref).

Definition ErrPushEmpty : error := ENew "push msg len <= 0" [].

(** [w.Push] on a possibly nil worker. *)
Definition push_worker (w : option wref) (pack : list Z) : go W unit :=
  match w with Some w => wPush w pack | None => panics NilDeref end.

Definition Push (b : bstate) (uid : Z) (pack : list Z) : go W unit :=
  if (length pack <=? 0)%nat then throw ErrPushEmpty
  else
    w ← lift (GetByUID uid b);
    match w with
    | None => throw (ENew "worker not found. uid=%d" [AZ uid])
    | Some w => wPush w pack
    end.

(** One [err0 := w.Push(...)] of the two group operations: an error is kept as
    the result and the loop goes on; a panic ends it. *)
Definition push_keep (w : option wref) (pack : list Z) (err : option error) : go W (option error) := fun x =>
  match push_worker w pack x with
  | (Ok _, x) => (Ok err, x)
  | (Err e, x) => (Ok (Some (EWrap e " uid=%d" [AZ (match w with Some w => w_uid w | None => 0 end)])), x)
  | (Panic q, x) => (Panic q, x)
  end.

Fixpoint push_list (ws : list (option wref)) (pack : list Z) (err : option error) : go W (option error) :=
  match ws with
  | [] => mret err
  | w :: ws => err ← push_keep w pack err; push_list ws pack err
  end.

Definition of_err (err : option error) : go W unit := match err with Some e => throw e | None => mret tt end.

(** [envs]: what happens to the registry between the two lookups of each user. *)
Definition PushGroup (envs : list (bstate -> bstate)) (b : bstate) (uids : list Z) (pack : list Z) : go W unit :=
  if (length pack <=? 0)%nat then throw (ENew "push group msg len <= 0" [])
  else
    ws ← lift (GetByUIDs_env envs uids b);
    err ← push_list ws pack None;
    of_err err.

(** The walk's callback pushes and goes on; after a panic nothing more happens. *)
Definition push_visit (pack : list Z) (w : wref) (st : result (option error) * W) : bool * (result (option error) * W) :=
  (true, match st with (Ok err, x) => push_keep (Some w) pack err x | _ => st end).

Definition Broadcast (b : bstate) (pack : list Z) : go W unit :=
  if (length pack <=? 0)%nat then throw (ENew "broadcast msg len <= 0" [])
  else
    err ← ((fun x => Walk iter (push_visit pack) (bs b) (Ok None, x)) : go W (option error));
    of_err err.

Definition WIDList (b : bstate) : list Z :=
  Walk iter (fun w ids => (true, ids ++ [WID w])) (bs b) [].

Definition Disconnect (b : bstate) (key : Z) : go W unit :=
  w ← lift (Buckets.Worker (bs b) key);
  match w with
  | None => throw (ENew "worker not found" [])
  | Some w => modify (fun x => WaitStopped w (TriggerStop w x))
  end.

(** [stop]: trigger every worker, then wait for every worker. *)
Definition server_stop (b : bstate) (x : W) : W :=
  let x := Walk iter (fun w x => (true, TriggerStop w x)) (bs b) x in
  Walk iter (fun w x => (true, WaitStopped w x)) (bs b) x.

(** *** Facts *)

Lemma walk_loop_push pack ws st : walk_loop (push_visit pack) ws st =
  match st with (Ok err, x) => push_list (Some <$> ws) pack err x | _ => st end.
Proof.
  revert st. induction ws as [|w ws IH]; intros [[err|e|q] x]; cbn [walk_loop push_visit]; try done.
  - rewrite IH. cbn [fmap list_fmap push_list]. cbv [mbind go_bind].
    by destruct (push_keep (Some w) pack err x) as [[err'|e|q] x'].
  - by rewrite IH.
  - by rewrite IH.
Qed.

Lemma push_list_app ws ws' pack err x : push_list (ws ++ ws') pack err x =
  match push_list ws pack err x with
  | (Ok err', x') => push_list ws' pack err' x'
  | r => r
  end.
Proof.
  revert err x. induction ws as [|w ws IH]; intros err x; [done|]. cbn [app push_list]. cbv [mbind go_bind].
  destruct (push_keep w pack err x) as [[err'|e|q] x']; [apply IH|done|done].
Qed.

(** Walking the buckets pushes to the concatenation of their workers. *)
Lemma Walk_push pack b st : Walk iter (push_visit pack) b st =
  match st with (Ok err, x) => push_list (Some <$> concat (iter <$> buckets b)) pack err x | _ => st end.
Proof.
  unfold Walk. destruct b as [l n]. cbn [buckets]. revert st.
  induction l as [|m l IH]; intros [[err|e|q] x]; cbn [foldl]; try done.
  - rewrite IH. unfold walk, snapshot. rewrite walk_loop_push. cbn [fmap list_fmap concat].
    rewrite fmap_app, push_list_app. by destruct (push_list (Some <$> iter m) pack err x) as [[|?|?] ?].
  - rewrite IH. unfold walk, snapshot. by rewrite walk_loop_push.
  - rewrite IH. unfold walk, snapshot. by rewrite walk_loop_push.
Qed.

(** When no push panics, a group push tries every worker, in order. *)
Fixpoint pushes (ws : list wref) (pack : list Z) (x : W) : list (wref * result unit) * W :=
  match ws with
  | [] => ([], x)
  | w :: ws => let '(r, x) := wPush w pack x in let '(l, x) := pushes ws pack x in ((w, r) :: l, x)
  end.

(** The error left at the end: that of the last push that failed. *)
Definition last_error (l : list (wref * result unit)) (err : option error) : option error :=
  foldl (fun err '(w, r) => match r with Err e => Some (EWrap e " uid=%d" [AZ (w_uid w)]) | _ => err end) err l.

Hypothesis wPush_no_panic : forall w pack x q, fst (wPush w pack x) <> Panic q.

Lemma push_list_pushes ws pack err x :
  push_list (Some <$> ws) pack err x =
    (Ok (last_error (fst (pushes ws pack x)) err), snd (pushes ws pack x)).
Proof.
  revert err x. induction ws as [|w ws IH]; intros err x; [done|].
  cbn [fmap list_fmap push_list pushes]. cbv [mbind go_bind push_keep push_worker].
  pose proof (wPush_no_panic w pack x) as Hn. destruct (wPush w pack x) as [[[]|e|q] x1].
  - rewrite IH. by destruct (pushes ws pack x1).
  - rewrite IH. by destruct (pushes ws pack x1).
  - by destruct (Hn q).
Qed.

Lemma pushes_workers ws pack x : (fst (pushes ws pack x)).*1 = ws.
Proof.
  revert x. induction ws as [|w ws IH]; intros x; [done|]. cbn [pushes].
  destruct (wPush w pack x) as [r x1]. specialize (IH x1). destruct (pushes ws pack x1). cbn in *. by rewrite IH.
Qed.
End push.
End server.

(** *** Facts about [work] *)

Section work.
Context `{MW : Middleware}.

Lemma trace_ok e s : trace e s = (Ok tt, mkS (s_reg s) (s_trace s ++ [e])).
Proof. done. Qed.

(** [work_body] on a worker whose id is free: what it does and that the worker
    is gone from the registry at the end. *)
Lemma work_body_trace cf color started w ran s m :
  shards (s_reg s) m -> m.1 !! WID w = None ->
  exists r s', work_body cf color started w ran s = (r, s') /\
    match started with
    | Ok _ => shards (s_reg s') (m.1, delete (w_uid w) m.2) /\
        s_trace s' = s_trace s ++ [SStart; SPut None] ++
          (match cf with Some _ => [SConnect (w_uid w)] | None => [] end) ++
          (match cf with Some f => match f color (w_uid w) with Ok _ => [SRun] | _ => [] end | None => [SRun] end) ++
          [SDel] /\
        r = (match cf with Some f => match f color (w_uid w) with Ok _ => ran | r => r end | None => ran end)
    | _ => s_reg s' = s_reg s /\ s_trace s' = s_trace s ++ [SStart] /\ r = started
    end.
Proof.
  intros H Hf. unfold work_body. cbv [mbind go_bind]. rewrite trace_ok. cbv [lift].
  destruct started as [[]|e|q]; [|by eexists _, _..].
  cbv [putBucket mbind go_bind on_reg]. cbn [s_reg s_trace].
  destruct (Put_spec w (s_reg s) m H) as (b1 & E1 & H1). rewrite E1, Hf. cbn [s_reg s_trace]. rewrite trace_ok.
  cbv [deferring]. cbn [s_reg s_trace].
  destruct (Del_spec w b1 _ H1) as (b2 & E2 & H2).
  assert (shards b2 (m.1, delete (w_uid w) m.2)) as H2'.
  { revert H2. unfold spec_del, spec_put. cbn [fst snd]. rewrite lookup_insert_eq. unfold same_worker.
    rewrite Nat.eqb_refl. cbn [fst snd]. rewrite delete_insert_eq, delete_insert_eq. by rewrite delete_id. }
  destruct cf as [f|].
  - rewrite trace_ok. cbn [s_reg s_trace]. destruct (f color (w_uid w)) as [[]|e|q].
    + rewrite trace_ok. cbn [s_reg s_trace snd]. rewrite trace_ok. cbn [s_reg s_trace]. rewrite E2.
      eexists _, _. split; [reflexivity|]. cbn. rewrite <- !app_assoc. done.
    + cbn [s_reg s_trace snd]. rewrite trace_ok. cbn [s_reg s_trace]. rewrite E2.
      eexists _, _. split; [reflexivity|]. cbn. rewrite <- !app_assoc. done.
    + cbn [s_reg s_trace snd]. rewrite trace_ok. cbn [s_reg s_trace]. rewrite E2.
      eexists _, _. split; [reflexivity|]. cbn. rewrite <- !app_assoc. done.
  - cbv [mret go_ret]. rewrite trace_ok. cbn [s_reg s_trace snd]. rewrite trace_ok. cbn [s_reg s_trace]. rewrite E2.
    eexists _, _. split; [reflexivity|]. cbn. rewrite <- !app_assoc. done.
Qed.
End work.

(** ** Properties *)

Lemma acceptLoop_ids outcomes g : 0 <= g -> g + zlen outcomes < 2 ^ 64 ->
  forall wid, wid ∈ acceptLoop outcomes g -> g < wid <= g + zlen outcomes.
Proof.
  revert g. induction outcomes as [|o outcomes IH]; intros g Hg Hb wid Hin; [by apply not_elem_of_nil in Hin|].
  cbn [length] in *. cbn [acceptLoop] in Hin. unfold accept, Inc in Hin. cbv [mbind go_bind lift] in Hin.
  destruct o as [[]|e|q]; cbn [map_err] in Hin.
  - rewrite wrapU_id in Hin by lia. apply elem_of_cons in Hin as [->|Hin]; [lia|]. apply IH in Hin; lia.
  - apply IH in Hin; lia.
  - apply IH in Hin; lia.
Qed.

(** Worker ids are handed out once: however the accepts of the server's
    loops succeed and fail, the ids of the connections served are distinct, as
    long as fewer than [2^64] accepts were made; this is what the registry's
    lookups by user rest on. *)
Theorem accepted_ids_distinct (outcomes : list (result unit)) :
  zlen outcomes < 2 ^ 64 -> NoDup (acceptLoop outcomes 0).
Proof.
  assert (forall g, 0 <= g -> g + zlen outcomes < 2 ^ 64 -> NoDup (acceptLoop outcomes g)) as Hgen; [|intros; apply Hgen; lia].
  induction outcomes as [|o outcomes IH]; intros g Hg Hb; [constructor|]. cbn [length] in Hb.
  cbn [acceptLoop]. unfold accept, Inc. cbv [mbind go_bind lift].
  destruct o as [[]|e|q]; cbn [map_err]; [|apply IH; lia..]. rewrite wrapU_id by lia. constructor; [|apply IH; lia].
  intros Hin. apply acceptLoop_ids in Hin; lia.
Qed.

Lemma accepted_ids_distinct_witness : NoDup (acceptLoop [Ok tt; Err (ENew "reset" []); Ok tt] 0).
Proof. apply accepted_ids_distinct. reflexivity. Defined.

(** C19: A connection's way through [work]: for a worker with an unused id,
    whatever [Start], the connect hook and [Run] return, the steps are exactly:
    [Start]; if it succeeds, the entry into the registry, the connect hook,
    [Run] unless the hook failed, and the removal; then in any case one [Stop]
    and the disconnect hook. [work] ends with no worker registered under the id
    and every other worker still registered under its own. The user index is
    not left as it was: if [Start] succeeded the user's entry is gone, also one
    that led to another connection of the user; other users' entries are kept. *)
Theorem work_lifecycle `{MW : Middleware} cf df color st started (w : wref) ran (s : sstate) m :
  shards (s_reg s) m -> m.1 !! WID w = None ->
  let '(r, s') := work cf df color st started w ran s in
  (forall key, Buckets.Worker (bs (s_reg s')) key = Buckets.Worker (bs (s_reg s)) key) /\
  uidWidMap (s_reg s') =
    (match started with Ok _ => delete (w_uid w) (uidWidMap (s_reg s)) | _ => uidWidMap (s_reg s) end) /\
  s_trace s' = s_trace s ++ [SStart] ++
    (match started with
     | Ok _ => [SPut None] ++ (match cf with Some _ => [SConnect (w_uid w)] | None => [] end) ++
         (match cf with Some f => match f color (w_uid w) with Ok _ => [SRun] | _ => [] end | None => [SRun] end) ++ [SDel]
     | _ => []
     end) ++ [SStop] ++ (match df with Some _ => [SDisconnect (w_uid w)] | None => [] end).
Proof.
  intros H Hf. destruct (work_body_trace cf color started w ran s m H Hf) as (r & s1 & E & Hb).
  assert ((forall key, Buckets.Worker (bs (s_reg s1)) key = Buckets.Worker (bs (s_reg s)) key) /\
    uidWidMap (s_reg s1) = (match started with Ok _ => delete (w_uid w) (uidWidMap (s_reg s)) | _ => uidWidMap (s_reg s) end) /\
    exists mid, s_trace s1 = s_trace s ++ [SStart] ++ mid /\ mid = match started with
     | Ok _ => [SPut None] ++ (match cf with Some _ => [SConnect (w_uid w)] | None => [] end) ++
         (match cf with Some f => match f color (w_uid w) with Ok _ => [SRun] | _ => [] end | None => [SRun] end) ++ [SDel]
     | _ => [] end) as (Hreg & Huid & mid & Em & Hmid).
  { destruct started as [[]|e|q]; [|by destruct Hb as (-> & -> & _); (split; [done|]); (split; [done|]); exists []..].
    destruct Hb as (Hs & Et & _). split; [intros key; by rewrite (Worker_spec _ _ key Hs), (Worker_spec _ _ key H)|].
    split; [by rewrite (sh_uid _ _ Hs), (sh_uid _ _ H)|]. eexists. split; [rewrite Et; cbn [app]; reflexivity|reflexivity]. }
  rewrite <- Hmid. clear Hmid. unfold work. rewrite E. destruct started as [[]|e|q]; cbn beta iota; rewrite trace_ok;
    (destruct df as [f|]; [rewrite trace_ok; destruct (map_err _ r); cbn [s_reg s_trace]|]);
    (split; [exact Hreg|split; [exact Huid|]]); cbn [s_trace]; rewrite Em; cbn; by rewrite <- ?app_assoc.
Qed.

(** With a disconnect hook that succeeds (as the gateway's does), no error
    of a connection is ever reported: whatever failed in [Start], the connect
    hook or [Run], [work] returns nil, because the hook's result is assigned to
    the error being returned. *)
Theorem work_error_lost `{MW : Middleware} cf (f : WrapFunc) color st started (w : wref) ran (s : sstate) :
  (forall col uid, f col uid = Ok tt) ->
  (forall q, fst (work_body cf color started w ran s) <> Panic q) ->
  fst (work cf (Some f) color st started w ran s) = Ok tt.
Proof.
  intros Hf Hn. unfold work. destruct (work_body cf color started w ran s) as [r s1]. cbn [fst] in Hn.
  destruct started as [[]|e|q]; cbn beta iota; rewrite trace_ok, Hf, trace_ok;
    (destruct r as [[]|e'|q']; [done|done|by destruct (Hn q')]).
Qed.

(** A broadcast reaches everyone: on a registry reached by any sequence of
    registrations and removals, [Broadcast] of a non-empty packet pushes to every
    registered worker exactly once, failures do not stop it, and it returns the
    error of the last push that failed, or none. *)
Theorem Broadcast_reaches_all {W} (wPush : wref -> list Z -> go W unit) iter n ws ops pack x :
  (forall w pack x q, fst (wPush w pack x) <> Panic q) ->
  0 < n < 2 ^ 32 -> (forall m, iter m ≡ₚ (map_to_list m).*2) -> pack <> [] ->
  exists b s tried x', NewBuckets n ws = Ok b /\ run_reg ops (mkB b ∅) = (Ok tt, s) /\
    Broadcast wPush iter s pack x = (match last_error tried None with Some e => Err e | None => Ok tt end, x') /\
    NoDup tried.*1 /\ forall w, w ∈ tried.*1 <-> Buckets.Worker (bs s) (WID w) = Ok (Some w).
Proof.
  intros Hnp Hn Hit Hp. destruct (NewBuckets_shards n ws Hn) as (b & E & H).
  destruct (run_reg_spec ops _ _ H) as (s & E' & H').
  set (all := concat (iter <$> buckets (bs s))).
  exists b, s, (fst (pushes wPush all pack x)), (snd (pushes wPush all pack x)).
  split; [done|]. split; [done|]. rewrite pushes_workers. split; [|split].
  - unfold Broadcast. destruct pack as [|z pack]; [done|]. cbn [length Nat.leb]. cbv [mbind go_bind].
    rewrite Walk_push, push_list_pushes by done. fold all.
    by destruct (last_error (fst (pushes wPush all (z :: pack) x)) None).
  - by eapply concat_iter_NoDup.
  - intros w. unfold all. rewrite (elem_of_concat_iter iter s _ Hit H'), (Worker_spec _ _ _ H'). split; congruence.
Qed.

(** C40: [PushGroup] can crash on a disconnect: when the only user's worker is
    removed between the two lookups of [GetByUIDs], the nil worker in the list
    is dereferenced, for every user, bucket count and non-empty packet; without
    the removal the same call is the worker's own push. *)
Theorem PushGroup_nil_panic {W} (wPush : wref -> list Z -> go W unit) n ws w pack (x : W) :
  0 < n < 2 ^ 32 -> pack <> [] ->
  exists b s, NewBuckets n ws = Ok b /\ run_reg [RPut w] (mkB b ∅) = (Ok tt, s) /\
    fst (PushGroup wPush [env_op (RDel w)] s [w_uid w] pack x) = Panic NilDeref /\
    (fst (wPush w pack x) = Ok tt -> PushGroup wPush [] s [w_uid w] pack x = wPush w pack x).
Proof.
  intros Hn Hp. destruct (put_then_race n ws w Hn) as (b & s & E & E' & Eg & Er). exists b, s.
  destruct pack as [|z pack]; [done|]. split; [done|]. split; [done|].
  unfold PushGroup. cbn [length Nat.leb]. cbv [mbind go_bind lift].
  unfold GetByUIDs in Eg. rewrite Er, Eg. split; [done|]. intros Hok.
  cbn [push_list]. cbv [mbind go_bind push_keep push_worker]. destruct (wPush w (z :: pack) x) as [[[]|?|?] x']; done.
Qed.

(** *** Witnesses *)

#[local] Instance list_mw : Middleware := {| Mw := list nat; Chain := fun l => concat l; recovery := [0%nat] |}.

Definition reg0 : bstate := mkB (mkBuckets (replicate 4 ∅) 4) ∅.

Lemma reg0_shards : shards reg0 (∅, ∅).
Proof.
  destruct (NewBuckets_shards 4 16 ltac:(lia)) as (b & E & H). injection E as <-. exact H.
Qed.

Lemma work_lifecycle_witness :
  let '(r, s') := work None (Some (fun _ _ => Ok tt)) "red" 0 (Ok tt) wA (Err (ENew "EOF" [])) (mkS reg0 []) in
  (forall key, Buckets.Worker (bs (s_reg s')) key = Buckets.Worker (bs reg0) key) /\
  s_trace s' = [SStart; SPut None; SRun; SDel; SStop; SDisconnect (w_uid wA)].
Proof.
  pose proof (work_lifecycle None (Some (fun _ _ => Ok tt)) "red" 0 (Ok tt) wA (Err (ENew "EOF" [])) (mkS reg0 [])
    (∅, ∅) reg0_shards eq_refl) as H.
  destruct (work None (Some (fun _ _ => Ok tt)) "red" 0 (Ok tt) wA (Err (ENew "EOF" [])) (mkS reg0 [])) as [r s'].
  destruct H as (H1 & _ & H3). split; [exact H1|exact H3].
Defined.

Lemma work_error_lost_witness :
  fst (work None (Some (fun _ _ => Ok tt)) "red" 0 (Err (ENew "not handshake msg" [])) wA (Ok tt) (mkS reg0 [])) = Ok tt.
Proof.
  apply (work_error_lost None (fun _ _ => Ok tt) "red" 0 (Err (ENew "not handshake msg" [])) wA (Ok tt) (mkS reg0 []));
    [done|]. intros q. cbn. discriminate.
Defined.

(** A push that logs the worker's id and fails for user 200. *)
Definition log_push (w : wref) (pack : list Z) : go (list Z) unit := fun x =>
  (if w_uid w =? 200 then Err (ENew "worker is stopping" []) else Ok tt, x ++ [WID w]).

Lemma log_push_no_panic w pack x q : fst (log_push w pack x) <> Panic q.
Proof. unfold log_push. cbn. by destruct (w_uid w =? 200). Qed.

Lemma Broadcast_reaches_all_witness :
  exists b s tried x', NewBuckets 4 16 = Ok b /\ run_reg [RPut wA; RPut wC] (mkB b ∅) = (Ok tt, s) /\
    Broadcast log_push in_order s [1] [] = (match last_error tried None with Some e => Err e | None => Ok tt end, x') /\
    NoDup tried.*1 /\ forall w, w ∈ tried.*1 <-> Buckets.Worker (bs s) (WID w) = Ok (Some w).
Proof.
  apply (Broadcast_reaches_all log_push in_order 4 16 [RPut wA; RPut wC] [1] []);
    [apply log_push_no_panic|lia|done|done].
Defined.

Lemma PushGroup_nil_panic_witness :
  exists b s, NewBuckets 4 16 = Ok b /\ run_reg [RPut wA] (mkB b ∅) = (Ok tt, s) /\
    fst (PushGroup log_push [env_op (RDel wA)] s [100] [1] []) = Panic NilDeref.
Proof.
  destruct (PushGroup_nil_panic log_push 4 16 wA [1] []) as (b & s & E & E' & Ep & _); [lia|done|].
  by exists b, s.
Defined.
