(* ===== verification/Client.v ===== *)
(** The TCP client: src/pkg/net/tcp/client/client.go ([read] and [write] are in
    Codec.v).

    [receive] runs a stop watcher and [readPackLoop]; the watcher calls [stop],
    which closes the channel [readPackLoop] sends on. *)
From S2P Require Import Prelude Memory BufPool BufReader Session Codec.

(** [NewClient] with its options: the fields the code keeps. *)
Record Client := mkClient {
  Id : Z;
  cl_bind : string;
  cl_reader : option rstate;
  cl_conn : wconn;
  receivePackCap : nat;
}.

Definition Option := Client -> Client.

Definition Bind (bind : string) : Option := fun c =>
  mkClient (Id c) bind (cl_reader c) (cl_conn c) (receivePackCap c).

Definition NewClient (id : Z) (opts : list Option) : Client :=
  let c := foldl (fun c o => o c) (mkClient id EmptyString None (mkWconn [] []) 0) opts in
  mkClient (Id c) (cl_bind c) (cl_reader c) (cl_conn c) 1024.

(** [Start]: [resolved] and [dialed] are the outcomes of the two net calls; a
    dialed connection delivers [conn]. *)
Definition Start (ch : option nat) (resolved : result unit) (dialed : result (list revent)) (m : mem_state)
    : go Client unit := fun c =>
  match map_err (fun e => EWrap e "resolved failed. cli=%d addr=%s" [AZ (Id c); AS (cl_bind c)]) resolved with
  | Ok _ =>
      match map_err (fun e => EWrap e "connect failed. cli=%d addr=%s" [AZ (Id c); AS (cl_bind c)]) dialed with
      | Ok conn =>
          match NewReader ch conn 4096 m with
          | Ok rd => (Ok tt, mkClient (Id c) (cl_bind c) (Some rd) (mkWconn [] []) (receivePackCap c))
          | Err e => (Err e, c)
          | Panic q => (Panic q, c)
          end
      | Err e => (Err e, c)
      | Panic q => (Panic q, c)
      end
  | Err e => (Err e, c)
  | Panic q => (Panic q, c)
  end.

(** [Send] *)
Definition Send (pack : list Z) : go Client unit := fun c =>
  let '(r, cn) := client_write pack (cl_conn c) in
  (r, mkClient (Id c) (cl_bind c) (cl_reader c) cn (receivePackCap c)).

(** ** Receiving

    A packet is a window of the reader's buffer, which is in the memory the
    client shares with the other users of the package's pool; what a receiver
    sees of it depends on when it looks.  A read is two steps: it begins, from
    when on the buffer may be written to, and it ends.  A read that the closing
    of the reader overtakes is a data race: it may end with anything. *)

Record recv := mkRecv {
  c_rd : rstate;                  (** the reader, with the shared memory and the connection *)
  reading : bool;                 (** [readPackLoop] is in [c.read] *)
  intact : bool;                  (** no read has begun since the last one succeeded *)
  packChan : list (option slice); (** [receivePackChan] *)
  chan_closed : bool;             (** [stop] has run: the reader is closed, too *)
  got : option (option slice);    (** the packet [readPackLoop] is about to send *)
  trigger : bool;                 (** [StopTriggered] *)
  cancelled : bool;               (** the errgroup's context *)
  loop_done : bool;
  watcher_done : bool;
  panicked : bool;
  read_packs : list (option slice * list Z);          (** history: packets read, with their bytes at that time *)
  delivered : list (option slice * list Z * bool);    (** history: packets taken from [Receive], with the bytes
                                                          the receiver saw and whether it was in time *)
}.

(** The bytes a packet shows now. *)
Definition shows (s : option slice) (rd : rstate) : list Z :=
  match s with Some s => bytes_of (m_heap (rs_mem rd)) s | None => [] end.

Definition set_mem (m : mem_state) (t : recv) : recv :=
  mkRecv (mkR m (rs_rd (c_rd t)) (rs_conn (c_rd t))) (reading t) (intact t) (packChan t) (chan_closed t) (got t) (trigger t)
    (cancelled t) (loop_done t) (watcher_done t) (panicked t) (read_packs t) (delivered t).
Definition begin_read (t : recv) : recv :=
  mkRecv (c_rd t) true false (packChan t) (chan_closed t) (got t) (trigger t) (cancelled t) (loop_done t) (watcher_done t)
    (panicked t) (read_packs t) (delivered t).
(** [pack, err := c.read()] without error. *)
Definition got_pack (rd : rstate) (s : option slice) (t : recv) : recv :=
  mkRecv rd false true (packChan t) (chan_closed t) (Some s) (trigger t) (cancelled t) (loop_done t) (watcher_done t)
    (panicked t) (read_packs t ++ [(s, shows s rd)]) (delivered t).
Definition send_pack (s : option slice) (t : recv) : recv :=
  mkRecv (c_rd t) (reading t) (intact t) (packChan t ++ [s]) (chan_closed t) None (trigger t) (cancelled t) (loop_done t)
    (watcher_done t) (panicked t) (read_packs t) (delivered t).
Definition send_panic (t : recv) : recv :=
  mkRecv (c_rd t) (reading t) (intact t) (packChan t) (chan_closed t) None (trigger t) true true (watcher_done t) true
    (read_packs t) (delivered t).
(** [return err]; [RunSafe] turns a panic of the read into an error. *)
Definition read_error (rd : rstate) (panic : bool) (t : recv) : recv :=
  mkRecv rd false false (packChan t) (chan_closed t) (got t) (trigger t) true true (watcher_done t) (panicked t || panic)
    (read_packs t) (delivered t).

(** The packet taken is the only one read and not taken, and nothing has been
    read since. *)
Definition in_time (rest : list (option slice)) (t : recv) : bool :=
  match rest, got t with [], None => intact t && negb (chan_closed t) | _, _ => false end.
Definition take_pack (rest : list (option slice)) (s : option slice) (bs : list Z) (t : recv) : recv :=
  mkRecv (c_rd t) (reading t) (intact t) rest (chan_closed t) (got t) (trigger t) (cancelled t) (loop_done t) (watcher_done t)
    (panicked t) (read_packs t) (delivered t ++ [(s, bs, in_time rest t)]).

(** [stop]: [DoStop] runs its body once; the body closes the reader, whose error
    is logged, and the channel. *)
Definition client_stop (t : recv) : recv :=
  if chan_closed t then t
  else mkRecv (snd (Close (c_rd t))) (reading t) (intact t) (packChan t) true (got t) (trigger t) (cancelled t) (loop_done t)
    (watcher_done t) (panicked t) (read_packs t) (delivered t).

(** The watcher: on a trigger it stops the client itself; else the context. *)
Definition watcher_exit (t : recv) : recv :=
  mkRecv (c_rd t) (reading t) (intact t) (packChan t) (chan_closed t) (got t) (trigger t) true (loop_done t) true (panicked t)
    (read_packs t) (delivered t).

Definition set_trigger (t : recv) : recv :=
  mkRecv (c_rd t) (reading t) (intact t) (packChan t) (chan_closed t) (got t) true (cancelled t) (loop_done t) (watcher_done t)
    (panicked t) (read_packs t) (delivered t).

Section receive.
Context (p : SyncPool) (size : nat).

(** What the other users of the pool may do to the memory: they leave the
    buffer of an open reader alone and keep the pool's contract. *)
Definition others (rd : rstate) (m : mem_state) : Prop :=
  exists F F' b, gate_reader p F rd b /\ gate_reader p F' (mkR m (rs_rd rd) (rs_conn rd)) b /\
    array (m_heap m) (arr b) = array (m_heap (rs_mem rd)) (arr b).

Inductive recv_step : recv -> recv -> Prop :=
  | CBegin t : loop_done t = false -> got t = None -> reading t = false -> recv_step t (begin_read t)
  | CRead ch1 ch2 s rd t : reading t = true -> loop_done t = false -> chan_closed t = false ->
      client_read ch1 ch2 (c_rd t) = (Ok s, rd) -> recv_step t (got_pack rd s t)
  | CReadErr ch1 ch2 e rd t : reading t = true -> loop_done t = false -> chan_closed t = false ->
      client_read ch1 ch2 (c_rd t) = (Err e, rd) -> recv_step t (read_error rd false t)
  | CReadPanic ch1 ch2 q rd t : reading t = true -> loop_done t = false -> chan_closed t = false ->
      client_read ch1 ch2 (c_rd t) = (Panic q, rd) -> recv_step t (read_error rd true t)
  (* the reader was closed before the read or while it was going on *)
  | CRaced s rd t : reading t = true -> loop_done t = false -> chan_closed t = true -> recv_step t (got_pack rd s t)
  | CRacedErr panic rd t : reading t = true -> loop_done t = false -> chan_closed t = true -> recv_step t (read_error rd panic t)
  | CSend s t : got t = Some s -> loop_done t = false -> chan_closed t = false -> (length (packChan t) < size)%nat ->
      recv_step t (send_pack s t)
  | CPanic s t : got t = Some s -> loop_done t = false -> chan_closed t = true -> recv_step t (send_panic t)
  (* the receiver sees the bytes there are, or a mixture while they are written to *)
  | CTake s rest bs t : packChan t = s :: rest -> (reading t = false -> bs = shows s (c_rd t)) -> recv_step t (take_pack rest s bs t)
  | CTrigger t : recv_step t (set_trigger t)
  | CWatchStop t : watcher_done t = false -> trigger t = true -> recv_step t (watcher_exit (client_stop t))
  | CWatchCtx t : watcher_done t = false -> cancelled t = true -> recv_step t (watcher_exit t)
  | CReturn t : loop_done t = true -> watcher_done t = true -> recv_step t (client_stop t)
  | COthers m t : (chan_closed t = false -> others (c_rd t) m) -> recv_step t (set_mem m t).

(** [Start] has opened a reader on [conn]; the pool may have been in use. *)
Definition recv_init (conn : list revent) (t : recv) : Prop :=
  (exists F ch m, pool_inv p gate_cap F m /\ NewReader ch conn 4096 m = Ok (c_rd t)) /\
  reading t = false /\ intact t = false /\ packChan t = [] /\ chan_closed t = false /\ got t = None /\ trigger t = false /\
  loop_done t = false /\ panicked t = false /\ read_packs t = [] /\ delivered t = [].

(** *** What is read and what is delivered *)

Hypothesis Hpool : init_pool = Some (Ok p).

(** The packets the server sends on [conn]. *)
Context (bodies : list (list Z)).
Hypothesis Hbodies : Forall (fun body => zlen body < 2 ^ 31) bodies.

Definition taken (t : recv) : list (option slice) := (delivered t).*1.*1.

Record recv_inv (t : recv) : Prop := {
  ci_order : loop_done t = false -> (read_packs t).*1 = taken t ++ packChan t ++ option_list (got t);
  ci_prefix : taken t ++ packChan t `prefix_of` (read_packs t).*1;
  ci_got : reading t = true -> got t = None;
  ci_panic : panicked t = true -> trigger t = true;
  ci_closed : chan_closed t = true -> trigger t = true \/ loop_done t = true;
  ci_reader : loop_done t = false -> chan_closed t = false -> exists F b, gate_reader p F (c_rd t) b /\
    (read_packs t).*2 = take (length (read_packs t)) bodies /\
    BufReader.pending (c_rd t) = mjoin (map frame_of (drop (length (read_packs t)) bodies)) /\
    (intact t = true -> exists s bs, list.last (read_packs t) = Some (Some s, bs) /\ shows (Some s) (c_rd t) = bs /\ arr s = arr b);
  ci_intact : intact t = true -> reading t = false /\ (loop_done t = true -> chan_closed t = true);
  ci_in_time : forall i s bs, delivered t !! i = Some (s, bs, true) -> bodies !! i = Some bs;
}.

(** The next read of an open reader: the next packet, or an error after the last. *)
Lemma next_read t ch1 ch2 r rd : recv_inv t -> loop_done t = false -> chan_closed t = false ->
  client_read ch1 ch2 (c_rd t) = (r, rd) ->
  match r with
  | Ok s => exists F b s' body, s = Some s' /\ bodies !! length (read_packs t) = Some body /\ shows s rd = body /\ arr s' = arr b /\
      gate_reader p F rd b /\ BufReader.pending rd = mjoin (map frame_of (drop (S (length (read_packs t))) bodies))
  | Err _ => True
  | Panic _ => False
  end.
Proof.
  intros H Hl Hc E. destruct (ci_reader _ H Hl Hc) as (F & b & Hr & Hb & Hp & _).
  destruct (bodies !! length (read_packs t)) as [body|] eqn:Hk.
  - rewrite (drop_S _ _ _ Hk) in Hp. cbn in Hp. rewrite Forall_lookup in Hbodies.
    destruct (client_read_frame p Hpool F (c_rd t) b ch1 ch2 body _ Hr Hp (Hbodies _ _ Hk)) as (s & st & b' & Er & Hs & Hr' & Hp' & Ha).
    rewrite E in Er. injection Er as -> ->. exists F, b', s, body.
    split; [done|]. split; [done|]. split; [exact Hs|]. split; [done|]. by split.
  - rewrite drop_ge in Hp by (by apply lookup_ge_None). destruct (client_read_end p Hpool F (c_rd t) b ch1 ch2 Hr Hp) as (e & st & Er).
    rewrite E in Er. by injection Er as -> _.
Qed.

(** A step that changes no history keeps what the histories say. *)
Ltac keep H := split; cbn; try apply H.

Lemma others_inv m t : (chan_closed t = false -> others (c_rd t) m) -> recv_inv t -> recv_inv (set_mem m t).
Proof.
  intros Ho H. keep H. intros Hl Hc. destruct (Ho Hc) as (F & F' & b & Hr & Hr' & Ha).
  destruct (ci_reader _ H Hl Hc) as (F0 & b0 & Hr0 & Hb & Hp & Hi).
  assert (b0 = b) as -> by (pose proof (ri_buf _ _ _ Hr); pose proof (ri_buf _ _ _ Hr0); congruence).
  exists F', b. split; [exact Hr'|]. split; [exact Hb|]. split.
  - rewrite <- Hp. unfold BufReader.pending, unread. cbn. rewrite (ri_buf _ _ _ Hr). cbn. by rewrite Ha.
  - intros Hin. destruct (Hi Hin) as (s & bs & E & <- & Has). exists s, (shows (Some s) (c_rd t)). split; [done|]. split; [|done].
    unfold shows, bytes_of. cbn. by rewrite Has, Ha.
Qed.

Lemma got_pack_inv ch1 ch2 s rd t : reading t = true -> loop_done t = false -> chan_closed t = false -> got t = None ->
  client_read ch1 ch2 (c_rd t) = (Ok s, rd) -> recv_inv t -> recv_inv (got_pack rd s t).
Proof.
  intros Hrd Hl Hc Hg E H. destruct (next_read t ch1 ch2 _ rd H Hl Hc E) as (F & b & s' & body & -> & Hk & Hs & Ha & Hr & Hp).
  pose proof (ci_order _ H Hl) as Ho. rewrite Hg in Ho. cbn in Ho. rewrite app_nil_r in Ho. destruct (ci_reader _ H Hl Hc) as (_ & _ & _ & Hb & _).
  keep H.
  - intros _. rewrite fmap_app, Ho. by rewrite <- !app_assoc.
  - rewrite fmap_app. apply prefix_app_r, H.
  - done.
  - intros _ _. exists F, b. split; [exact Hr|]. rewrite length_app, Nat.add_1_r. split.
    + rewrite <- Hs in Hk. by rewrite fmap_app, Hb, (take_S_r _ _ _ Hk).
    + split; [exact Hp|]. intros _. exists s', (shows (Some s') rd). by rewrite last_snoc.
  - split; [done|congruence].
Qed.

Lemma take_pack_inv s rest bs t : packChan t = s :: rest -> (reading t = false -> bs = shows s (c_rd t)) ->
  recv_inv t -> recv_inv (take_pack rest s bs t).
Proof.
  intros Hc Hbs H. assert (taken (take_pack rest s bs t) = taken t ++ [s]) as E by (unfold taken; cbn; by rewrite !fmap_app).
  keep H.
  - intros Hl. rewrite (ci_order _ H Hl), Hc. change (taken t ++ (s :: rest) ++ option_list (got t) = taken (take_pack rest s bs t) ++ rest ++ option_list (got t)).
    by rewrite E, <- !app_assoc.
  - pose proof (ci_prefix _ H) as Hp. rewrite Hc in Hp. change (taken (take_pack rest s bs t) ++ rest `prefix_of` (read_packs t).*1).
    by rewrite E, <- app_assoc.
  - intros i s0 bs0 Hi. apply lookup_app_Some in Hi as [Hi|[Hge Hi]]; [by eapply ci_in_time|].
    apply list_lookup_singleton_Some in Hi as [Hi [= -> -> Ht]]. unfold in_time in Ht.
    destruct rest; [|done]. destruct (got t) eqn:Hg; [done|]. apply andb_prop in Ht as [Hin Hcl]. apply negb_true_iff in Hcl.
    destruct (ci_intact _ H Hin) as [Hr Hld].
    assert (loop_done t = false) as Hl by (destruct (loop_done t); [specialize (Hld eq_refl); congruence|done]).
    pose proof (ci_order _ H Hl) as Ho. rewrite Hc, Hg in Ho. cbn in Ho.
    destruct (ci_reader _ H Hl Hcl) as (F & b & _ & Hb & _ & Hi'). destruct (Hi' Hin) as (s1 & bs1 & El & Hs1 & _).
    apply last_Some in El as [l El]. rewrite El, fmap_app in Ho. cbn in Ho. apply app_inj_tail in Ho as [Ho <-].
    rewrite (Hbs Hr), Hs1. apply (f_equal length) in Ho. unfold taken in Ho. rewrite !length_fmap in Ho.
    rewrite El, fmap_app, length_app in Hb. cbn in Hb. apply (f_equal (fun x => x !! length l)) in Hb.
    rewrite lookup_app_r in Hb by (by rewrite length_fmap). rewrite length_fmap, Nat.sub_diag in Hb. cbn in Hb.
    rewrite lookup_take_lt in Hb by lia. rewrite Hb. f_equal. lia.
Qed.

Lemma raced_inv s rd t : reading t = true -> loop_done t = false -> chan_closed t = true -> recv_inv t -> recv_inv (got_pack rd s t).
Proof.
  intros Hr Hl Hc H. pose proof (ci_order _ H Hl) as Ho. rewrite (ci_got _ H Hr) in Ho. cbn in Ho. rewrite app_nil_r in Ho. keep H.
  - intros _. rewrite fmap_app, Ho. by rewrite <- !app_assoc.
  - rewrite fmap_app. apply prefix_app_r, H.
  - done.
  - congruence.
  - split; [done|congruence].
Qed.

Lemma read_error_inv rd panic t : (panic = true -> trigger t = true) -> recv_inv t -> recv_inv (read_error rd panic t).
Proof.
  intros Hp H. keep H; try done.
  - intros [Hx|Hx]%orb_prop; [by apply (ci_panic _ H)|by apply Hp].
  - by right.
Qed.

Lemma client_stop_inv t : trigger t = true \/ loop_done t = true -> recv_inv t -> recv_inv (client_stop t).
Proof.
  intros Ht H. unfold client_stop. destruct (chan_closed t) eqn:Hc; [done|]. keep H; try done.
  intros Hi. split; [by apply (ci_intact _ H)|done].
Qed.

Lemma recv_step_inv t t' : recv_step t t' -> recv_inv t -> recv_inv t'.
Proof.
  intros Hs H. destruct Hs as [t Hl Hg Hr|ch1 ch2 s rd t Hr Hl Hc E|ch1 ch2 e rd t Hr Hl Hc E|ch1 ch2 q rd t Hr Hl Hc E
    |s rd t Hr Hl Hc|panic rd t Hr Hl Hc|s t Hg Hl Hc Hn|s t Hg Hl Hc|s rest bs t Hc Hbs|t|t Hw Ht|t Hw Hc|t Hl Hw|m t Ho].
  - keep H; try done. intros _ Hc. destruct (ci_reader _ H Hl Hc) as (F & b & ? & ? & ? & _). by exists F, b.
  - by eapply got_pack_inv; [..|by apply (ci_got _ H)|exact E|exact H].
  - by apply read_error_inv.
  - by destruct (next_read t ch1 ch2 _ rd H Hl Hc E).
  - by apply raced_inv.
  - apply read_error_inv; [|done]. intros _. destruct (ci_closed _ H Hc); [done|congruence].
  - pose proof (ci_order _ H Hl) as Ho. rewrite Hg in Ho. cbn in Ho. keep H; try done; rewrite ?app_nil_r; [by intros _|by rewrite Ho].
  - keep H; try done; [|by right|].
    + intros _. destruct (ci_closed _ H Hc); [done|congruence].
    + intros Hi. split; [by apply (ci_intact _ H)|done].
  - by apply take_pack_inv.
  - keep H; try done. by left.
  - keep (client_stop_inv t (or_introl Ht) H).
  - keep H.
  - apply client_stop_inv; [by right|done].
  - by apply others_inv.
Qed.

Lemma recv_init_inv conn t : stream conn = mjoin (map frame_of bodies) -> recv_init conn t -> recv_inv t.
Proof.
  intros Hst ((F & ch & m & Hi & En) & E1 & E2 & E3 & E4 & E5 & E6 & E7 & E8 & E9 & E10).
  pose proof (gate_spec p Hpool) as PS. destruct (NewReader_ok ch conn 4096 F m Hi) as (st & b & En' & Hr & _ & Hp & _); [by exists 12|].
  rewrite En in En'. injection En' as <-.
  split; unfold taken; rewrite ?E1, ?E2, ?E3, ?E4, ?E5, ?E6, ?E7, ?E8, ?E9, ?E10; try done.
  intros _ _. exists F, b. split; [exact Hr|]. by rewrite Hp, Hst.
Qed.

Lemma recv_reachable_inv conn t : stream conn = mjoin (map frame_of bodies) -> reachable (recv_init conn) recv_step t -> recv_inv t.
Proof.
  intros Hst. apply reachable_inv; [intros s; by apply recv_init_inv|intros s s' _ HI Hs; by eapply recv_step_inv].
Qed.
End receive.

(** C37: What the client's receiver gets of the packets the server sends on the
    connection.  Until it is stopped, the client reads exactly these packets, in
    order, and hands them on in the order it read them, losing none: what
    [Receive] has yielded, followed by the channel and the packet in hand, is
    what was read.  What is handed on is a window of the reader's buffer: it
    shows the packet to a receiver who takes it before the next read has begun,
    whatever the other users of the pool do; later it need not, since the next
    read overwrites the buffer ([late_delivery]).  A panic, on the closed channel
    or in a read, happens only after a stop was triggered. *)
Theorem client_delivers_in_order (p : SyncPool) size (bodies : list (list Z)) conn (t : recv) :
  init_pool = Some (Ok p) -> Forall (fun body => zlen body < 2 ^ 31) bodies -> stream conn = mjoin (map frame_of bodies) ->
  reachable (recv_init p conn) (recv_step p size) t ->
  (loop_done t = false -> chan_closed t = false -> (read_packs t).*2 = take (length (read_packs t)) bodies) /\
  (taken t `prefix_of` (read_packs t).*1) /\
  (loop_done t = false -> (read_packs t).*1 = taken t ++ packChan t ++ option_list (got t)) /\
  (forall i s bs, delivered t !! i = Some (s, bs, true) -> bodies !! i = Some bs) /\
  (panicked t = true -> trigger t = true).
Proof.
  intros Hp Hb Hst Hr. apply (recv_reachable_inv p size Hp bodies Hb conn t Hst) in Hr. split; [|split; [|split; [|split]]]; try apply Hr.
  - intros Hl Hc. by destruct (ci_reader _ _ _ Hr Hl Hc) as (F & b & _ & ? & _).
  - eapply prefix_app_l, Hr.
Qed.

(** *** Runs on a connection that delivers the packets [65] and [66] *)

Definition two_packs : list (list Z) := [[65]; [66]].
Definition two_conn : list revent := [RData (frame_of [65]); RData (frame_of [66])].
Definition recv0 (rd : rstate) : recv := mkRecv rd false false [] false None false false false false false [] [].

Lemma recv0_init p rd : init_pool = Some (Ok p) -> NewReader None two_conn 4096 (fst (start p)) = Ok rd -> recv_init p two_conn (recv0 rd).
Proof.
  intros E En. split; [|by repeat split]. exists ∅, None, (fst (start p)). split; [|exact En].
  destruct init_pool_ok as (p' & E' & Hi). rewrite E in E'. by injection E' as <-.
Qed.

(** The first packet read and sent. *)
Abbreviation recv1 rd s t := (got_pack rd s (begin_read t)).
Abbreviation recv2 rd s t := (send_pack s (recv1 rd s t)).

Lemma recv1_reachable p rd s rd1 : init_pool = Some (Ok p) -> NewReader None two_conn 4096 (fst (start p)) = Ok rd ->
  client_read None None rd = (Ok s, rd1) -> reachable (recv_init p two_conn) (recv_step p 1024) (recv1 rd1 s (recv0 rd)).
Proof.
  intros E En Er. apply (reach_step _ _ (begin_read (recv0 rd))); [|by apply (CRead p 1024 None None)].
  apply (reach_step _ _ (recv0 rd)); [by apply reach_init, recv0_init|by apply CBegin].
Qed.

Lemma recv2_reachable p rd s rd1 : init_pool = Some (Ok p) -> NewReader None two_conn 4096 (fst (start p)) = Ok rd ->
  client_read None None rd = (Ok s, rd1) -> reachable (recv_init p two_conn) (recv_step p 1024) (recv2 rd1 s (recv0 rd)).
Proof.
  intros E En Er. apply (reach_step _ _ (recv1 rd1 s (recv0 rd))); [by apply recv1_reachable|]. apply CSend; [done..|cbn; lia].
Qed.

(** A receiver who takes the first packet after the second one has been read
    gets the second one's bytes. *)
Lemma late_delivery : exists p t s, init_pool = Some (Ok p) /\ reachable (recv_init p two_conn) (recv_step p 1024) t /\
  delivered t = [(s, [66], false)] /\ (read_packs t).*2 = two_packs.
Proof.
  destruct client_pack_overwritten as (p & rd & s1 & rd1 & s2 & rd2 & E & En & Er & Hb & Er2 & Hb2 & Hb3).
  pose (t2 := recv2 rd1 (Some s1) (recv0 rd)). pose (t3 := recv1 rd2 (Some s2) t2).
  exists p, (take_pack [] (Some s1) [66] t3), (Some s1). split; [exact E|]. split; [|split; [done|]].
  - apply (reach_step _ _ t3); [|by apply CTake]. apply (reach_step _ _ (begin_read t2)); [|by apply (CRead p 1024 None None)].
    apply (reach_step _ _ t2); [by apply (recv2_reachable p rd)|by apply CBegin].
  - cbn. by rewrite Hb, Hb3.
Qed.

(** The window: the watcher closes the channel while [readPackLoop] runs. *)
Lemma client_stop_can_panic : exists p t, reachable (recv_init p two_conn) (recv_step p 1024) t /\ panicked t = true.
Proof.
  destruct client_pack_overwritten as (p & rd & s1 & rd1 & s2 & rd2 & E & En & Er & _).
  pose (t1 := recv1 rd1 (Some s1) (recv0 rd)). pose (t2 := watcher_exit (client_stop (set_trigger t1))).
  exists p, (send_panic t2). split; [|done]. apply (reach_step _ _ t2); [|by apply (CPanic p 1024 (Some s1))].
  apply (reach_step _ _ (set_trigger t1)); [|by apply CWatchStop].
  apply (reach_step _ _ t1); [by apply (recv1_reachable p rd)|apply CTrigger].
Qed.

Lemma client_delivers_in_order_witness :
  exists p t s, init_pool = Some (Ok p) /\ reachable (recv_init p two_conn) (recv_step p 1024) t /\
    delivered t = [(s, [65], true)] /\ two_packs !! 0%nat = Some [65].
Proof.
  destruct client_pack_overwritten as (p & rd & s1 & rd1 & s2 & rd2 & E & En & Er & Hb & _).
  exists p, (take_pack [] (Some s1) [65] (recv2 rd1 (Some s1) (recv0 rd))), (Some s1).
  assert (reachable (recv_init p two_conn) (recv_step p 1024) (take_pack [] (Some s1) [65] (recv2 rd1 (Some s1) (recv0 rd)))) as Hr
    by (eapply reach_step; [by apply (recv2_reachable p rd (Some s1) rd1)|by apply CTake]).
  split; [exact E|]. split; [exact Hr|]. split; [done|].
  assert (Forall (fun body => zlen body < 2 ^ 31) two_packs) as Hl by (repeat constructor; cbn; lia).
  destruct (client_delivers_in_order p 1024 two_packs two_conn _ E Hl eq_refl Hr) as (_ & _ & _ & H & _).
  by apply (H 0%nat (Some s1)).
Defined.
