(* ===== verification/Filters.v ===== *)
(** The transport object and the middlewares around packet handling:
    src/pkg/net/transport.go, src/pkg/net/middleware/dev/middleware.go,
    src/app/gate/internal/pkg/middleware/metadata/middleware.go and
    middleware/logging/request.go, reply.go.

    gRPC's metadata container, kratos' server context, the profile and the
    trace ids are parameters; the packet pool is the one of Messages.v. *)
From Stdlib Require Import Ascii.
From S2P Require Import Prelude Context Messages Service.

(** ** gRPC metadata *)

(** [strings.ToLower] on ASCII keys. *)
Definition lower_char (c : ascii) : ascii :=
  let n := nat_of_ascii c in if (Nat.leb 65 n && Nat.leb n 90)%bool then ascii_of_nat (n + 32) else c.
Fixpoint ToLower (s : string) : string :=
  match s with EmptyString => EmptyString | String c s => String (lower_char c) (ToLower s) end.

(** [MD_range] is the order in which a [range] loop meets the keys. *)
Class GrpcMD := {
  GMD : Type;
  MD_New : GMD;
  MD_Get : GMD -> string -> list string;
  MD_Set : GMD -> string -> list string -> GMD;
  MD_Append : GMD -> string -> list string -> GMD;
  MD_range : GMD -> list string;
}.

(** The documented behaviour: keys compare in lower case. *)
Class GrpcMDLaws (G : GrpcMD) : Prop := {
  md_get_new : forall k, MD_Get MD_New k = [];
  md_get_set : forall m k vs k', MD_Get (MD_Set m k vs) k' =
    if bool_decide (ToLower k = ToLower k') then vs else MD_Get m k';
  md_get_append : forall m k vs k', MD_Get (MD_Append m k vs) k' =
    if bool_decide (ToLower k = ToLower k') then MD_Get m k' ++ vs else MD_Get m k';
}.

Section carrier.
Context `{G : GrpcMD}.

(** [HeaderCarrier] *)
Definition hc_Get (mc : GMD) (key : string) : string :=
  match MD_Get mc key with v :: _ => v | [] => EmptyString end.
Definition hc_Set (mc : GMD) (key value : string) : GMD := MD_Set mc key [value].
Definition hc_Keys (mc : GMD) : list string := foldl (fun keys k => keys ++ [k]) [] (MD_range mc).
Definition hc_Add (mc : GMD) (key value : string) : GMD := MD_Append mc key [value].
Definition hc_Values (mc : GMD) (key : string) : list string := MD_Get mc key.

(** [Transport] *)
Record Transport := mkTransport {
  tr_endpoint : string; tr_operation : string; tr_requestHeader : GMD; tr_replyHeader : GMD;
}.
Definition NewTransport (endpoint operation : string) (requestHeader replyHeader : GMD) : Transport :=
  mkTransport endpoint operation requestHeader replyHeader.
Definition tr_Kind (tr : Transport) : string := "grpc".
Definition tr_Endpoint (tr : Transport) : string := tr_endpoint tr.
Definition tr_Operation (tr : Transport) : string := tr_operation tr.
Definition tr_RequestHeader (tr : Transport) : GMD := tr_requestHeader tr.
Definition tr_ReplyHeader (tr : Transport) : GMD := tr_replyHeader tr.

Definition NetKindTCP : string := "tcp".
Definition NetKindKCP : string := "kcp".
Definition NetKindWebSocket : string := "ws".

(** [metadata.Pairs(kv...)]: the values of one key are merged in order. *)
Fixpoint md_Pairs_from (m : GMD) (kv : list string) : result GMD :=
  match kv with
  | [] => Ok m
  | k :: v :: kv => md_Pairs_from (MD_Append m k [v]) kv
  | [_] => Panic (PanicErr (ENew "metadata: Pairs got the odd number of input pairs for metadata" []))
  end.
Definition md_Pairs : list string -> result GMD := md_Pairs_from MD_New.

(** ** The dev middleware *)

(** [TransformContext] on the transport of the context, if it has one: the
    metadata of the new incoming context. *)
Definition TransformContext (info : option Transport) : result (option GMD) :=
  match info with
  | None => Ok None
  | Some info =>
      let pairs := foldl (fun pairs k => pairs ++ [k; hc_Get (tr_RequestHeader info) k]) [] Keys in
      md ← md_Pairs pairs; Ok (Some md)
  end.

(** What [transport.FromServerContext] may return. *)
Inductive server_transport := STgate (tr : Transport) | SThttp (uri : string) | STother.

(** [strings.Index(s, sub) == 0] *)
Definition IsAdminPath (tp : option server_transport) : bool :=
  match tp with
  | Some (SThttp uri) => match String.index 0 "/admin" uri with Some 0%nat => true | _ => false end
  | _ => false
  end.

(** ** The metadata middleware *)

(** The dynamic type of a request ([nil *Packet] included). *)
Inductive request := RPacket (p : option Packet) | RBytes (bs : list Z) | ROther.

Definition newRequestMetadata (pack : request) : result GMD :=
  let md := MD_New in
  match pack with
  | RPacket (Some p) =>
      let md := MD_Set md "ver" [FormatInt (int64 (p_Ver p))] in
      let md := MD_Set md "index" [FormatInt (int64 (p_Index p))] in
      let md := MD_Set md "cp" [if p_Compress p then "true" else "false"] in
      let md := MD_Set md "mod" [FormatInt (int64 (p_Mod p))] in
      let md := MD_Set md "seq" [FormatInt (int64 (p_Seq p))] in
      Ok (MD_Set md "obj" [FormatInt (p_Obj p)])
  | RPacket None => Panic NilDeref
  | _ => Ok md
  end.
End carrier.
Arguments Transport {G}.

(** ** Handlers *)

(** The request context: kratos' server transport and server metadata. *)
Class ServerCtx (G : GrpcMD) := {
  Cx : Type;
  NewServerContext : Cx -> Transport -> Cx;
  cx_transport : Cx -> option Transport;
  cx_metadata : Cx -> option (string -> string);
}.
Class ServerCtxLaws {G : GrpcMD} (X : ServerCtx G) : Prop := {
  cx_transport_new : forall c t, cx_transport (NewServerContext c t) = Some t;
}.

(** [profile] and [tracing]. *)
Class Profile := { GRPCEndpoint : string; IsDev : bool; TraceID : arg; SpanID : arg }.

Inductive logline :=
  | LDebugf (fmt : string) (e : error)
  | LErrorf (fmt : string) (e : error)
  | LDebugw (kv : list (string * arg)).

Section filters.
Context `{G : GrpcMD} {X : ServerCtx G} `{Pr : Profile} `{PM : !ProtoMsg Packet} {W R : Type}.

(** The packet pool, the log, and the state of the handler behind. *)
Record fstate := mkF { f_pkts : ostate Packet; f_log : list logline; f_w : W }.

Definition Handler := Cx -> request -> go fstate R.

(** [metadata.Server()] *)
Definition metadata_Server (handler : Handler) : Handler := fun ctx req =>
  requestHeader ← lift (newRequestMetadata req);
  handler (NewServerContext ctx (NewTransport GRPCEndpoint EmptyString requestHeader MD_New)) req.

Definition f_get (ch : option nat) : go fstate nat := fun st =>
  let '(r, s) := GetPacket ch (f_pkts st) in (r, mkF s (f_log st) (f_w st)).
Definition f_put (p : nat) (st : fstate) : fstate :=
  mkF (snd (PutPacket (Some p) (f_pkts st))) (f_log st) (f_w st).
Definition f_set (p : nat) (v : Packet) : go fstate unit := fun st =>
  (Ok tt, mkF (pool_set p v (f_pkts st)) (f_log st) (f_w st)).
Definition logs (l : logline) : go fstate unit := fun st => (Ok tt, mkF (f_pkts st) (f_log st ++ [l]) (f_w st)).

Definition is_heartbeat (p : Packet) : bool :=
  (p_Mod p =? ModuleID_System) && (p_Seq p =? SystemSeq_Heartbeat).

(** The fields both log lines have. *)
Definition log_kv (kind netKind : string) (ctx : Cx) (p : Packet) : list (string * arg) :=
  let '(uid, sid) := match cx_metadata ctx with
                     | Some md => (md CtxUID, md CtxSID) | None => (EmptyString, EmptyString) end in
  [("kind", AS kind); ("net", AS netKind); ("trace", TraceID); ("span", SpanID); ("uid", AS uid); ("sid", AS sid);
   ("obj", AS (FormatInt (p_Obj p))); ("mod", AS (FormatInt (int64 (p_Mod p))));
   ("seq", AS (FormatInt (int64 (p_Seq p)))); ("index", AS (FormatInt (int64 (p_Index p))));
   ("size", AS (FormatInt (zlen (p_Data p))))].

Definition logRequest_body (netKind : string) (ctx : Cx) (req : request) (p : nat) : go fstate unit :=
  match req with
  | RBytes bs =>
      match Unmarshal bs with
      | Panic q => panics q
      | Err e => logs (LErrorf "log request packet unmarshal failed. %s" e)
      | Ok pk =>
          f_set p pk ;;
          if is_heartbeat pk then mret tt else logs (LDebugw (log_kv "req" netKind ctx pk))
      end
  | _ => mret tt
  end.

(** [logRequest]; [ch] is the pool's choice. *)
Definition logRequest (ch : option nat) (netKind : string) (ctx : Cx) (req : request) : go fstate unit :=
  p ← f_get ch; deferring (f_put p) (logRequest_body netKind ctx req p).

Definition logReply_body (netKind : string) (ctx : Cx) (reply : request) (p : nat) : go fstate unit :=
  match reply with
  | RBytes bs =>
      match Unmarshal bs with
      | Panic q => panics q
      | Err e => logs (LDebugf "logReply: proto.Unmarshal failed: %v" e)
      | Ok pk =>
          f_set p pk ;;
          if negb IsDev && is_heartbeat pk then mret tt
          else logs (LDebugw (log_kv "reply" netKind ctx pk ++ [("latency", AZ 0)]))
      end
  | _ => panics TypeAssert
  end.

Definition logReply (ch : option nat) (netKind : string) (ctx : Cx) (reply : request) : go fstate unit :=
  p ← f_get ch; deferring (f_put p) (logReply_body netKind ctx reply p).

(** The middlewares [Request] and [Reply]. *)
Definition Request (ch : option nat) (netKind : string) (handler : Handler) : Handler := fun ctx req =>
  if negb IsDev then handler ctx req else logRequest ch netKind ctx req ;; handler ctx req.
Definition Reply (ch : option nat) (netKind : string) (handler : Handler) : Handler := fun ctx req =>
  if negb IsDev then handler ctx req else logReply ch netKind ctx req ;; handler ctx req.
End filters.
Arguments Handler {G X} W R.
Arguments fstate : clear implicits.

(** ** Facts *)

Lemma hc_get_set `{G : GrpcMD} {L : GrpcMDLaws G} m k v k' :
  hc_Get (hc_Set m k v) k' = if bool_decide (ToLower k = ToLower k') then v else hc_Get m k'.
Proof. unfold hc_Get, hc_Set. rewrite md_get_set. by case_bool_decide. Qed.

(** [log] computations that only write the log and packet [p]. *)
Definition log_only `{W : Type} (p : nat) (m : go (fstate W) unit) : Prop :=
  forall st, exists st', m st = (Ok tt, st') /\ f_w st' = f_w st /\
    forall O, p ∈ O -> pool_ok O (f_pkts st) -> pool_ok O (f_pkts st').

Lemma log_only_logs {W} p l : log_only (W := W) p (logs l).
Proof. intros st. eexists. split; [reflexivity|]. by split. Qed.

Lemma log_only_ret {W} p : log_only (W := W) p (mret tt).
Proof. intros st. eexists. split; [reflexivity|]. by split. Qed.

Lemma log_only_set {W} p v m : log_only (W := W) p m -> log_only p (f_set p v ;; m).
Proof.
  intros Hm st. destruct (Hm (mkF (pool_set p v (f_pkts st)) (f_log st) (f_w st))) as (st' & E & Ew & Ep).
  exists st'. split; [exact E|]. split; [exact Ew|]. intros O Hp H. apply Ep; [done|].
  by apply packet_set_ok.
Qed.

(** A logging body between taking the packet and returning it: it succeeds and
    leaves the handler's state and the pool's invariant alone. *)
Lemma log_wrapped {W} ch (body : nat -> go (fstate W) unit) st :
  (forall p, log_only p (body p)) ->
  exists st', (p ← f_get ch; deferring (f_put p) (body p)) st = (Ok tt, st') /\ f_w st' = f_w st /\
    forall O, pool_ok O (f_pkts st) -> pool_ok O (f_pkts st').
Proof.
  intros Hb. destruct (GetPacket_returns ch (f_pkts st)) as (p & pl & E).
  destruct (Hb p (mkF pl (f_log st) (f_w st))) as (st' & Eb & Ew & Ep).
  exists (f_put p st'). split.
  - cbv [mbind go_bind f_get deferring]. rewrite E. by rewrite Eb.
  - split; [exact Ew|]. intros O H. destruct (pool_get_ok O _ ch p pl H E) as (Hp & _ & H1).
    pose proof (packet_put_ok (O ∪ {[p]}) p (f_pkts st') ltac:(set_solver) (Ep (O ∪ {[p]}) ltac:(set_solver) H1)) as H3.
    replace ((O ∪ {[p]}) ∖ {[p]}) with O in H3 by set_solver. exact H3.
Qed.

Lemma logRequest_ok `{G : GrpcMD} {X : ServerCtx G} `{Pr : Profile} `{PM : !ProtoMsg Packet} {PL : ProtoLaws Packet} {W}
    ch net ctx req (st : fstate W) :
  exists st', logRequest ch net ctx req st = (Ok tt, st') /\ f_w st' = f_w st /\
    forall O, pool_ok O (f_pkts st) -> pool_ok O (f_pkts st').
Proof.
  apply log_wrapped. intros p. unfold logRequest_body. destruct req as [?|bs|]; try apply log_only_ret.
  destruct (Unmarshal bs) as [pk|e|q] eqn:E.
  - apply log_only_set. destruct (is_heartbeat pk); [apply log_only_ret|apply log_only_logs].
  - apply log_only_logs.
  - exfalso. by apply unmarshal_no_panic in E.
Qed.

Lemma logReply_ok `{G : GrpcMD} {X : ServerCtx G} `{Pr : Profile} `{PM : !ProtoMsg Packet} {PL : ProtoLaws Packet} {W}
    ch net ctx bs (st : fstate W) :
  exists st', logReply ch net ctx (RBytes bs) st = (Ok tt, st') /\ f_w st' = f_w st /\
    forall O, pool_ok O (f_pkts st) -> pool_ok O (f_pkts st').
Proof.
  apply log_wrapped. intros p. unfold logReply_body. destruct (Unmarshal bs) as [pk|e|q] eqn:E.
  - apply log_only_set. destruct (negb IsDev && is_heartbeat pk); [apply log_only_ret|apply log_only_logs].
  - apply log_only_logs.
  - exfalso. by apply unmarshal_no_panic in E.
Qed.

(** ** Properties *)

(** The filters a packet passes are transparent: for the bytes the worker
    hands them, the read filter and the write filter run the handler once, with
    the same bytes and on its own state unchanged, and return its outcome; the
    packet the logging takes from the pool is back before the handler runs. *)
Theorem filters_transparent `{G : GrpcMD} {X : ServerCtx G} {XL : ServerCtxLaws X} `{Pr : Profile} `{PM : !ProtoMsg Packet}
    {PL : ProtoLaws Packet} {W R} (handler : Handler W R) ch net ctx bs (st : fstate W) O :
  pool_ok O (f_pkts st) ->
  (exists ctx' st', f_w st' = f_w st /\ pool_ok O (f_pkts st') /\
    metadata_Server (Request ch net handler) ctx (RBytes bs) st = handler ctx' (RBytes bs) st' /\
    exists tr, cx_transport ctx' = Some tr /\ tr_Endpoint tr = GRPCEndpoint) /\
  (exists st', f_w st' = f_w st /\ pool_ok O (f_pkts st') /\
    Reply ch net handler ctx (RBytes bs) st = handler ctx (RBytes bs) st').
Proof.
  intros Hp. split.
  - set (ctx' := NewServerContext ctx (NewTransport GRPCEndpoint EmptyString MD_New MD_New)).
    assert (exists tr, cx_transport ctx' = Some tr /\ tr_Endpoint tr = GRPCEndpoint) as Ht
      by (eexists; split; [apply cx_transport_new|done]).
    change (metadata_Server (Request ch net handler) ctx (RBytes bs) st)
      with (Request ch net handler ctx' (RBytes bs) st).
    unfold Request. destruct (negb IsDev); [by exists ctx', st|].
    destruct (logRequest_ok ch net ctx' (RBytes bs) st) as (st' & E & Ew & Ep).
    exists ctx', st'. split; [exact Ew|]. split; [by apply Ep|]. split; [|exact Ht]. cbv [mbind go_bind]. by rewrite E.
  - unfold Reply. destruct (negb IsDev); [by exists st|].
    destruct (logReply_ok ch net ctx bs st) as (st' & E & Ew & Ep).
    exists st'. split; [exact Ew|]. split; [by apply Ep|]. cbv [mbind go_bind]. by rewrite E.
Qed.

(** The metadata middleware describes a [*Packet] by headers that read back
    as its fields, but the server's filters hand it the packet's bytes, for
    which every header is empty. *)
Theorem request_headers `{G : GrpcMD} {L : GrpcMDLaws G} (p : Packet) (bs : list Z) :
  - 2 ^ 31 <= p_Ver p < 2 ^ 31 -> - 2 ^ 31 <= p_Index p < 2 ^ 31 -> - 2 ^ 31 <= p_Mod p < 2 ^ 31 ->
  - 2 ^ 31 <= p_Seq p < 2 ^ 31 -> - 2 ^ 63 <= p_Obj p < 2 ^ 63 ->
  (exists md, newRequestMetadata (RPacket (Some p)) = Ok md /\
    ParseInt (hc_Get md "ver") = Ok (p_Ver p) /\ ParseInt (hc_Get md "index") = Ok (p_Index p) /\
    ParseInt (hc_Get md "mod") = Ok (p_Mod p) /\ ParseInt (hc_Get md "seq") = Ok (p_Seq p) /\
    ParseInt (hc_Get md "obj") = Ok (p_Obj p)) /\
  (exists md, newRequestMetadata (RBytes bs) = Ok md /\ forall k, hc_Get md k = EmptyString).
Proof.
  intros Hv Hi Hm Hs Ho. split.
  - eexists. split; [reflexivity|].
    rewrite !(wrapS_id 64) by lia.
    repeat split; unfold hc_Get; rewrite !md_get_set; cbn; apply ParseInt_FormatInt; lia.
  - eexists. split; [reflexivity|]. intros k. unfold hc_Get. by rewrite md_get_new.
Qed.

Lemma md_Pairs_from_headers `{G : GrpcMD} {L : GrpcMDLaws G} (f : string -> string) ks m :
  NoDup (ToLower <$> ks) -> (forall k, k ∈ ks -> MD_Get m k = []) ->
  exists md, md_Pairs_from m (ks ≫= fun k => [k; f k]) = Ok md /\
    (forall k, k ∈ ks -> MD_Get md k = [f k]) /\
    (forall k, (ToLower k ∉ (ToLower <$> ks)) -> MD_Get md k = MD_Get m k).
Proof.
  revert m. induction ks as [|k0 ks IH]; intros m Hnd Hm.
  - exists m. split; [done|]. split; [intros k Hk; by apply elem_of_nil in Hk|done].
  - rewrite fmap_cons in Hnd. apply NoDup_cons in Hnd as [Hni Hnd].
    destruct (IH (MD_Append m k0 [f k0]) Hnd) as (md & E & Hin & Hout).
    { intros k Hk. rewrite md_get_append. rewrite bool_decide_false; [apply Hm; by right|].
      intros Eq. apply Hni. rewrite Eq. by apply list_elem_of_fmap_2. }
    exists md. split; [exact E|]. split.
    + intros k Hk. apply elem_of_cons in Hk as [->|Hk]; [|by apply Hin].
      rewrite Hout by done. rewrite md_get_append, bool_decide_true by done.
      rewrite Hm by (by left). done.
    + intros k Hk. rewrite fmap_cons, not_elem_of_cons in Hk. destruct Hk as [Hne Hk].
      rewrite Hout by done. rewrite md_get_append. rewrite bool_decide_false; [done|congruence].
Qed.

(** [TransformContext] carries the gateway's keys over: the incoming metadata
    it builds holds, under each key of [Keys], exactly the header's value. *)
Theorem TransformContext_copies `{G : GrpcMD} {L : GrpcMDLaws G} (info : Transport) :
  exists md, TransformContext (Some info) = Ok (Some md) /\
    forall k, k ∈ Keys -> MD_Get md k = [hc_Get (tr_RequestHeader info) k].
Proof.
  destruct (md_Pairs_from_headers (hc_Get (tr_RequestHeader info)) Keys MD_New) as (md & E & Hin & _).
  - apply (bool_decide_unpack _). by vm_compute.
  - intros k _. apply md_get_new.
  - exists md. split; [|exact Hin]. cbv [TransformContext md_Pairs]. cbn [foldl Keys app].
    change (md_Pairs_from MD_New _) with (md_Pairs_from MD_New (Keys ≫= fun k => [k; hc_Get (tr_RequestHeader info) k])).
    by rewrite E.
Qed.

(** In the only profile that logs, heartbeats are skipped on the way in and
    logged on the way out. *)
Lemma heartbeat_logged_on_reply `{G : GrpcMD} {X : ServerCtx G} `{Pr : Profile} `{PM : !ProtoMsg Packet} {W}
    net ctx bs (pk : Packet) p (st : fstate W) :
  IsDev = true -> Unmarshal bs = Ok pk -> is_heartbeat pk = true ->
  f_log (snd (logRequest_body net ctx (RBytes bs) p st)) = f_log st /\
  f_log (snd (logReply_body net ctx (RBytes bs) p st)) =
    f_log st ++ [LDebugw (log_kv "reply" net ctx pk ++ [("latency", AZ 0)])].
Proof.
  intros Hd E Hh. unfold logRequest_body, logReply_body. rewrite E, Hd, Hh. by split.
Qed.

(** ** Witnesses: metadata as a map from lower-case keys *)

#[export] Instance map_grpc : GrpcMD := {|
  GMD := gmap string (list string);
  MD_New := ∅;
  MD_Get := fun m k => default [] (m !! ToLower k);
  MD_Set := fun m k vs => <[ToLower k := vs]> m;
  MD_Append := fun m k vs => <[ToLower k := default [] (m !! ToLower k) ++ vs]> m;
  MD_range := fun m => fst <$> map_to_list m;
|}.

Lemma map_grpc_laws : GrpcMDLaws map_grpc.
Proof.
  split; cbn.
  - intros k. by rewrite lookup_empty.
  - intros m k vs k'. case_bool_decide as E; [by rewrite E, lookup_insert_eq|by rewrite lookup_insert_ne].
  - intros m k vs k'. case_bool_decide as E; [by rewrite E, lookup_insert_eq|by rewrite lookup_insert_ne].
Qed.

#[export] Instance demo_cx : ServerCtx map_grpc := {|
  Cx := option Transport; NewServerContext := fun _ t => Some t; cx_transport := id; cx_metadata := fun _ => None;
|}.

Lemma demo_cx_laws : ServerCtxLaws demo_cx.
Proof. by split. Qed.

#[export] Instance demo_profile : Profile := {| GRPCEndpoint := "10.0.0.1:9000"; IsDev := true; TraceID := AS "t"; SpanID := AS "s" |}.

(** A handler that counts its calls. *)
Definition counter : Handler nat unit := fun _ _ st => (Ok tt, mkF (f_pkts st) (f_log st) (S (f_w st))).

Lemma filters_transparent_witness :
  pool_ok ∅ (newPool (A := Packet)) /\
  exists ctx' st', f_w st' = 0%nat /\ pool_ok ∅ (f_pkts st') /\
    metadata_Server (Request (PM := flat_packet) None "tcp" counter) None (RBytes [1; 2; 0; 3; 4; 5; 6; 7])
      (mkF newPool [] 0%nat) = counter ctx' (RBytes [1; 2; 0; 3; 4; 5; 6; 7]) st'.
Proof.
  assert (pool_ok ∅ (newPool (A := Packet))) as Hp by (apply (pool_reachable_ok (∅, newPool)), reach_init; done).
  split; [exact Hp|].
  destruct (filters_transparent (XL := demo_cx_laws) (PM := flat_packet) (PL := flat_packet_laws) counter None "tcp" None
    [1; 2; 0; 3; 4; 5; 6; 7] (mkF newPool [] 0%nat) ∅ Hp) as [(ctx' & st' & Ew & Ep & E & _) _].
  exists ctx', st'. split; [exact Ew|]. split; [exact Ep|exact E].
Defined.

Lemma request_headers_witness :
  exists md, newRequestMetadata (RPacket (Some (mkPacket 1 2 false 3 4 (-5) [] 0))) = Ok md /\
    ParseInt (hc_Get md "obj") = Ok (-5).
Proof.
  destruct (request_headers (L := map_grpc_laws) (mkPacket 1 2 false 3 4 (-5) [] 0) []) as [(md & E & _ & _ & _ & _ & Ho) _];
    [cbn; lia..|].
  exists md. split; [exact E|exact Ho].
Defined.

Lemma TransformContext_copies_witness :
  exists md, TransformContext (Some (NewTransport "e" "o" (hc_Set MD_New CtxUID "7") MD_New)) = Ok (Some md) /\
    MD_Get md CtxUID = ["7"].
Proof.
  destruct (TransformContext_copies (L := map_grpc_laws) (NewTransport "e" "o" (hc_Set MD_New CtxUID "7") MD_New)) as (md & E & H).
  exists md. split; [exact E|]. rewrite (H CtxUID); [reflexivity|]. unfold Keys. set_solver.
Defined.
