(* ===== verification/Router.v ===== *)
(** The gateway's route table and the hooks that keep it:
    src/app/gate/internal/router/routetable.go and the two hooks of
    src/app/gate/internal/server/tcp.go.

    The table itself (vulcan-pkg-app over redis) is a class of operations with
    their documented behaviour as laws: the route of a user, per color, is the
    gRPC address of the gateway that holds the connection. *)
From S2P Require Import Prelude.

Class RouteTable := {
  RT : Type;
  GetSet : string -> Z -> string -> go RT string;
  DelIfSame : string -> Z -> string -> go RT unit;
  rt_route : RT -> string -> Z -> option string;
}.

Class RouteTableLaws (T : RouteTable) : Prop := {
  getset_ok : forall color oid addr t old t', GetSet color oid addr t = (Ok old, t') ->
    old = default EmptyString (rt_route t color oid) /\ rt_route t' color oid = Some addr;
  del_ok : forall color oid addr t t', DelIfSame color oid addr t = (Ok tt, t') ->
    (rt_route t color oid = Some addr -> rt_route t' color oid = None) /\
    (rt_route t color oid <> Some addr -> rt_route t' color oid = rt_route t color oid);
  (** whatever the outcome, no other user's route is touched *)
  getset_frame : forall color oid addr t r t' c o, GetSet color oid addr t = (r, t') ->
    (c, o) <> (color, oid) -> rt_route t' c o = rt_route t c o;
  del_frame : forall color oid addr t r t' c o, DelIfSame color oid addr t = (r, t') ->
    (c, o) <> (color, oid) -> rt_route t' c o = rt_route t c o;
}.

(** [context.Canceled], which [DelIfSame] may report. *)
Definition ctx_Canceled : error := ENew "context canceled" [].

Inductive route_log :=
  | ROld (color : string) (oid : Z) (addr : string)
  | RDelFailed (color : string) (oid : Z) (e : error).

Section router.
Context `{T : RouteTable}.

(** [RouteTable{routetable.NewRouteTable("gate", redis.NewRouteTable(d.Rdb))}] *)
Definition gate_table : string := "gate".

Record rstate := mkR { r_rt : RT; r_log : list route_log }.

Definition on_rt {A} (f : go RT A) : go rstate A := fun s =>
  let '(r, t) := f (r_rt s) in (r, mkR t (r_log s)).
Definition rlog (l : route_log) : go rstate unit := modify (fun s => mkR (r_rt s) (r_log s ++ [l])).

(** [AddRouteTable]; [ep] is [profile.GRPCEndpoint()]. *)
Definition AddRouteTable (ep color : string) (oid : Z) : go rstate unit :=
  oldAddr ← wrapping (fun e => EWrap e "add route table failed. color=%s oid=%d" [AS color; AZ oid])
              (on_rt (GetSet color oid ep));
  if (0 <? Z.of_nat (String.length oldAddr)) then rlog (ROld color oid oldAddr) else mret tt.

(** [DelRouteTable]: an error is logged, unless the context was cancelled. *)
Definition DelRouteTable (ep color : string) (uid : Z) : go rstate unit := fun s =>
  match on_rt (DelIfSame color uid ep) s with
  | (Err e, s') => if negb (error_is e ctx_Canceled) then (rlog (RDelFailed color uid e) ;; mret tt) s' else (Ok tt, s')
  | (Ok tt, s') => (Ok tt, s')
  | (Panic q, s') => (Panic q, s')
  end.

Definition afterConnectFunc (ep color : string) (uid : Z) : go rstate unit := AddRouteTable ep color uid.

Definition afterDisconnectFunc (ep color : string) (uid : Z) : go rstate unit := fun s =>
  match DelRouteTable ep color uid s with
  | (Panic q, s') => (Panic q, s')
  | (_, s') => (Ok tt, s')
  end.

(** ** Facts *)

Lemma AddRouteTable_route {L : RouteTableLaws T} ep color oid s s' : AddRouteTable ep color oid s = (Ok tt, s') ->
  rt_route (r_rt s') color oid = Some ep.
Proof.
  cbv [AddRouteTable mbind go_bind wrapping on_rt map_err].
  destruct (GetSet color oid ep (r_rt s)) as [[old|e|q] t] eqn:E; try discriminate.
  destruct (getset_ok _ _ _ _ _ _ E) as (_ & Hr).
  by destruct (0 <? _); cbv [rlog modify mret go_ret]; intros [= <-].
Qed.

(** Whatever happens, the hooks touch one user's route only. *)
Lemma AddRouteTable_frame {L : RouteTableLaws T} ep color oid s r s' c o : AddRouteTable ep color oid s = (r, s') ->
  (c, o) <> (color, oid) -> rt_route (r_rt s') c o = rt_route (r_rt s) c o.
Proof.
  cbv [AddRouteTable mbind go_bind wrapping on_rt map_err]. intros Ea Hne.
  destruct (GetSet color oid ep (r_rt s)) as [[old|e|q] t] eqn:E; pose proof (getset_frame _ _ _ _ _ _ _ _ E Hne) as Hf;
    [destruct (0 <? _)|..]; by injection Ea as <- <-.
Qed.

Lemma afterDisconnectFunc_frame {L : RouteTableLaws T} ep color oid s r s' c o :
  afterDisconnectFunc ep color oid s = (r, s') -> (c, o) <> (color, oid) ->
  rt_route (r_rt s') c o = rt_route (r_rt s) c o.
Proof.
  cbv [afterDisconnectFunc DelRouteTable on_rt]. intros Ea Hne.
  destruct (DelIfSame color oid ep (r_rt s)) as [[[]|e|q] t] eqn:E; pose proof (del_frame _ _ _ _ _ _ _ _ E Hne) as Hf;
    [|destruct (negb (error_is e ctx_Canceled))|]; by injection Ea as <- <-.
Qed.

Lemma DelRouteTable_route {L : RouteTableLaws T} ep color oid s t' :
  DelIfSame color oid ep (r_rt s) = (Ok tt, t') ->
  DelRouteTable ep color oid s = (Ok tt, mkR t' (r_log s)).
Proof. intros E. cbv [DelRouteTable on_rt]. by rewrite E. Qed.

Lemma afterDisconnectFunc_ok ep color uid s :
  (forall q, fst (DelIfSame color uid ep (r_rt s)) <> Panic q) -> fst (afterDisconnectFunc ep color uid s) = Ok tt.
Proof.
  intros Hn. cbv [afterDisconnectFunc DelRouteTable on_rt].
  destruct (DelIfSame color uid ep (r_rt s)) as [[[]|e|q] t]; [done| |by destruct (Hn q)].
  by destruct (negb (error_is e ctx_Canceled)).
Qed.
End router.

(** C32: A user who moves to another gateway keeps the new route: when gateway B
    has taken the user over, the teardown of the old connection on gateway A,
    whatever its outcome with a working table, leaves the route to B, and the
    hook returns nil. *)
Theorem route_handover `{T : RouteTable} {L : RouteTableLaws T} epA epB color uid s s' t' :
  epA <> epB ->
  afterConnectFunc epB color uid s = (Ok tt, s') ->
  DelIfSame color uid epA (r_rt s') = (Ok tt, t') ->
  exists s2, afterDisconnectFunc epA color uid s' = (Ok tt, s2) /\ rt_route (r_rt s2) color uid = Some epB.
Proof.
  intros Hne Ec Ed. unfold afterDisconnectFunc. rewrite (DelRouteTable_route _ _ _ _ _ Ed).
  eexists. split; [reflexivity|]. apply AddRouteTable_route in Ec as Hr.
  destruct (del_ok _ _ _ _ _ Ed) as (_ & Hk). cbn. rewrite Hk; [done|]. rewrite Hr. congruence.
Qed.

(** ** Witnesses: a table in memory *)

#[export] Instance map_routes : RouteTable := {|
  RT := gmap (string * Z) string;
  GetSet := fun c o a t => (Ok (default EmptyString (t !! (c, o))), <[(c, o) := a]> t);
  DelIfSame := fun c o a t => (Ok tt, if bool_decide (t !! (c, o) = Some a) then delete (c, o) t else t);
  rt_route := fun t c o => t !! (c, o);
|}.

Lemma map_routes_laws : RouteTableLaws map_routes.
Proof.
  split; cbn.
  - intros color oid addr t old t' [= <- <-]. split; [done|]. by rewrite lookup_insert_eq.
  - intros color oid addr t t' [= <-]. case_bool_decide as E; [|done]. split; [by rewrite lookup_delete_eq|done].
  - intros color oid addr t r t' c o [= _ <-] Hne. by rewrite lookup_insert_ne.
  - intros color oid addr t r t' c o [= _ <-] Hne. case_bool_decide; [by rewrite lookup_delete_ne|done].
Qed.

Lemma route_handover_witness :
  exists s', afterDisconnectFunc "10.0.0.1:9000" "red" 7
      (snd (afterConnectFunc "10.0.0.2:9000" "red" 7 (mkR {[("red", 7) := "10.0.0.1:9000"]} []))) = (Ok tt, s') /\
    rt_route (r_rt s') "red" 7 = Some "10.0.0.2:9000".
Proof.
  eapply (route_handover (L := map_routes_laws) "10.0.0.1:9000" "10.0.0.2:9000" "red" 7
           (mkR {[("red", 7) := "10.0.0.1:9000"]} [])); [discriminate|vm_compute; reflexivity|reflexivity].
Defined.
