(* ===== verification/Connections.v ===== *)
(** The connections of one gateway together: [accept] and [work] of
    src/pkg/net/tcp/server/server.go over the worker registry (Buckets.v) and
    the route table (Router.v).

    Server.v follows one connection through [work]; here many connections run
    [work] at once.  A connection is where its goroutine stands in [work]; each
    step is one call of [work] that touches what connections share, in any
    interleaving.  [env] says how others (gateways, expiry) may change the
    routes in between. *)
From S2P Require Import Prelude Buckets Server Router.

(** Where a connection's goroutine stands. *)
Inductive phase :=
  | Serving       (** accepted: [w.Start] has not returned *)
  | Started       (** before [putBucket] *)
  | Registered    (** before [afterConnectFunc] returns *)
  | Running       (** in [w.Run] *)
  | Leaving       (** the body is over: [buckets.Del] is next *)
  | Closing       (** [w.Stop] is next *)
  | Stopped.      (** [afterDisconnectFunc] is next *)

#[export] Instance phase_eq_dec : EqDecision phase.
Proof. solve_decision. Defined.

(** Between [Put] and [Del]. *)
Definition registered (p : phase) : bool :=
  match p with Registered | Running | Leaving => true | _ => false end.

(** The worker knows its user once [Start] has got through the handshake. *)
Record conn := mkC { c_phase : phase; c_w : wref; c_color : string }.

Definition goes (p : phase) (c : conn) : conn := mkC p (c_w c) (c_color c).

Section connections.
Context `{T : RouteTable} (ep : string).

Record world := mkWorld {
  idGen : Z;
  accepted : Z;                (** history: successful accepts *)
  conns : gmap Z conn;
  g_reg : bstate;
  g_routes : rstate;
}.

Definition upd (wid : Z) (c : conn) (s : world) : world :=
  mkWorld (idGen s) (accepted s) (<[wid := c]> (conns s)) (g_reg s) (g_routes s).
Definition set_reg (b : bstate) (s : world) : world := mkWorld (idGen s) (accepted s) (conns s) b (g_routes s).
Definition set_routes (r : rstate) (s : world) : world := mkWorld (idGen s) (accepted s) (conns s) (g_reg s) r.

(** A new worker: an object of its own, with the default session. *)
Definition new_conn (wid g : Z) (s : world) : world :=
  mkWorld g (accepted s + 1) (<[wid := mkC Serving (mkW (Z.to_nat wid) wid 0) EmptyString]> (conns s))
    (g_reg s) (g_routes s).

(** The end of [work]. *)
Definition gone (wid : Z) (s : world) : world :=
  mkWorld (idGen s) (accepted s) (delete wid (conns s)) (g_reg s) (g_routes s).

Definition user_of (c : conn) : string * Z := (c_color c, w_uid (c_w c)).

Inductive conn_step (env : world -> RT -> Prop) : world -> world -> Prop :=
  | CAccept wid g s : accept (Ok tt) (idGen s) = (Ok wid, g) -> conn_step env s (new_conn wid g s)
  | CStart wid c uid color s : conns s !! wid = Some c -> c_phase c = Serving ->
      conn_step env s (upd wid (mkC Started (mkW (w_ptr (c_w c)) (WID (c_w c)) uid) color) s)
  | CStartFail wid c uid color s : conns s !! wid = Some c -> c_phase c = Serving ->
      conn_step env s (upd wid (mkC Closing (mkW (w_ptr (c_w c)) (WID (c_w c)) uid) color) s)
  | CPut wid c ow b s : conns s !! wid = Some c -> c_phase c = Started -> Put (c_w c) (g_reg s) = (Ok ow, b) ->
      conn_step env s (set_reg b (upd wid (goes Registered c) s))
  | CConnect wid c r rs s : conns s !! wid = Some c -> c_phase c = Registered ->
      afterConnectFunc ep (c_color c) (w_uid (c_w c)) (g_routes s) = (r, rs) ->
      conn_step env s (set_routes rs (upd wid (goes (match r with Ok _ => Running | _ => Leaving end) c) s))
  | CRunEnd wid c s : conns s !! wid = Some c -> c_phase c = Running -> conn_step env s (upd wid (goes Leaving c) s)
  | CDel wid c b s : conns s !! wid = Some c -> c_phase c = Leaving -> Del (c_w c) (g_reg s) = (Ok tt, b) ->
      conn_step env s (set_reg b (upd wid (goes Closing c) s))
  | CStop wid c s : conns s !! wid = Some c -> c_phase c = Closing -> conn_step env s (upd wid (goes Stopped c) s)
  | CDisconnect wid c r rs s : conns s !! wid = Some c -> c_phase c = Stopped ->
      afterDisconnectFunc ep (c_color c) (w_uid (c_w c)) (g_routes s) = (r, rs) ->
      conn_step env s (set_routes rs (gone wid s))
  | CEnv t s : env s t -> conn_step env s (set_routes (mkR t (r_log (g_routes s))) s).

(** A gateway whose registry [NewBuckets] has just made. *)
Definition conn_init (s : world) : Prop :=
  idGen s = 0 /\ accepted s = 0 /\ conns s = ∅ /\
  exists n ws b, 0 < n < 2 ^ 32 /\ NewBuckets n ws = Ok b /\ g_reg s = mkB b ∅.

(** ** The registry tracks the connections *)

Definition tracks (m : spec) (cs : gmap Z conn) : Prop := forall k w,
  m.1 !! k = Some w <-> exists c, cs !! k = Some c /\ registered (c_phase c) = true /\ c_w c = w.

Record conn_inv (s : world) (m : spec) : Prop := {
  cn_shards : shards (g_reg s) m;
  cn_tracks : tracks m (conns s);
  cn_uids : uids_ok m;
  cn_ids : forall k c, conns s !! k = Some c -> 0 < k <= idGen s /\ WID (c_w c) = k /\ w_ptr (c_w c) = Z.to_nat k;
  cn_gen : 0 <= idGen s /\ idGen s = accepted s;
}.

(** Replacing one connection by another on the same side of the registry. *)
Lemma tracks_keep m cs k c c' : tracks m cs -> cs !! k = Some c ->
  registered (c_phase c') = registered (c_phase c) -> (registered (c_phase c) = true -> c_w c' = c_w c) ->
  tracks m (<[k := c']> cs).
Proof.
  intros Ht Hk Hp Hw j w. rewrite (Ht j w). destruct (decide (j = k)) as [->|Hne].
  - rewrite lookup_insert_eq, Hk. split; intros (x & Hx & Hr & <-); simplify_eq.
    + exists c'. rewrite Hp. split; [done|]. split; [done|by apply Hw].
    + exists c. rewrite <- Hp. split; [done|]. split; [done|]. symmetry. apply Hw. congruence.
  - by rewrite lookup_insert_ne.
Qed.

Lemma tracks_not m cs k c : tracks m cs -> cs !! k = Some c -> registered (c_phase c) = false -> m.1 !! k = None.
Proof. intros Ht Hk Hf. destruct (m.1 !! k) as [w|] eqn:E; [|done]. apply Ht in E as (? & ? & ? & _). congruence. Qed.

Lemma tracks_put m cs k c c' : tracks m cs -> cs !! k = Some c ->
  registered (c_phase c') = true -> c_w c' = c_w c -> WID (c_w c) = k -> tracks (spec_put (c_w c) m) (<[k := c']> cs).
Proof.
  intros Ht Hk Hr Hw Hid j w. cbn [spec_put fst]. rewrite Hid. destruct (decide (j = k)) as [->|Hne].
  - rewrite !lookup_insert_eq. split; [intros [= <-]; eauto|]. by intros (x & [= <-] & _ & <-); rewrite Hw.
  - rewrite !lookup_insert_ne by done. apply Ht.
Qed.

Lemma spec_del_at w m : m.1 !! WID w = Some w -> spec_del w m = (delete (WID w) m.1, delete (w_uid w) m.2).
Proof. intros E. unfold spec_del, same_worker. by rewrite E, Nat.eqb_refl. Qed.

Lemma tracks_del m cs k c c' : tracks m cs -> cs !! k = Some c -> registered (c_phase c) = true ->
  registered (c_phase c') = false -> WID (c_w c) = k -> tracks (spec_del (c_w c) m) (<[k := c']> cs).
Proof.
  intros Ht Hk Hr Hf Hid j w. rewrite spec_del_at by (rewrite Hid; apply Ht; eauto). cbn [fst]. rewrite Hid.
  destruct (decide (j = k)) as [->|Hne].
  - rewrite lookup_delete_eq, lookup_insert_eq. split; [done|]. intros (x & [= <-] & ? & _). congruence.
  - rewrite lookup_delete_ne, lookup_insert_ne by done. apply Ht.
Qed.

Lemma tracks_gone m cs k c : tracks m cs -> cs !! k = Some c -> registered (c_phase c) = false -> tracks m (delete k cs).
Proof.
  intros Ht Hk Hf j w. rewrite (Ht j w). destruct (decide (j = k)) as [->|Hne]; [|by rewrite lookup_delete_ne].
  rewrite lookup_delete_eq, Hk. split; [|by intros (? & ? & _)]. intros (x & [= <-] & ? & _). congruence.
Qed.

Lemma tracks_new m cs k c : tracks m cs -> cs !! k = None -> registered (c_phase c) = false -> tracks m (<[k := c]> cs).
Proof.
  intros Ht Hk Hf j w. rewrite (Ht j w). destruct (decide (j = k)) as [->|Hne]; [|by rewrite lookup_insert_ne].
  rewrite lookup_insert_eq, Hk. split; [by intros (? & ? & _)|]. intros (x & [= <-] & ? & _). congruence.
Qed.

(** A step of one connection keeps what is known of the ids. *)
Lemma ids_upd s k c c' : (forall k c, conns s !! k = Some c -> 0 < k <= idGen s /\ WID (c_w c) = k /\ w_ptr (c_w c) = Z.to_nat k) ->
  conns s !! k = Some c -> WID (c_w c') = WID (c_w c) -> w_ptr (c_w c') = w_ptr (c_w c) ->
  forall j x, <[k := c']> (conns s) !! j = Some x -> 0 < j <= idGen s /\ WID (c_w x) = j /\ w_ptr (c_w x) = Z.to_nat j.
Proof.
  intros H Hk Hw Hp j x Hx. apply lookup_insert_Some in Hx as [[<- <-]|[_ Hx]]; [|by apply H].
  rewrite Hw, Hp. by apply (H k c).
Qed.

Lemma accept_ok g wid g' : accept (Ok tt) g = (Ok wid, g') -> wid = uint64 (g + 1) /\ g' = wid.
Proof. unfold accept, Inc. cbv [mbind go_bind lift map_err]. by intros [= <- <-]. Qed.

Lemma conn_step_inv env s s' m : conn_step env s s' -> conn_inv s m -> accepted s' < 2 ^ 64 ->
  exists m', conn_inv s' m' /\ accepted s <= accepted s'.
Proof.
  intros Hs [Hsh Ht Hu Hi Hg] Ha. destruct Hs as [wid g s E|wid c uid col s Hk Hp|wid c uid col s Hk Hp|wid c ow b s Hk Hp E
    |wid c r rs s Hk Hp E|wid c s Hk Hp|wid c b s Hk Hp E|wid c s Hk Hp|wid c r rs s Hk Hp E|t s He]; cbn in Ha.
  - apply accept_ok in E as [-> ->]. rewrite wrapU_id by lia.
    assert (conns s !! (idGen s + 1) = None) as Hn.
    { destruct (conns s !! (idGen s + 1)) as [c|] eqn:Hc; [|done]. destruct (Hi _ _ Hc) as [? _]. lia. }
    exists m. split; [|cbn; lia]. split; cbn; try done; [by apply tracks_new| |lia].
    intros k c Hk. apply lookup_insert_Some in Hk as [[<- <-]|[_ Hk]]; [cbn; lia|].
    destruct (Hi k c Hk) as (? & ? & ?). split; [lia|done].
  - exists m. split; [|cbn; lia]. split; cbn; try done; [|by eapply ids_upd].
    eapply tracks_keep; [exact Ht|exact Hk|cbn; by rewrite Hp|cbn; by rewrite Hp].
  - exists m. split; [|cbn; lia]. split; cbn; try done; [|by eapply ids_upd].
    eapply tracks_keep; [exact Ht|exact Hk|cbn; by rewrite Hp|cbn; by rewrite Hp].
  - destruct (Hi _ _ Hk) as (_ & Hid & _). destruct (Put_spec (c_w c) _ _ Hsh) as (b' & E' & Hb).
    rewrite E in E'. injection E' as _ <-. exists (spec_put (c_w c) m). split; [|cbn; lia].
    split; cbn; try done; [by eapply tracks_put| |by eapply ids_upd].
    apply uids_ok_put; [done|]. rewrite Hid. eapply tracks_not; [exact Ht|exact Hk|by rewrite Hp].
  - exists m. split; [|cbn; lia]. split; cbn; try done; [|by eapply ids_upd].
    eapply tracks_keep; [exact Ht|exact Hk|cbn; rewrite Hp; by destruct r|done].
  - exists m. split; [|cbn; lia]. split; cbn; try done; [|by eapply ids_upd].
    eapply tracks_keep; [exact Ht|exact Hk|cbn; by rewrite Hp|done].
  - destruct (Hi _ _ Hk) as (_ & Hid & _). destruct (Del_spec (c_w c) _ _ Hsh) as (b' & E' & Hb).
    rewrite E in E'. injection E' as <-. exists (spec_del (c_w c) m). split; [|cbn; lia].
    split; cbn; try done; [|by apply uids_ok_del|by eapply ids_upd].
    eapply tracks_del; [exact Ht|exact Hk|by rewrite Hp|done|done].
  - exists m. split; [|cbn; lia]. split; cbn; try done; [|by eapply ids_upd].
    eapply tracks_keep; [exact Ht|exact Hk|cbn; by rewrite Hp|done].
  - exists m. split; [|cbn; lia]. split; cbn; try done.
    + eapply tracks_gone; [exact Ht|exact Hk|by rewrite Hp].
    + intros k x Hx. apply lookup_delete_Some in Hx as [_ Hx]. by apply Hi.
  - by exists m.
Qed.

Lemma conn_init_inv s : conn_init s -> conn_inv s (∅, ∅).
Proof.
  intros (E1 & E2 & E3 & n & ws & b & Hn & Eb & Er). destruct (NewBuckets_shards n ws Hn) as (b' & Eb' & Hb).
  assert (b' = b) as -> by congruence. split.
  - by rewrite Er.
  - intros k w. cbn. rewrite E3, !lookup_empty. split; [done|]. by intros (? & ? & _).
  - split; intros ? ?; cbn; by rewrite lookup_empty.
  - intros k c. by rewrite E3, lookup_empty.
  - lia.
Qed.

Lemma conn_reachable_inv env s : reachable conn_init (conn_step env) s -> accepted s < 2 ^ 64 -> exists m, conn_inv s m.
Proof.
  intros Hr. induction Hr as [s Hi|s s' Hr IH Hs]; intros Ha; [eexists; by apply conn_init_inv|].
  assert (accepted s <= accepted s') as Hle by (destruct Hs; cbn; lia).
  destruct (IH ltac:(lia)) as [m Hm]. destruct (conn_step_inv env s s' m Hs Hm Ha) as (m' & Hm' & _). by exists m'.
Qed.
End connections.

Lemma registry_worker `{T : RouteTable} (s : world) m k : conn_inv s m ->
  Buckets.Worker (bs (g_reg s)) k = Ok (c ← conns s !! k; if registered (c_phase c) then Some (c_w c) else None).
Proof.
  intros [Hsh Ht Hu Hi Hg]. rewrite (Worker_spec _ _ k Hsh). f_equal. destruct (conns s !! k) as [c|] eqn:Ec; cbn.
  - destruct (registered (c_phase c)) eqn:Er; [|by eapply tracks_not]. apply Ht. eauto.
  - destruct (m.1 !! k) as [w|] eqn:E; [|done]. apply Ht in E as (? & ? & _). congruence.
Qed.

Lemma registry_user `{T : RouteTable} (s : world) m uid k : conn_inv s m -> uidWidMap (g_reg s) !! uid = Some k ->
  exists c, conns s !! k = Some c /\ registered (c_phase c) = true /\ w_uid (c_w c) = uid.
Proof.
  intros [Hsh Ht Hu Hi Hg] E. rewrite (sh_uid _ _ Hsh) in E. destruct (proj2 Hu _ _ E) as (w & Ew & <-).
  apply Ht in Ew as (c & ? & ? & <-). eauto.
Qed.

(** An id that was given out and is not in use is not used again. *)
Lemma ids_never_return `{T : RouteTable} ep env (s s' : world) m k :
  rtc (conn_step ep env) s s' -> conn_inv s m -> accepted s' < 2 ^ 64 -> k <= accepted s -> conns s !! k = None -> conns s' !! k = None.
Proof.
  intros Hr. revert m. induction Hr as [s|s s1 s' Hs Hr IH]; intros m Hm Ha Hk Hn; [done|].
  assert (accepted s1 <= accepted s') as Hle.
  { clear -Hr. induction Hr as [s|s s1 s2 Hs _ IH]; [lia|]. etrans; [|exact IH]. by destruct Hs; cbn; lia. }
  destruct (conn_step_inv ep env s s1 m Hs Hm ltac:(lia)) as (m1 & Hm1 & Hmono).
  apply (IH m1); [done|done|lia|]. destruct Hs; cbn in *; try done; try (by rewrite lookup_insert_ne by congruence).
  - destruct (cn_gen _ _ Hm). apply accept_ok in H as [-> ->]. rewrite wrapU_id by lia. by rewrite lookup_insert_ne by lia.
  - apply lookup_delete_None. by right.
Qed.

(** C7: The registry is the set of connections being served: with any number of
    connections going through [work] at once, in any interleaving and whatever
    fails, the registry holds under an id exactly the worker of the connection
    that is between [putBucket] and the deferred [Del], and the worker's own id
    is that one; every entry of the user index is a registered connection of
    that user; and once all connections are gone the registry is empty.  Ids do
    not repeat: the n-th accepted connection gets the id n, and an id whose
    connection is gone never comes back (up to 2^64 accepted connections). *)
Theorem registry_tracks `{T : RouteTable} ep env (s : world) :
  reachable conn_init (conn_step ep env) s -> accepted s < 2 ^ 64 ->
  (forall k, Buckets.Worker (bs (g_reg s)) k =
    Ok (c ← conns s !! k; if registered (c_phase c) then Some (c_w c) else None)) /\
  (forall uid k, uidWidMap (g_reg s) !! uid = Some k ->
    exists c, conns s !! k = Some c /\ registered (c_phase c) = true /\ w_uid (c_w c) = uid) /\
  (conns s = ∅ -> forall k, Buckets.Worker (bs (g_reg s)) k = Ok None) /\
  (forall k c, conns s !! k = Some c -> WID (c_w c) = k /\ 0 < k <= accepted s) /\
  (forall wid g, accept (Ok tt) (idGen s) = (Ok wid, g) -> accepted s + 1 < 2 ^ 64 -> wid = accepted s + 1) /\
  (forall k s', rtc (conn_step ep env) s s' -> accepted s' < 2 ^ 64 -> k <= accepted s -> conns s !! k = None ->
    conns s' !! k = None).
Proof.
  intros Hr Ha. destruct (conn_reachable_inv ep env s Hr Ha) as [m Hm]. pose proof (cn_gen _ _ Hm) as [Hg0 Hg].
  split; [intros k; by eapply registry_worker|]. split; [intros uid k; by eapply registry_user|].
  split; [intros E k; by rewrite (registry_worker s m k Hm), E, lookup_empty|]. split; [|split].
  - intros k c Hk. destruct (cn_ids _ _ Hm k c Hk) as (? & ? & _). by rewrite <- Hg.
  - intros wid g E Hlt. apply accept_ok in E as [-> _]. rewrite wrapU_id; lia.
  - intros k s' Hs Ha' Hle Hn. by apply (ids_never_return ep env s s' m).
Qed.

(** ** One user *)

Section user.
Context `{T : RouteTable} {L : RouteTableLaws T} (ep : string) (uid : Z).

(** At most one connection has got the user through its handshake. *)
Definition one_user (s : world) : Prop := forall k1 k2 c1 c2,
  conns s !! k1 = Some c1 -> conns s !! k2 = Some c2 -> c_phase c1 <> Serving -> c_phase c2 <> Serving ->
  w_uid (c_w c1) = uid -> w_uid (c_w c2) = uid -> k1 = k2.

(** Nobody else touches the user's route. *)
Definition others_leave (s : world) (t : RT) : Prop := forall color,
  rt_route t color uid = rt_route (r_rt (g_routes s)) color uid.

(** The runs in which the user is never connected twice. *)
Definition user_step (s s' : world) : Prop := conn_step ep others_leave s s' /\ one_user s'.

Record user_inv (s : world) : Prop := {
  ui_uid : forall k c, conns s !! k = Some c -> registered (c_phase c) = true -> w_uid (c_w c) = uid ->
    uidWidMap (g_reg s) !! uid = Some k;
  ui_route : forall k c, conns s !! k = Some c -> c_phase c = Running -> w_uid (c_w c) = uid ->
    rt_route (r_rt (g_routes s)) (c_color c) uid = Some ep;
}.

(** A connection that changes phase without reaching [Registered]/[Running]. *)
Lemma user_inv_upd s k c c' : user_inv s -> conns s !! k = Some c ->
  (registered (c_phase c') = true -> registered (c_phase c) = true /\ c_w c' = c_w c) ->
  c_phase c' <> Running -> user_inv (upd k c' s).
Proof.
  intros [Hu Hr] Hk Hp Hn. split; cbn; intros j x Hx; apply lookup_insert_Some in Hx as [[<- <-]|[Hne Hx]].
  - intros Hreg Hw. destruct (Hp Hreg) as [Hreg' Hw']. eapply Hu; [exact Hk|done|congruence].
  - by apply (Hu j x).
  - done.
  - by apply (Hr j x).
Qed.

Lemma Put_uids w b ow b' : Put w b = (Ok ow, b') -> uidWidMap b' = <[w_uid w := WID w]> (uidWidMap b).
Proof. unfold Put. destruct (bucket_idx (bs b) (WID w)); [|done..]. by intros [= _ <-]. Qed.

(** [Del] of a worker the registry has. *)
Lemma Del_uids w b b' m : shards b m -> m.1 !! WID w = Some w -> Del w b = (Ok tt, b') ->
  uidWidMap b' = delete (w_uid w) (uidWidMap b).
Proof.
  intros Hsh Hm E. destruct (Del_spec w b m Hsh) as (b1 & E1 & H1). assert (b1 = b') as -> by congruence.
  by rewrite (sh_uid _ _ H1), (sh_uid _ _ Hsh), spec_del_at.
Qed.

Lemma user_step_inv s s' m : user_step s s' -> conn_inv s m -> one_user s -> user_inv s -> user_inv s'.
Proof.
  intros [Hs Ho'] Hc Ho H. pose proof Hc as [Hsh Ht Hu Hi Hg].
  destruct Hs as [wid g s E|wid c u col s Hk Hp|wid c u col s Hk Hp|wid c ow b s Hk Hp E
    |wid c r rs s Hk Hp E|wid c s Hk Hp|wid c b s Hk Hp E|wid c s Hk Hp|wid c r rs s Hk Hp E|t s He].
  - destruct H as [H1 H2]. split; cbn; intros j x Hx; apply lookup_insert_Some in Hx as [[<- <-]|[Hne Hx]];
      [done|by apply (H1 j x)|done|by apply (H2 j x)].
  - by apply (user_inv_upd s wid c).
  - by apply (user_inv_upd s wid c).
  - destruct (Hi _ _ Hk) as (_ & Hid & _). destruct H as [H1 H2].
    split; cbn; intros j x Hx; apply lookup_insert_Some in Hx as [[<- <-]|[Hne Hx]].
    + intros _ Hw. cbn in Hw. rewrite (Put_uids _ _ _ _ E), Hid, Hw. by rewrite lookup_insert_eq.
    + intros Hr Hw. rewrite (Put_uids _ _ _ _ E). rewrite lookup_insert_ne; [by apply (H1 j x)|]. intros Hcu.
      apply Hne. eapply (Ho wid j c x); try done; [by rewrite Hp|]. intros Hs. by rewrite Hs in Hr.
    + done.
    + by apply (H2 j x).
  - destruct H as [H1 H2]. split; cbn; intros j x Hx; apply lookup_insert_Some in Hx as [[<- <-]|[Hne Hx]].
    + intros _ Hw. cbn in Hw. eapply H1; [exact Hk|by rewrite Hp|done].
    + by apply (H1 j x).
    + cbn. intros Hph Hw. destruct r as [[]|e|q]; try done. rewrite <- Hw. by eapply AddRouteTable_route.
    + intros Hph Hw. rewrite (AddRouteTable_frame _ _ _ _ _ _ _ _ E); [by apply (H2 j x)|]. intros [= _ Hcu].
      apply Hne. eapply (Ho wid j c x); try done; [by rewrite Hp|by rewrite Hph].
  - eapply user_inv_upd; [done|exact Hk|cbn; by rewrite Hp|done].
  - destruct (Hi _ _ Hk) as (_ & Hid & _).
    assert (m.1 !! WID (c_w c) = Some (c_w c)) as Hm by (rewrite Hid; apply Ht; exists c; by rewrite Hp).
    destruct H as [H1 H2]. split; cbn; intros j x Hx; apply lookup_insert_Some in Hx as [[<- <-]|[Hne Hx]]; try done.
    + intros Hr Hw. rewrite (Del_uids _ _ _ _ Hsh Hm E). rewrite lookup_delete_ne; [by apply (H1 j x)|]. intros Hcu.
      apply Hne. eapply (Ho wid j c x); try done; [by rewrite Hp|]. intros Hs. by rewrite Hs in Hr.
    + by apply (H2 j x).
  - by apply (user_inv_upd s wid c).
  - destruct H as [H1 H2]. split; cbn; intros j x Hx; apply lookup_delete_Some in Hx as [Hne Hx]; [by apply (H1 j x)|].
    intros Hph Hw. rewrite (afterDisconnectFunc_frame _ _ _ _ _ _ _ _ E); [by apply (H2 j x)|]. intros [= _ Hcu].
    apply Hne. eapply (Ho wid j c x); try done; [by rewrite Hp|by rewrite Hph].
  - destruct H as [H1 H2]. split; cbn; intros j x Hx; [by apply (H1 j x)|]. intros Hph Hw. rewrite He. by apply (H2 j x).
Qed.

Lemma user_reachable_inv s : reachable conn_init user_step s -> accepted s < 2 ^ 64 ->
  one_user s /\ user_inv s /\ exists m, conn_inv s m.
Proof.
  intros Hr. induction Hr as [s Hi|s s' Hr IH Hs]; intros Ha.
  - pose proof Hi as (_ & _ & E & _). split; [|split; [|eexists; by apply conn_init_inv]].
    + intros k1 k2 c1 c2 H. by rewrite E, lookup_empty in H.
    + split; intros k c; by rewrite E, lookup_empty.
  - assert (accepted s <= accepted s') as Hle by (destruct Hs as [Hs _]; destruct Hs; cbn; lia).
    destruct (IH ltac:(lia)) as (Ho & Hu & m & Hm). pose proof Hs as [Hc Ho'].
    destruct (conn_step_inv ep _ s s' m Hc Hm Ha) as (m' & Hm' & _).
    split; [done|]. split; [by eapply user_step_inv|by exists m'].
Qed.
End user.

(** C8: A user who is never connected twice can be reached all the time: in
    every run in which at most one connection at a time has got the user
    through its handshake and nobody else changes the user's route, whatever
    other users' connections do, a lookup by user id finds the user's worker
    from its registration to its removal, and while the connection runs the
    route table names this gateway. *)
Theorem single_user_reachable `{T : RouteTable} {L : RouteTableLaws T} ep uid (s : world) k c :
  reachable conn_init (user_step ep uid) s -> accepted s < 2 ^ 64 ->
  conns s !! k = Some c -> w_uid (c_w c) = uid ->
  (registered (c_phase c) = true -> GetByUID uid (g_reg s) = Ok (Some (c_w c))) /\
  (c_phase c = Running -> rt_route (r_rt (g_routes s)) (c_color c) uid = Some ep).
Proof.
  intros Hr Ha Hk Hw. destruct (user_reachable_inv ep uid s Hr Ha) as (_ & [H1 H2] & m & [Hsh Ht Hu _ _]).
  split; [|intros; by apply (H2 k c)].
  intros Hreg. rewrite (GetByUID_spec uid _ m Hsh Hu), <- (sh_uid _ _ Hsh), (H1 k c Hk Hreg Hw). cbn. f_equal.
  apply Ht. eauto.
Qed.

(** ** A user who connects again *)

Section again.
Context `{T : RouteTable} {L : RouteTableLaws T} (ep : string) (env : world -> RT -> Prop) (color : string) (uid : Z).

(** The route table is up. *)
Definition table_up : Prop := forall t,
  (exists old t', GetSet color uid ep t = (Ok old, t')) /\ (exists t', DelIfSame color uid ep t = (Ok tt, t')).

Hypothesis up : table_up.

Lemma AddRouteTable_up rs : exists rs', afterConnectFunc ep color uid rs = (Ok tt, rs') /\
  rt_route (r_rt rs') color uid = Some ep.
Proof.
  destruct (up (r_rt rs)) as [(old & t' & E) _].
  assert (exists rs', afterConnectFunc ep color uid rs = (Ok tt, rs')) as [rs' E'].
  { cbv [afterConnectFunc AddRouteTable mbind go_bind wrapping on_rt map_err]. rewrite E. cbv [rlog modify mret go_ret].
    destruct (0 <? _); by eexists. }
  exists rs'. split; [done|]. by eapply AddRouteTable_route.
Qed.

Lemma DelRouteTable_up rs : exists rs', afterDisconnectFunc ep color uid rs = (Ok tt, rs') /\
  (rt_route (r_rt rs) color uid = Some ep -> rt_route (r_rt rs') color uid = None).
Proof.
  destruct (up (r_rt rs)) as [_ (t' & E)]. exists (mkR t' (r_log rs)).
  split; [unfold afterDisconnectFunc; by rewrite (DelRouteTable_route _ _ _ _ _ E)|]. by apply (del_ok _ _ _ _ _ E).
Qed.

(** A connection of the user can be accepted and get to [Run]. *)
Lemma connection_opens s m : conn_inv s m -> accepted s + 1 < 2 ^ 64 ->
  exists s' c, rtc (conn_step ep env) s s' /\ accepted s' = accepted s + 1 /\
    conns s' = <[accepted s + 1 := c]> (conns s) /\ c_phase c = Running /\ w_uid (c_w c) = uid /\ c_color c = color /\
    rt_route (r_rt (g_routes s')) color uid = Some ep.
Proof.
  intros Hm Ha. destruct (cn_gen _ _ Hm) as [Hg0 Hg]. rewrite <- Hg.
  pose (k := idGen s + 1). pose (w := mkW (Z.to_nat k) k uid).
  assert (accept (Ok tt) (idGen s) = (Ok k, k)) as E by (cbv [accept Inc mbind go_bind lift map_err]; by rewrite wrapU_id by lia).
  destruct (Put_spec w (g_reg s) m (cn_shards _ _ Hm)) as (b & Eb & _). destruct (AddRouteTable_up (g_routes s)) as (rs & Er & Hr).
  pose (s1 := new_conn k k s). pose (s2 := upd k (mkC Started w color) s1). pose (s3 := set_reg b (upd k (mkC Registered w color) s2)).
  exists (set_routes rs (upd k (mkC Running w color) s3)), (mkC Running w color). split; [|split; [by cbn; lia|split; [|done]]].
  - eapply (rtc_l _ s s1); [by apply CAccept|].
    eapply (rtc_l _ s1 s2); [apply (CStart ep env k (mkC Serving (mkW (Z.to_nat k) k 0) EmptyString) uid color s1); [|done];
      apply lookup_insert_eq|].
    eapply (rtc_l _ s2 s3); [eapply (CPut ep env k (mkC Started w color) _ b s2); [apply lookup_insert_eq|done|exact Eb]|].
    apply rtc_once. apply (CConnect ep env k (mkC Registered w color) (Ok tt) rs s3); [apply lookup_insert_eq|done|exact Er].
  - cbn. by rewrite !insert_insert_eq.
Qed.

(** A running connection of the user can end; the user is then gone from the
    index, and from the route table if the table named this gateway. *)
Lemma connection_ends s m k c : conn_inv s m -> conns s !! k = Some c -> c_phase c = Running ->
  w_uid (c_w c) = uid -> c_color c = color -> accepted s < 2 ^ 64 ->
  exists s', rtc (conn_step ep env) s s' /\ accepted s' = accepted s /\ conns s' = delete k (conns s) /\
    uidWidMap (g_reg s') !! uid = None /\
    (rt_route (r_rt (g_routes s)) color uid = Some ep -> rt_route (r_rt (g_routes s')) color uid = None).
Proof.
  intros Hm Hk Hp Hu Hc Ha. pose proof Hm as [Hsh Ht _ Hi _]. destruct (Hi _ _ Hk) as (_ & Hid & _).
  assert (m.1 !! WID (c_w c) = Some (c_w c)) as Hmc by (rewrite Hid; apply Ht; exists c; by rewrite Hp).
  destruct (Del_spec (c_w c) (g_reg s) m Hsh) as (b & Eb & _). destruct (DelRouteTable_up (g_routes s)) as (rs & Er & Hr).
  pose (s1 := upd k (goes Leaving c) s). pose (s2 := set_reg b (upd k (goes Closing c) s1)). pose (s3 := upd k (goes Stopped c) s2).
  exists (set_routes rs (gone k s3)). split; [|split; [done|split; [|split; [|exact Hr]]]].
  - eapply (rtc_l _ s s1); [by apply CRunEnd|].
    eapply (rtc_l _ s1 s2); [by eapply (CDel ep env k (goes Leaving c) b s1); [apply lookup_insert_eq|..]|].
    eapply (rtc_l _ s2 s3); [by apply (CStop ep env k (goes Closing c) s2); [apply lookup_insert_eq|]|].
    apply rtc_once, (CDisconnect ep env k (goes Stopped c) (Ok tt)); [apply lookup_insert_eq|done|]. by rewrite <- Hu, <- Hc in Er.
  - cbn. by rewrite !delete_insert_eq.
  - cbn. rewrite (Del_uids _ _ _ _ Hsh Hmc Eb), Hu. apply lookup_delete_eq.
Qed.
End again.

(** C33: A user who reconnects to the same gateway becomes unreachable: whenever
    a connection of a user runs, the user can connect again before it ends and
    get to [Run] on the same gateway; the old connection's teardown then takes
    the user's route and the user's index entry away although the new
    connection goes on running, with its worker in the registry. *)
Theorem reconnect_loses_route `{T : RouteTable} {L : RouteTableLaws T} ep env (s : world) k c :
  reachable conn_init (conn_step ep env) s -> accepted s + 1 < 2 ^ 64 ->
  conns s !! k = Some c -> c_phase c = Running -> table_up ep (c_color c) (w_uid (c_w c)) ->
  exists s' k' c', rtc (conn_step ep env) s s' /\ conns s' !! k = None /\ conns s' !! k' = Some c' /\
    c_phase c' = Running /\ w_uid (c_w c') = w_uid (c_w c) /\ c_color c' = c_color c /\
    Buckets.Worker (bs (g_reg s')) k' = Ok (Some (c_w c')) /\
    GetByUID (w_uid (c_w c)) (g_reg s') = Ok None /\
    rt_route (r_rt (g_routes s')) (c_color c) (w_uid (c_w c)) = None.
Proof.
  intros Hr Ha Hk Hp Hup. destruct (conn_reachable_inv ep env s Hr ltac:(lia)) as [m Hm].
  destruct (cn_ids _ _ Hm k c Hk) as (Hid & _). destruct (cn_gen _ _ Hm) as [_ Hg].
  destruct (connection_opens ep env _ _ Hup s m Hm Ha) as (s1 & c' & R1 & A1 & E1 & Hp' & Hu' & Hc' & Hr1).
  pose proof (reachable_rtc _ _ _ _ Hr R1) as Hreach1. destruct (conn_reachable_inv ep env s1 Hreach1 ltac:(lia)) as [m1 Hm1].
  destruct (connection_ends ep env _ _ Hup s1 m1 k c Hm1) as (s2 & R2 & A2 & E2 & Hn & Hr2);
    [rewrite E1, lookup_insert_ne by lia; done|done..|lia|].
  destruct (conn_reachable_inv ep env s2 (reachable_rtc _ _ _ _ Hreach1 R2) ltac:(lia)) as [m2 Hm2].
  assert (conns s2 !! (accepted s + 1) = Some c') as Hk2 by (rewrite E2, E1, lookup_delete_ne by lia; apply lookup_insert_eq).
  exists s2, (accepted s + 1), c'. split; [by etrans|]. split; [rewrite E2; apply lookup_delete_eq|].
  split; [done|]. do 3 (split; [done|]). split; [by rewrite (registry_worker _ _ _ Hm2), Hk2; cbn; rewrite Hp'|].
  split; [|by apply Hr2]. unfold GetByUID, GetByUID_env. by rewrite Hn.
Qed.

(** *** Witnesses: two connections of two users; the first runs, the second is
    about to leave after its connect hook failed *)

Definition demo_gate : string := "10.0.0.1:9000".
Definition demo_w1 : wref := mkW 1 1 100.

Definition cw0 : world := mkWorld 0 0 ∅ (mkB (mkBuckets (replicate 4 ∅) 4) ∅) (mkR (∅ : gmap (string * Z) string) []).
Definition cw1 : world := new_conn 1 1 cw0.
Definition cw2 : world := upd 1 (mkC Started demo_w1 "red") cw1.
Definition cw3 : world := set_reg (snd (Put demo_w1 (g_reg cw2))) (upd 1 (mkC Registered demo_w1 "red") cw2).
Definition cw4 : world :=
  set_routes (snd (afterConnectFunc demo_gate "red" 100 (g_routes cw3))) (upd 1 (mkC Running demo_w1 "red") cw3).

Lemma cw0_init : conn_init cw0.
Proof. do 3 (split; [done|]). exists 4, 16. eexists. split; [lia|]. by split. Qed.

Lemma cw_steps env : conn_step demo_gate env cw0 cw1 /\ conn_step demo_gate env cw1 cw2 /\
  conn_step demo_gate env cw2 cw3 /\ conn_step demo_gate env cw3 cw4.
Proof.
  split; [by apply CAccept|]. split; [by apply (CStart _ _ 1 (mkC Serving (mkW 1 1 0) EmptyString) 100 "red")|].
  split; [eapply (CPut _ _ 1 (mkC Started demo_w1 "red") None); reflexivity|].
  eapply (CConnect _ _ 1 (mkC Registered demo_w1 "red") (Ok tt)); reflexivity.
Qed.

Lemma registry_tracks_witness :
  Buckets.Worker (bs (g_reg cw4)) 1 = Ok (Some demo_w1) /\ Buckets.Worker (bs (g_reg cw4)) 2 = Ok None.
Proof.
  destruct (cw_steps (fun _ _ => True)) as (S1 & S2 & S3 & S4).
  pose proof (reach_init conn_init (conn_step demo_gate (fun _ _ => True)) cw0 cw0_init) as H0.
  pose proof (reach_step _ _ _ _ H0 S1) as H1. pose proof (reach_step _ _ _ _ H1 S2) as H2.
  pose proof (reach_step _ _ _ _ H2 S3) as H3. pose proof (reach_step _ _ _ _ H3 S4) as H4.
  destruct (registry_tracks demo_gate (fun _ _ => True) cw4 H4 ltac:(cbn; lia)) as [Hw _].
  split; rewrite Hw; reflexivity.
Defined.

Lemma one_user_single uid (s : world) k : (forall j c, conns s !! j = Some c -> j = k) -> one_user uid s.
Proof. intros E k1 k2 c1 c2 H1 H2 _ _ _ _. by rewrite (E _ _ H1), (E _ _ H2). Qed.

Ltac one_connection := apply (one_user_single _ _ 1); intros j c; cbn [conns upd set_reg set_routes new_conn cw0 cw1 cw2 cw3 cw4];
  rewrite !lookup_insert_Some, ?lookup_empty; naive_solver.

Lemma single_user_reachable_witness :
  GetByUID 100 (g_reg cw4) = Ok (Some demo_w1) /\ rt_route (r_rt (g_routes cw4)) "red" 100 = Some demo_gate.
Proof.
  destruct (cw_steps (others_leave 100)) as (S1 & S2 & S3 & S4).
  pose proof (reach_init conn_init (user_step demo_gate 100) cw0 cw0_init) as H0.
  assert (user_step demo_gate 100 cw0 cw1) as U1 by (split; [exact S1|one_connection]).
  assert (user_step demo_gate 100 cw1 cw2) as U2 by (split; [exact S2|one_connection]).
  assert (user_step demo_gate 100 cw2 cw3) as U3 by (split; [exact S3|one_connection]).
  assert (user_step demo_gate 100 cw3 cw4) as U4 by (split; [exact S4|one_connection]).
  pose proof (reach_step _ _ _ _ H0 U1) as H1. pose proof (reach_step _ _ _ _ H1 U2) as H2.
  pose proof (reach_step _ _ _ _ H2 U3) as H3. pose proof (reach_step _ _ _ _ H3 U4) as H4.
  destruct (single_user_reachable (L := map_routes_laws) demo_gate 100 cw4 1 (mkC Running demo_w1 "red") H4) as [Hg Hr];
    [cbn; lia|reflexivity|reflexivity|].
  split; [by apply Hg|by apply Hr].
Defined.

(** The user of the running connection connects again and loses the route. *)
Lemma reconnect_loses_route_witness :
  exists (s : world (T := map_routes)) k c, conns s !! k = Some c /\ c_phase c = Running /\ w_uid (c_w c) = 100 /\
    GetByUID 100 (g_reg s) = Ok None /\ rt_route (r_rt (g_routes s)) "red" 100 = None.
Proof.
  destruct (cw_steps (fun _ _ => False)) as (S1 & S2 & S3 & S4).
  pose proof (reach_init conn_init (conn_step demo_gate (fun _ _ => False)) cw0 cw0_init) as H0.
  pose proof (reach_step _ _ _ _ H0 S1) as H1. pose proof (reach_step _ _ _ _ H1 S2) as H2.
  pose proof (reach_step _ _ _ _ H2 S3) as H3. pose proof (reach_step _ _ _ _ H3 S4) as H4.
  destruct (reconnect_loses_route (L := map_routes_laws) demo_gate (fun _ _ => False) cw4 1 (mkC Running demo_w1 "red") H4)
    as (s & k & c & _ & _ & Hk & Hp & Hu & _ & _ & Hg & Hr); [cbn; lia|reflexivity|reflexivity| |].
  - intros t. split; [by do 2 eexists|by eexists].
  - exists s, k, c. by repeat split.
Defined.
