(* ===== verification/System.v ===== *)
(** The gateway at run time: the connections of Connections.v, each with the
    goroutines and the queue of WorkerRun.v, and the pushes of
    src/pkg/net/tcp/server/server.go, which find workers in the registry and
    call their [Push].

    Every worker has its queue from [NewWorker] on; its goroutines move while
    [work] is in [Run], and [work] goes on when [Run] has returned.  A push is
    three steps: the lookup of the user's worker id, the lookup of the worker,
    and the check in [Worker.Push]; the send that follows is a step of the
    worker.  Who pushes what is recorded. *)
From S2P Require Import Prelude Memory BufPool BufReader Session Codec WorkerRun Outbound Buckets Server Router Connections.

(** Whom a push of the server is for: [Push] and [PushGroup], or [Broadcast]. *)
Inductive dest := ToUser (uid : Z) | ToAll.

Section system.
Context `{T : RouteTable} `{C : Cipher} (ep : string).

(** Each connection's session; the queues' capacity and the write filter. *)
Context (ssof : Z -> session) (size : nat) (filter : list Z -> result (list Z)).

Record sys := mkSys {
  y_w : world;
  y_runs : gmap Z run;                  (** the workers' queues and goroutines *)
  y_ran : gset Z;                       (** history: connections that got to [Run] *)
  y_users : gmap Z Z;                   (** history: the user of each connection *)
  y_look : list (Z * Z);                (** pushers that have read the user index *)
  y_found : list (dest * Z);            (** pushers that hold a worker *)
  y_push : list (dest * list Z);        (** history: pushes that passed the check *)
  y_tun : list (Z * list Z);            (** history: pushes by a connection's tunnels *)
}.

Definition set_w (w : world) (s : sys) : sys :=
  mkSys w (y_runs s) (y_ran s) (y_users s) (y_look s) (y_found s) (y_push s) (y_tun s).
Definition set_run (k : Z) (r : run) (s : sys) : sys :=
  mkSys (y_w s) (<[k := r]> (y_runs s)) (y_ran s) (y_users s) (y_look s) (y_found s) (y_push s) (y_tun s).
Definition add_ran (k : Z) (s : sys) : sys :=
  mkSys (y_w s) (y_runs s) ({[k]} ∪ y_ran s) (y_users s) (y_look s) (y_found s) (y_push s) (y_tun s).
Definition set_user (k uid : Z) (s : sys) : sys :=
  mkSys (y_w s) (y_runs s) (y_ran s) (<[k := uid]> (y_users s)) (y_look s) (y_found s) (y_push s) (y_tun s).
Definition add_look (e : Z * Z) (s : sys) : sys :=
  mkSys (y_w s) (y_runs s) (y_ran s) (y_users s) (e :: y_look s) (y_found s) (y_push s) (y_tun s).
Definition add_found (e : dest * Z) (s : sys) : sys :=
  mkSys (y_w s) (y_runs s) (y_ran s) (y_users s) (y_look s) (e :: y_found s) (y_push s) (y_tun s).
Definition add_push (e : dest * list Z) (s : sys) : sys :=
  mkSys (y_w s) (y_runs s) (y_ran s) (y_users s) (y_look s) (y_found s) (e :: y_push s) (y_tun s).
Definition add_tun (e : Z * list Z) (s : sys) : sys :=
  mkSys (y_w s) (y_runs s) (y_ran s) (y_users s) (y_look s) (y_found s) (y_push s) (e :: y_tun s).

(** The worker of a connection that was just accepted. *)
Definition fresh_run (r : run) : Prop := run_init r /\ WorkerRun.pending r = [].

(** A move of the goroutines of [Run] or of a pusher that has passed the check:
    no new pusher, and not [Stop]. *)
Definition own_step (k : Z) (r r' : run) : Prop :=
  run_step (ssof k) size filter r r' /\ stopped r' = stopped r /\ (length (WorkerRun.pending r') <= length (WorkerRun.pending r))%nat.

Inductive sys_step : sys -> sys -> Prop :=
  (* [work], one call after the other *)
  | YAccept k g r s : accept (Ok tt) (idGen (y_w s)) = (Ok k, g) -> fresh_run r ->
      sys_step s (set_run k r (set_w (new_conn k g (y_w s)) s))
  | YStart k c uid color s : conns (y_w s) !! k = Some c -> c_phase c = Serving ->
      sys_step s (set_user k uid (set_w (upd k (mkC Started (mkW (w_ptr (c_w c)) (WID (c_w c)) uid) color) (y_w s)) s))
  | YStartFail k c uid color s : conns (y_w s) !! k = Some c -> c_phase c = Serving ->
      sys_step s (set_user k uid (set_w (upd k (mkC Closing (mkW (w_ptr (c_w c)) (WID (c_w c)) uid) color) (y_w s)) s))
  | YPut k c ow b s : conns (y_w s) !! k = Some c -> c_phase c = Started -> Put (c_w c) (g_reg (y_w s)) = (Ok ow, b) ->
      sys_step s (set_w (set_reg b (upd k (goes Registered c) (y_w s))) s)
  | YConnect k c rs s : conns (y_w s) !! k = Some c -> c_phase c = Registered ->
      afterConnectFunc ep (c_color c) (w_uid (c_w c)) (g_routes (y_w s)) = (Ok tt, rs) ->
      sys_step s (add_ran k (set_w (set_routes rs (upd k (goes Running c) (y_w s))) s))
  | YConnectFail k c r rs s : conns (y_w s) !! k = Some c -> c_phase c = Registered ->
      afterConnectFunc ep (c_color c) (w_uid (c_w c)) (g_routes (y_w s)) = (r, rs) -> r <> Ok tt ->
      sys_step s (set_w (set_routes rs (upd k (goes Leaving c) (y_w s))) s)
  | YRunEnd k c r s : conns (y_w s) !! k = Some c -> c_phase c = Running -> y_runs s !! k = Some r ->
      run_returned r = true -> sys_step s (set_w (upd k (goes Leaving c) (y_w s)) s)
  | YDel k c b s : conns (y_w s) !! k = Some c -> c_phase c = Leaving -> Del (c_w c) (g_reg (y_w s)) = (Ok tt, b) ->
      sys_step s (set_w (set_reg b (upd k (goes Closing c) (y_w s))) s)
  | YStop k c r s : conns (y_w s) !! k = Some c -> c_phase c = Closing -> y_runs s !! k = Some r ->
      sys_step s (set_run k (Stop_close r) (set_w (upd k (goes Stopped c) (y_w s)) s))
  | YDisconnect k c r rs s : conns (y_w s) !! k = Some c -> c_phase c = Stopped ->
      afterDisconnectFunc ep (c_color c) (w_uid (c_w c)) (g_routes (y_w s)) = (r, rs) ->
      sys_step s (set_w (set_routes rs (gone k (y_w s))) s)
  (* the workers *)
  | YRun k c r r' s : conns (y_w s) !! k = Some c -> c_phase c = Running -> y_runs s !! k = Some r -> own_step k r r' ->
      sys_step s (set_run k r' s)
  | YSend k r i out s : y_runs s !! k = Some r -> WorkerRun.pending r !! i = Some out -> reply_closed r = false ->
      (length (replyChan r) < size)%nat -> sys_step s (set_run k (Push_send i out r) s)
  | YPanic k r i out s : y_runs s !! k = Some r -> WorkerRun.pending r !! i = Some out -> reply_closed r = true ->
      sys_step s (set_run k (Push_panic i r) s)
  | YTrigger k r b1 b2 b3 s : y_runs s !! k = Some r -> sys_step s (set_run k (set_env b1 b2 b3 r) s)
  (* the pushers *)
  | YLook uid k s : uidWidMap (g_reg (y_w s)) !! uid = Some k -> sys_step s (add_look (uid, k) s)
  | YFind uid k w s : (uid, k) ∈ y_look s -> Buckets.Worker (bs (g_reg (y_w s))) k = Ok (Some w) ->
      sys_step s (add_found (ToUser uid, WID w) s)
  | YWalk k w s : Buckets.Worker (bs (g_reg (y_w s))) k = Ok (Some w) -> sys_step s (add_found (ToAll, WID w) s)
  | YPush d k pack r r' s : (d, k) ∈ y_found s -> y_runs s !! k = Some r -> Push_check pack r = Ok r' ->
      sys_step s (add_push (d, pack) (set_run k r' s))
  | YTunnel k pack r r' s : y_runs s !! k = Some r -> Push_check pack r = Ok r' ->
      sys_step s (add_tun (k, pack) (set_run k r' s))
  (* other gateways *)
  | YEnv t s : sys_step s (set_w (set_routes (mkR t (r_log (g_routes (y_w s)))) (y_w s)) s).

Definition sys_init (s : sys) : Prop :=
  conn_init (y_w s) /\ y_runs s = ∅ /\ y_ran s = ∅ /\ y_users s = ∅ /\ y_look s = [] /\ y_found s = [] /\ y_push s = [] /\
  y_tun s = [].

(** ** Every run of the system is a run of the connections *)

Lemma sys_refines s s' : sys_step s s' -> conn_step ep (fun _ _ => True) (y_w s) (y_w s') \/ y_w s' = y_w s.
Proof.
  destruct 1; cbn; try (by right); left.
  - by apply CAccept.
  - by eapply CStart.
  - by eapply CStartFail.
  - by eapply CPut.
  - by apply (CConnect _ _ k c (Ok tt) rs).
  - destruct r as [[]|e|q]; [done|by apply (CConnect _ _ k c (Err e) rs)|by apply (CConnect _ _ k c (Panic q) rs)].
  - by eapply CRunEnd.
  - by eapply CDel.
  - by eapply CStop.
  - by eapply CDisconnect.
  - by apply CEnv.
Qed.

Lemma sys_reachable_conns s : reachable sys_init sys_step s -> reachable conn_init (conn_step ep (fun _ _ => True)) (y_w s).
Proof.
  induction 1 as [s Hi|s s' Hr IH Hs]; [apply reach_init, Hi|].
  destruct (sys_refines _ _ Hs) as [Hc| ->]; [by eapply reach_step|done].
Qed.

Lemma accepted_le s s' : sys_step s s' -> accepted (y_w s) <= accepted (y_w s').
Proof. destruct 1; cbn; lia. Qed.

(** Invariants that rely on the connections' one. *)
Lemma sys_reachable_inv (I : sys -> Prop) s : (forall s, sys_init s -> I s) ->
  (forall s s' m, conn_inv (y_w s) m -> accepted (y_w s') < 2 ^ 64 -> I s -> sys_step s s' -> I s') ->
  reachable sys_init sys_step s -> accepted (y_w s) < 2 ^ 64 -> I s.
Proof.
  intros H0 H1 Hr. induction Hr as [s Hi|s s' Hr IH Hs]; intros Ha; [by apply H0|].
  pose proof (accepted_le _ _ Hs). destruct (conn_reachable_inv ep _ (y_w s) (sys_reachable_conns s Hr)) as [m Hm]; [lia|].
  eapply H1; [done|done|apply IH; lia|done].
Qed.

(** ** Ids are not reused *)

Record ids_inv (s : sys) : Prop := {
  id_runs : forall k r, y_runs s !! k = Some r -> k <= idGen (y_w s);
  id_ran : forall k, k ∈ y_ran s -> k <= idGen (y_w s);
  id_users : forall k u, y_users s !! k = Some u -> k <= idGen (y_w s);
}.

Lemma accept_next s m k g : conn_inv s m -> accepted s + 1 < 2 ^ 64 -> accept (Ok tt) (idGen s) = (Ok k, g) ->
  k = idGen s + 1 /\ g = k.
Proof. intros [] Ha E. apply accept_ok in E as [-> ->]. by rewrite wrapU_id by lia. Qed.

Lemma conn_id s m k c : conn_inv s m -> conns s !! k = Some c -> k <= idGen s.
Proof. intros H Hk. apply (cn_ids _ _ H) in Hk. lia. Qed.

Lemma ids_step s s' m : conn_inv (y_w s) m -> accepted (y_w s') < 2 ^ 64 -> ids_inv s -> sys_step s s' -> ids_inv s'.
Proof.
  intros Hm Ha [H1 H2 H3] Hs. pose proof (conn_id (y_w s) m) as Hc.
  destruct Hs as [k g r s E Hf|k c uid color s Hk Hp|k c uid color s Hk Hp|? ? ? ? ? Hk|k c ? ? Hk| | | |? ? ? ? Hk ? ? | |? ? ? ? ? ? ? Hr|
    ? ? ? ? ? Hr|? ? ? ? ? Hr|? ? ? ? ? ? Hr| | | |? ? ? ? ? ? ? Hr|? ? ? ? ? Hr|]; cbn in Ha.
  1: destruct (accept_next _ _ _ _ Hm Ha E) as [-> ->].
  all: split; cbn; try done.
  all: try (intros j x Hj; apply lookup_insert_Some in Hj as [[<- _]|[_ Hj]]; [|by eauto using Z.le_le_succ_r]).
  all: try (by eauto); try lia.
  - intros j Hj. apply H2 in Hj. lia.
  - intros j u Hj. apply H3 in Hj. lia.
  - intros j Hj. apply elem_of_union in Hj as [->%elem_of_singleton|Hj]; by eauto.
Qed.

(** ** Workers and the phases of their connections *)

(** How far [Run] is for a connection that got to it. *)
Definition phase_ran (p : option phase) (r : run) : Prop :=
  match p with
  | Some Running => True
  | Some (Serving | Started | Registered) => False
  | _ => run_returned r = true
  end.

Record life_inv (cs : gmap Z conn) (rs : gmap Z run) (ran : gset Z) : Prop := {
  lf_live : forall k c r, cs !! k = Some c -> rs !! k = Some r -> c_phase c <> Stopped -> stopped r = false;
  lf_reach : forall k r, rs !! k = Some r -> k ∈ ran \/ stopped r = false ->
    reachable run_init (run_step (ssof k) size filter) r;
  lf_ran : forall k r, k ∈ ran -> rs !! k = Some r -> phase_ran (c_phase <$> cs !! k) r;
}.

Lemma returned_step k r r' : run_step (ssof k) size filter r r' -> run_returned r = true -> run_returned r' = true.
Proof.
  destruct 1 as [out t t' E| | |pack rest t Hw Hc| | | | | | | | | | |]; try done.
  - unfold Push_check in E. by repeat case_match; simplify_eq.
  - unfold write_turn. by repeat case_match.
Qed.

Lemma life_conn cs rs ran k c c' : cs !! k = Some c -> c_phase c <> Stopped ->
  (forall r, rs !! k = Some r -> phase_ran (Some (c_phase c)) r -> phase_ran (Some (c_phase c')) r) ->
  life_inv cs rs ran -> life_inv (<[k := c']> cs) rs ran.
Proof.
  intros Hk Hp Hr [H1 H2 H3]. split; [|done|].
  - intros j x r Hj. apply lookup_insert_Some in Hj as [[<- <-]|[_ Hj]]; [intros; by eapply H1|by eauto].
  - intros j r Hj Hrj. specialize (H3 j r Hj Hrj). destruct (decide (j = k)) as [->|Hne]; [|by rewrite lookup_insert_ne].
    rewrite lookup_insert_eq. rewrite Hk in H3. cbn in *. by apply Hr.
Qed.

Lemma life_run cs rs ran k r r' : rs !! k = Some r -> run_step (ssof k) size filter r r' -> stopped r' = stopped r ->
  life_inv cs rs ran -> life_inv cs (<[k := r']> rs) ran.
Proof.
  intros Hk Hs He [H1 H2 H3]. split.
  - intros j c x Hj Hx. apply lookup_insert_Some in Hx as [[<- <-]|[_ Hx]]; [rewrite He|]; by eauto.
  - intros j x Hx. apply lookup_insert_Some in Hx as [[<- <-]|[_ Hx]]; [rewrite He|by eauto].
    intros Hj. eapply reach_step; [by eapply H2|done].
  - intros j x Hj Hx. apply lookup_insert_Some in Hx as [[<- <-]|[_ Hx]]; [|by eauto].
    specialize (H3 _ _ Hj Hk). unfold phase_ran in *. repeat case_match; eauto using returned_step.
Qed.

Lemma life_accept cs rs ran k c r : rs !! k = None -> k ∉ ran -> c_phase c = Serving -> fresh_run r ->
  life_inv cs rs ran -> life_inv (<[k := c]> cs) (<[k := r]> rs) ran.
Proof.
  intros Hk Hn Hp [Hi _] [H1 H2 H3]. split.
  - intros j x y Hj Hy. apply lookup_insert_Some in Hy as [[<- <-]|[Hne Hy]]; [intros; by apply Hi|].
    rewrite lookup_insert_ne in Hj by done. by eauto.
  - intros j x Hx. apply lookup_insert_Some in Hx as [[<- <-]|[_ Hx]]; [intros; by apply reach_init|by eauto].
  - intros j x Hj Hx. assert (k <> j) as Hne by (by intros ->). rewrite lookup_insert_ne in Hx by done.
    rewrite lookup_insert_ne by done. by eauto.
Qed.

Lemma life_stop cs rs ran k c r : cs !! k = Some c -> c_phase c = Closing -> rs !! k = Some r ->
  life_inv cs rs ran -> life_inv (<[k := goes Stopped c]> cs) (<[k := Stop_close r]> rs) ran.
Proof.
  intros Hk Hp Hr [H1 H2 H3]. split.
  - intros j x y Hj Hy. apply lookup_insert_Some in Hj as [[<- <-]|[Hne Hj]]; [done|].
    rewrite lookup_insert_ne in Hy by done. by eauto.
  - intros j x Hx Hj. apply lookup_insert_Some in Hx as [[<- <-]|[_ Hx]]; [|by eauto].
    destruct Hj as [Hj|Hj]; [|done]. pose proof (H3 _ _ Hj Hr) as Hret. rewrite Hk in Hret. cbn in Hret. rewrite Hp in Hret.
    eapply reach_step; [by eapply H2; eauto|]. apply RStop; [done|]. eapply H1; [done|done|by rewrite Hp].
  - intros j x Hj Hx. destruct (decide (j = k)) as [->|Hne].
    + rewrite lookup_insert_eq in Hx. injection Hx as <-. rewrite lookup_insert_eq. specialize (H3 _ _ Hj Hr). rewrite Hk in H3. cbn in *. by rewrite Hp in H3.
    + rewrite lookup_insert_ne in Hx by done. rewrite lookup_insert_ne by done. by eauto.
Qed.

Lemma life_gone cs rs ran k c : cs !! k = Some c -> c_phase c = Stopped -> life_inv cs rs ran -> life_inv (delete k cs) rs ran.
Proof.
  intros Hk Hp [H1 H2 H3]. split; [|done|].
  - intros j x r Hj. apply lookup_delete_Some in Hj as [_ Hj]. by eauto.
  - intros j r Hj Hr. specialize (H3 _ _ Hj Hr). destruct (decide (j = k)) as [->|Hne]; [|by rewrite lookup_delete_ne].
    rewrite lookup_delete_eq. rewrite Hk in H3. cbn in *. by rewrite Hp in H3.
Qed.

Lemma life_connect cs rs ran k c : cs !! k = Some c -> c_phase c = Registered -> life_inv cs rs ran ->
  life_inv (<[k := goes Running c]> cs) rs ({[k]} ∪ ran).
Proof.
  intros Hk Hp [H1 H2 H3]. split.
  - intros j x r Hj. apply lookup_insert_Some in Hj as [[<- <-]|[_ Hj]]; [|by eauto]. intros Hr _. eapply H1; eauto. by rewrite Hp.
  - intros j r Hr [Hj|Hj]; [|by eauto]. apply elem_of_union in Hj as [->%elem_of_singleton|Hj]; [|by eauto].
    apply H2; [done|]. right. eapply H1; eauto. by rewrite Hp.
  - intros j r Hj Hr. destruct (decide (j = k)) as [->|Hne]; [by rewrite lookup_insert_eq|]. rewrite lookup_insert_ne by done.
    apply elem_of_union in Hj as [->%elem_of_singleton|Hj]; [done|]. by eauto.
Qed.

Definition sys_life (s : sys) : Prop := ids_inv s /\ life_inv (conns (y_w s)) (y_runs s) (y_ran s).

Lemma Push_check_stopped out r r' : Push_check out r = Ok r' -> stopped r' = stopped r.
Proof. unfold Push_check. repeat case_match; intros; by simplify_eq. Qed.

Lemma life_step s s' m : conn_inv (y_w s) m -> accepted (y_w s') < 2 ^ 64 -> sys_life s -> sys_step s s' -> sys_life s'.
Proof.
  intros Hm Ha [Hi H] Hs. split; [by eapply ids_step|].
  destruct Hs as [k g r s E Hf|k c uid color s Hk Hp|k c uid color s Hk Hp|k c ow b s Hk Hp E|k c rs s Hk Hp E|k c r rs s Hk Hp E Hr
    |k c r s Hk Hp Hr Hret|k c b s Hk Hp E|k c r s Hk Hp Hr|k c r rs s Hk Hp E|k c r r' s Hk Hp Hr [Hs [He _]]|k r i out s Hr Hi' Hc Hl
    |k r i out s Hr Hi' Hc|k r b1 b2 b3 s Hr| | | |d k pack r r' s Hf Hr E|k pack r r' s Hr E|t s]; cbn in *; try done.
  - destruct (accept_next _ _ _ _ Hm Ha E) as [-> ->]. apply life_accept; try done.
    + apply eq_None_not_Some. intros [x Hx]. apply (id_runs _ Hi) in Hx. lia.
    + intros Hx. apply (id_ran _ Hi) in Hx. lia.
  - eapply life_conn; [exact Hk|by rewrite Hp| |done]. intros. by rewrite Hp in *.
  - eapply life_conn; [exact Hk|by rewrite Hp| |done]. intros. by rewrite Hp in *.
  - eapply life_conn; [exact Hk|by rewrite Hp| |done]. intros. by rewrite Hp in *.
  - by apply life_connect.
  - eapply life_conn; [exact Hk|by rewrite Hp| |done]. intros. by rewrite Hp in *.
  - eapply life_conn; [exact Hk|by rewrite Hp| |done]. intros. by simplify_eq.
  - eapply life_conn; [exact Hk|by rewrite Hp| |done]. intros. by rewrite Hp in *.
  - by apply life_stop.
  - by eapply life_gone.
  - by eapply life_run.
  - eapply life_run; [done|by eapply RPushSend|done|done].
  - eapply life_run; [done|by eapply RPushPanic|done|done].
  - eapply life_run; [done|by apply REnv|done|done].
  - eapply life_run; [done|by eapply RPushCheck|by eapply Push_check_stopped|done].
  - eapply life_run; [done|by eapply RPushCheck|by eapply Push_check_stopped|done].
Qed.

Lemma sys_life_reachable s : reachable sys_init sys_step s -> accepted (y_w s) < 2 ^ 64 -> sys_life s.
Proof.
  apply sys_reachable_inv; [|apply life_step]. intros x (_ & E1 & E2 & E3 & _). unfold sys_life.
  split; split; rewrite ?E1, ?E2, ?E3; intros *; rewrite ?lookup_empty; set_solver.
Qed.

(** ** Users, pushers and packets *)

Definition packets (r : run) : list (list Z) := WorkerRun.pending r ++ replyChan r ++ pushed r ++ taken r.

Lemma length_delete_le (l : list (list Z)) i : (length (delete i l) <= length l)%nat.
Proof. apply sublist_length, sublist_delete. Qed.

Lemma packets_step k r r' p : run_step (ssof k) size filter r r' ->
  (length (WorkerRun.pending r') <= length (WorkerRun.pending r))%nat -> p ∈ packets r' -> p ∈ packets r.
Proof.
  unfold packets. rewrite !elem_of_app.
  destruct 1 as [out t t' E|i out t Hi Hc Hl|i out t Hi Hc|pack rest t Hw Hc| | | | | | | | | | |]; cbn; try done.
  - unfold Push_check in E. repeat case_match; simplify_eq. cbn. rewrite length_app. cbn. lia.
  - intros _. rewrite !elem_of_app, list_elem_of_singleton. intros [Hd%list_elem_of_delete_inv|Hd]; [by left|].
    apply list_elem_of_lookup_2 in Hi. naive_solver.
  - intros _ [Hd%list_elem_of_delete_inv|Hd]; naive_solver.
  - intros _. unfold write_turn. rewrite Hc. repeat case_match; cbn; rewrite ?elem_of_app, ?elem_of_cons, ?elem_of_nil; naive_solver.
Qed.

Lemma packets_check out r r' p : Push_check out r = Ok r' -> p ∈ packets r' -> p = out \/ p ∈ packets r.
Proof.
  unfold Push_check, packets. intros E. repeat case_match; simplify_eq. cbn.
  rewrite !elem_of_app, list_elem_of_singleton. tauto.
Qed.

Lemma packets_fresh r : fresh_run r -> packets r = [].
Proof. intros [(E1 & _ & _ & _ & _ & _ & _ & E2 & E3 & _) E4]. unfold packets. by rewrite E1, E2, E3, E4. Qed.

(** Who may have sent packet [p] to connection [k]. *)
Definition sender (s : sys) (k : Z) (p : list Z) : Prop :=
  (exists uid, y_users s !! k = Some uid /\ (ToUser uid, p) ∈ y_push s) \/ (ToAll, p) ∈ y_push s \/ (k, p) ∈ y_tun s.

Record push_inv (s : sys) : Prop := {
  ps_conn : forall k c, conns (y_w s) !! k = Some c -> c_phase c <> Serving -> y_users s !! k = Some (w_uid (c_w c));
  ps_serving : forall k c, conns (y_w s) !! k = Some c -> c_phase c = Serving -> y_users s !! k = None;
  ps_look : forall uid k, (uid, k) ∈ y_look s -> y_users s !! k = Some uid;
  ps_found : forall uid k, (ToUser uid, k) ∈ y_found s -> y_users s !! k = Some uid;
  ps_pack : forall k r p, y_runs s !! k = Some r -> p ∈ packets r -> sender s k p;
}.

(** A step of [work] after [Start] keeps the user. *)
Lemma push_conn s w' k c c' : conns (y_w s) !! k = Some c -> conns w' = <[k := c']> (conns (y_w s)) ->
  c_phase c <> Serving -> c_phase c' <> Serving -> c_w c' = c_w c -> push_inv s -> push_inv (set_w w' s).
Proof.
  intros Hk Hc Hp Hp' Hw [H1 H2 H3 H4 H5]. split; cbn; try done; rewrite Hc; intros j x Hj;
    apply lookup_insert_Some in Hj as [[<- <-]|[_ Hj]]; [rewrite Hw|..]; by eauto.
Qed.

Lemma push_user s w' k c c' : conns (y_w s) !! k = Some c -> conns w' = <[k := c']> (conns (y_w s)) ->
  c_phase c = Serving -> c_phase c' <> Serving -> push_inv s -> push_inv (set_user k (w_uid (c_w c')) (set_w w' s)).
Proof.
  intros Hk Hc Hp Hp' [H1 H2 H3 H4 H5]. pose proof (H2 _ _ Hk Hp) as Hn.
  assert (forall j u, y_users s !! j = Some u -> <[k := w_uid (c_w c')]> (y_users s) !! j = Some u) as Hm.
  { intros j u Hj. rewrite lookup_insert_ne; [done|]. intros ->. congruence. }
  split; cbn; rewrite ?Hc; [|..|by eauto|by eauto|].
  - intros j x Hj. apply lookup_insert_Some in Hj as [[<- <-]|[_ Hj]]; [by rewrite lookup_insert_eq|by eauto].
  - intros j x Hj Hx. apply lookup_insert_Some in Hj as [[<- <-]|[Hne Hj]]; [done|]. rewrite lookup_insert_ne by done. by eauto.
  - intros j r p Hj Hr. destruct (H5 _ _ _ Hj Hr) as [(u & ? & ?)|?]; [left; exists u; cbn; by eauto|by right].
Qed.

Lemma push_run s k r r' : y_runs s !! k = Some r -> (forall p, p ∈ packets r' -> p ∈ packets r) ->
  push_inv s -> push_inv (set_run k r' s).
Proof.
  intros Hk Hs [H1 H2 H3 H4 H5]. split; cbn; try done. intros j x p Hx Hp.
  apply lookup_insert_Some in Hx as [[<- <-]|[_ Hx]]; [by eapply (H5 k r), Hs|by eapply (H5 j x)].
Qed.

(** A new packet of a sender that is recorded. *)
Lemma push_sent s s' k r r' out : y_runs s !! k = Some r -> Push_check out r = Ok r' -> y_w s' = y_w s ->
  y_runs s' = <[k := r']> (y_runs s) -> y_users s' = y_users s -> y_look s' = y_look s -> y_found s' = y_found s ->
  y_push s ⊆ y_push s' -> y_tun s ⊆ y_tun s' -> sender s' k out -> push_inv s -> push_inv s'.
Proof.
  intros Hk Hc Ew Er Eu El Ef Hp Ht Ho [H1 H2 H3 H4 H5]. split; rewrite ?Ew, ?Eu, ?El, ?Ef; try done.
  assert (forall j p, sender s j p -> sender s' j p) as Hm.
  { intros j p [(u & ? & ?)|[?|?]]; [left; exists u; rewrite Eu; by eauto|right; left; by eauto|right; right; by eauto]. }
  intros j x p. rewrite Er. intros Hx Hin. apply lookup_insert_Some in Hx as [[<- <-]|[_ Hx]]; [|by eauto].
  destruct (packets_check _ _ _ _ Hc Hin) as [->|Hin']; by eauto.
Qed.

Lemma pushes_step s s' m : conn_inv (y_w s) m -> accepted (y_w s') < 2 ^ 64 -> ids_inv s /\ push_inv s -> sys_step s s' ->
  ids_inv s' /\ push_inv s'.
Proof.
  intros Hm Ha [Hi H] Hs. split; [by eapply ids_step|].
  destruct Hs as [k g r s E Hf|k c uid color s Hk Hp|k c uid color s Hk Hp|k c ow b s Hk Hp E|k c rs s Hk Hp E|k c r rs s Hk Hp E Hr
    |k c r s Hk Hp Hr Hret|k c b s Hk Hp E|k c r s Hk Hp Hr|k c r rs s Hk Hp E|k c r r' s Hk Hp Hr [Hs [_ He]]|k r i out s Hr Hi' Hc Hl
    |k r i out s Hr Hi' Hc|k r b1 b2 b3 s Hr|uid k s Hl|uid k w s Hl Hw|k w s Hw|d k pack r r' s Hf Hr E|k pack r r' s Hr E|t s]; cbn in Ha.
  - destruct (accept_next _ _ _ _ Hm Ha E) as [-> ->]. destruct H as [H1 H2 H3 H4 H5].
    assert (y_users s !! (idGen (y_w s) + 1) = None) as Hn.
    { apply eq_None_not_Some. intros [x Hx]. apply (id_users _ Hi) in Hx. lia. }
    split; cbn; try done; intros j x; [intros Hj ..|intros p Hj];
      apply lookup_insert_Some in Hj as [[<- <-]|[_ Hj]]; try (by eauto). by rewrite (packets_fresh r Hf), elem_of_nil.
  - eapply (push_user s _ k c (mkC Started (mkW (w_ptr (c_w c)) (WID (c_w c)) uid) color)); eauto.
  - eapply (push_user s _ k c (mkC Closing (mkW (w_ptr (c_w c)) (WID (c_w c)) uid) color)); eauto.
  - eapply push_conn; eauto; by rewrite ?Hp.
  - assert (push_inv (set_w (set_routes rs (upd k (goes Running c) (y_w s))) s)) as []; [|by split].
    eapply push_conn; eauto; by rewrite ?Hp.
  - eapply push_conn; eauto; by rewrite ?Hp.
  - eapply push_conn; eauto; by rewrite ?Hp.
  - eapply push_conn; eauto; by rewrite ?Hp.
  - eapply push_run; [exact Hr|done|]. eapply push_conn; eauto; by rewrite ?Hp.
  - destruct H as [H1 H2 H3 H4 H5]. split; cbn; try done; intros j x Hj; apply lookup_delete_Some in Hj as [_ Hj]; by eauto.
  - eapply push_run; eauto. intros p. by eapply packets_step.
  - eapply push_run; eauto. intros p. eapply (packets_step k); [by eapply RPushSend|]. apply length_delete_le.
  - eapply push_run; eauto. intros p. eapply (packets_step k); [by eapply RPushPanic|]. apply length_delete_le.
  - eapply push_run; eauto.
  - destruct (registry_user _ _ _ _ Hm Hl) as (c & Hc & Hreg & <-). destruct H as [H1 H2 H3 H4 H5]. split; cbn; try done.
    intros u j [[= -> ->]|Hj]%elem_of_cons; [|by eauto]. apply H1; [done|]. intros Hp. by rewrite Hp in Hreg.
  - rewrite (registry_worker _ _ _ Hm) in Hw. destruct (conns (y_w s) !! k) as [c|] eqn:Hc; [|done]. cbn in Hw.
    destruct (registered (c_phase c)); [|done]. injection Hw as <-. destruct (cn_ids _ _ Hm _ _ Hc) as (_ & -> & _).
    destruct H as [H1 H2 H3 H4 H5]. split; cbn; try done. intros u j [[= -> ->]|Hj]%elem_of_cons; by eauto.
  - destruct H as [H1 H2 H3 H4 H5]. split; cbn; try done. intros u j [[=]|Hj]%elem_of_cons; by eauto.
  - apply (push_sent s _ k r r' pack); try done; cbn; [set_solver|].
    destruct d as [uid|]; [left; exists uid; split; [exact (ps_found _ H _ _ Hf)|left]|right; left; left].
  - apply (push_sent s _ k r r' pack); try done; cbn; [set_solver|]. right; right; left.
  - destruct H as [H1 H2 H3 H4 H5]. by split.
Qed.

Lemma push_reachable s : reachable sys_init sys_step s -> accepted (y_w s) < 2 ^ 64 -> push_inv s.
Proof.
  intros Hr Ha. eapply (proj2 (A := ids_inv s)). revert Ha. revert Hr.
  apply (sys_reachable_inv (fun s => ids_inv s /\ push_inv s)); [|apply pushes_step].
  intros x (Ei & E1 & E2 & E3 & E4 & E5 & _). destruct Ei as (_ & _ & Ec & _).
  split; split; rewrite ?E1, ?E2, ?E3, ?E4, ?E5, ?Ec; intros *; rewrite ?lookup_empty; set_solver.
Qed.

(** ** Every accepted connection has a worker, and a connection that is over
    has had its worker stopped *)

Definition over_stopped (idg : Z) (cs : gmap Z conn) (rs : gmap Z run) : Prop := forall k, 0 < k <= idg ->
  exists r, rs !! k = Some r /\ ((forall c, cs !! k = Some c -> c_phase c = Stopped) -> stopped r = true).

Lemma over_conn g cs rs k c c' : cs !! k = Some c -> c_phase c' <> Stopped -> over_stopped g cs rs -> over_stopped g (<[k := c']> cs) rs.
Proof.
  intros Hk Hp H j Hj. destruct (H j Hj) as (r & Hr & Ho). exists r. split; [done|]. intros Hc.
  destruct (decide (j = k)) as [->|Hne]; [|apply Ho; by rewrite lookup_insert_ne in Hc].
  rewrite lookup_insert_eq in Hc. by specialize (Hc c' eq_refl).
Qed.

Lemma over_run g cs rs k r r' : rs !! k = Some r -> stopped r' = stopped r -> over_stopped g cs rs -> over_stopped g cs (<[k := r']> rs).
Proof.
  intros Hk He H j Hj. destruct (H j Hj) as (x & Hx & Ho). destruct (decide (j = k)) as [->|Hne].
  - exists r'. rewrite lookup_insert_eq, He. split; [done|]. by simplify_eq.
  - exists x. by rewrite lookup_insert_ne.
Qed.

Lemma over_stopped_step s s' m : conn_inv (y_w s) m -> accepted (y_w s') < 2 ^ 64 ->
  over_stopped (idGen (y_w s)) (conns (y_w s)) (y_runs s) -> sys_step s s' ->
  over_stopped (idGen (y_w s')) (conns (y_w s')) (y_runs s').
Proof.
  intros Hm Ha H Hs.
  destruct Hs as [k g r s E Hf|k c uid color s Hk Hp|k c uid color s Hk Hp|k c ow b s Hk Hp E|k c rs s Hk Hp E|k c r rs s Hk Hp E Hr
    |k c r s Hk Hp Hr Hret|k c b s Hk Hp E|k c r s Hk Hp Hr|k c r rs s Hk Hp E|k c r r' s Hk Hp Hr [Hs [He _]]|k r i out s Hr Hi' Hc Hl
    |k r i out s Hr Hi' Hc|k r b1 b2 b3 s Hr| | | |d k pack r r' s Hf Hr E|k pack r r' s Hr E|t s]; cbn in *; try done.
  all: try (by eapply over_conn). all: try (by eapply over_run).
  - destruct (accept_next _ _ _ _ Hm Ha E) as [-> ->]. intros j Hj. destruct (decide (j = idGen (y_w s) + 1)) as [->|Hne].
    + exists r. rewrite !lookup_insert_eq. split; [done|]. intros Hc. by specialize (Hc _ eq_refl).
    + destruct (H j ltac:(lia)) as (x & Hx & Ho). exists x. by rewrite !lookup_insert_ne.
  - intros j Hj. destruct (H j Hj) as (x & Hx & Ho). destruct (decide (j = k)) as [->|Hne].
    + exists (Stop_close r). by rewrite lookup_insert_eq.
    + exists x. by rewrite !lookup_insert_ne.
  - intros j Hj. destruct (H j Hj) as (x & Hx & Ho). exists x. split; [done|]. intros Hc. apply Ho. intros c' Hc'.
    destruct (decide (j = k)) as [->|Hne]; [congruence|]. apply Hc. by rewrite lookup_delete_ne.
  - eapply over_run; [done|by eapply Push_check_stopped|done].
  - eapply over_run; [done|by eapply Push_check_stopped|done].
Qed.

Lemma over_stopped_reachable s : reachable sys_init sys_step s -> accepted (y_w s) < 2 ^ 64 ->
  over_stopped (idGen (y_w s)) (conns (y_w s)) (y_runs s).
Proof.
  apply (sys_reachable_inv (fun s => over_stopped (idGen (y_w s)) (conns (y_w s)) (y_runs s))); [|intros; by eapply over_stopped_step].
  intros x ((E & _) & _) k Hk. lia.
Qed.

(** ** The end of a connection *)

(** Nothing has happened but on connection [k]. *)
Definition only (k : Z) (s s' : sys) : Prop :=
  accepted (y_w s') = accepted (y_w s) /\ idGen (y_w s') = idGen (y_w s) /\ y_ran s' = y_ran s /\
  forall j, j <> k -> conns (y_w s') !! j = conns (y_w s) !! j /\ y_runs s' !! j = y_runs s !! j.

#[export] Instance only_preorder k : PreOrder (only k).
Proof.
  split; [by repeat split|]. intros s1 s2 s3 (E1 & E2 & E3 & E4) (F1 & F2 & F3 & F4).
  split; [congruence|]. split; [congruence|]. split; [congruence|]. intros j Hj.
  destruct (E4 j Hj), (F4 j Hj). split; congruence.
Qed.

(** Proves it of a step on [k]. *)
Ltac only_this :=
  split; [done|]; split; [done|]; split; [done|]; intros ? ?; cbn; by rewrite ?lookup_insert_ne, ?lookup_delete_ne by done.

(** The gateway can get rid of connection [k] by steps on it. *)
Definition can_end (k : Z) (s : sys) : Prop :=
  exists s', rtc sys_step s s' /\ conns (y_w s') !! k = None /\ only k s s'.

Lemma can_end_step k s s' : sys_step s s' -> only k s s' -> can_end k s' -> can_end k s.
Proof. intros Hs Ho (s2 & Hr & Hn & Ho2). exists s2. split; [by eapply rtc_l|]. split; [done|by etrans]. Qed.

Lemma end_stopped s k c : conns (y_w s) !! k = Some c -> c_phase c = Stopped -> can_end k s.
Proof.
  intros Hk Hp. destruct (afterDisconnectFunc ep (c_color c) (w_uid (c_w c)) (g_routes (y_w s))) as [r rs] eqn:E.
  eapply can_end_step; [by eapply YDisconnect|only_this|]. exists (set_w (set_routes rs (gone k (y_w s))) s).
  split; [apply rtc_refl|]. split; [cbn; by rewrite lookup_delete_eq|done].
Qed.

Lemma end_closing s k c r : conns (y_w s) !! k = Some c -> c_phase c = Closing -> y_runs s !! k = Some r -> can_end k s.
Proof.
  intros Hk Hp Hr. eapply can_end_step; [by eapply YStop|only_this|].
  eapply (end_stopped _ k (goes Stopped c)); [cbn; by rewrite lookup_insert_eq|done].
Qed.

Lemma end_leaving s m k c r : conn_inv (y_w s) m -> conns (y_w s) !! k = Some c -> c_phase c = Leaving ->
  y_runs s !! k = Some r -> can_end k s.
Proof.
  intros Hm Hk Hp Hr. destruct (Del_spec (c_w c) _ _ (cn_shards _ _ Hm)) as (b & E & _).
  eapply can_end_step; [by eapply YDel|only_this|].
  eapply (end_closing _ k (goes Closing c)); [cbn; by rewrite lookup_insert_eq|done|exact Hr].
Qed.

Lemma end_running s m k c r : conn_inv (y_w s) m -> accepted (y_w s) < 2 ^ 64 -> conns (y_w s) !! k = Some c -> c_phase c = Running ->
  y_runs s !! k = Some r -> (exists r', rtc (quiet_step (ssof k) size filter) r r' /\ run_returned r' = true) -> can_end k s.
Proof.
  intros Hm Ha Hk Hp Hr (r' & Hq & Hret). revert s Hm Ha Hk Hr.
  induction Hq as [r|r r1 r' (Hs & He & Hpd) Hq IH]; intros s Hm Ha Hk Hr.
  - eapply can_end_step; [by eapply YRunEnd|only_this|].
    destruct (conn_step_inv ep (fun _ _ => True) (y_w s) _ m (CRunEnd _ _ k c _ Hk Hp) Hm Ha) as (m' & Hm' & _).
    eapply (end_leaving _ m' k (goes Leaving c)); [done|cbn; by rewrite lookup_insert_eq|done|exact Hr].
  - eapply can_end_step; [eapply (YRun k c r r1 s); try done|only_this|].
    + split; [done|]. split; [done|by rewrite Hpd].
    + apply IH; [done..|]. cbn. by rewrite lookup_insert_eq.
Qed.

Lemma sys_conn_inv s : reachable sys_init sys_step s -> accepted (y_w s) < 2 ^ 64 -> exists m, conn_inv (y_w s) m.
Proof. intros Hr Ha. eapply conn_reachable_inv; [by apply sys_reachable_conns|done]. Qed.

Lemma ran_inv s k r : reachable sys_init sys_step s -> accepted (y_w s) < 2 ^ 64 -> y_runs s !! k = Some r -> k ∈ y_ran s ->
  reachable run_init (run_step (ssof k) size filter) r /\ phase_ran (c_phase <$> conns (y_w s) !! k) r.
Proof.
  intros Hr Ha Hk Hin. destruct (sys_life_reachable s Hr Ha) as [_ H]. split; [apply (lf_reach _ _ _ H k r Hk); by left|].
  by apply (lf_ran _ _ _ H).
Qed.

Lemma unfailed_running s k r : reachable sys_init sys_step s -> accepted (y_w s) < 2 ^ 64 -> y_runs s !! k = Some r ->
  k ∈ y_ran s -> write_failed r = false -> exists c, conns (y_w s) !! k = Some c /\ c_phase c = Running.
Proof.
  intros Hr Ha Hk Hin Hw. destruct (ran_inv s k r Hr Ha Hk Hin) as [Hrr Hp]. apply run_reachable_inv in Hrr.
  assert (run_returned r <> true) as Hret by (intros E; apply (rn_return _ _ _ _ Hrr), (rn_write _ _ _ _ Hrr) in E; congruence).
  unfold phase_ran in Hp. destruct (conns (y_w s) !! k) as [c|]; [cbn in Hp|done]. exists c. split; [done|]. by destruct (c_phase c).
Qed.

Lemma failed_ends s k r : reachable sys_init sys_step s -> accepted (y_w s) < 2 ^ 64 -> y_runs s !! k = Some r ->
  k ∈ y_ran s -> write_failed r = true -> can_end k s.
Proof.
  intros Hr Ha Hk Hin Hw. destruct (ran_inv s k r Hr Ha Hk Hin) as [Hrr Hp]. pose proof (run_reachable_inv _ _ _ _ Hrr) as Hi.
  destruct (sys_conn_inv s Hr Ha) as [m Hm]. destruct (conns (y_w s) !! k) as [c|] eqn:Hc; [|by exists s].
  cbn in Hp. destruct (c_phase c) eqn:Ep; try done.
  - eapply end_running; try done. apply run_can_return; [by apply (rn_fail _ _ _ _ Hi)|by eapply failed_ctx].
  - by eapply end_leaving.
  - by eapply end_closing.
  - by eapply end_stopped.
Qed.

End system.

(** C4: Packets reach the user they were pushed to, and nobody else: whatever
    connections come and go and whoever pushes, a client that has received the
    bytes sent on its connection reads, in the order of the queue, packets its session decrypts
    to what the write filter made of packets that were each pushed to the very
    user that connection was authenticated for, or broadcast, or pushed by one
    of the connection's own tunnels. The user index is read, the worker is
    looked up and the packet is queued in separate steps, between which
    connections may be replaced. *)
Theorem pushes_reach_their_user `{T : RouteTable} `{C : Cipher} {L : CipherLaws C} ep ssof size filter (s : sys) k r
    (cn : list revent) (chs : list (option nat * option nat)) :
  reachable sys_init (sys_step ep ssof size filter) s -> accepted (y_w s) < 2 ^ 64 ->
  y_runs s !! k = Some r -> k ∈ y_ran s ->
  (forall pack out body, pack ∈ taken r -> filter pack = Ok out -> encrypt (ssof k) out = Ok body -> zlen body < 2 ^ 31) ->
  stream cn = sent (WorkerRun.conn r) -> length chs = length (taken r) ->
  exists p st bodies st', init_pool = Some (Ok p) /\ NewReader None cn 4096 (fst (start p)) = Ok st /\
    client_frames chs st = (Ok bodies, st') /\
    Forall2 (fun pack body => exists out, filter pack = Ok out /\ decrypt (ssof k) body = Ok out) (taken r) bodies /\
    Forall (sender s k) (taken r) /\ taken r `prefix_of` pushed r.
Proof.
  intros Hr Ha Hk Hin Hs Hc Hl. destruct (ran_inv ep ssof size filter s k r Hr Ha Hk Hin) as [Hinv%run_reachable_inv _].
  destruct (client_reads_taken _ _ _ r cn chs Hinv Hs Hc Hl) as (p & st & bodies & st' & E1 & E2 & E3 & HF).
  exists p, st, bodies, st'. do 4 (split; [done|]). split; [|apply Hinv]. apply Forall_forall. intros x Hx.
  eapply (ps_pack _ (push_reachable ep ssof size filter s Hr Ha)); [exact Hk|]. unfold packets. rewrite !elem_of_app. tauto.
Qed.

(** C15: A connection that got to [Run] ends when a write to it fails, and not
    before. As long as none has, whatever the client, the timers, a stop of the
    server and the other connections do, the connection is in [Run], its worker
    is in the registry under its id and its user is the authenticated one; so
    [Disconnect] and the server's [Stop], which wait for registered workers, wait
    for it. Once one has, nothing can keep the connection: from every state there
    are steps of its own that end [Run], remove the worker from the registry,
    stop it and end [work], and leave the other connections as they are. *)
Theorem ends_with_failed_write `{T : RouteTable} `{C : Cipher} ep ssof size filter (s : sys) k r :
  reachable sys_init (sys_step ep ssof size filter) s -> accepted (y_w s) < 2 ^ 64 ->
  y_runs s !! k = Some r -> k ∈ y_ran s ->
  if write_failed r then
    exists s', rtc (sys_step ep ssof size filter) s s' /\ only k s s' /\ conns (y_w s') !! k = None /\
      Buckets.Worker (bs (g_reg (y_w s'))) k = Ok None
  else
    exists c, conns (y_w s) !! k = Some c /\ c_phase c = Running /\
      Buckets.Worker (bs (g_reg (y_w s))) k = Ok (Some (c_w c)) /\ y_users s !! k = Some (w_uid (c_w c)).
Proof.
  intros Hr Ha Hk Hin. destruct (write_failed r) eqn:Hw.
  - destruct (failed_ends ep ssof size filter s k r Hr Ha Hk Hin Hw) as (s' & Hs & Hn & Ho). exists s'. do 3 (split; [done|]).
    destruct (sys_conn_inv ep ssof size filter s') as [m Hm]; [by eapply reachable_rtc|by rewrite (proj1 Ho)|].
    by rewrite (registry_worker _ _ _ Hm), Hn.
  - destruct (unfailed_running ep ssof size filter s k r Hr Ha Hk Hin Hw) as (c & Hc & Ep). exists c. do 2 (split; [done|]).
    destruct (sys_conn_inv ep ssof size filter s Hr Ha) as [m Hm].
    split; [by rewrite (registry_worker _ _ _ Hm), Hc; cbn; rewrite Ep|].
    apply (push_reachable ep ssof size filter s Hr Ha); [done|]. by rewrite Ep.
Qed.

(** *** Witnesses: a user connects and is sent a packet *)

Definition demo_sess (k : Z) : session (C := tag_cipher) := demo_ss.

Definition demo_step : sys -> sys -> Prop := sys_step (C := tag_cipher) demo_gate demo_sess 4 pass.

Definition sy0 : sys := mkSys cw0 ∅ ∅ ∅ [] [] [] [].
Definition sy1 : sys := mkSys cw1 {[1 := run0]} ∅ ∅ [] [] [] [].
Definition sy2 : sys := mkSys cw2 {[1 := run0]} ∅ {[1 := 100]} [] [] [] [].
Definition sy3 : sys := mkSys cw3 {[1 := run0]} ∅ {[1 := 100]} [] [] [] [].
Definition sy4 : sys := mkSys cw4 {[1 := run0]} {[1]} {[1 := 100]} [] [] [] [].
Definition sy5 : sys := mkSys cw4 {[1 := run0]} {[1]} {[1 := 100]} [(100, 1)] [(ToUser 100, 1)] [] [].

Lemma sy5_reachable : reachable sys_init demo_step sy5.
Proof.
  assert (reachable sys_init demo_step sy0) as H0 by (apply reach_init; split; [apply cw0_init|by repeat split]).
  assert (demo_step sy0 sy1) as S1 by (apply (YAccept (C := tag_cipher) _ _ _ _ 1 1 run0 sy0); by repeat split).
  assert (demo_step sy1 sy2) as S2
    by (by apply (YStart (C := tag_cipher) _ _ _ _ 1 (mkC Serving (mkW 1 1 0) EmptyString) 100 "red" sy1)).
  assert (demo_step sy2 sy3) as S3 by (by apply (YPut (C := tag_cipher) _ _ _ _ 1 (mkC Started demo_w1 "red") None _ sy2)).
  assert (demo_step sy3 sy4) as S4 by (by apply (YConnect (C := tag_cipher) _ _ _ _ 1 (mkC Registered demo_w1 "red") _ sy3)).
  assert (demo_step sy4 (add_look (100, 1) sy4)) as S5 by (by apply (YLook (C := tag_cipher))).
  assert (demo_step (add_look (100, 1) sy4) sy5) as S6
    by (apply (YFind (C := tag_cipher) _ _ _ _ 100 1 demo_w1 (add_look (100, 1) sy4)); [left|reflexivity]).
  eauto 10 using reach_step.
Qed.

Definition sy6 : sys :=
  mkSys cw4 {[1 := run1]} {[1]} {[1 := 100]} [(100, 1)] [(ToUser 100, 1)] [(ToUser 100, [65])] [].

(** The packet is pushed, queued and written. *)
Lemma sy6_reachable : reachable sys_init demo_step sy6.
Proof.
  pose (t1 := mkRun [] false [[65]] false false false false false false false false false false false (mkWconn [] []) [] []).
  pose (t2 := mkRun [[65]] false [] false false false false false false false false false false false (mkWconn [] []) [[65]] []).
  pose (s1 := mkSys cw4 {[1 := t1]} {[1]} {[1 := 100]} [(100, 1)] [(ToUser 100, 1)] [(ToUser 100, [65])] []).
  pose (s2 := mkSys cw4 {[1 := t2]} {[1]} {[1 := 100]} [(100, 1)] [(ToUser 100, 1)] [(ToUser 100, [65])] []).
  assert (demo_step sy5 s1) as S1
    by (apply (YPush (C := tag_cipher) _ _ _ _ (ToUser 100) 1 [65] run0 t1 sy5); [left|reflexivity..]).
  assert (demo_step s1 s2) as S2 by (apply (YSend (C := tag_cipher) _ _ _ _ 1 t1 0 [65] s1); [reflexivity..|cbn; lia]).
  assert (demo_step s2 sy6) as S3.
  { apply (YRun (C := tag_cipher) _ _ _ _ 1 (mkC Running demo_w1 "red") t2 run1 s2); [reflexivity..|].
    split; [|split; [reflexivity|apply le_n]]. by apply (RWrite (C := tag_cipher) demo_ss 4 pass [65] [] t2). }
  eauto using reach_step, sy5_reachable.
Qed.

Lemma pushes_reach_their_user_witness :
  exists p st bodies st', init_pool = Some (Ok p) /\
    NewReader None [RData [0; 0]; RData [0; 2; 42; 65]] 4096 (fst (start p)) = Ok st /\
    client_frames [(None, None)] st = (Ok bodies, st') /\
    Forall2 (fun pack body => exists out, pass pack = Ok out /\ decrypt (C := tag_cipher) (demo_sess 1) body = Ok out)
      (taken run1) bodies /\ Forall (sender sy6 1) (taken run1) /\ taken run1 `prefix_of` pushed run1.
Proof.
  apply (pushes_reach_their_user (C := tag_cipher) (L := tag_cipher_laws) demo_gate demo_sess 4 pass sy6 1 run1
    [RData [0; 0]; RData [0; 2; 42; 65]] [(None, None)] sy6_reachable);
    [cbn; lia|reflexivity|by apply elem_of_singleton| |reflexivity|reflexivity].
  intros pack out body Hp. change (taken run1) with [[65]] in Hp. apply list_elem_of_singleton in Hp as ->.
  intros [= <-] He. vm_compute in He. injection He as <-. reflexivity.
Defined.

Lemma ends_with_failed_write_witness :
  exists c, conns (y_w sy6) !! 1 = Some c /\ c_phase c = Running /\
    Buckets.Worker (bs (g_reg (y_w sy6))) 1 = Ok (Some (c_w c)) /\ y_users sy6 !! 1 = Some (w_uid (c_w c)).
Proof.
  apply (ends_with_failed_write (C := tag_cipher) demo_gate demo_sess 4 pass sy6 1 run1 sy6_reachable);
    [cbn; lia|reflexivity|by apply elem_of_singleton].
Defined.
