(* ===== verification/Deadline.v ===== *)
(** The idle deadline of a connection: [Start], [readPackLoop], [readPack] and
    [writePack] of src/pkg/net/internal/worker.go with a clock, over the
    goroutines of WorkerRun.v.

    [Start] sets the connection's deadline [RequestIdleTimeout] ahead, and
    [readPack] does so again after each packet it has handled; nothing else in
    [Run] does. The deadline is one for reads and writes: past it, [net.Conn]
    documents, both fail. The reader may still have packets in its buffer, which
    it returns without asking the connection. *)
From S2P Require Import Prelude BufReader Session Codec WorkerRun.

(** Where [readPackLoop] stands. *)
Inductive reading :=
  | AtSelect    (** before the select *)
  | InRead      (** in [w.read()] *)
  | InHandle.   (** the packet is read; [SetDeadline] is next when it has been handled *)

Section deadline.
Context `{C : Cipher} (ss : session) (size : nat) (filter : list Z -> result (list Z)).

(** [conf.RequestIdleTimeout] *)
Context (RequestIdleTimeout : Z).

Record timed := mkTimed {
  d_run : run;
  d_now : Z;
  d_deadline : Z;
  d_at : reading;
  d_buffered : nat;      (** whole packets in the reader's buffer *)
  d_handled : Z;         (** history: packets handled *)
  d_last : Z;            (** history: when the deadline was last set *)
}.

Definition set_clock (now : Z) (s : timed) : timed :=
  mkTimed (d_run s) now (d_deadline s) (d_at s) (d_buffered s) (d_handled s) (d_last s).
Definition set_at (p : reading) (n : nat) (s : timed) : timed :=
  mkTimed (d_run s) (d_now s) (d_deadline s) p n (d_handled s) (d_last s).
Definition set_drun (t : run) (s : timed) : timed :=
  mkTimed t (d_now s) (d_deadline s) (d_at s) (d_buffered s) (d_handled s) (d_last s).

(** [_ = w.conn.SetDeadline(time.Now().Add(w.conf.RequestIdleTimeout))] *)
Definition extend (s : timed) : timed :=
  mkTimed (d_run s) (d_now s) (d_now s + RequestIdleTimeout) AtSelect (d_buffered s) (d_handled s + 1) (d_now s).

Inductive timed_step : timed -> timed -> Prop :=
  | DClock d s : 0 < d -> timed_step s (set_clock (d_now s + d) s)
  (* [readPackLoop] *)
  | DSelect s : read_done (d_run s) = false -> d_at s = AtSelect -> ctx_done (d_run s) = false ->
      isStopping (d_run s) = false -> timed_step s (set_at InRead (d_buffered s) s)
  | DSelectCtx s : read_done (d_run s) = false -> d_at s = AtSelect -> ctx_done (d_run s) = true ->
      timed_step s (set_drun (read_exit true (d_run s)) s)
  | DSelectStop s : read_done (d_run s) = false -> d_at s = AtSelect -> isStopping (d_run s) = true ->
      timed_step s (set_drun (read_exit false (d_run s)) s)
  | DReadBuffer n s : read_done (d_run s) = false -> d_at s = InRead -> d_buffered s = S n -> timed_step s (set_at InHandle n s)
  | DReadConn n s : read_done (d_run s) = false -> d_at s = InRead -> d_now s < d_deadline s -> timed_step s (set_at InHandle n s)
  | DReadErr s : read_done (d_run s) = false -> d_at s = InRead -> timed_step s (set_drun (read_exit true (d_run s)) s)
  | DHandled s : read_done (d_run s) = false -> d_at s = InHandle -> timed_step s (extend s)
  | DHandleErr s : read_done (d_run s) = false -> d_at s = InHandle -> timed_step s (set_drun (read_exit true (d_run s)) s)
  (* [writePackLoop] *)
  | DWrite pack rest s : write_done (d_run s) = false -> replyChan (d_run s) = pack :: rest ->
      (d_deadline s <= d_now s -> fst (writePack ss filter pack (WorkerRun.conn (d_run s))) <> Ok tt) ->
      timed_step s (set_drun (write_turn ss filter pack rest (d_run s)) s)
  (* the pushers, the other goroutines, [Stop] *)
  | DOther t s : run_step ss size filter (d_run s) t -> read_done t = read_done (d_run s) ->
      WorkerRun.conn t = WorkerRun.conn (d_run s) -> write_failed t = write_failed (d_run s) -> taken t = taken (d_run s) ->
      timed_step s (set_drun t s).

(** A worker [Start] has just set up; its reader may have packets already. *)
Definition timed_init (s : timed) : Prop :=
  run_init (d_run s) /\ d_at s = AtSelect /\ d_handled s = 0 /\ d_last s = d_now s /\
  d_deadline s = d_now s + RequestIdleTimeout.

(** Without the clock it is a run of the worker. *)
Lemma timed_run s s' : timed_step s s' -> rtc (run_step ss size filter) (d_run s) (d_run s').
Proof.
  destruct 1; cbn; try apply rtc_refl; apply rtc_once.
  - by apply RReadCtx.
  - by apply RReadStop.
  - by apply RReadErr.
  - by apply RReadErr.
  - by apply RWrite.
  - done.
Qed.

Lemma timed_reachable_run s : reachable timed_init timed_step s -> reachable run_init (run_step ss size filter) (d_run s).
Proof. induction 1 as [s Hi|s s' Hr IH Hs]; [apply reach_init, Hi|]. by eapply reachable_rtc, timed_run. Qed.

Lemma deadline_last s : reachable timed_init timed_step s -> d_deadline s = d_last s + RequestIdleTimeout.
Proof.
  revert s. apply (reachable_inv _ _ (fun s => d_deadline s = d_last s + RequestIdleTimeout)).
  - intros s (_ & _ & _ & -> & ->). done.
  - intros s s' _ IH Hs. by destruct Hs.
Qed.

(** No packet for [RequestIdleTimeout], and none in the buffer or in hand. *)
Definition silent (s : timed) : Prop :=
  d_last s + RequestIdleTimeout <= d_now s /\ (read_done (d_run s) = true \/ (d_at s <> InHandle /\ d_buffered s = O)).

(** A write past the deadline. *)
Lemma late_write pack rest t : fst (writePack ss filter pack (WorkerRun.conn t)) <> Ok tt ->
  write_failed (write_turn ss filter pack rest t) = true /\ taken (write_turn ss filter pack rest t) = taken t /\
  read_done (write_turn ss filter pack rest t) = read_done t.
Proof. unfold write_turn. destruct (writePack _ _ _ _) as [[[]|e|q] c]; cbn; [done|by repeat split..]. Qed.

Lemma read_exit_done e t : read_done (read_exit e t) = true.
Proof. done. Qed.

(** A silent connection stays silent: nobody moves its deadline. *)
Lemma silent_step s s' : d_deadline s = d_last s + RequestIdleTimeout -> silent s -> timed_step s s' ->
  silent s' /\ d_handled s' = d_handled s /\ d_last s' = d_last s /\ d_deadline s' = d_deadline s /\
  taken (d_run s') = taken (d_run s).
Proof.
  intros Hd [Hn Hr] Hs. unfold silent. destruct Hs as [d s Hp|s H1 H2 H3 H4|s H1 H2 H3|s H1 H2 H3|n s H1 H2 H3|n s H1 H2 H3|s H1 H2
    |s H1 H2|s H1 H2|pack rest s H1 H2 H3|t s H1 H2 H3 H4 H5]; cbn in *; try lia.
  all: try (destruct Hr as [Hr|[Hr Hb]]; [congruence|]); try congruence.
  - split; [split; [lia|done]|done].
  - split; [split; [done|by right]|done].
  - split; [split; [done|by left]|done].
  - split; [split; [done|by left]|done].
  - split; [split; [done|by left]|done].
  - destruct (late_write pack rest (d_run s)) as (_ & -> & ->); [apply H3; lia|]. by split.
  - rewrite H2, H5. by split.
Qed.
Lemma silent_run s s' : reachable timed_init timed_step s -> silent s -> rtc timed_step s s' ->
  reachable timed_init timed_step s' /\ silent s' /\ d_handled s' = d_handled s /\ d_last s' = d_last s /\
  taken (d_run s') = taken (d_run s).
Proof.
  intros Hr Hs Hrt. induction Hrt as [s|s s1 s' H1 Hrt IH]; [done|].
  destruct (silent_step s s1 (deadline_last s Hr) Hs H1) as (Hs1 & E1 & E2 & _ & E3).
  destruct (IH ltac:(by eapply reach_step) Hs1) as (Hr' & Hs' & F1 & F2 & F3).
  split; [done|]. split; [done|]. repeat split; congruence.
Qed.

(** A step of the worker that is not a turn of the writer. *)
Lemma other_keeps_queue t t' : run_inv ss size filter t -> run_step ss size filter t t' ->
  write_failed t' = write_failed t -> taken t' = taken t -> (length (replyChan t) <= length (replyChan t'))%nat.
Proof.
  intros Hi Hs Hf Ht. destruct Hs as [out t t' E| | |pack rest t Hw Hc| | | | | | | | | | |]; cbn in *; try lia.
  - unfold Push_check in E. by repeat case_match; simplify_eq.
  - rewrite length_app. lia.
  - unfold write_turn in *. destruct (writePack _ _ _ _) as [[[]|e|q] c]; cbn in *.
    + apply (f_equal length) in Ht. rewrite length_app in Ht. cbn in Ht. lia.
    + rewrite (rn_fail _ _ _ _ Hi) in Hw by done. done.
    + rewrite (rn_fail _ _ _ _ Hi) in Hw by done. done.
Qed.

(** Taking a packet off the queue of a silent connection is the end of its writer. *)
Lemma silent_write s s' : reachable timed_init timed_step s -> silent s -> timed_step s s' ->
  (length (replyChan (d_run s')) < length (replyChan (d_run s)))%nat -> write_failed (d_run s') = true.
Proof.
  intros Hr [Hn _] Hs Hl. pose proof (deadline_last s Hr) as Hd.
  destruct Hs as [d s Hp|s H1 H2 H3 H4|s H1 H2 H3|s H1 H2 H3|n s H1 H2 H3|n s H1 H2 H3|s H1 H2
    |s H1 H2|s H1 H2|pack rest s H1 H2 H3|t s H1 H2 H3 H4 H5]; cbn in *; try lia.
  - apply late_write, H3. lia.
  - pose proof (run_reachable_inv _ _ _ _ (timed_reachable_run s Hr)) as Hi.
    pose proof (other_keeps_queue _ _ Hi H1 H4 H5). lia.
Qed.
End deadline.

(** C17: A client that is silent for [RequestIdleTimeout] is cut off: once that
    long has passed since the deadline was last set, and no packet is in the
    reader's buffer or in hand, no packet of the client is handled any more and
    none is sent to it whole, whatever happens and however long it takes.
    Packets pushed to it stay in the queue until the writer takes one, and then
    the write fails and ends the writer. *)
Theorem idle_cut_off `{C : Cipher} ss size filter timeout (s s' : timed) :
  reachable (timed_init timeout) (timed_step ss size filter timeout) s -> silent timeout s ->
  rtc (timed_step ss size filter timeout) s s' ->
  d_handled s' = d_handled s /\ taken (d_run s') = taken (d_run s) /\
  (write_failed (d_run s') = false -> pushed (d_run s') = taken (d_run s) ++ replyChan (d_run s')) /\
  (forall t, timed_step ss size filter timeout s' t ->
     (length (replyChan (d_run t)) < length (replyChan (d_run s')))%nat -> write_failed (d_run t) = true).
Proof.
  intros Hr Hs Hrt. destruct (silent_run ss size filter timeout s s' Hr Hs Hrt) as (Hr' & Hs' & E1 & _ & E2).
  do 2 (split; [done|]). pose proof (run_reachable_inv _ _ _ _ (timed_reachable_run _ _ _ _ _ Hr')) as Hi. split.
  - intros Hf. rewrite <- E2. apply (rn_fifo _ _ _ _ Hi). destruct (write_done (d_run s')) eqn:E; [|done].
    by rewrite (rn_write _ _ _ _ Hi E) in Hf.
  - intros t Ht. by eapply silent_write.
Qed.

(** *** Witness: the handshake is over at time 0, the deadline is 60, and nobody
    says a word; a packet is pushed at time 70 *)

Definition dl_run : run := mkRun [] false [] false false false false false false false false false false false
  (mkWconn [] [Some (0, EOF)]) [] [].
Definition dl_pushing : run := match Push_check [65] dl_run with Ok r => r | _ => dl_run end.
Definition dl_queued : run := Push_send 0 [65] dl_pushing.

Definition dl_step : timed -> timed -> Prop := timed_step (C := tag_cipher) demo_ss 4 pass 60.

Definition dl0 : timed := mkTimed dl_run 0 60 AtSelect 0 0 0.
Definition dl1 : timed := mkTimed dl_run 70 60 InRead 0 0 0.
Definition dl2 : timed := mkTimed dl_queued 70 60 InRead 0 0 0.

Lemma dl1_reachable : reachable (timed_init 60) dl_step dl1.
Proof.
  assert (reachable (timed_init 60) dl_step dl0) as H0 by (apply reach_init; by repeat split).
  assert (dl_step dl0 (set_at InRead 0 dl0)) as S1 by (by apply (DSelect (C := tag_cipher) demo_ss 4 pass 60 dl0)).
  assert (dl_step (set_at InRead 0 dl0) dl1) as S2 by (by apply (DClock (C := tag_cipher) demo_ss 4 pass 60 70 (set_at InRead 0 dl0))).
  eauto using reach_step.
Qed.

Lemma dl_pushed : rtc dl_step dl1 dl2.
Proof.
  eapply rtc_l; [apply (DOther (C := tag_cipher) demo_ss 4 pass 60 dl_pushing dl1); [by apply (RPushCheck _ _ _ [65])|done..]|].
  eapply rtc_once. apply (DOther (C := tag_cipher) demo_ss 4 pass 60 dl_queued (set_drun dl_pushing dl1)); [|done..].
  apply (RPushSend _ _ _ 0 [65]); [done|done|cbn; lia].
Qed.

Lemma idle_cut_off_witness : pushed (d_run dl2) = [[65]] /\ taken (d_run dl2) = [] /\
  write_failed (write_turn (C := tag_cipher) demo_ss pass [65] [] dl_queued) = true.
Proof.
  destruct (idle_cut_off (C := tag_cipher) demo_ss 4 pass 60 dl1 dl2 dl1_reachable) as (_ & Ht & Hp & Hw).
  - split; [cbn; lia|right; by split].
  - exact dl_pushed.
  - split; [exact (Hp eq_refl)|]. split; [exact Ht|].
    apply (Hw (set_drun (write_turn (C := tag_cipher) demo_ss pass [65] [] dl_queued) dl2)); [|apply le_n].
    by apply (DWrite (C := tag_cipher) demo_ss 4 pass 60 [65] [] dl2).
Defined.
