(* ===== verification/PushOrder.v ===== *)
(** The tunnels of one connection pushing to its client at once: [scLoop] and
    [push] of src/app/gate/internal/intra/net/tunnels/tunnel.go over one session
    and the queue of one worker (WorkerRun.v).

    [push] takes the session's next index (an atomic add), marshals, and calls
    [Worker.Push].  The connection's tunnels do this concurrently, so a packet
    with a smaller index can be queued after one with a larger index.  The
    session is what [t.app.Session()] returns: the connection's, in an
    application whose [Session] returns.  That of the player and room tunnels
    calls itself and overflows the stack (Tunnels.v, [push_overflows]), which
    ends the process: no index is taken then.  The packet's data is empty
    ([push_drops_data]). *)
From stdpp Require Import sorting.
From S2P Require Import Prelude BufReader Session Codec Messages Service Tunnels WorkerRun.

Section order.
Context `{C : Cipher} `{Cp : Compressor} `{PM : !ProtoMsg Packet} {PL : ProtoLaws Packet} {A : Type} `{FM : ForwardMessage A}.
Context (enc : session) (size : nat) (filter : list Z -> result (list Z)).

(** [t.app.Session()] of the tunnels, when the connection's session is in the
    given state. *)
Context (Session : session -> result session).

(** [alone]: the connection has one tunnel, whose loop pushes one message after
    the other; [start] is the session's index when it begins. *)
Context (alone : bool) (start : Z).

Record pushers := mkP {
  ps_session : session;
  ps_hold : list (list Z);      (** pushes between the numbering and [Worker.Push] *)
  ps_run : run;
  ps_made : Z;                  (** history: indices taken *)
}.

(** [push] up to [t.Push]: the session, the index and the bytes. *)
Definition number (sc : option A) (d : list Z) (c : bool) (ss0 : session) : result (list Z) * session :=
  match Session ss0 with
  | Ok ss1 =>
      let '(idx, ss) := IncreaseSCIndex ss1 in
      (map_err (fun e => EWrap e "packet marshal failed" []) (Marshal (push_packet sc d c (int32 idx))), ss)
  | Err e => (Err e, ss0)
  | Panic q => (Panic q, ss0)
  end.

(** One tunnel's loop does not take a message before the last one is queued. *)
Definition may_number (s : pushers) : Prop := alone = true -> ps_hold s = [] /\ pending (ps_run s) = [].

Inductive push_step : pushers -> pushers -> Prop :=
  | PNumber sc d c bytes ss s : may_number s -> Compress [] = Ok (d, c) -> number sc d c (ps_session s) = (Ok bytes, ss) ->
      push_step s (mkP ss (ps_hold s ++ [bytes]) (ps_run s) (ps_made s + 1))
  | PNoSession e s : may_number s -> Session (ps_session s) = Err e -> push_step s s
  | PNumberFail sc d c e ss ss1 s : may_number s -> Compress [] = Ok (d, c) -> Session (ps_session s) = Ok ss1 ->
      number sc d c (ps_session s) = (Err e, ss) ->
      push_step s (mkP ss (ps_hold s) (ps_run s) (ps_made s + 1))
  | PPush i bytes r s : ps_hold s !! i = Some bytes -> Push_check bytes (ps_run s) = Ok r ->
      push_step s (mkP (ps_session s) (delete i (ps_hold s)) r (ps_made s))
  | PRefused i bytes e s : ps_hold s !! i = Some bytes -> Push_check bytes (ps_run s) = Err e ->
      push_step s (mkP (ps_session s) (delete i (ps_hold s)) (ps_run s) (ps_made s))
  | PRun r s : run_step enc size filter (ps_run s) r -> (length (pending r) <= length (pending (ps_run s)))%nat ->
      push_step s (mkP (ps_session s) (ps_hold s) r (ps_made s)).

Definition push_init (s : pushers) : Prop :=
  SCIndex (ps_session s) = start /\ ps_hold s = [] /\ run_init (ps_run s) /\ pending (ps_run s) = [] /\ ps_made s = 0.

(** [push] is the numbering and the push, one after the other. *)
Lemma push_is_number ss ss' pusher ch (sc : option A) (O : gset nat) s s' :
  pool_ok O s -> push (Session ss) pusher ch sc s = (Ok ss', s') ->
  exists d c bytes, Compress [] = Ok (d, c) /\ number sc d c ss = (Ok bytes, ss') /\ pusher bytes = Ok tt.
Proof.
  intros Hs. destruct (GetPacket_returns ch s) as (p & s1 & E).
  destruct (pool_get_ok O s ch p s1 Hs E) as (_ & Hz & _).
  cbv [push mbind go_bind deferring push_body gets lift number]. rewrite E, Hz. cbn [from_option id].
  change (p_Data Reset) with (@nil Z). destruct (Compress []) as [[d c]| |] eqn:Ec; try discriminate.
  destruct (Session ss) as [ss0| |]; try discriminate.
  destruct (IncreaseSCIndex ss0) as [idx ss1] eqn:Ei. cbv [modify mret go_ret].
  destruct (Marshal _) as [bytes| |] eqn:Em; try discriminate. cbn [map_err].
  destruct (pusher bytes) as [[]| |] eqn:Ep; try discriminate. intros [= <- _].
  exists d, c, bytes. by rewrite Em.
Qed.

(** ** Indices *)

Definition index_of (bytes : list Z) : Z := match Unmarshal bytes with Ok pk => p_Index pk | _ => 0 end.

(** The pushes that are under way, and the packets queued, in the order of the
    queue. *)
Definition all_pushes (s : pushers) : list (list Z) := pushed (ps_run s) ++ pending (ps_run s) ++ ps_hold s.

Record order_inv (s : pushers) : Prop := {
  po_index : SCIndex (ps_session s) = start + ps_made s;
  po_made : 0 <= ps_made s;
  po_range : Forall (fun b => start < index_of b <= start + ps_made s) (all_pushes s);
  po_nodup : NoDup (index_of <$> all_pushes s);
  po_alone : alone = true -> (length (pending (ps_run s)) + length (ps_hold s) <= 1)%nat /\
    StronglySorted Z.lt (index_of <$> all_pushes s);
}.

Hypothesis Session_own : forall ss ss', Session ss = Ok ss' -> ss' = ss.

Lemma number_index sc d c ss ss1 r ss' : 0 <= SCIndex ss < 2 ^ 31 - 1 -> Session ss = Ok ss1 -> number sc d c ss = (r, ss') ->
  SCIndex ss' = SCIndex ss + 1 /\ forall bytes, r = Ok bytes -> index_of bytes = SCIndex ss + 1.
Proof.
  intros Hi Es. unfold number. rewrite Es. apply Session_own in Es as ->. unfold IncreaseSCIndex. destruct (Increase (scIndex ss)) as [v ix] eqn:E.
  rewrite Increase_val in E by (unfold SCIndex, Load in Hi; lia). injection E as <- <-. intros [= <- <-]. split; [done|].
  intros bytes. destruct (Marshal _) as [bs| |] eqn:Em; try discriminate. intros [= <-].
  unfold index_of. rewrite (proto_round_trip _ _ Em). cbn. rewrite wrapS_id; [done|lia|]. unfold SCIndex, Load in Hi. lia.
Qed.

Lemma number_session sc d c ss bytes ss' : number sc d c ss = (Ok bytes, ss') -> exists ss1, Session ss = Ok ss1.
Proof. unfold number. destruct (Session ss) as [ss1| |]; [by exists ss1|done..]. Qed.

(** What a step of the worker does to the packets of the pushers. *)
Lemma run_moves r r' hold : run_step enc size filter r r' -> (length (pending r') <= length (pending r))%nat ->
  pushed r' ++ pending r' ++ hold ⊆+ pushed r ++ pending r ++ hold.
Proof.
  destruct 1 as [out t t' E|i out t Hi Hc Hl|i out t Hi Hc|pack rest t Hw Hc| | | | | | | | | | |]; cbn; try done.
  - unfold Push_check in E. repeat case_match; simplify_eq. cbn. rewrite length_app. cbn. lia.
  - intros _. rewrite <- (app_assoc (pushed t)). apply Permutation_submseteq. f_equiv. cbn. rewrite app_comm_cons. f_equiv.
    by rewrite <- delete_Permutation.
  - intros _. apply submseteq_app; [done|]. apply submseteq_app; [|done]. apply sublist_submseteq, sublist_delete.
  - intros _. unfold write_turn. by repeat case_match.
Qed.

(** The same with one tunnel, where at most one push is under way. *)
Lemma run_keeps_order r r' hold : run_step enc size filter r r' -> (length (pending r') <= length (pending r))%nat ->
  (length (pending r) + length hold <= 1)%nat ->
  pushed r' ++ pending r' ++ hold `sublist_of` pushed r ++ pending r ++ hold.
Proof.
  destruct 1 as [out t t' E|i out t Hi Hc Hl|i out t Hi Hc|pack rest t Hw Hc| | | | | | | | | | |]; cbn; try done.
  - unfold Push_check in E. repeat case_match; simplify_eq. cbn. rewrite length_app. cbn. lia.
  - intros _. pose proof (lookup_lt_Some _ _ _ Hi). destruct (pending t) as [|b [|b2 l]]; cbn in *; try lia.
    destruct i as [|i]; [|lia]. injection Hi as ->. intros _. rewrite <- app_assoc. by destruct hold.
  - intros _ _. apply sublist_app; [done|]. apply sublist_app; [apply sublist_delete|done].
  - intros _ _. unfold write_turn. by repeat case_match.
Qed.
Lemma NoDup_sub {X} (l k : list X) : l ⊆+ k -> NoDup k -> NoDup l.
Proof. intros [k' ->]%submseteq_Permutation Hn. by apply NoDup_app in Hn as [? _]. Qed.

Lemma sorted_sub (l k : list Z) : l `sublist_of` k -> StronglySorted Z.lt k -> StronglySorted Z.lt l.
Proof.
  induction 1 as [|x l k Hs IH|x l k Hs IH]; [done|..]; rewrite ?StronglySorted_cons; intros [Hf Hk]; [|by apply IH].
  split; [|by apply IH]. rewrite Forall_forall in Hf |- *. intros y Hy. apply Hf. by eapply elem_of_submseteq, sublist_submseteq.
Qed.

(** A step that takes no index: packets move towards the queue or are dropped. *)
Lemma order_moves s s' : SCIndex (ps_session s') = SCIndex (ps_session s) -> ps_made s' = ps_made s ->
  all_pushes s' ⊆+ all_pushes s ->
  (alone = true -> (length (pending (ps_run s)) + length (ps_hold s) <= 1)%nat ->
     (length (pending (ps_run s')) + length (ps_hold s') <= 1)%nat /\ all_pushes s' `sublist_of` all_pushes s) ->
  order_inv s -> order_inv s'.
Proof.
  intros Ei Em Hs Ha [H1 H2 H3 H4 H5]. split; rewrite ?Ei, ?Em; try done.
  - rewrite Forall_forall in H3 |- *. intros b Hb. apply H3. by eapply elem_of_submseteq.
  - eapply NoDup_sub; [|exact H4]. by apply fmap_submseteq.
  - intros Hal. destruct (H5 Hal) as [Hl Hso]. destruct (Ha Hal Hl) as [Hl' Hsub]. split; [done|].
    eapply sorted_sub; [|exact Hso]. by apply fmap_sublist.
Qed.

(** A new index at the end. *)
Lemma order_new s bytes ss : SCIndex ss = SCIndex (ps_session s) + 1 -> index_of bytes = SCIndex (ps_session s) + 1 ->
  may_number s -> order_inv s -> order_inv (mkP ss (ps_hold s ++ [bytes]) (ps_run s) (ps_made s + 1)).
Proof.
  intros Es Eb Hm [H1 H2 H3 H4 H5].
  assert (all_pushes (mkP ss (ps_hold s ++ [bytes]) (ps_run s) (ps_made s + 1)) = all_pushes s ++ [bytes]) as E
    by (unfold all_pushes; cbn; by rewrite !app_assoc).
  assert (Forall (fun j => j < index_of bytes) (index_of <$> all_pushes s)) as Hlt.
  { apply Forall_fmap. eapply Forall_impl; [exact H3|]. cbn. intros b Hb. lia. }
  split; rewrite ?E; cbn [ps_session ps_made ps_run ps_hold]; [lia|lia|..].
  - apply Forall_app. split; [eapply Forall_impl; [exact H3|]; cbn; lia|]. constructor; [lia|constructor].
  - rewrite fmap_app. apply NoDup_app. split; [done|]. split; [|apply NoDup_singleton].
    intros j Hj ->%list_elem_of_singleton. rewrite Forall_forall in Hlt. apply Hlt in Hj. lia.
  - intros Ha. destruct (Hm Ha) as [-> ->]. split; [cbn; lia|]. rewrite fmap_app. apply StronglySorted_app.
    split; [|split; [by apply H5|repeat constructor]].
    intros j j' Hj ->%list_elem_of_singleton. rewrite Forall_forall in Hlt. by apply Hlt.
Qed.

Lemma order_step s s' : 0 <= start -> push_step s s' -> start + ps_made s' < 2 ^ 31 -> order_inv s -> order_inv s'.
Proof.
  intros H0 Hs Hb H. pose proof (po_index _ H) as Hi. pose proof (po_made _ H) as Hmade.
  destruct Hs as [sc d c bytes ss s Hm Hc Hn|e s Hm He|sc d c e ss ss1 s Hm Hc Hss Hn|i bytes r s Hh Hp|i bytes e s Hh Hp|r s Hr Hl]; cbn in Hb.
  - destruct (number_session _ _ _ _ _ _ Hn) as [ss1 Hss].
    destruct (number_index sc d c (ps_session s) ss1 _ ss ltac:(lia) Hss Hn) as [Es Eb]. apply order_new; auto.
  - done.
  - destruct (number_index sc d c (ps_session s) ss1 _ ss ltac:(lia) Hss Hn) as [Es _]. destruct H as [H1 H2 H3 H4 H5].
    split; cbn; try done; [lia|lia|]. eapply Forall_impl; [exact H3|]. cbn. lia.
  - assert (pushed r = pushed (ps_run s) /\ pending r = pending (ps_run s) ++ [bytes]) as [E1 E2].
    { unfold Push_check in Hp. repeat case_match; by simplify_eq. }
    pose proof (lookup_lt_Some _ _ _ Hh).
    apply (order_moves s); try done; unfold all_pushes; cbn; rewrite E1, E2.
    + apply Permutation_submseteq. f_equiv. rewrite <- app_assoc. f_equiv. cbn. by rewrite <- delete_Permutation.
    + intros _ Hl. destruct (ps_hold s) as [|b [|b2 l]]; cbn in *; try lia. destruct i as [|i]; [|lia]. injection Hh as ->.
      cbn. rewrite length_app. cbn. split; [lia|]. by rewrite <- app_assoc.
  - apply (order_moves s); try done; unfold all_pushes; cbn.
    + do 2 (apply submseteq_app; [done|]). apply sublist_submseteq, sublist_delete.
    + intros _ Hl. pose proof (sublist_length _ _ (sublist_delete (ps_hold s) i)). split; [lia|].
      do 2 (apply sublist_app; [done|]). apply sublist_delete.
  - apply (order_moves s); try done; unfold all_pushes; cbn; [by apply run_moves|].
    intros _ Hl'. split; [lia|by apply run_keeps_order].
Qed.

Lemma made_le s s' : push_step s s' -> ps_made s <= ps_made s'.
Proof. destruct 1; cbn; lia. Qed.

Lemma order_reachable s : 0 <= start -> reachable push_init push_step s -> start + ps_made s < 2 ^ 31 -> order_inv s.
Proof.
  intros H0 Hr. induction Hr as [s (E1 & E2 & E3 & E4 & E5)|s s' Hr IH Hs]; intros Hb.
  - destruct E3 as (_ & _ & _ & _ & _ & _ & _ & E6 & _).
    split; unfold all_pushes; rewrite ?E2, ?E4, ?E5, ?E6; cbn; try lia; try constructor; try lia; constructor.
  - pose proof (made_le _ _ Hs). eapply order_step; eauto. apply IH. lia.
Qed.
(** Nothing is numbered as long as [Session] returns nothing. *)
Lemma nothing_made s : (forall ss ss1, Session ss <> Ok ss1) -> reachable push_init push_step s -> ps_made s = 0.
Proof.
  intros Hn Hr. induction Hr as [s (_ & _ & _ & _ & E5)|s s' Hr IH Hs]; [done|].
  destruct Hs as [sc d c bytes ss s _ _ Hb|e s _ _|sc d c e ss ss1 s _ _ Hss _| | |]; cbn; try done.
  - destruct (number_session _ _ _ _ _ _ Hb) as [ss1 Hss]. by destruct (Hn _ _ Hss).
  - by destruct (Hn _ _ Hss).
Qed.
End order.

(** The [Session] of the player and room tunnels returns nothing. *)
Lemma app_Session_never `{C : Cipher} depth t ss : app_Session depth t <> Ok ss.
Proof. by induction depth. Qed.

(** C39: The indices of the packets the tunnels of a connection push to its client,
    for tunnels whose [Session] hands out the connection's session if it
    returns: as long as they fit the packet's 32-bit field, each queued packet
    decodes to an index that the session has handed out since the start, and no
    two have the same one, however many tunnels push at once; and if there is
    one tunnel only, the packets are queued in the order of their indices.
    (With two, they need not be: [two_tunnels_reorder].)  The [Session] of the
    player and room tunnels never returns: with it no index is ever taken and
    nothing is ever queued. *)
Theorem push_indices `{C : Cipher} `{Cp : Compressor} `{PM : !ProtoMsg Packet} {PL : ProtoLaws Packet} {A} `{FM : ForwardMessage A}
    enc size filter Session alone start (s : pushers) :
  0 <= start -> (forall ss ss1, Session ss = Ok ss1 -> ss1 = ss) ->
  reachable (push_init start) (push_step (A := A) enc size filter Session alone) s -> start + ps_made s < 2 ^ 31 ->
  Forall (fun b => exists pk, Unmarshal b = Ok pk /\ start < p_Index pk <= start + ps_made s) (pushed (ps_run s)) /\
  NoDup (index_of <$> pushed (ps_run s)) /\
  (alone = true -> StronglySorted Z.lt (index_of <$> pushed (ps_run s))) /\
  ((forall ss, exists depth t, Session ss = app_Session depth t) -> ps_made s = 0 /\ pushed (ps_run s) = []).
Proof.
  intros H0 Hown Hr Hb. destruct (order_reachable enc size filter Session alone start Hown s H0 Hr Hb) as [_ _ H3 H4 H5].
  unfold all_pushes in *. rewrite fmap_app in H4, H5. apply Forall_app in H3 as [H3 _]. split; [|split; [|split]].
  - eapply Forall_impl; [exact H3|]. intros b Hb'. unfold index_of in Hb'. destruct (Unmarshal b) as [pk| |]; [by exists pk|lia..].
  - by apply NoDup_app in H4 as [? _].
  - intros Ha. destruct (H5 Ha) as [_ Hs]. by apply StronglySorted_app in Hs as (_ & ? & _).
  - intros Happ. assert (ps_made s = 0) as Hz.
    { eapply (nothing_made enc size filter Session); [|exact Hr]. intros ss ss1 E.
      destruct (Happ ss) as (depth & t & E'). rewrite E' in E. by apply app_Session_never in E. }
    split; [done|]. destruct (pushed (ps_run s)); [done|]. apply Forall_cons in H3 as [? _]. lia.
Qed.

(** *** Witness: two tunnels number a message each, the second one pushes first *)

#[local] Existing Instances flat_packet flat_packet_laws.

Definition po_bytes (i : Z) : list Z :=
  match Marshal (push_packet demo_msg [] false i) with Ok bs => bs | _ => [] end.
Definition po_session (n : Z) : session (C := tag_cipher) :=
  Nat.iter (Z.to_nat n) (fun ss => snd (IncreaseSCIndex (C := tag_cipher) ss)) tag_session.
(** The worker with these packets queued and this one about to be. *)
Definition po_run (q pend : list (list Z)) : run :=
  mkRun q false pend false false false false false false false false false false false (mkWconn [] []) q [].
Definition po_state (n : Z) (hold q pend : list (list Z)) : pushers (C := tag_cipher) :=
  mkP (po_session n) hold (po_run q pend) n.

Definition po_step : pushers (C := tag_cipher) -> pushers (C := tag_cipher) -> Prop :=
  push_step (C := tag_cipher) (Cp := plain_compressor) (A := player_Message) tag_session 4 pass Ok false.

Lemma po_reordered : reachable (push_init (C := tag_cipher) 1) po_step (po_state 2 [] [po_bytes 3; po_bytes 2] []).
Proof.
  pose (push := PPush (C := tag_cipher) (Cp := plain_compressor) (A := player_Message) tag_session 4 pass Ok false).
  pose (num := PNumber (C := tag_cipher) (Cp := plain_compressor) (A := player_Message) tag_session 4 pass Ok false).
  pose (runs := PRun (C := tag_cipher) (Cp := plain_compressor) (A := player_Message) tag_session 4 pass Ok false).
  assert (reachable (push_init (C := tag_cipher) 1) po_step (po_state 0 [] [] [])) as H0
    by (apply reach_init; repeat split).
  assert (po_step (po_state 0 [] [] []) (po_state 1 [po_bytes 2] [] [])) as S1
    by (by apply (num demo_msg [] false (po_bytes 2) (po_session 1) (po_state 0 [] [] []))).
  assert (po_step (po_state 1 [po_bytes 2] [] []) (po_state 2 [po_bytes 2; po_bytes 3] [] [])) as S2
    by (by apply (num demo_msg [] false (po_bytes 3) (po_session 2) (po_state 1 [po_bytes 2] [] []))).
  assert (po_step (po_state 2 [po_bytes 2; po_bytes 3] [] []) (po_state 2 [po_bytes 2] [] [po_bytes 3])) as S3
    by (by apply (push 1%nat (po_bytes 3) _ (po_state 2 [po_bytes 2; po_bytes 3] [] []))).
  assert (po_step (po_state 2 [po_bytes 2] [] [po_bytes 3]) (po_state 2 [po_bytes 2] [po_bytes 3] [])) as S4.
  { apply (runs (po_run [po_bytes 3] []) (po_state 2 [po_bytes 2] [] [po_bytes 3])); [|cbn; lia].
    apply (RPushSend (C := tag_cipher) tag_session 4 pass 0 (po_bytes 3)); [done|done|cbn; lia]. }
  assert (po_step (po_state 2 [po_bytes 2] [po_bytes 3] []) (po_state 2 [] [po_bytes 3] [po_bytes 2])) as S5
    by (by apply (push 0%nat (po_bytes 2) _ (po_state 2 [po_bytes 2] [po_bytes 3] []))).
  assert (po_step (po_state 2 [] [po_bytes 3] [po_bytes 2]) (po_state 2 [] [po_bytes 3; po_bytes 2] [])) as S6.
  { apply (runs (po_run [po_bytes 3; po_bytes 2] []) (po_state 2 [] [po_bytes 3] [po_bytes 2])); [|cbn; lia].
    apply (RPushSend (C := tag_cipher) tag_session 4 pass 0 (po_bytes 2)); [done|done|cbn; lia]. }
  eauto 10 using reach_step.
Qed.

(** Two tunnels of one connection can queue their packets against the order of
    the indices. *)
Lemma two_tunnels_reorder : exists s, reachable (push_init (C := tag_cipher) 1) po_step s /\
  index_of <$> pushed (ps_run s) = [3; 2].
Proof. eexists. split; [exact po_reordered|]. vm_compute. reflexivity. Qed.

Lemma push_indices_witness : NoDup (index_of <$> pushed (ps_run (po_state 2 [] [po_bytes 3; po_bytes 2] []))).
Proof.
  apply (push_indices (C := tag_cipher) (Cp := plain_compressor) (A := player_Message) tag_session 4 pass Ok false 1
    (po_state 2 [] [po_bytes 3; po_bytes 2] []) ltac:(lia)).
  - by intros ss ss1 [= ->].
  - exact po_reordered.
  - cbn. lia.
Defined.
