(* ===== verification/Shutdown.v ===== *)
(** Stopping the server while it serves: [stop] of
    src/pkg/net/tcp/server/server.go over the gateway at run time (System.v).

    Server.v has [stop] as one call; here its two walks run next to the
    connections.  [Walk] takes one bucket after the other; a bucket is copied
    under its lock and its workers are then visited without it, so connections
    come and go between the visits.  The first walk triggers each worker's stop,
    the second waits for each worker.  A worker's stopper is made with
    [StopTimeout] (worker.go, conf.go); the stopper is library code, so when
    [WaitStopped] returns because the worker's stop has run and when it returns
    because of the timeout are parameters. *)
From S2P Require Import Prelude BufReader Session Codec WorkerRun Buckets Server Router Connections System.

(** Where [stop] stands: before it, in one of its walks with the number of
    buckets copied and the workers of the last copy that are left, or after. *)
Inductive walking :=
  | NotCalled
  | Triggering (copied : nat) (todo : list wref)
  | WaitingFor (copied : nat) (todo : list wref)
  | Returned.

(** How far a connection is in [work]. *)
Definition rank (p : phase) : nat :=
  match p with
  | Serving => 0 | Started => 1 | Registered => 2 | Running => 3 | Leaving => 4 | Closing => 5 | Stopped => 6
  end.

Lemma registered_rank p : registered p = true <-> (2 <= rank p <= 4)%nat.
Proof. destruct p; cbn; split; first [done | lia]. Qed.

Section shutdown.
Context `{T : RouteTable} `{C : Cipher} (ep : string).
Context (ssof : Z -> session) (size : nat) (filter : list Z -> result (list Z)).

(** The order of the ranges over the buckets' maps. *)
Context (iter : gmap Z wref -> list wref).

(** When [WaitStopped] of the stopper library returns, timeouts aside. *)
Context (wait_over : run -> Prop).

Record shut := mkShut {
  sd_sys : sys;
  sd_at : walking;
  sd_owed : gset Z;     (** history: the ids registered when the second walk began, less those
                            for whose worker the walk stopped waiting by a timeout *)
}.

Definition registered_ids (w : world) : gset Z :=
  dom (base.filter (fun kc => registered (c_phase kc.2) = true) (conns w)).

Definition sd_buckets (s : shut) : list (gmap Z wref) := buckets (bs (g_reg (y_w (sd_sys s)))).

(** [timeout]: whether [WaitStopped] can return by its timeout. *)
Inductive shut_step (timeout : run -> Prop) : shut -> shut -> Prop :=
  | SSys y s : sys_step ep ssof size filter (sd_sys s) y -> shut_step timeout s (mkShut y (sd_at s) (sd_owed s))
  | SCall s : sd_at s = NotCalled -> shut_step timeout s (mkShut (sd_sys s) (Triggering 0 []) (sd_owed s))
  | SCopy j b s : sd_at s = Triggering j [] -> sd_buckets s !! j = Some b ->
      shut_step timeout s (mkShut (sd_sys s) (Triggering (S j) (iter (snapshot b))) (sd_owed s))
  | STrigger j w todo r s : sd_at s = Triggering j (w :: todo) -> y_runs (sd_sys s) !! WID w = Some r ->
      shut_step timeout s (mkShut (set_run (WID w) (set_env true false false r) (sd_sys s)) (Triggering j todo) (sd_owed s))
  | SSecond j s : sd_at s = Triggering j [] -> sd_buckets s !! j = None ->
      shut_step timeout s (mkShut (sd_sys s) (WaitingFor 0 []) (registered_ids (y_w (sd_sys s))))
  | SCopy2 j b s : sd_at s = WaitingFor j [] -> sd_buckets s !! j = Some b ->
      shut_step timeout s (mkShut (sd_sys s) (WaitingFor (S j) (iter (snapshot b))) (sd_owed s))
  | SWaited j w todo r s : sd_at s = WaitingFor j (w :: todo) -> y_runs (sd_sys s) !! WID w = Some r -> wait_over r ->
      shut_step timeout s (mkShut (sd_sys s) (WaitingFor j todo) (sd_owed s))
  | STimeout j w todo r s : sd_at s = WaitingFor j (w :: todo) -> y_runs (sd_sys s) !! WID w = Some r -> timeout r ->
      shut_step timeout s (mkShut (sd_sys s) (WaitingFor j todo) (sd_owed s ∖ {[WID w]}))
  | SReturn j s : sd_at s = WaitingFor j [] -> sd_buckets s !! j = None ->
      shut_step timeout s (mkShut (sd_sys s) Returned (sd_owed s)).

Definition shut_init (s : shut) : Prop := sys_init (sd_sys s) /\ sd_at s = NotCalled /\ sd_owed s = ∅.

(** ** The server under it *)

Context (timeout : run -> Prop).

Lemma shut_sys s s' : shut_step timeout s s' -> sys_step ep ssof size filter (sd_sys s) (sd_sys s') \/ sd_sys s' = sd_sys s.
Proof. destruct 1; cbn; try (by right); left; [done|by apply YTrigger]. Qed.

Lemma shut_reachable_sys s : reachable shut_init (shut_step timeout) s ->
  reachable sys_init (sys_step ep ssof size filter) (sd_sys s).
Proof.
  induction 1 as [s Hi|s s' Hr IH Hs]; [apply reach_init, Hi|].
  destruct (shut_sys _ _ Hs) as [Hc| ->]; [by eapply reach_step|done].
Qed.

(** ** Connections only go forward *)

(** Connection [k] has been accepted and is at rank [n] at least, or gone. *)
Definition beyond (n : nat) (k : Z) (w : world) : Prop :=
  k <= idGen w /\ forall c, conns w !! k = Some c -> (n <= rank (c_phase c))%nat.

Lemma beyond_upd n k w j c c' : conns w !! j = Some c -> (rank (c_phase c) <= rank (c_phase c'))%nat ->
  beyond n k w -> beyond n k (upd j c' w).
Proof.
  intros Hj Hr [H1 H2]. split; [done|]. cbn. intros x Hx. apply lookup_insert_Some in Hx as [[<- <-]|[_ Hx]]; [|by apply H2].
  etrans; [by apply H2|done].
Qed.

Lemma beyond_conn n k w w' m : conn_inv w m -> accepted w' < 2 ^ 64 -> conn_step ep (fun _ _ => True) w w' ->
  beyond n k w -> beyond n k w'.
Proof.
  intros Hm Ha Hs H. destruct Hs as [wid g s E|wid c uid col s Hk Hp|wid c uid col s Hk Hp|wid c ow b s Hk Hp E
    |wid c r rs s Hk Hp E|wid c s Hk Hp|wid c b s Hk Hp E|wid c s Hk Hp|wid c r rs s Hk Hp E|t s He]; cbn in Ha; try exact H.
  - destruct (accept_next _ _ _ _ Hm Ha E) as [-> ->]. destruct H as [H1 H2]. split; cbn; [lia|].
    intros x Hx. apply lookup_insert_Some in Hx as [[E1 _]|[_ Hx]]; [lia|by apply H2].
  - eapply beyond_upd; [exact Hk|rewrite Hp; cbn; lia|done].
  - eapply beyond_upd; [exact Hk|rewrite Hp; cbn; lia|done].
  - apply (beyond_upd n k s wid c (goes Registered c)); [done|rewrite Hp; cbn; lia|done].
  - apply (beyond_upd n k s wid c (goes _ c)); [done|rewrite Hp; destruct r; cbn; lia|done].
  - eapply beyond_upd; [exact Hk|rewrite Hp; cbn; lia|done].
  - apply (beyond_upd n k s wid c (goes Closing c)); [done|rewrite Hp; cbn; lia|done].
  - eapply beyond_upd; [exact Hk|rewrite Hp; cbn; lia|done].
  - destruct H as [H1 H2]. split; [done|]. cbn. intros x Hx. apply lookup_delete_Some in Hx as [_ Hx]. by apply H2.
Qed.

(** The number of buckets stays. *)
Lemma size_conn w w' : conn_step ep (fun _ _ => True) w w' -> bucketSize (bs (g_reg w')) = bucketSize (bs (g_reg w)).
Proof.
  destruct 1 as [| | |wid c ow b s Hk Hp E| | |wid c b s Hk Hp E| | |]; try done; cbn.
  - unfold Put in E. repeat case_match; simplify_eq; done.
  - unfold Del in E. repeat case_match; simplify_eq; done.
Qed.
(** ** The second walk *)

Context (iter_perm : forall b, iter b ≡ₚ (map_to_list b).*2).
Context (wait_stopped : forall r, wait_over r -> WorkerRun.stopped r = true).

Definition nbuckets (w : world) : Z := bucketSize (bs (g_reg w)).

(** What is known of the connections the second walk has to wait for: each is
    over, or still ahead of the walk. *)
Definition shut_inv (s : shut) : Prop :=
  let w := y_w (sd_sys s) in
  match sd_at s with
  | WaitingFor j todo => forall k, k ∈ sd_owed s ->
      beyond 5 k w \/ (beyond 2 k w /\ (k ∈ WID <$> todo \/ Z.of_nat j <= k mod nbuckets w))
  | Returned => forall k, k ∈ sd_owed s -> beyond 5 k w
  | _ => True
  end.

Lemma registered_ids_spec w k : k ∈ registered_ids w <-> exists c, conns w !! k = Some c /\ registered (c_phase c) = true.
Proof.
  unfold registered_ids. rewrite elem_of_dom. split.
  - intros [c Hc]. apply map_lookup_filter_Some in Hc as [Hc Hr]. by exists c.
  - intros (c & Hc & Hr). exists c. by apply map_lookup_filter_Some.
Qed.

(** A connection the walk has come to is in the copy, or over. *)
Lemma copied_or_over w m j b k : conn_inv w m -> buckets (bs (g_reg w)) !! j = Some b -> beyond 2 k w ->
  Z.of_nat j <= k mod nbuckets w ->
  beyond 5 k w \/ (beyond 2 k w /\ (k ∈ WID <$> iter (snapshot b) \/ Z.of_nat (S j) <= k mod nbuckets w)).
Proof.
  intros Hm Hb H Hk. destruct (decide (Z.of_nat j = k mod nbuckets w)) as [E|]; [|right; split; [done|right; lia]].
  destruct (conns w !! k) as [c|] eqn:Hc; [|left; split; [apply H|congruence]].
  destruct (decide (5 <= rank (c_phase c))%nat) as [Hr|Hr]; [left; split; [apply H|naive_solver]|].
  right. split; [done|]. left. destruct (cn_ids _ _ Hm _ _ Hc) as (_ & Hid & _).
  apply list_elem_of_fmap. exists (c_w c). split; [done|].
  apply (iter_bucket iter (g_reg w) m iter_perm (cn_shards _ _ Hm) j b _ Hb). rewrite Hid. split; [|done].
  apply (cn_tracks _ _ Hm). exists c. split; [done|]. split; [|done]. apply registered_rank. destruct H as [_ H].
  specialize (H c Hc). lia.
Qed.

(** [WaitStopped] of a worker has returned. *)
Lemma waited_over y k r : sys_life ssof size filter y -> y_runs y !! k = Some r -> WorkerRun.stopped r = true ->
  beyond 5 k (y_w y).
Proof.
  intros [Hi Hl] Hk Hs. split; [by eapply id_runs|]. intros c Hc.
  destruct (decide (c_phase c = Stopped)) as [->|Hp]; [cbn; lia|].
  pose proof (lf_live _ _ _ _ _ _ Hl k c r Hc Hk Hp). congruence.
Qed.

Lemma shut_sys_inv s y m : conn_inv (y_w (sd_sys s)) m -> accepted (y_w y) < 2 ^ 64 ->
  sys_step ep ssof size filter (sd_sys s) y -> shut_inv s -> shut_inv (mkShut y (sd_at s) (sd_owed s)).
Proof.
  intros Hm Ha Hs H. destruct (sys_refines _ _ _ _ _ _ Hs) as [Hc|E]; [|unfold shut_inv in *; cbn; by rewrite E].
  assert (forall n k, beyond n k (y_w (sd_sys s)) -> beyond n k (y_w y)) as Hb by (intros; by eapply beyond_conn).
  unfold shut_inv, nbuckets in *. cbn. rewrite (size_conn _ _ Hc). destruct (sd_at s); try done; [|by eauto].
  intros k Hk. destruct (H k Hk) as [?|[? ?]]; [left|right; split]; by eauto.
Qed.

Lemma shut_step_inv s s' m : conn_inv (y_w (sd_sys s)) m -> sys_life ssof size filter (sd_sys s) ->
  accepted (y_w (sd_sys s')) < 2 ^ 64 -> shut_step timeout s s' -> shut_inv s -> shut_inv s'.
Proof.
  intros Hm Hl Ha Hs H. destruct Hs as [y s Hy|s He|j b s He Hb|j w todo r s He Hr|j s He Hb|j b s He Hb|j w todo r s He Hr Hw|j w todo r s He Hr Hw|j s He Hb].
  - by eapply shut_sys_inv.
  - done.
  - done.
  - done.
  - intros k Hk. cbn in *. right. apply registered_ids_spec in Hk as (c & Hc & Hr). apply registered_rank in Hr.
    pose proof (cn_ids _ _ Hm _ _ Hc) as [? _]. split; [split; [lia|intros x Hx; simplify_eq; lia]|]. right.
    apply Z.mod_pos_bound. apply (sh_size _ _ (cn_shards _ _ Hm)).
  - intros k Hk. unfold shut_inv in H. rewrite He in H. cbn in *.
    destruct (H k Hk) as [?|[H2 [Hn|Hj]]]; [by left|by apply elem_of_nil in Hn|]. by eapply copied_or_over.
  - intros k Hk. unfold shut_inv in H. rewrite He in H. cbn in *.
    destruct (H k Hk) as [?|[H2 [Hn|Hj]]]; [by left| |right; split; [done|by right]].
    apply elem_of_cons in Hn as [->|Hn]; [|right; split; [done|by left]]. left. eapply waited_over; [done|exact Hr|by apply wait_stopped].
  - intros k Hk. unfold shut_inv in H. rewrite He in H. cbn in *. apply elem_of_difference in Hk as [Hk Hne].
    destruct (H k Hk) as [?|[H2 [Hn|Hj]]]; [by left| |right; split; [done|by right]].
    apply elem_of_cons in Hn as [->|Hn]; [by destruct Hne; apply elem_of_singleton|]. right. split; [done|by left].
  - intros k Hk. unfold shut_inv in H. rewrite He in H. cbn in *.
    destruct (H k Hk) as [?|[H2 [Hn|Hj]]]; [done|by apply elem_of_nil in Hn|]. exfalso.
    pose proof (cn_shards _ _ Hm) as Hsh. unfold sd_buckets in Hb. apply lookup_ge_None in Hb. rewrite (sh_len _ _ Hsh) in Hb.
    pose proof (sh_size _ _ Hsh). pose proof (Z.mod_pos_bound k (nbuckets (y_w (sd_sys s))) ltac:(done)). unfold nbuckets in *. lia.
Qed.

Lemma shut_reachable_inv s : reachable shut_init (shut_step timeout) s -> accepted (y_w (sd_sys s)) < 2 ^ 64 -> shut_inv s.
Proof.
  intros Hr. induction Hr as [s Hi|s s' Hr IH Hs]; intros Ha; [by destruct Hi as (_ & E & _); unfold shut_inv; rewrite E|].
  pose proof (shut_reachable_sys _ Hr) as Hy.
  assert (accepted (y_w (sd_sys s)) <= accepted (y_w (sd_sys s'))) as Hle.
  { destruct (shut_sys _ _ Hs) as [Hc| ->]; [by eapply accepted_le|lia]. }
  destruct (sys_conn_inv ep ssof size filter (sd_sys s) Hy ltac:(lia)) as [m Hm].
  eapply shut_step_inv; [exact Hm|apply (sys_life_reachable ep); [done|lia]|done|done|apply IH; lia].
Qed.

(** What is known of a connection that is over. *)
Lemma begun_over s k : reachable shut_init (shut_step timeout) s -> accepted (y_w (sd_sys s)) < 2 ^ 64 -> beyond 5 k (y_w (sd_sys s)) ->
  Buckets.Worker (bs (g_reg (y_w (sd_sys s)))) k = Ok None /\
  (forall r, y_runs (sd_sys s) !! k = Some r -> k ∈ y_ran (sd_sys s) -> run_returned r = true /\ write_failed r = true).
Proof.
  intros Hr Ha [_ Hb]. pose proof (shut_reachable_sys _ Hr) as Hy.
  destruct (sys_conn_inv ep ssof size filter (sd_sys s) Hy Ha) as [m Hm]. split.
  - rewrite (registry_worker _ _ _ Hm). destruct (conns (y_w (sd_sys s)) !! k) as [c|]; [|done]. cbn.
    destruct (registered (c_phase c)) eqn:Er; [|done]. apply registered_rank in Er. specialize (Hb c eq_refl). lia.
  - intros r Hk' Hin. destruct (ran_inv ep ssof size filter (sd_sys s) k r Hy Ha Hk' Hin) as [Hrr Hp].
    apply run_reachable_inv in Hrr. assert (run_returned r = true) as Hret.
    { destruct (conns (y_w (sd_sys s)) !! k) as [c|]; [|done]. specialize (Hb c eq_refl). cbn in Hp.
      destruct (c_phase c); cbn in *; first [done|lia]. }
    split; [done|]. by apply (rn_write _ _ _ _ Hrr), (rn_return _ _ _ _ Hrr).
Qed.

(** The workers of the copies were registered. *)
Definition todo_ok (s : shut) : Prop :=
  match sd_at s with
  | Triggering _ todo | WaitingFor _ todo => forall w, w ∈ todo -> 0 < WID w /\ beyond 2 (WID w) (y_w (sd_sys s))
  | _ => True
  end.

Lemma copy_ok w m j b x : conn_inv w m -> buckets (bs (g_reg w)) !! j = Some b -> x ∈ iter (snapshot b) ->
  0 < WID x /\ beyond 2 (WID x) w.
Proof.
  intros Hm Hb Hx. apply (iter_bucket iter (g_reg w) m iter_perm (cn_shards _ _ Hm) j b _ Hb) in Hx as [Hx _].
  apply (cn_tracks _ _ Hm) in Hx as (c & Hc & Hr & _). apply registered_rank in Hr.
  pose proof (cn_ids _ _ Hm _ _ Hc) as [? _]. split; [lia|]. split; [lia|]. intros c' Hc'. simplify_eq. lia.
Qed.

Lemma todo_step s s' m : conn_inv (y_w (sd_sys s)) m -> accepted (y_w (sd_sys s')) < 2 ^ 64 -> shut_step timeout s s' ->
  todo_ok s -> todo_ok s'.
Proof.
  intros Hm Ha Hs H. destruct Hs as [y s Hy|s He|j b s He Hb|j w todo r s He Hr|j s He Hb|j b s He Hb|j w todo r s He Hr Hw
    |j w todo r s He Hr Hw|j s He Hb];
    unfold todo_ok in *; cbn in *; rewrite ?He in H; try done;
    [|intros x Hx; first [by apply elem_of_nil in Hx|by eapply copy_ok|apply H; by right]..].
  assert (forall k, beyond 2 k (y_w (sd_sys s)) -> beyond 2 k (y_w y)) as Hb.
  { destruct (sys_refines _ _ _ _ _ _ Hy) as [Hc| ->]; [intros k Hk; by eapply beyond_conn|done]. }
  destruct (sd_at s); try done; intros x Hx; destruct (H x Hx); split; by eauto.
Qed.

Lemma shut_accepted s s' : shut_step timeout s s' -> accepted (y_w (sd_sys s)) <= accepted (y_w (sd_sys s')).
Proof. intros Hs. destruct (shut_sys _ _ Hs) as [Hc| ->]; [by eapply accepted_le|lia]. Qed.

Lemma todo_reachable s : reachable shut_init (shut_step timeout) s -> accepted (y_w (sd_sys s)) < 2 ^ 64 -> todo_ok s.
Proof.
  intros Hr. induction Hr as [s Hi|s s' Hr IH Hs]; intros Ha; [by destruct Hi as (_ & E & _); unfold todo_ok; rewrite E|].
  pose proof (shut_accepted _ _ Hs).
  destruct (sys_conn_inv ep ssof size filter (sd_sys s) (shut_reachable_sys _ Hr) ltac:(lia)) as [m Hm].
  eapply todo_step; [exact Hm|done|done|apply IH; lia].
Qed.

(** ** [Stop] returns when it can

    The walks come to their end if each worker's wait can, by steps of the
    server that keep some fact [keeps] and with the timeouts of [quick] only. *)

Section walks.
Context (quick : run -> Prop) (quick_ok : forall r, quick r -> timeout r).
Context (keeps : sys -> Prop).
Context (keeps_trigger : forall k r y, y_runs y !! k = Some r -> keeps y -> keeps (set_run k (set_env true false false r) y)).
Context (settle : forall y k, reachable sys_init (sys_step ep ssof size filter) y -> accepted (y_w y) < 2 ^ 64 ->
  0 < k -> beyond 2 k (y_w y) -> keeps y ->
  exists y' r, rtc (sys_step ep ssof size filter) y y' /\ accepted (y_w y') = accepted (y_w y) /\ keeps y' /\
    y_runs y' !! k = Some r /\ (wait_over r \/ quick r)).

Lemma quick_step s s' : shut_step quick s s' -> shut_step timeout s s'.
Proof. destruct 1; by econstructor; eauto. Qed.

Lemma quick_rtc s s' : rtc (shut_step quick) s s' -> rtc (shut_step timeout) s s'.
Proof. induction 1 as [s|s s1 s' H _ IH]; [done|]. eapply rtc_l; [by apply quick_step|exact IH]. Qed.

Lemma quick_reachable s s' : reachable shut_init (shut_step timeout) s -> rtc (shut_step quick) s s' ->
  reachable shut_init (shut_step timeout) s'.
Proof. intros Hr Hs. eapply reachable_rtc; [exact Hr|by apply quick_rtc]. Qed.

Lemma shut_serves y y' a b : rtc (sys_step ep ssof size filter) y y' -> rtc (shut_step quick) (mkShut y a b) (mkShut y' a b).
Proof. induction 1 as [y|y y1 y' H1 Hr IH]; [done|]. eapply rtc_l; [by apply (SSys quick y1 (mkShut y a b))|exact IH]. Qed.

(** Where the walks can get to: [s'] is reached from [s] without a new connection. *)
Definition gets (s : shut) (a : walking) : Prop :=
  exists s', rtc (shut_step quick) s s' /\ sd_at s' = a /\ keeps (sd_sys s') /\ accepted (y_w (sd_sys s')) = accepted (y_w (sd_sys s)).

Lemma gets_trans s a b : gets s a -> (forall s', rtc (shut_step quick) s s' -> sd_at s' = a -> keeps (sd_sys s') ->
  accepted (y_w (sd_sys s')) = accepted (y_w (sd_sys s)) -> gets s' b) -> gets s b.
Proof.
  intros (s1 & H1 & E1 & D1 & A1) H. destruct (H s1 H1 E1 D1 A1) as (s2 & H2 & E2 & D2 & A2).
  exists s2. split; [by etrans|]. split; [done|]. split; [done|congruence].
Qed.

Lemma gets_step s s' a : shut_step quick s s' -> accepted (y_w (sd_sys s')) = accepted (y_w (sd_sys s)) -> gets s' a -> gets s a.
Proof. intros Hs E (s2 & H2 & E2 & D2 & A2). exists s2. split; [by eapply rtc_l|]. split; [done|]. split; [done|congruence]. Qed.

Lemma gets_here s : keeps (sd_sys s) -> gets s (sd_at s).
Proof. intros H. by exists s. Qed.

(** A step of the walk that leaves the server alone. *)
Lemma gets_walk s y a a' : (forall b, exists b', shut_step quick (mkShut y (sd_at s) b) (mkShut y a' b')) ->
  rtc (sys_step ep ssof size filter) (sd_sys s) y -> accepted (y_w y) = accepted (y_w (sd_sys s)) ->
  (forall s', rtc (shut_step quick) s s' -> sd_at s' = a' -> sd_sys s' = y -> gets s' a) -> gets s a.
Proof.
  intros Hw Hr Ha H. destruct (Hw (sd_owed s)) as [b' Hb].
  assert (rtc (shut_step quick) s (mkShut y a' b')) as Hs.
  { etrans; [|by apply rtc_once]. destruct s. by apply shut_serves. }
  destruct (H _ Hs eq_refl eq_refl) as (s2 & H2 & E2 & D2 & A2).
  exists s2. split; [by etrans|]. split; [done|]. split; [done|]. cbn in A2. congruence.
Qed.

(** The workers of one copy. *)
Lemma wait_copy j todo s : reachable shut_init (shut_step timeout) s -> accepted (y_w (sd_sys s)) < 2 ^ 64 ->
  sd_at s = WaitingFor j todo -> keeps (sd_sys s) -> gets s (WaitingFor j []).
Proof.
  revert s. induction todo as [|w todo IH]; intros s Hr Ha He Hd; [rewrite <- He; by apply gets_here|].
  pose proof (todo_reachable s Hr Ha) as Ht. unfold todo_ok in Ht. rewrite He in Ht. destruct (Ht w) as [H0 Hb]; [left|].
  destruct (settle _ _ (shut_reachable_sys _ Hr) Ha H0 Hb Hd) as (y & r & Hrt & Ey & Hd' & Hk & Hw).
  apply (gets_walk s y _ (WaitingFor j todo)); [|done|done|].
  - intros b. rewrite He. destruct Hw as [Hw|Hw].
    + exists b. by apply (SWaited quick j w todo r (mkShut y (WaitingFor j (w :: todo)) b)).
    + exists (b ∖ {[WID w]}). by apply (STimeout quick j w todo r (mkShut y (WaitingFor j (w :: todo)) b)).
  - intros s' Hs E1 E2. apply IH; [by eapply quick_reachable|by rewrite E2, Ey|done|by rewrite E2].
Qed.

Lemma trigger_copy j todo s : reachable shut_init (shut_step timeout) s -> accepted (y_w (sd_sys s)) < 2 ^ 64 ->
  sd_at s = Triggering j todo -> keeps (sd_sys s) -> gets s (Triggering j []).
Proof.
  revert s. induction todo as [|w todo IH]; intros s Hr Ha He Hd; [rewrite <- He; by apply gets_here|].
  pose proof (todo_reachable s Hr Ha) as Ht. unfold todo_ok in Ht. rewrite He in Ht. destruct (Ht w) as [H0 Hb]; [left|].
  destruct (over_stopped_reachable ep ssof size filter _ (shut_reachable_sys _ Hr) Ha (WID w)) as (r & Hk & _); [split; [done|apply Hb]|].
  assert (shut_step quick s (mkShut (set_run (WID w) (set_env true false false r) (sd_sys s)) (Triggering j todo) (sd_owed s))) as Hs
    by (by apply STrigger).
  eapply gets_step; [exact Hs|done|]. apply IH; [by eapply reach_step; [|apply quick_step]|done|done|by apply keeps_trigger].
Qed.

(** How many buckets a walk that has copied [j] has left. *)
Definition left_of (j : nat) (s : shut) : nat := Z.to_nat (nbuckets (y_w (sd_sys s))) - j.

Lemma left_rtc s s' j : rtc (shut_step quick) s s' -> left_of j s' = left_of j s.
Proof.
  intros Hs%quick_rtc. unfold left_of, nbuckets. induction Hs as [|s1 s2 s3 Hs _ ->]; [done|].
  destruct (shut_sys _ _ Hs) as [Hc| ->]; [|done].
  destruct (sys_refines _ _ _ _ _ _ Hc) as [Hw| ->]; [|done]. by rewrite (size_conn _ _ Hw).
Qed.

Lemma left_bucket j s : reachable shut_init (shut_step timeout) s -> accepted (y_w (sd_sys s)) < 2 ^ 64 ->
  if left_of j s is O then sd_buckets s !! j = None else is_Some (sd_buckets s !! j).
Proof.
  intros Hr Ha. destruct (sys_conn_inv ep ssof size filter (sd_sys s) (shut_reachable_sys _ Hr) Ha) as [m Hm].
  pose proof (sh_len _ _ (cn_shards _ _ Hm)) as E. unfold left_of, sd_buckets, nbuckets.
  destruct (_ - j)%nat eqn:En; [apply lookup_ge_None|apply lookup_lt_is_Some]; rewrite E; lia.
Qed.

Lemma wait_walk n j s : reachable shut_init (shut_step timeout) s -> accepted (y_w (sd_sys s)) < 2 ^ 64 ->
  sd_at s = WaitingFor j [] -> keeps (sd_sys s) -> left_of j s = n -> gets s Returned.
Proof.
  revert j s. induction n as [|n IH]; intros j s Hr Ha He Hd Hn; pose proof (left_bucket j s Hr Ha) as Hb; rewrite Hn in Hb.
  - eapply gets_step; [by apply (SReturn quick j s)|done|]. by apply (gets_here (mkShut (sd_sys s) Returned (sd_owed s))).
  - destruct Hb as [b Hb]. pose (s1 := mkShut (sd_sys s) (WaitingFor (S j) (iter (snapshot b))) (sd_owed s)).
    assert (shut_step quick s s1) as Hs by (by apply SCopy2). eapply gets_step; [exact Hs|done|].
    eapply gets_trans; [apply (wait_copy (S j) (iter (snapshot b)) s1); [by eapply reach_step; [|apply quick_step]|done|done|done]|].
    intros s2 H2 E2 D2 A2. apply (IH (S j)); [|by rewrite A2|done|done|].
    + eapply quick_reachable; [|exact H2]. by eapply reach_step; [|apply quick_step].
    + rewrite (left_rtc _ _ _ H2). unfold left_of in *. cbn. lia.
Qed.

Lemma trigger_walk n j s : reachable shut_init (shut_step timeout) s -> accepted (y_w (sd_sys s)) < 2 ^ 64 ->
  sd_at s = Triggering j [] -> keeps (sd_sys s) -> left_of j s = n -> gets s Returned.
Proof.
  revert j s. induction n as [|n IH]; intros j s Hr Ha He Hd Hn; pose proof (left_bucket j s Hr Ha) as Hb; rewrite Hn in Hb.
  - pose (s1 := mkShut (sd_sys s) (WaitingFor 0 []) (registered_ids (y_w (sd_sys s)))).
    assert (shut_step quick s s1) as Hs by (by eapply SSecond). eapply gets_step; [exact Hs|done|].
    eapply (wait_walk _ 0 s1); [by eapply reach_step; [|apply quick_step]|done|done|done|done].
  - destruct Hb as [b Hb]. pose (s1 := mkShut (sd_sys s) (Triggering (S j) (iter (snapshot b))) (sd_owed s)).
    assert (shut_step quick s s1) as Hs by (by apply SCopy). eapply gets_step; [exact Hs|done|].
    eapply gets_trans; [apply (trigger_copy (S j) (iter (snapshot b)) s1); [by eapply reach_step; [|apply quick_step]|done|done|done]|].
    intros s2 H2 E2 D2 A2. apply (IH (S j)); [|by rewrite A2|done|done|].
    + eapply quick_reachable; [|exact H2]. by eapply reach_step; [|apply quick_step].
    + rewrite (left_rtc _ _ _ H2). unfold left_of in *. cbn. lia.
Qed.

Lemma stop_can_return s : reachable shut_init (shut_step timeout) s -> accepted (y_w (sd_sys s)) < 2 ^ 64 -> keeps (sd_sys s) ->
  gets s Returned.
Proof.
  intros Hr Ha Hd. destruct (sd_at s) as [|j todo|j todo|] eqn:He; [| | |rewrite <- He; by apply gets_here].
  - pose (s1 := mkShut (sd_sys s) (Triggering 0 []) (sd_owed s)). assert (shut_step quick s s1) as Hs by (by apply SCall).
    eapply gets_step; [exact Hs|done|]. eapply (trigger_walk _ 0 s1); [by eapply reach_step; [|apply quick_step]|done|done|done|done].
  - eapply gets_trans; [by apply (trigger_copy j todo)|]. intros s1 H1 E1 D1 A1.
    eapply (trigger_walk _ j s1); [by eapply quick_reachable|by rewrite A1|done|done|done].
  - eapply gets_trans; [by apply (wait_copy j todo)|]. intros s1 H1 E1 D1 A1.
    eapply (wait_walk _ j s1); [by eapply quick_reachable|by rewrite A1|done|done|done].
Qed.
End walks.

(** Every registered connection has had a failed write. *)
Definition doomed (y : sys) : Prop := forall k c, conns (y_w y) !! k = Some c -> registered (c_phase c) = true ->
  k ∈ y_ran y /\ exists r, y_runs y !! k = Some r /\ write_failed r = true.

Lemma doomed_only k y y' : only k y y' -> conns (y_w y') !! k = None -> doomed y -> doomed y'.
Proof.
  intros (_ & _ & E & Ho) Hn H j c Hj Hr. destruct (decide (j = k)) as [->|Hne]; [congruence|].
  destruct (Ho j Hne) as [E1 E2]. rewrite E, E2. apply (H j c); [congruence|done].
Qed.

Lemma doomed_trigger k r y : y_runs y !! k = Some r -> doomed y -> doomed (set_run k (set_env true false false r) y).
Proof.
  intros Hk H j c Hj Hr. destruct (H j c Hj Hr) as (Hin & x & Hx & Hf). split; [done|]. cbn.
  destruct (decide (j = k)) as [->|Hne]; [|exists x; by rewrite lookup_insert_ne].
  eexists. rewrite lookup_insert_eq. split; [done|]. by simplify_eq.
Qed.

Context (stopped_wait : forall r, WorkerRun.stopped r = true -> wait_over r).

(** A worker the walk waits for can be stopped. *)
Lemma doomed_settle (quick : run -> Prop) y k : reachable sys_init (sys_step ep ssof size filter) y -> accepted (y_w y) < 2 ^ 64 ->
  0 < k -> beyond 2 k (y_w y) -> doomed y ->
  exists y' r, rtc (sys_step ep ssof size filter) y y' /\ accepted (y_w y') = accepted (y_w y) /\ doomed y' /\
    y_runs y' !! k = Some r /\ (wait_over r \/ quick r).
Proof.
  intros Hr Ha H0 [Hle Hb] Hd.
  assert (can_end ep ssof size filter k y) as (y' & Hrt & Hn & Ho).
  { destruct (conns (y_w y) !! k) as [c|] eqn:Hc; [|by exists y]. specialize (Hb c eq_refl).
    destruct (over_stopped_reachable ep ssof size filter y Hr Ha k ltac:(lia)) as (r & Hk & _).
    destruct (c_phase c) eqn:Ep; cbn in Hb; try lia; [..|by eapply end_closing|by eapply end_stopped].
    all: destruct (Hd k c Hc) as (Hin & x & Hx & Hf); [by rewrite Ep|]; by eapply failed_ends. }
  destruct (over_stopped_reachable ep ssof size filter y' (reachable_rtc _ _ _ _ Hr Hrt)) with (k := k) as (r & Hk & Hs).
  { by rewrite (proj1 Ho). }
  { destruct Ho as (_ & -> & _). lia. }
  exists y', r. split; [done|]. split; [apply Ho|]. split; [by eapply doomed_only|]. split; [done|].
  left. apply stopped_wait, Hs. congruence.
Qed.

(** A worker the walk waits for can be given up. *)
Lemma timed_settle (quick : run -> Prop) : (forall r, quick r) ->
  forall y k, reachable sys_init (sys_step ep ssof size filter) y -> accepted (y_w y) < 2 ^ 64 ->
  0 < k -> beyond 2 k (y_w y) -> True ->
  exists y' r, rtc (sys_step ep ssof size filter) y y' /\ accepted (y_w y') = accepted (y_w y) /\ True /\
    y_runs y' !! k = Some r /\ (wait_over r \/ quick r).
Proof.
  intros Hq y k Hr Ha H0 [Hle Hb] _.
  destruct (over_stopped_reachable ep ssof size filter y Hr Ha k ltac:(lia)) as (r & Hk & _).
  exists y, r. do 4 (split; [done|]). by right.
Qed.
End shutdown.

(** C16: [Stop] waits for every connection it found, up to the stopper's timeout:
    when it has returned, each connection that was registered when its second
    walk began, and for which [WaitStopped] did not time out, is out of the
    registry, and if it had got to [Run], [Run] has returned, which takes a
    failed write.  So as long as one of them can be written to, [Stop] does not
    return but by a timeout, whatever its trigger, the other connections and the
    orders of the ranges do.  Conversely, wherever the walks stand, once every
    registered connection has got to [Run] and had a failed write, [Stop] can
    come to its end without a timeout; and if every wait can time out, it can
    come to its end in any case.  Of the stopper library it is assumed that,
    timeouts aside, [WaitStopped] returns exactly when the worker's stop has
    run; when a timeout may strike is left open. *)
Theorem stop_waits_for_all `{T : RouteTable} `{C : Cipher} ep ssof size filter iter (wait_over timeout : run -> Prop) (s : shut) :
  (forall b, iter b ≡ₚ (map_to_list b).*2) -> (forall r, wait_over r <-> WorkerRun.stopped r = true) ->
  reachable shut_init (shut_step ep ssof size filter iter wait_over timeout) s -> accepted (y_w (sd_sys s)) < 2 ^ 64 ->
  (sd_at s = Returned -> forall k, k ∈ sd_owed s ->
    Buckets.Worker (bs (g_reg (y_w (sd_sys s)))) k = Ok None /\
    (forall r, y_runs (sd_sys s) !! k = Some r -> k ∈ y_ran (sd_sys s) -> run_returned r = true /\ write_failed r = true)) /\
  (doomed (sd_sys s) -> exists s', rtc (shut_step ep ssof size filter iter wait_over (fun _ => False)) s s' /\ sd_at s' = Returned) /\
  ((forall r, timeout r) -> exists s', rtc (shut_step ep ssof size filter iter wait_over timeout) s s' /\ sd_at s' = Returned).
Proof.
  intros Hit Hwo Hr Ha. pose proof (fun r => proj1 (Hwo r)) as Hw1. pose proof (fun r => proj2 (Hwo r)) as Hw2. split; [|split].
  - intros He k Hk. pose proof (shut_reachable_inv ep ssof size filter iter wait_over timeout Hit Hw1 s Hr Ha) as H.
    unfold shut_inv in H. rewrite He in H. by eapply begun_over; [..|apply H].
  - intros Hd. destruct (stop_can_return ep ssof size filter iter wait_over timeout Hit (fun _ => False) (fun r => False_ind (timeout r)) doomed)
      with (s := s) as (s' & Hs & E & _); [apply doomed_trigger|by intros; eapply doomed_settle|done..|]. by exists s'.
  - intros Ht. destruct (stop_can_return ep ssof size filter iter wait_over timeout Hit timeout (fun _ h => h) (fun _ => True))
      with (s := s) as (s' & Hs & E & _); [done|by apply timed_settle|done..|]. by exists s'.
Qed.

(** *** Witness: a server with one bucket is stopped while it serves a user;
    the write of the packet a tunnel pushes fails, and [Stop] returns *)

Definition zw0 : world := mkWorld 0 0 ∅ (mkB (mkBuckets [∅] 1) ∅) (mkR (∅ : gmap (string * Z) string) []).
Definition zw1 : world := new_conn 1 1 zw0.
Definition zw2 : world := upd 1 (mkC Started demo_w1 "red") zw1.
Definition zw3 : world := set_reg (snd (Put demo_w1 (g_reg zw2))) (upd 1 (mkC Registered demo_w1 "red") zw2).
Definition zw4 : world :=
  set_routes (snd (afterConnectFunc demo_gate "red" 100 (g_routes zw3))) (upd 1 (mkC Running demo_w1 "red") zw3).
Definition zw5 : world := upd 1 (mkC Leaving demo_w1 "red") zw4.
Definition zw6 : world := set_reg (snd (Del demo_w1 (g_reg zw5))) (upd 1 (mkC Closing demo_w1 "red") zw5).
Definition zw7 : world := upd 1 (mkC Stopped demo_w1 "red") zw6.

(** The run: triggered, pushed to, its write fails, and the loops return. *)
Definition zr0 : run := mkRun [] false [] false false false false false false false false false false false
  (mkWconn [] [Some (0, EOF)]) [] [].
Definition zr1 : run := set_env true false false zr0.
Definition zr2 : run := match Push_check [65] zr1 with Ok r => r | _ => zr1 end.
Definition zr3 : run := Push_send 0 [65] zr2.
Definition zr4 : run := write_turn (C := tag_cipher) demo_ss pass [65] [] zr3.
Definition zr5 : run := read_exit true zr4.
Definition zr6 : run := tick_exit false zr5.
Definition zr7 : run := watch_exit zr6.
Definition zr8 : run := run_return zr7.
Definition zr9 : run := Stop_close zr8.

Definition zsys (w : world) (r : run) (tun : list (Z * list Z)) : sys := mkSys w {[1 := r]} {[1]} {[1 := 100]} [] [] [] tun.
Definition zstep : sys -> sys -> Prop := sys_step (C := tag_cipher) demo_gate demo_sess 4 pass.

Lemma zsys_started : reachable sys_init zstep (zsys zw4 zr0 []).
Proof.
  pose (s0 := mkSys zw0 ∅ ∅ ∅ [] [] [] []). pose (s1 := mkSys zw1 {[1 := zr0]} ∅ ∅ [] [] [] []).
  pose (s2 := mkSys zw2 {[1 := zr0]} ∅ {[1 := 100]} [] [] [] []). pose (s3 := mkSys zw3 {[1 := zr0]} ∅ {[1 := 100]} [] [] [] []).
  assert (reachable sys_init zstep s0) as H0.
  { apply reach_init. split; [|by repeat split]. do 3 (split; [done|]). exists 1, 16. eexists. split; [lia|]. by split. }
  assert (zstep s0 s1) as S1 by (apply (YAccept (C := tag_cipher) _ _ _ _ 1 1 zr0 s0); by repeat split).
  assert (zstep s1 s2) as S2
    by (by apply (YStart (C := tag_cipher) _ _ _ _ 1 (mkC Serving (mkW 1 1 0) EmptyString) 100 "red" s1)).
  assert (zstep s2 s3) as S3 by (by apply (YPut (C := tag_cipher) _ _ _ _ 1 (mkC Started demo_w1 "red") None _ s2)).
  assert (zstep s3 (zsys zw4 zr0 [])) as S4
    by (by apply (YConnect (C := tag_cipher) _ _ _ _ 1 (mkC Registered demo_w1 "red") _ s3)).
  eauto 10 using reach_step.
Qed.

(** A step of the goroutines of [Run]. *)
Lemma zrun_step r r' : run_step (C := tag_cipher) demo_ss 4 pass r r' -> WorkerRun.stopped r' = WorkerRun.stopped r ->
  (length (pending r') <= length (pending r))%nat -> zstep (zsys zw4 r [(1, [65])]) (zsys zw4 r' [(1, [65])]).
Proof.
  intros H1 H2 H3. by apply (YRun (C := tag_cipher) _ _ _ _ 1 (mkC Running demo_w1 "red") r r' (zsys zw4 r [(1, [65])])).
Qed.

Lemma zsys_failed : rtc zstep (zsys zw4 zr1 []) (zsys zw4 zr4 [(1, [65])]).
Proof.
  eapply rtc_l; [by apply (YTunnel (C := tag_cipher) _ _ _ _ 1 [65] zr1 zr2 (zsys zw4 zr1 []))|].
  change (rtc zstep (zsys zw4 zr2 [(1, [65])]) (zsys zw4 zr4 [(1, [65])])).
  eapply (rtc_l _ _ (zsys zw4 zr3 [(1, [65])])).
  { apply (YSend (C := tag_cipher) _ _ _ _ 1 zr2 0 [65] (zsys zw4 zr2 [(1, [65])])); [done..|cbn; lia]. }
  apply rtc_once, (zrun_step zr3 zr4); [by apply (RWrite (C := tag_cipher) demo_ss 4 pass [65] [] zr3)|done|done].
Qed.

Lemma zsys_ended : rtc zstep (zsys zw4 zr1 []) (zsys zw7 zr9 [(1, [65])]).
Proof.
  etrans; [exact zsys_failed|].
  eapply rtc_l; [apply (zrun_step zr4 zr5); [by apply RReadCtx|done|done]|].
  eapply rtc_l; [apply (zrun_step zr5 zr6); [by apply RTickCtx|done|done]|].
  eapply rtc_l; [apply (zrun_step zr6 zr7); [by apply RWatch|done|done]|].
  eapply rtc_l; [apply (zrun_step zr7 zr8); [by apply RReturn|done|done]|].
  eapply (rtc_l _ _ (zsys zw5 zr8 [(1, [65])])).
  { by apply (YRunEnd (C := tag_cipher) _ _ _ _ 1 (mkC Running demo_w1 "red") zr8 (zsys zw4 zr8 [(1, [65])])). }
  eapply (rtc_l _ _ (zsys zw6 zr8 [(1, [65])])).
  { by apply (YDel (C := tag_cipher) _ _ _ _ 1 (mkC Leaving demo_w1 "red") _ (zsys zw5 zr8 [(1, [65])])). }
  eapply (rtc_l _ _ (zsys zw7 zr9 [(1, [65])])); [|apply rtc_refl].
  by apply (YStop (C := tag_cipher) _ _ _ _ 1 (mkC Closing demo_w1 "red") zr8 (zsys zw6 zr8 [(1, [65])])).
Qed.

Definition zshut : shut -> shut -> Prop :=
  shut_step (C := tag_cipher) demo_gate demo_sess 4 pass in_order (fun r => WorkerRun.stopped r = true) (fun _ => False).

Lemma zshut_uncalled y : reachable sys_init zstep y -> reachable shut_init zshut (mkShut y NotCalled ∅).
Proof.
  induction 1 as [y Hi|y y' Hr IH Hs]; [by apply reach_init|].
  eapply reach_step; [exact IH|]. by apply (SSys (C := tag_cipher) _ _ _ _ _ _ _ y' (mkShut y NotCalled ∅)).
Qed.

Lemma zshut_serves y y' a b : reachable shut_init zshut (mkShut y a b) -> rtc zstep y y' -> reachable shut_init zshut (mkShut y' a b).
Proof.
  intros Hr Hs. induction Hs as [y|y y1 y' H1 Hs IH]; [done|]. apply IH. eapply reach_step; [exact Hr|].
  by apply (SSys (C := tag_cipher) _ _ _ _ _ _ _ y1 (mkShut y a b)).
Qed.

Definition zdone : shut := mkShut (zsys zw7 zr9 [(1, [65])]) Returned {[1]}.

Lemma zdone_reachable : reachable shut_init zshut zdone.
Proof.
  pose (one := {[1]} : gset Z). pose (y := zsys zw4 zr0 []). pose (y' := zsys zw4 zr1 []).
  assert (in_order (snapshot {[1 := demo_w1]}) = [demo_w1]) as E by (vm_compute; reflexivity).
  pose proof (zshut_uncalled y zsys_started) as H.
  apply (reach_step _ _ _ (mkShut y (Triggering 0 []) ∅)) in H; [|by apply (SCall (C := tag_cipher))].
  apply (reach_step _ _ _ (mkShut y (Triggering 1 [demo_w1]) ∅)) in H;
    [|rewrite <- E; by apply (SCopy (C := tag_cipher) demo_gate demo_sess 4 pass in_order (fun r => WorkerRun.stopped r = true) (fun _ => False) 0 {[1 := demo_w1]} (mkShut y (Triggering 0 []) ∅))].
  apply (reach_step _ _ _ (mkShut y' (Triggering 1 []) ∅)) in H;
    [|by apply (STrigger (C := tag_cipher) demo_gate demo_sess 4 pass in_order (fun r => WorkerRun.stopped r = true) (fun _ => False) 1 demo_w1 [] zr0 (mkShut y (Triggering 1 [demo_w1]) ∅))].
  apply (reach_step _ _ _ (mkShut y' (WaitingFor 0 []) one)) in H;
    [|by apply (SSecond (C := tag_cipher) demo_gate demo_sess 4 pass in_order (fun r => WorkerRun.stopped r = true) (fun _ => False) 1 (mkShut y' (Triggering 1 []) ∅))].
  apply (reach_step _ _ _ (mkShut y' (WaitingFor 1 [demo_w1]) one)) in H;
    [|rewrite <- E; by apply (SCopy2 (C := tag_cipher) demo_gate demo_sess 4 pass in_order (fun r => WorkerRun.stopped r = true) (fun _ => False) 0 {[1 := demo_w1]} (mkShut y' (WaitingFor 0 []) one))].
  pose proof (zshut_serves _ _ _ _ H zsys_ended) as H2.
  apply (reach_step _ _ _ (mkShut (zsys zw7 zr9 [(1, [65])]) (WaitingFor 1 []) one)) in H2;
    [|by apply (SWaited (C := tag_cipher) demo_gate demo_sess 4 pass in_order (fun r => WorkerRun.stopped r = true) (fun _ => False) 1 demo_w1 [] zr9 (mkShut (zsys zw7 zr9 [(1, [65])]) (WaitingFor 1 [demo_w1]) one))].
  eapply reach_step; [exact H2|].
  by apply (SReturn (C := tag_cipher) demo_gate demo_sess 4 pass in_order (fun r => WorkerRun.stopped r = true) (fun _ => False) 1 (mkShut (zsys zw7 zr9 [(1, [65])]) (WaitingFor 1 []) one)).
Qed.

(** The same server before [Stop] is called, with the write failed. *)
Definition zfailed : shut := mkShut (zsys zw4 zr4 [(1, [65])]) NotCalled ∅.

Lemma zfailed_reachable : reachable shut_init zshut zfailed.
Proof.
  apply zshut_uncalled. eapply reachable_rtc; [|exact zsys_failed]. eapply reach_step; [exact zsys_started|].
  by apply (YTrigger (C := tag_cipher) demo_gate demo_sess 4 pass 1 zr0 true false false (zsys zw4 zr0 [])).
Qed.

Lemma stop_waits_for_all_witness :
  (Buckets.Worker (bs (g_reg (y_w (sd_sys zdone)))) 1 = Ok None /\ run_returned zr9 = true /\ write_failed zr9 = true) /\
  (exists s, rtc zshut zfailed s /\ sd_at s = Returned).
Proof.
  assert (forall s, reachable shut_init zshut s -> accepted (y_w (sd_sys s)) < 2 ^ 64 -> _) as H
    by (intros s; apply (stop_waits_for_all (C := tag_cipher) demo_gate demo_sess 4 pass in_order
          (fun r => WorkerRun.stopped r = true) (fun _ => False) s); [by intros b|by intros r]).
  split.
  - destruct (H zdone zdone_reachable) as [Hw _]; [cbn; lia|].
    destruct (Hw eq_refl 1) as [H1 H2]; [by apply elem_of_singleton|]. split; [exact H1|].
    apply H2; [reflexivity|by apply elem_of_singleton].
  - destruct (H zfailed zfailed_reachable) as (_ & Hd & _); [cbn; lia|]. apply Hd. intros k c Hk _.
    assert (k = 1) as -> by (cbn in Hk; destruct (decide (k = 1)); [done|by rewrite !lookup_insert_ne in Hk by done]).
    split; [by apply elem_of_singleton|]. exists zr4. split; reflexivity.
Defined.
