(* ===== verification/Listener.v ===== *)
(** The listening side of the TCP server: [Start], the accept loops, [stop] and
    [Endpoint] of src/pkg/net/tcp/server/server.go.

    [Start] opens the listener and starts [workerSize] goroutines that run
    [acceptLoop] over one shared id generator, next to the goroutine of
    [SetDeadlineWithContext].  A step is one select, one return of [AcceptTCP],
    or one move of [stop], of the context or of the deadline goroutine, in any
    interleaving.  A listener past its deadline accepts nothing: [AcceptTCP]
    fails at once.  What [serve] does with a connection is in Server.v and
    Connections.v; here the ids it was started with are recorded. *)
From S2P Require Import Prelude Context Server.

(** Where an accept loop stands. *)
Inductive loop :=
  | AtSelect      (** before the select *)
  | InAccept      (** in [AcceptTCP] *)
  | Waiting       (** in [s.WaitStopped()] *)
  | LoopDone.

#[export] Instance loop_eq_dec : EqDecision loop.
Proof. solve_decision. Defined.

Record listen := mkListen {
  loops : list loop;
  ids : Z;                    (** [idGen] *)
  served : list Z;            (** history: [serve] was started with these ids *)
  deadline : option Z;        (** the listener's deadline *)
  ctx_over : bool;            (** [ctx.Done()] is closed *)
  stopping : bool;            (** [s.Stopping()] is closed *)
  stopped : bool;             (** the function given to [DoStop] has returned *)
}.

(** [Start], by the outcomes of [net.ResolveTCPAddr] (the address' text) and
    [net.ListenTCP].  A loop that counts up to a negative size starts nothing. *)
Definition Start (bind : string) (workerSize : Z) (resolved : result string) (listened : result unit) : result listen :=
  addr ← map_err (fun e => EWrap e "resolve bind failed. bind=%s" [AS bind]) resolved;
  map_err (fun e => EWrap e "listen failed. addr=%s" [AS addr]) listened ;;
  Ok (mkListen (replicate (Z.to_nat workerSize) AtSelect) 0 [] None false false false).

(** [Endpoint], by the outcome of [ip.Extract]. *)
Definition Endpoint (extracted : result string) : result string :=
  addr ← extracted; Ok ("tcp://" +:+ addr).

Definition set_loop (i : nat) (p : loop) (s : listen) : listen :=
  mkListen (<[i := p]> (loops s)) (ids s) (served s) (deadline s) (ctx_over s) (stopping s) (stopped s).

(** The listener's [SetDeadline]. *)
Definition listener_SetDeadline (t : Z) : go listen unit := fun s =>
  (Ok tt, mkListen (loops s) (ids s) (served s) (Some t) (ctx_over s) (stopping s) (stopped s)).

(** The select of [acceptLoop]: [default] is taken only when neither channel is
    closed. *)
Definition select_next (s : listen) : loop := if stopping s || ctx_over s then Waiting else InAccept.

(** [AcceptTCP] has returned: [accept] hands the next id to [serve], or its
    error is logged; the loop goes on either way. *)
Definition accepted_one (i : nat) (r : result unit) (s : listen) : listen :=
  match accept r (ids s) with
  | (Ok wid, g) => mkListen (<[i := AtSelect]> (loops s)) g (served s ++ [wid]) (deadline s) (ctx_over s) (stopping s) (stopped s)
  | (_, g) => mkListen (<[i := AtSelect]> (loops s)) g (served s) (deadline s) (ctx_over s) (stopping s) (stopped s)
  end.

(** The server's [DoStop]: the first caller starts stopping. *)
Definition begin_stop (s : listen) : listen :=
  mkListen (loops s) (ids s) (served s) (deadline s) (ctx_over s) true (stopped s).
(** Both walks of [stop] are over. *)
Definition end_stop (s : listen) : listen :=
  mkListen (loops s) (ids s) (served s) (deadline s) (ctx_over s) (stopping s) true.
Definition cancel (s : listen) : listen :=
  mkListen (loops s) (ids s) (served s) (deadline s) true (stopping s) (stopped s).

(** [walks_end]: the walks of [stop] come to their end.  They wait for the
    registered workers, which may keep them for ever (Shutdown.v).  [timed]: the
    [WaitStopped] of the server's stopper, which is library code and made with
    [StopTimeout], can also return before that. *)
Inductive listen_step (walks_end timed : Prop) : listen -> listen -> Prop :=
  | LSelect i s : loops s !! i = Some AtSelect -> listen_step walks_end timed s (set_loop i (select_next s) s)
  | LConn i s : loops s !! i = Some InAccept -> deadline s = None -> listen_step walks_end timed s (accepted_one i (Ok tt) s)
  | LError i e s : loops s !! i = Some InAccept -> listen_step walks_end timed s (accepted_one i (Err e) s)
  | LReturn i s : loops s !! i = Some Waiting -> stopped s = true -> listen_step walks_end timed s (set_loop i LoopDone s)
  | LTimeout i s : timed -> loops s !! i = Some Waiting -> listen_step walks_end timed s (set_loop i LoopDone s)
  | LCancel s : ctx_over s = false -> listen_step walks_end timed s (cancel s)
  | LDeadline now s s' : deadline s = None ->
      SetDeadlineWithContext (ctx_over s) listener_SetDeadline now s = Some s' -> listen_step walks_end timed s s'
  | LStop s : stopping s = false -> listen_step walks_end timed s (begin_stop s)
  | LStopped s : walks_end -> stopping s = true -> stopped s = false -> listen_step walks_end timed s (end_stop s).

(** A server [Start] has just started. *)
Definition listen_init (s : listen) : Prop :=
  exists bind n addr, Start bind n (Ok addr) (Ok tt) = Ok s.

(** ** Facts *)

Section listening.
Context (we ti : Prop).

Lemma accept_conn g : accept (Ok tt) g = (Ok (uint64 (g + 1)), uint64 (g + 1)).
Proof. done. Qed.
Lemma accept_err e g : accept (Err e) g = (Err (EWrap e "accept failed" []), g).
Proof. done. Qed.

(** The ids handed out are 1, 2, 3, ... while they fit. *)
Lemma served_inv s : reachable listen_init (listen_step we ti) s -> zlen (served s) < 2 ^ 64 ->
  served s = seqZ 1 (zlen (served s)) /\ ids s = zlen (served s).
Proof.
  intros Hr. induction Hr as [s (b & n & a & E)|s s' Hr IH Hs].
  - intros _. cbv [Start mbind result_bind map_err] in E. injection E as <-. done.
  - destruct Hs as [i s Hi|i s Hi Hd|i e s Hi|i s Hi Hd|i s Hti Hi|s Hc|now s s' Hd Hw|s Hst|s Hwe Hst Hsd]; try exact IH.
    + unfold accepted_one. rewrite accept_conn. cbn [served ids].
      replace (zlen (served s ++ [uint64 (ids s + 1)])) with (zlen (served s) + 1) by (rewrite length_app; cbn; lia).
      intros Hb. pose proof (zlen_nonneg (served s)). destruct (IH ltac:(lia)) as [E1 E2]. rewrite E2, wrapU_id by lia.
      split; [|done]. rewrite E1 at 1. rewrite seqZ_app by lia. f_equal. rewrite seqZ_cons, seqZ_nil by lia. f_equal. lia.
    + unfold SetDeadlineWithContext, when_ready in Hw. destruct (ctx_over s); [|done]. injection Hw as <-. exact IH.
Qed.

(** How many loops stand where [f] says. *)
Definition count (f : loop -> nat) (l : list loop) : nat := sum_list_with f l.

Lemma count_insert f l i p q : l !! i = Some p -> (count f (<[i := q]> l) + f p = count f l + f q)%nat.
Proof.
  unfold count. revert i. induction l as [|x l IH]; intros [|i] H; cbn in *; try done.
  - injection H as ->. lia.
  - specialize (IH i H). unfold insert in *. lia.
Qed.

Lemma count_replicate f n p : count f (replicate n p) = (n * f p)%nat.
Proof. unfold count. induction n; cbn; lia. Qed.

(** In [AcceptTCP]. *)
Definition in_accept (p : loop) : nat := match p with InAccept => 1 | _ => 0 end.

(** Moves left to the loops and their surroundings once the listener is past
    its deadline. *)
Definition moves (p : loop) : nat := match p with InAccept => 3 | AtSelect => 2 | Waiting => 1 | LoopDone => 0 end.
Definition left_over (s : listen) : nat :=
  count moves (loops s) + (if stopping s then 0 else 1) + (if stopped s then 0 else 1).

Ltac proj := cbn [set_loop begin_stop end_stop cancel loops ids served deadline ctx_over stopping stopped].

(** Once [stop] has begun no select leads to [accept] again. *)
Lemma late_step s s' : listen_step we ti s s' -> stopping s = true ->
  stopping s' = true /\ (length (served s') + count in_accept (loops s') <= length (served s) + count in_accept (loops s))%nat.
Proof.
  intros Hs Hst. destruct Hs as [i s Hi|i s Hi Hd|i e s Hi|i s Hi Hd|i s Hti Hi|s Hc|now s s' Hd Hw|s Hsf|s Hwe _ Hsd]; try (cbn; done || lia).
  - proj. unfold select_next. rewrite Hst. cbn [orb]. pose proof (count_insert in_accept _ _ _ Waiting Hi). cbn [in_accept moves] in *. split; [done|lia].
  - unfold accepted_one. rewrite accept_conn. proj. rewrite length_app. cbn [length].
    pose proof (count_insert in_accept _ _ _ AtSelect Hi). cbn [in_accept moves] in *. split; [done|lia].
  - unfold accepted_one. rewrite accept_err. proj.
    pose proof (count_insert in_accept _ _ _ AtSelect Hi). cbn [in_accept moves] in *. split; [done|lia].
  - proj. pose proof (count_insert in_accept _ _ _ LoopDone Hi). cbn [in_accept moves] in *. split; [done|lia].
  - proj. pose proof (count_insert in_accept _ _ _ LoopDone Hi). cbn [in_accept moves] in *. split; [done|lia].
  - unfold SetDeadlineWithContext, when_ready in Hw. destruct (ctx_over s); [|done]. injection Hw as <-. done.
Qed.

Lemma over_step s s' : listen_step we ti s s' -> ctx_over s = true -> deadline s <> None ->
  ctx_over s' = true /\ deadline s' <> None /\ served s' = served s /\ (left_over s' < left_over s)%nat.
Proof.
  intros Hs Hc Hd. unfold left_over. destruct Hs as [i s Hi|i s Hi Hn|i e s Hi|i s Hi Hsd|i s Hti Hi|s Hcf|now s s' Hn Hw|s Hst|s Hwe Hst Hsd]; try done.
  - proj. unfold select_next. rewrite Hc, orb_true_r.
    pose proof (count_insert moves _ _ _ Waiting Hi). cbn [in_accept moves] in *. repeat split; [done..|lia].
  - unfold accepted_one. rewrite accept_err. proj.
    pose proof (count_insert moves _ _ _ AtSelect Hi). cbn [in_accept moves] in *. repeat split; [done..|lia].
  - proj. pose proof (count_insert moves _ _ _ LoopDone Hi). cbn [in_accept moves] in *. repeat split; [done..|lia].
  - proj. pose proof (count_insert moves _ _ _ LoopDone Hi). cbn [in_accept moves] in *. repeat split; [done..|lia].
  - congruence.
  - proj. rewrite Hst. repeat split; [done..|lia].
  - proj. rewrite Hst, Hsd. repeat split; [done..|lia].
Qed.

(** A loop returns only after the stop has ended, or by the timeout. *)
Lemma returned_stopped s : reachable listen_init (listen_step we ti) s -> forall i, loops s !! i = Some LoopDone -> stopped s = true \/ ti.
Proof.
  intros Hr. induction Hr as [s (b & n & a & E)|s s' Hr IH Hs]; intros j Hj.
  - cbv [Start mbind result_bind map_err] in E. injection E as <-. cbn in Hj. by apply lookup_replicate in Hj as [? _].
  - destruct Hs as [i s Hi|i s Hi Hd|i e s Hi|i s Hi Hd|i s Hti Hi|s Hc|now s s' Hd Hw|s Hst|s Hwe Hst Hsd]; cbn in *; eauto.
    + apply list_lookup_insert_Some in Hj as [(_ & E & _)|[_ Hj]]; [|by eauto].
      unfold select_next in E. by destruct (stopping s || ctx_over s).
    + unfold accepted_one in *. rewrite accept_conn in *. cbn in *. apply list_lookup_insert_Some in Hj as [(_ & E & _)|[_ Hj]]; by eauto.
    + unfold accepted_one in *. rewrite accept_err in *. cbn in *. apply list_lookup_insert_Some in Hj as [(_ & E & _)|[_ Hj]]; by eauto.
    + unfold SetDeadlineWithContext, when_ready in Hw. destruct (ctx_over s); [|done]. injection Hw as <-. by eauto.
Qed.

(** When nothing can move, the loops have returned if the server has stopped or
    the wait can time out, and wait for it otherwise. *)
Lemma stuck_done s : (forall s', ~ listen_step we ti s s') -> reachable listen_init (listen_step we ti) s ->
  (stopped s = true \/ ti -> Forall (eq LoopDone) (loops s)) /\ (stopped s = false -> ~ ti -> Forall (eq Waiting) (loops s)).
Proof.
  intros Hn Hr. split; [intros Ho|intros Hs Hti]; apply Forall_lookup; intros i [] Hi; try done.
  all: try by destruct (Hn _ (LSelect we ti i s Hi)).
  all: try by destruct (Hn _ (LError we ti i (ENew "i/o timeout" []) s Hi)).
  - destruct Ho as [Hs|Hti]; [by destruct (Hn _ (LReturn we ti i s Hi Hs))|by destruct (Hn _ (LTimeout we ti i s Hti Hi))].
  - destruct (returned_stopped s Hr i Hi); [congruence|done].
Qed.

(** The first of the last [S n] loops, and its move. *)
Lemma lookup_next (x y : loop) k n : (replicate k y ++ replicate (S n) x) !! k = Some x.
Proof. rewrite lookup_app_r; rewrite length_replicate; [|lia]. by rewrite Nat.sub_diag. Qed.

Lemma insert_next (x y : loop) k n : <[k := y]> (replicate k y ++ replicate (S n) x) = replicate (S k) y ++ replicate n x.
Proof.
  rewrite insert_app_r_alt by (rewrite length_replicate; lia). rewrite length_replicate, Nat.sub_diag.
  by rewrite (replicate_S_end k y), <- app_assoc.
Qed.

(** Several loops move in turn: all loops enter [AcceptTCP], and each of them
    gets a connection. *)
Lemma select_all k n s : loops s = replicate k InAccept ++ replicate n AtSelect -> stopping s = false -> ctx_over s = false ->
  rtc (listen_step we ti) s (mkListen (replicate (k + n) InAccept) (ids s) (served s) (deadline s) (ctx_over s) (stopping s) (stopped s)).
Proof.
  revert k s. induction n as [|n IH]; intros k s El Es Ec.
  - rewrite Nat.add_0_r. cbn in El. rewrite app_nil_r in El. rewrite <- El. by destruct s.
  - assert (loops s !! k = Some AtSelect) as Hk.
    { rewrite El. apply lookup_next. }
    eapply rtc_l; [by apply (LSelect we ti k)|].
    specialize (IH (S k) (set_loop k (select_next s) s)). cbn [set_loop loops ids served deadline ctx_over stopping stopped] in IH. rewrite <- Nat.add_succ_comm. apply IH; [|done..].
    unfold select_next. rewrite Es, Ec, El. cbn [orb].
    apply insert_next.
Qed.

Lemma accept_all k n s : loops s = replicate k AtSelect ++ replicate n InAccept -> deadline s = None ->
  exists s', rtc (listen_step we ti) s s' /\ length (served s') = (length (served s) + n)%nat.
Proof.
  revert k s. induction n as [|n IH]; intros k s El Ed; [exists s; split; [done|lia]|].
  assert (loops s !! k = Some InAccept) as Hk.
  { rewrite El. apply lookup_next. }
  destruct (IH (S k) (accepted_one k (Ok tt) s)) as (s' & Hr & Hl).
  - unfold accepted_one. rewrite accept_conn, El. proj.
    apply insert_next.
  - unfold accepted_one. by rewrite accept_conn.
  - exists s'. split; [eapply rtc_l; [by apply (LConn we ti k)|exact Hr]|]. rewrite Hl. unfold accepted_one. rewrite accept_conn. proj.
    rewrite length_app. cbn. lia.
Qed.

End listening.

(** A stopped server whose [n] loops were all in [AcceptTCP] when it stopped. *)
Lemma stopped_reachable n : exists s, reachable listen_init (listen_step True True) s /\ stopped s = true /\ deadline s = None /\
  loops s = replicate n InAccept.
Proof.
  set (s0 := mkListen (replicate n AtSelect) 0 [] None false false false).
  assert (reachable listen_init (listen_step True True) s0) as H0.
  { apply reach_init. exists "0.0.0.0:7001", (Z.of_nat n), "0.0.0.0:7001". unfold s0. rewrite <- (Nat2Z.id n) at 2. done. }
  pose proof (reachable_rtc _ _ _ _ H0 (select_all True True 0 n s0 eq_refl eq_refl eq_refl)) as H1.
  set (s1 := mkListen (replicate n InAccept) 0 [] None false false false) in *.
  exists (end_stop (begin_stop s1)). split; [|done].
  apply (reach_step _ _ (begin_stop s1)); [|by apply LStopped]. apply (reach_step _ _ s1); [exact H1|by apply LStop].
Qed.

(** ** Properties *)

(** However the accept loops interleave, they hand out the worker ids 1, 2,
    3, ... in order of their increments: no two connections get the same id
    until 2^64 connections have been accepted. *)
Theorem ids_consecutive we ti s : reachable listen_init (listen_step we ti) s -> zlen (served s) < 2 ^ 64 ->
  served s = seqZ 1 (zlen (served s)) /\ NoDup (served s).
Proof.
  intros Hr Hb. destruct (served_inv we ti s Hr Hb) as [E _]. split; [exact E|]. rewrite E. apply NoDup_seqZ.
Qed.

(** C20: Cancelling the context ends the listening side: once the deadline
    goroutine has moved, no further connection is accepted, and after at most
    three steps of every loop and two of [stop] nothing can move any more.  Then
    [stop] has begun and no loop accepts: every accept loop has returned if
    [stop] has ended or the loops' wait for it can time out, and otherwise every
    loop waits for [stop] to end.  It has ended if its walks do, which
    Shutdown.v is about. *)
Theorem cancel_ends_listening we ti s : reachable listen_init (listen_step we ti) s -> ctx_over s = true -> deadline s <> None ->
  (forall n s', nsteps (listen_step we ti) n s s' -> (n <= 3 * length (loops s) + 2)%nat /\ served s' = served s) /\
  (forall s', rtc (listen_step we ti) s s' -> (forall t, ~ listen_step we ti s' t) ->
     stopping s' = true /\ (we -> stopped s' = true) /\
     (stopped s' = true \/ ti -> Forall (eq LoopDone) (loops s')) /\
     (stopped s' = false -> ~ ti -> Forall (eq Waiting) (loops s'))).
Proof.
  intros Hr0 Hc Hd. split.
  - intros n s' Hn. clear Hr0.
    assert ((n + left_over s' <= left_over s)%nat /\ served s' = served s) as [Hl Hs].
    { induction Hn as [s|n s1 s2 s3 H1 Hn IH]; [split; [lia|done]|].
      destruct (over_step _ _ _ _ H1 Hc Hd) as (Hc' & Hd' & <- & Hlt). destruct (IH Hc' Hd'). split; [lia|done]. }
    split; [|exact Hs]. enough (left_over s <= 3 * length (loops s) + 2)%nat by lia. unfold left_over, count.
    assert (sum_list_with moves (loops s) <= 3 * length (loops s))%nat.
    { induction (loops s) as [|[] l IH]; cbn in *; lia. }
    destruct (stopping s), (stopped s); lia.
  - intros s' Hr Hn. destruct (stopping s') eqn:E1; [|by destruct (Hn _ (LStop we ti s' E1))]. split; [done|].
    split; [|apply (stuck_done we ti); [done|by eapply reachable_rtc]].
    intros Hw. destruct (stopped s') eqn:E2; [done|]. by destruct (Hn _ (LStopped we ti s' Hw E1 E2)).
Qed.

(** C21: [Stop] does not end the listening side by itself, since it does not
    close the listener: after it has begun, every loop that is in [AcceptTCP]
    can take one more connection and no loop more than one; for every number of
    loops a run exists in which all of them do, after [Stop] has returned. *)
Theorem late_accepts n :
  (forall we ti s s', stopping s = true -> length (loops s) = n -> rtc (listen_step we ti) s s' ->
     (length (served s') <= length (served s) + n)%nat) /\
  exists s s', reachable listen_init (listen_step True True) s /\ stopped s = true /\ length (loops s) = n /\
    rtc (listen_step True True) s s' /\ length (served s') = (length (served s) + n)%nat.
Proof.
  split.
  - intros we ti s s' Hst El Hr.
    enough (length (served s') + count in_accept (loops s') <= length (served s) + count in_accept (loops s))%nat as H.
    { assert (count in_accept (loops s) <= length (loops s))%nat; [|lia]. unfold count. clear.
      induction (loops s) as [|[] l IH]; cbn in *; lia. }
    clear El. induction Hr as [s|s s1 s2 H1 Hr IH]; [lia|]. destruct (late_step _ _ _ _ H1 Hst) as [Hst' Hle].
    specialize (IH Hst'). lia.
  - destruct (stopped_reachable n) as (s & Hr & Hs & Hd & El).
    destruct (accept_all True True 0 n s El Hd) as (s' & Hrt & Hl).
    exists s, s'. split; [done|]. split; [done|]. rewrite El, length_replicate. done.
Qed.

(** ** Witnesses *)

(** Two loops; the context is over and the deadline set while both accept. *)
Definition lw0 : listen := mkListen [AtSelect; AtSelect] 0 [] None false false false.
Definition lw1 : listen := accepted_one 0 (Ok tt) (set_loop 0 InAccept lw0).

Lemma lw1_reachable : reachable listen_init (listen_step True True) lw1.
Proof.
  apply (reach_step _ _ (set_loop 0 InAccept lw0)); [|by apply (LConn True True 0)].
  apply (reach_step _ _ lw0); [|by apply (LSelect True True 0)].
  apply reach_init. by exists "0.0.0.0:7001", 2, "0.0.0.0:7001".
Qed.

Lemma ids_consecutive_witness : served lw1 = [1] /\ NoDup (served lw1).
Proof. apply (ids_consecutive True True lw1); [exact lw1_reachable|reflexivity]. Defined.

(** The context ends, the deadline is set, and both loops move on; the walks of
    [stop] never end. *)
Definition lw2 : listen := mkListen [InAccept; AtSelect] 0 [] (Some 7) true false false.
Definition lw3 : listen := mkListen [Waiting; Waiting] 0 [] (Some 7) true true false.

Lemma lw2_reachable : reachable listen_init (listen_step False False) lw2.
Proof.
  apply (reach_step _ _ (cancel (set_loop 0 InAccept lw0))); [|by apply (LDeadline False False 7)].
  apply (reach_step _ _ (set_loop 0 InAccept lw0)); [|by apply LCancel].
  apply (reach_step _ _ lw0); [|by apply (LSelect False False 0)].
  apply reach_init. by exists "0.0.0.0:7001", 2, "0.0.0.0:7001".
Qed.

Lemma lw3_steps : nsteps (listen_step False False) 4 lw2 lw3.
Proof.
  pose (a := accepted_one 0 (Err (ENew "i/o timeout" [])) lw2). pose (b := set_loop 0 Waiting a). pose (c := set_loop 1 Waiting b).
  eapply (nsteps_l _ _ _ a); [by apply LError|]. eapply (nsteps_l _ _ _ b); [by apply (LSelect False False 0)|].
  eapply (nsteps_l _ _ _ c); [by apply (LSelect False False 1)|]. eapply nsteps_l; [by apply LStop|]. apply nsteps_O.
Qed.

Lemma lw3_stuck t : ~ listen_step False False lw3 t.
Proof.
  intros Hs. inversion Hs as [i s Hi|i s Hi Hd|i e s Hi|i s Hi Hd|i s Hti Hi|s Hc|now s s' Hd Hw|s Hst|s Hwe Hst Hsd]; subst; try done;
    destruct i as [|[|i]]; discriminate Hi.
Qed.

Lemma cancel_ends_listening_witness :
  (4 <= 3 * 2 + 2)%nat /\ served lw3 = [] /\ Forall (eq Waiting) (loops lw3).
Proof.
  destruct (cancel_ends_listening False False lw2 lw2_reachable eq_refl ltac:(discriminate)) as [Hn Hs].
  destruct (Hn _ _ lw3_steps) as [H1 H2]. split; [exact H1|]. split; [exact H2|].
  destruct (Hs lw3) as (_ & _ & _ & Hw); [apply rtc_nsteps; exists 4%nat; exact lw3_steps|exact lw3_stuck|].
  apply Hw; [reflexivity|by intros []].
Defined.

Lemma late_accepts_witness : exists s s', reachable listen_init (listen_step True True) s /\ stopped s = true /\
  length (loops s) = 2%nat /\ rtc (listen_step True True) s s' /\ length (served s') = (length (served s) + 2)%nat.
Proof. exact (proj2 (late_accepts 2)). Defined.
