(* ===== verification/Validate.v ===== *)
(** Message validation: the code protoc-gen-validate generated for the messages
    the gateway itself handles, src/gen/api/**/*.pb.validate.go
    (client/packet/packet, client/message/system, server/gate/intra/v1/auth,
    server/player and server/room/intra/v1/tunnel,
    server/gate/service/push/v1/push).

    The generator writes, for every message [X], a validator, the error types
    [XValidationError] and [XMultiError] and their methods; the types differ
    only in the name they print, so here the message's name is a component of
    one error type.  None of the .proto files states a rule: what the
    validators do is descend into embedded messages.  They are modelled over
    the interface of the embedded message ([Validator]), as the generated code
    asks for it by a type switch, and then instantiated. *)
From S2P Require Import Prelude Context Messages.

(** ** Errors *)

Inductive verror :=
  | ValidationError (msg field reason : string) (cause : option verror) (key : bool)
  | MultiError (msg : string) (errs : list verror).

(** [Error] of a list of errors, whose texts are [msgs]. *)
Definition multi_text (msgs : list string) : string := String.concat "; " msgs.

(** [Error], for both families. *)
Fixpoint Error (e : verror) : string :=
  match e with
  | ValidationError msg field reason cause key =>
      let cause := match cause with Some c => " | caused by: " +:+ Error c | None => EmptyString end in
      let key := if key then "key for " else EmptyString in
      "invalid " +:+ key +:+ msg +:+ "." +:+ field +:+ ": " +:+ reason +:+ cause
  | MultiError _ errs => multi_text (List.map Error errs)
  end.

Definition AllErrors (e : verror) : list verror := match e with MultiError _ errs => errs | _ => [] end.
Definition Field (e : verror) : string := match e with ValidationError _ f _ _ _ => f | _ => EmptyString end.
Definition Reason (e : verror) : string := match e with ValidationError _ _ r _ _ => r | _ => EmptyString end.
Definition Cause (e : verror) : option verror := match e with ValidationError _ _ _ c _ => c | _ => None end.
Definition Key (e : verror) : bool := match e with ValidationError _ _ _ _ k => k | _ => false end.
Definition ErrorName (e : verror) : string :=
  match e with ValidationError msg _ _ _ _ => msg +:+ "ValidationError" | MultiError _ _ => EmptyString end.

(** ** The generated statements *)

(** The interfaces the generated code tests a value for; [None] where its type
    has no such method. *)
Record iface := mkIface { i_ValidateAll : option (option verror); i_Validate : option (option verror) }.

Definition embedded_failed : string := "embedded message failed validation".

Definition embedded_error (msg field : string) (err : verror) : verror :=
  ValidationError msg field embedded_failed (Some err) false.

(** The errors collected so far, or an early [return]. *)
Definition vstate : Type := list verror + verror.

Definition collect (msg field : string) (errs : list verror) (r : option verror) : list verror :=
  match r with Some err => errs ++ [embedded_error msg field err] | None => errs end.

(** [if all { switch v := item.(type) ... } else if v, ok := item.(...); ok { ... }] *)
Definition embedded (msg field : string) (all : bool) (v : iface) (errs : list verror) : vstate :=
  if all then
    match i_ValidateAll v, i_Validate v with
    | Some r, _ => inl (collect msg field errs r)
    | None, Some r => inl (collect msg field errs r)
    | None, None => inl errs
    end
  else
    match i_Validate v with
    | Some (Some err) => inr (embedded_error msg field err)
    | _ => inl errs
    end.

(** [for idx, item := range m.GetX()] around it. *)
Definition item_field (field : string) (idx : Z) : string := field +:+ "[" +:+ FormatInt idx +:+ "]".

Fixpoint repeated (msg field : string) (all : bool) (idx : Z) (items : list iface) (errs : list verror) : vstate :=
  match items with
  | [] => inl errs
  | v :: items =>
      match embedded msg (item_field field idx) all v errs with
      | inl errs => repeated msg field all (idx + 1) items errs
      | inr err => inr err
      end
  end.

(** [if len(errors) > 0 { return XMultiError(errors) }; return nil] *)
Definition finish (msg : string) (st : vstate) : option verror :=
  match st with
  | inl [] => None
  | inl errs => Some (MultiError msg errs)
  | inr err => Some err
  end.

(** A message none of whose fields has a rule or a message in it. *)
Definition no_rules {A} (msg : string) (all : bool) (m : option A) : option verror :=
  match m with None => None | Some _ => finish msg (inl []) end.

(** What the generated code for one message offers to the others. *)
Class Validator (A : Type) := { Validate : option A -> option verror; ValidateAll : option A -> option verror }.

Definition iface_of `{Validator A} (m : option A) : iface := mkIface (Some (ValidateAll m)) (Some (Validate m)).

(** The two modes find the same messages invalid. *)
Class ValidatorLaws (A : Type) {V : Validator A} : Prop := {
  validate_agree : forall m : option A, Validate m = None <-> ValidateAll m = None;
}.

(** ** The push service's messages *)

Record PushBody := mkPushBody { b_Mod : Z; b_Seq : Z; b_Obj : Z; b_Data : list Z }.
Record PushRequest := mkPushRequest { pr_Uid : Z; pr_Bodies : list (option PushBody) }.
Record PushResponse := mkPushResponse {}.
Record MulticastRequest := mkMulticastRequest { mr_Uid : list Z; mr_Bodies : list (option PushBody) }.
Record MulticastResponse := mkMulticastResponse {}.
Record BroadcastRequest := mkBroadcastRequest { br_Bodies : list (option PushBody) }.
Record BroadcastResponse := mkBroadcastResponse {}.

Definition PushRequest_GetBodies : option PushRequest -> list (option PushBody) := getter pr_Bodies [].
Definition MulticastRequest_GetBodies : option MulticastRequest -> list (option PushBody) := getter mr_Bodies [].
Definition BroadcastRequest_GetBodies : option BroadcastRequest -> list (option PushBody) := getter br_Bodies [].

Section push.
Context {V : Validator PushBody}.

Definition PushRequest_validate (all : bool) (m : option PushRequest) : option verror :=
  match m with
  | None => None
  | Some _ => finish "PushRequest" (repeated "PushRequest" "Bodies" all 0 (iface_of <$> PushRequest_GetBodies m) [])
  end.
Definition PushRequest_Validate : option PushRequest -> option verror := PushRequest_validate false.
Definition PushRequest_ValidateAll : option PushRequest -> option verror := PushRequest_validate true.

Definition MulticastRequest_validate (all : bool) (m : option MulticastRequest) : option verror :=
  match m with
  | None => None
  | Some _ =>
      finish "MulticastRequest" (repeated "MulticastRequest" "Bodies" all 0 (iface_of <$> MulticastRequest_GetBodies m) [])
  end.
Definition MulticastRequest_Validate : option MulticastRequest -> option verror := MulticastRequest_validate false.
Definition MulticastRequest_ValidateAll : option MulticastRequest -> option verror := MulticastRequest_validate true.

Definition BroadcastRequest_validate (all : bool) (m : option BroadcastRequest) : option verror :=
  match m with
  | None => None
  | Some _ =>
      finish "BroadcastRequest" (repeated "BroadcastRequest" "Bodies" all 0 (iface_of <$> BroadcastRequest_GetBodies m) [])
  end.
Definition BroadcastRequest_Validate : option BroadcastRequest -> option verror := BroadcastRequest_validate false.
Definition BroadcastRequest_ValidateAll : option BroadcastRequest -> option verror := BroadcastRequest_validate true.
End push.

(** *** Messages without embedded messages *)

Definition PushBody_validate : bool -> option PushBody -> option verror := no_rules "PushBody".
Definition PushBody_Validate : option PushBody -> option verror := PushBody_validate false.
Definition PushBody_ValidateAll : option PushBody -> option verror := PushBody_validate true.

Definition PushResponse_validate : bool -> option PushResponse -> option verror := no_rules "PushResponse".
Definition PushResponse_Validate : option PushResponse -> option verror := PushResponse_validate false.
Definition PushResponse_ValidateAll : option PushResponse -> option verror := PushResponse_validate true.

Definition MulticastResponse_validate : bool -> option MulticastResponse -> option verror := no_rules "MulticastResponse".
Definition MulticastResponse_Validate : option MulticastResponse -> option verror := MulticastResponse_validate false.
Definition MulticastResponse_ValidateAll : option MulticastResponse -> option verror := MulticastResponse_validate true.

Definition BroadcastResponse_validate : bool -> option BroadcastResponse -> option verror := no_rules "BroadcastResponse".
Definition BroadcastResponse_Validate : option BroadcastResponse -> option verror := BroadcastResponse_validate false.
Definition BroadcastResponse_ValidateAll : option BroadcastResponse -> option verror := BroadcastResponse_validate true.

(** ** Packets, system messages, tokens and tunnel messages *)

Record CSHeartBeat := mkCSHeartBeat { ClientTime : Z }.
Record SCHeartBeat := mkSCHeartBeat { ServerTime : Z; hb_Code : Z }.
Record SCServerUnknownErr := mkSCServerUnknownErr { ue_Mod : Z; ue_Seq : Z; ue_Msg : string }.
Record SCServerLogout := mkSCServerLogout { lo_Code : Z }.

Definition Packet_validate : bool -> option Packet -> option verror := no_rules "Packet".
Definition Packet_Validate : option Packet -> option verror := Packet_validate false.
Definition Packet_ValidateAll : option Packet -> option verror := Packet_validate true.

Definition CSHandshake_validate : bool -> option CSHandshake -> option verror := no_rules "CSHandshake".
Definition CSHandshake_Validate : option CSHandshake -> option verror := CSHandshake_validate false.
Definition CSHandshake_ValidateAll : option CSHandshake -> option verror := CSHandshake_validate true.

Definition SCHandshake_validate : bool -> option SCHandshake -> option verror := no_rules "SCHandshake".
Definition SCHandshake_Validate : option SCHandshake -> option verror := SCHandshake_validate false.
Definition SCHandshake_ValidateAll : option SCHandshake -> option verror := SCHandshake_validate true.

Definition CSHeartBeat_validate : bool -> option CSHeartBeat -> option verror := no_rules "CSHeartBeat".
Definition CSHeartBeat_Validate : option CSHeartBeat -> option verror := CSHeartBeat_validate false.
Definition CSHeartBeat_ValidateAll : option CSHeartBeat -> option verror := CSHeartBeat_validate true.

Definition SCHeartBeat_validate : bool -> option SCHeartBeat -> option verror := no_rules "SCHeartBeat".
Definition SCHeartBeat_Validate : option SCHeartBeat -> option verror := SCHeartBeat_validate false.
Definition SCHeartBeat_ValidateAll : option SCHeartBeat -> option verror := SCHeartBeat_validate true.

Definition SCServerUnknownErr_validate : bool -> option SCServerUnknownErr -> option verror := no_rules "SCServerUnknownErr".
Definition SCServerUnknownErr_Validate : option SCServerUnknownErr -> option verror := SCServerUnknownErr_validate false.
Definition SCServerUnknownErr_ValidateAll : option SCServerUnknownErr -> option verror := SCServerUnknownErr_validate true.

Definition SCServerLogout_validate : bool -> option SCServerLogout -> option verror := no_rules "SCServerLogout".
Definition SCServerLogout_Validate : option SCServerLogout -> option verror := SCServerLogout_validate false.
Definition SCServerLogout_ValidateAll : option SCServerLogout -> option verror := SCServerLogout_validate true.

Definition AuthToken_validate : bool -> option AuthToken -> option verror := no_rules "AuthToken".
Definition AuthToken_Validate : option AuthToken -> option verror := AuthToken_validate false.
Definition AuthToken_ValidateAll : option AuthToken -> option verror := AuthToken_validate true.

Definition player_Message_validate : bool -> option player_Message -> option verror := no_rules "Message".
Definition player_Message_Validate : option player_Message -> option verror := player_Message_validate false.
Definition player_Message_ValidateAll : option player_Message -> option verror := player_Message_validate true.

Definition room_Message_validate : bool -> option room_Message -> option verror := no_rules "Message".
Definition room_Message_Validate : option room_Message -> option verror := room_Message_validate false.
Definition room_Message_ValidateAll : option room_Message -> option verror := room_Message_validate true.

(** ** Specification

    The failing items, each under the field name of its own index. *)
Definition failures {A} (v : option A -> option verror) (msg field : string) (idx : nat) (items : list (option A)) : list verror :=
  omap id (imap (fun i m => embedded_error msg (item_field field (Z.of_nat (idx + i))) <$> v m) items).

Definition multi (msg : string) (errs : list verror) : option verror :=
  match errs with [] => None | _ => Some (MultiError msg errs) end.

(** What [Validate] and [ValidateAll] of a message promise whose only checked
    field is the repeated [items]. *)
Definition modes_agree {A} {V : Validator A} (msg field : string) (items : list (option A)) (first all : option verror) : Prop :=
  all = multi msg (failures ValidateAll msg field 0 items) /\
  first = head (failures Validate msg field 0 items) /\
  (first = None <-> all = None) /\
  (forall e, first = Some e -> exists e' es, all = Some (MultiError msg (e' :: es)) /\ Field e' = Field e /\ Reason e' = Reason e) /\
  (forall e, all = Some e -> NoDup (Field <$> AllErrors e)).

(** ** Facts *)

Lemma failures_cons {A} (v : option A -> option verror) msg field idx m items :
  failures v msg field idx (m :: items) =
  match v m with Some err => [embedded_error msg (item_field field (Z.of_nat idx)) err] | None => [] end ++
  failures v msg field (S idx) items.
Proof.
  unfold failures. cbn [imap omap list_omap]. rewrite Nat.add_0_r.
  assert (forall i, (idx + S i = S idx + i)%nat) as E by lia.
  rewrite (imap_ext _ (fun i m => embedded_error msg (item_field field (Z.of_nat (S idx + i))) <$> v m) items)
    by (intros i x _; cbn [compose]; by rewrite E).
  by destruct (v m).
Qed.

(** The two loops against the specification. *)
Lemma repeated_all {A} {V : Validator A} msg field idx (items : list (option A)) errs :
  repeated msg field true (Z.of_nat idx) (iface_of <$> items) errs = inl (errs ++ failures ValidateAll msg field idx items).
Proof.
  revert idx errs. induction items as [|m items IH]; intros idx errs; [by rewrite app_nil_r|].
  rewrite failures_cons. cbn [fmap list_fmap repeated embedded iface_of i_ValidateAll]. unfold collect.
  replace (Z.of_nat idx + 1) with (Z.of_nat (S idx)) by lia. rewrite IH. destruct (ValidateAll m); [|done].
  by rewrite <- app_assoc.
Qed.

Lemma repeated_first {A} {V : Validator A} msg field idx (items : list (option A)) errs :
  repeated msg field false (Z.of_nat idx) (iface_of <$> items) errs =
  match head (failures Validate msg field idx items) with Some e => inr e | None => inl errs end.
Proof.
  revert idx. induction items as [|m items IH]; intros idx; [done|].
  rewrite failures_cons. cbn [fmap list_fmap repeated embedded iface_of i_Validate].
  replace (Z.of_nat idx + 1) with (Z.of_nat (S idx)) by lia. destruct (Validate m); [done|apply IH].
Qed.

(** The two lists of failures name the same items for the same reasons. *)
Lemma failures_agree {A} {V : Validator A} {L : ValidatorLaws A} msg field idx (items : list (option A)) :
  (fun e => (Field e, Reason e)) <$> failures Validate msg field idx items =
  (fun e => (Field e, Reason e)) <$> failures ValidateAll msg field idx items.
Proof.
  revert idx. induction items as [|m items IH]; intros idx; [done|].
  rewrite !failures_cons, !fmap_app, IH. f_equal. pose proof (validate_agree m) as H.
  destruct (Validate m), (ValidateAll m); try done; exfalso; naive_solver.
Qed.

Lemma string_app_inv (a b c : string) : a +:+ b = a +:+ c -> b = c.
Proof. induction a as [|x a IH]; cbn; [done|]. intros [= H]. by apply IH. Qed.

Lemma string_snoc_inj (a b : string) (x : Ascii.ascii) : a +:+ String x EmptyString = b +:+ String x EmptyString -> a = b.
Proof.
  revert b. induction a as [|y a IH]; intros [|z b] H; cbn in H; [done| | |].
  - injection H as _ H. by destruct b.
  - injection H as _ H. by destruct a.
  - injection H as -> H. f_equal. by apply IH.
Qed.

Lemma item_field_inj field i j : 0 <= i < 2 ^ 63 -> 0 <= j < 2 ^ 63 -> item_field field i = item_field field j -> i = j.
Proof.
  intros Hi Hj E. unfold item_field in E. apply string_app_inv in E. cbn in E. injection E as E. apply string_snoc_inj in E.
  pose proof (ParseInt_FormatInt i ltac:(lia)) as Pi. pose proof (ParseInt_FormatInt j ltac:(lia)) as Pj. congruence.
Qed.

(** A failure's field is that of an item. *)
Lemma failures_field {A} (v : option A -> option verror) msg field idx items f :
  f ∈ Field <$> failures v msg field idx items ->
  exists i, (idx <= i < idx + length items)%nat /\ f = item_field field (Z.of_nat i).
Proof.
  revert idx. induction items as [|m items IH]; intros idx; [by rewrite elem_of_nil|].
  rewrite failures_cons, fmap_app, elem_of_app. intros [H|H].
  - exists idx. split; [cbn; lia|]. destruct (v m); cbn in H; [by apply list_elem_of_singleton in H|by apply elem_of_nil in H].
  - destruct (IH _ H) as (i & ? & ?). exists i. split; [cbn; lia|done].
Qed.

Lemma failures_nodup {A} (v : option A -> option verror) msg field idx items :
  Z.of_nat (idx + length items) < 2 ^ 63 -> NoDup (Field <$> failures v msg field idx items).
Proof.
  revert idx. induction items as [|m items IH]; intros idx Hb; [by constructor|]. cbn [length] in Hb.
  rewrite failures_cons, fmap_app. destruct (v m); cbn; [|apply IH; lia]. constructor; [|apply IH; lia].
  intros H. apply failures_field in H as (i & Hi & E). apply item_field_inj in E; lia.
Qed.

Lemma items_modes {A} {V : Validator A} {L : ValidatorLaws A} msg field (items : list (option A)) : zlen items < 2 ^ 63 ->
  modes_agree msg field items
    (finish msg (repeated msg field false 0 (iface_of <$> items) []))
    (finish msg (repeated msg field true 0 (iface_of <$> items) [])).
Proof.
  intros Hb. pose proof (failures_agree msg field 0 items) as E.
  rewrite (repeated_all msg field 0), (repeated_first msg field 0). cbn [app].
  pose proof (failures_nodup ValidateAll msg field 0 items Hb) as Hn.
  unfold modes_agree. destruct (failures Validate msg field 0 items) as [|e es], (failures ValidateAll msg field 0 items) as [|e' es'];
    try discriminate E; cbn.
  - naive_solver.
  - injection E as Hf Hr _. split; [done|]. split; [done|]. split; [naive_solver|]. split.
    + intros e0 [= <-]. by eexists _, _.
    + by intros e0 [= <-].
Qed.

(** ** The generated instances *)

#[export] Instance PushBody_Validator : Validator PushBody :=
  {| Validate := PushBody_Validate; ValidateAll := PushBody_ValidateAll |}.

Lemma no_rules_accepts {A} msg all (m : option A) : no_rules msg all m = None.
Proof. by destruct m. Qed.

#[export] Instance PushBody_ValidatorLaws : ValidatorLaws PushBody.
Proof. split. intros m. cbn. unfold PushBody_Validate, PushBody_ValidateAll, PushBody_validate. by rewrite !no_rules_accepts. Qed.

(** ** Properties *)

(** C25: The two modes of the push service's validators agree with each other and
    with one specification, whatever rules the body's validator has, as long as
    its own two modes agree: [ValidateAll] reports exactly the failing bodies,
    in order, each under a field name of its own, [Validate] reports the first
    of them, and one mode fails exactly when the other does. *)
Theorem validate_modes_agree {V : Validator PushBody} {L : ValidatorLaws PushBody} :
  (forall m, zlen (pr_Bodies m) < 2 ^ 63 ->
     modes_agree "PushRequest" "Bodies" (pr_Bodies m) (PushRequest_Validate (Some m)) (PushRequest_ValidateAll (Some m))) /\
  (forall m, zlen (mr_Bodies m) < 2 ^ 63 ->
     modes_agree "MulticastRequest" "Bodies" (mr_Bodies m) (MulticastRequest_Validate (Some m)) (MulticastRequest_ValidateAll (Some m))) /\
  (forall m, zlen (br_Bodies m) < 2 ^ 63 ->
     modes_agree "BroadcastRequest" "Bodies" (br_Bodies m) (BroadcastRequest_Validate (Some m)) (BroadcastRequest_ValidateAll (Some m))).
Proof. split; [|split]; intros m Hb; by apply items_modes. Qed.

(** With the validators as generated nothing is refused: a push to user 0, or
    with no body or nil bodies, is valid. *)
Lemma push_requests_valid m : PushRequest_Validate m = None /\ PushRequest_ValidateAll m = None.
Proof.
  destruct m as [m|]; [|done]. unfold PushRequest_Validate, PushRequest_ValidateAll, PushRequest_validate.
  rewrite (repeated_all "PushRequest" "Bodies" 0), (repeated_first "PushRequest" "Bodies" 0).
  assert (forall v : option PushBody -> option verror, (forall b, v b = None) -> forall idx l, failures v "PushRequest" "Bodies" idx l = []) as Hf.
  { intros v Hv idx l. revert idx. induction l as [|b l IH]; intros idx; [done|]. by rewrite failures_cons, Hv, IH. }
  rewrite !Hf by (intros b; apply no_rules_accepts). done.
Qed.

(** ** Witness: bodies must name a module *)

Definition strict_body (all : bool) (m : option PushBody) : option verror :=
  match m with
  | Some b => if b_Mod b =? 0 then
      let e := ValidationError "PushBody" "Mod" "value must be greater than 0" None false in
      Some (if all then MultiError "PushBody" [e] else e) else None
  | None => None
  end.
Definition strict_validator : Validator PushBody := {| Validate := strict_body false; ValidateAll := strict_body true |}.
Lemma strict_laws : ValidatorLaws PushBody (V := strict_validator).
Proof. split. intros [b|]; cbn; [|done]. by destruct (b_Mod b =? 0). Qed.

Definition demo_push : PushRequest := mkPushRequest 7 [Some (mkPushBody 1 2 0 []); Some (mkPushBody 0 2 0 []); None; Some (mkPushBody 0 1 0 [])].

Lemma validate_modes_agree_witness :
  match PushRequest_ValidateAll (V := strict_validator) (Some demo_push) with
  | Some e => NoDup (Field <$> AllErrors e) /\ Field <$> AllErrors e = ["Bodies[1]"; "Bodies[3]"] | None => False end /\
  option_map Error (PushRequest_Validate (V := strict_validator) (Some demo_push)) =
    Some ("invalid PushRequest.Bodies[1]: embedded message failed validation | caused by: " +:+
          "invalid PushBody.Mod: value must be greater than 0").
Proof.
  destruct (@validate_modes_agree strict_validator strict_laws) as [Hp _].
  destruct (Hp demo_push ltac:(cbn; lia)) as (_ & _ & _ & _ & Hn). split; [|reflexivity].
  split; [exact (Hn _ eq_refl)|reflexivity].
Defined.
