(* ===== verification/ValidateUser.v ===== *)
(** Validation of the player's data: the generated validators of the messages a
    login answer carries, src/gen/api/client/message/user.pb.validate.go,
    user_basic.pb.validate.go, storage.pb.validate.go, hero.pb.validate.go and
    [UserRoomProto] of room.pb.validate.go.

    These messages hold messages, lists of messages and maps of messages.  Go
    ranges over a map in an order of its own; the generated code sorts the keys
    first.  The order of each range is a parameter here ([orders]). *)
From stdpp Require Import sorting.
From S2P Require Import Prelude Context Messages Validate.

(** ** Statements *)

(** One statement after another: an early [return] ends the body. *)
Definition then_ (st : vstate) (k : list verror -> vstate) : vstate :=
  match st with inl errs => k errs | inr err => inr err end.

(** [sorted_keys]: the keys in the order of the range, then sorted. *)
Definition sorted_keys {A} (ord : list Z -> list Z) (m : gmap Z A) : list Z := merge_sort Z.le (ord (map_to_list m).*1).

(** [for _, key := range sorted_keys { val := m.GetX()[key]; ... }] *)
Fixpoint mapped (msg field : string) (all : bool) (kvs : list (Z * iface)) (errs : list verror) : vstate :=
  match kvs with
  | [] => inl errs
  | (key, v) :: kvs => then_ (embedded msg (item_field field key) all v errs) (mapped msg field all kvs)
  end.

Definition sorted_items {A} {V : Validator A} (ord : list Z -> list Z) (m : gmap Z (option A)) : list (Z * iface) :=
  (fun key => (key, iface_of (default None (m !! key)))) <$> sorted_keys ord m.

(** ** Messages *)

Record UserBasicProto := mkUserBasic { ub_Id : string; ub_Name : string; ub_NameSeq : Z; ub_Gender : Z }.
Record ItemPackProto := mkItemPack { ip_DataId : Z; ip_ReceivedAt : Z }.
(** [RecoverPerSecond] is a float32, kept as its bits. *)
Record ItemRecoverableProto := mkItemRecoverable { ir_Count : Z; ir_Max : Z; ir_RecoverPerSecond : Z; ir_UpdatedAt : Z }.
Record UserStorageProto := mkUserStorage {
  us_Amounts : gmap Z Z; us_Packs : gmap Z (option ItemPackProto); us_RecoverableItems : gmap Z (option ItemRecoverableProto);
}.
Record HeroProto := mkHero { he_Id : Z; he_DataId : Z; he_Level : Z }.
Record UserHeroListProto := mkUserHeroList { hl_Heroes : gmap Z (option HeroProto) }.
Record UserRoomProto := mkUserRoom { ur_RoomId : Z }.
Record UserProto := mkUser {
  u_Basic : option UserBasicProto; u_Storage : option UserStorageProto; u_HeroList : option UserHeroListProto;
  u_Room : option UserRoomProto;
}.
Record SCLogin := mkSCLogin { sl_Code : Z; sl_ServerTime : Z; sl_User : option UserProto; sl_Created : bool }.
Record SCPushSyncUser := mkSCPushSyncUser { su_User : option UserProto }.
Record SCPushHeroUnlock := mkSCPushHeroUnlock { hu_Heroes : list (option HeroProto) }.
Record SCHeroLevelUpgrade := mkSCHeroLevelUpgrade { lu_Code : Z; lu_Hero : option HeroProto; lu_NewAmounts : gmap Z Z }.

Definition UserBasicProto_validate : bool -> option UserBasicProto -> option verror := no_rules "UserBasicProto".
Definition UserBasicProto_Validate : option UserBasicProto -> option verror := UserBasicProto_validate false.
Definition UserBasicProto_ValidateAll : option UserBasicProto -> option verror := UserBasicProto_validate true.
Definition ItemPackProto_validate : bool -> option ItemPackProto -> option verror := no_rules "ItemPackProto".
Definition ItemPackProto_Validate : option ItemPackProto -> option verror := ItemPackProto_validate false.
Definition ItemPackProto_ValidateAll : option ItemPackProto -> option verror := ItemPackProto_validate true.
Definition ItemRecoverableProto_validate : bool -> option ItemRecoverableProto -> option verror := no_rules "ItemRecoverableProto".
Definition ItemRecoverableProto_Validate : option ItemRecoverableProto -> option verror := ItemRecoverableProto_validate false.
Definition ItemRecoverableProto_ValidateAll : option ItemRecoverableProto -> option verror := ItemRecoverableProto_validate true.
Definition HeroProto_validate : bool -> option HeroProto -> option verror := no_rules "HeroProto".
Definition HeroProto_Validate : option HeroProto -> option verror := HeroProto_validate false.
Definition HeroProto_ValidateAll : option HeroProto -> option verror := HeroProto_validate true.
Definition UserRoomProto_validate : bool -> option UserRoomProto -> option verror := no_rules "UserRoomProto".
Definition UserRoomProto_Validate : option UserRoomProto -> option verror := UserRoomProto_validate false.
Definition UserRoomProto_ValidateAll : option UserRoomProto -> option verror := UserRoomProto_validate true.

(** The orders in which the ranges over [Packs], [RecoverableItems] and
    [Heroes] meet the keys. *)
Record orders := mkOrders { o_packs : list Z -> list Z; o_items : list Z -> list Z; o_heroes : list Z -> list Z }.

Section user.
Context {VB : Validator UserBasicProto} {VI : Validator ItemPackProto} {VR : Validator ItemRecoverableProto}.
Context {VH : Validator HeroProto} {VU : Validator UserRoomProto}.

Definition UserStorageProto_validate (o : orders) (all : bool) (m : option UserStorageProto) : option verror :=
  match m with
  | None => None
  | Some s =>
      let msg := "UserStorageProto" in
      finish msg (then_ (mapped msg "Packs" all (sorted_items (o_packs o) (us_Packs s)) [])
                        (mapped msg "RecoverableItems" all (sorted_items (o_items o) (us_RecoverableItems s))))
  end.
Definition UserStorageProto_Validate (o : orders) : option UserStorageProto -> option verror := UserStorageProto_validate o false.
Definition UserStorageProto_ValidateAll (o : orders) : option UserStorageProto -> option verror := UserStorageProto_validate o true.

Definition UserHeroListProto_validate (o : orders) (all : bool) (m : option UserHeroListProto) : option verror :=
  match m with
  | None => None
  | Some h => finish "UserHeroListProto" (mapped "UserHeroListProto" "Heroes" all (sorted_items (o_heroes o) (hl_Heroes h)) [])
  end.
Definition UserHeroListProto_Validate (o : orders) : option UserHeroListProto -> option verror := UserHeroListProto_validate o false.
Definition UserHeroListProto_ValidateAll (o : orders) : option UserHeroListProto -> option verror := UserHeroListProto_validate o true.

Definition SCPushHeroUnlock_validate (all : bool) (m : option SCPushHeroUnlock) : option verror :=
  match m with
  | None => None
  | Some h => finish "SCPushHeroUnlock" (repeated "SCPushHeroUnlock" "Heroes" all 0 (iface_of <$> hu_Heroes h) [])
  end.
Definition SCPushHeroUnlock_Validate : option SCPushHeroUnlock -> option verror := SCPushHeroUnlock_validate false.
Definition SCPushHeroUnlock_ValidateAll : option SCPushHeroUnlock -> option verror := SCPushHeroUnlock_validate true.

Definition SCHeroLevelUpgrade_validate (all : bool) (m : option SCHeroLevelUpgrade) : option verror :=
  match m with
  | None => None
  | Some h => finish "SCHeroLevelUpgrade" (embedded "SCHeroLevelUpgrade" "Hero" all (iface_of (lu_Hero h)) [])
  end.
Definition SCHeroLevelUpgrade_Validate : option SCHeroLevelUpgrade -> option verror := SCHeroLevelUpgrade_validate false.
Definition SCHeroLevelUpgrade_ValidateAll : option SCHeroLevelUpgrade -> option verror := SCHeroLevelUpgrade_validate true.

Definition storage_Validator (o : orders) : Validator UserStorageProto :=
  {| Validate := UserStorageProto_Validate o; ValidateAll := UserStorageProto_ValidateAll o |}.
Definition hero_list_Validator (o : orders) : Validator UserHeroListProto :=
  {| Validate := UserHeroListProto_Validate o; ValidateAll := UserHeroListProto_ValidateAll o |}.

Definition UserProto_validate (o : orders) (all : bool) (m : option UserProto) : option verror :=
  match m with
  | None => None
  | Some u =>
      let msg := "UserProto" in
      finish msg
        (then_ (embedded msg "Basic" all (iface_of (u_Basic u)) []) (fun errs =>
         then_ (embedded msg "Storage" all (iface_of (H := storage_Validator o) (u_Storage u)) errs) (fun errs =>
         then_ (embedded msg "HeroList" all (iface_of (H := hero_list_Validator o) (u_HeroList u)) errs) (fun errs =>
         embedded msg "Room" all (iface_of (u_Room u)) errs))))
  end.
Definition UserProto_Validate (o : orders) : option UserProto -> option verror := UserProto_validate o false.
Definition UserProto_ValidateAll (o : orders) : option UserProto -> option verror := UserProto_validate o true.

Definition user_Validator (o : orders) : Validator UserProto :=
  {| Validate := UserProto_Validate o; ValidateAll := UserProto_ValidateAll o |}.

Definition SCLogin_validate (o : orders) (all : bool) (m : option SCLogin) : option verror :=
  match m with
  | None => None
  | Some l => finish "SCLogin" (embedded "SCLogin" "User" all (iface_of (H := user_Validator o) (sl_User l)) [])
  end.
Definition SCLogin_Validate (o : orders) : option SCLogin -> option verror := SCLogin_validate o false.
Definition SCLogin_ValidateAll (o : orders) : option SCLogin -> option verror := SCLogin_validate o true.

Definition SCPushSyncUser_validate (o : orders) (all : bool) (m : option SCPushSyncUser) : option verror :=
  match m with
  | None => None
  | Some l => finish "SCPushSyncUser" (embedded "SCPushSyncUser" "User" all (iface_of (H := user_Validator o) (su_User l)) [])
  end.
Definition SCPushSyncUser_Validate (o : orders) : option SCPushSyncUser -> option verror := SCPushSyncUser_validate o false.
Definition SCPushSyncUser_ValidateAll (o : orders) : option SCPushSyncUser -> option verror := SCPushSyncUser_validate o true.
End user.

(** ** The two modes *)

(** A statement run in both modes: collecting, it adds errors; otherwise it
    returns the first of them, up to the cause. *)
Definition summary (e : verror) : string * string := (Field e, Reason e).

Definition field_ok (f : bool -> list verror -> vstate) : Prop :=
  exists fails first, (forall errs, f true errs = inl (errs ++ fails)) /\
    (forall errs, f false errs = match first with Some e => inr e | None => inl errs end) /\
    summary <$> first = head (summary <$> fails).

(** What [Validate] and [ValidateAll] of one message have to do with each other. *)
Definition modes_ok (msg : string) (first all : option verror) : Prop :=
  (first = None <-> all = None) /\
  forall e, first = Some e -> exists e' es, all = Some (MultiError msg (e' :: es)) /\ Field e' = Field e /\ Reason e' = Reason e.

Lemma embedded_ok {A} {V : Validator A} {L : ValidatorLaws A} msg field (m : option A) :
  field_ok (fun all => embedded msg field all (iface_of m)).
Proof.
  exists (match ValidateAll m with Some err => [embedded_error msg field err] | None => [] end),
    (embedded_error msg field <$> Validate m). cbn [embedded iface_of i_ValidateAll i_Validate]. split; [|split].
  - intros errs. unfold collect. destruct (ValidateAll m); [done|by rewrite app_nil_r].
  - intros errs. by destruct (Validate m).
  - pose proof (validate_agree m) as H. destruct (Validate m), (ValidateAll m); try done; exfalso; naive_solver.
Qed.

Lemma then_ok f g : field_ok f -> field_ok g -> field_ok (fun all errs => then_ (f all errs) (g all)).
Proof.
  intros (fl & fi & Fa & Ff & Fs) (gl & gi & Ga & Gf & Gs).
  exists (fl ++ gl), (match fi with Some e => Some e | None => gi end). split; [|split].
  - intros errs. by rewrite Fa; cbn; rewrite Ga, app_assoc.
  - intros errs. rewrite Ff. destruct fi; [done|]. apply Gf.
  - rewrite fmap_app. destruct fi as [e|], fl as [|e' fl]; try done; naive_solver.
Qed.

Lemma mapped_ok {A} {V : Validator A} {L : ValidatorLaws A} msg field (kvs : list (Z * option A)) :
  field_ok (fun all => mapped msg field all ((fun '(k, m) => (k, iface_of m)) <$> kvs)).
Proof.
  induction kvs as [|[k m] kvs IH]; [by exists [], None; split; [intros; by rewrite app_nil_r|]|].
  apply (then_ok _ _ (embedded_ok msg (item_field field k) m) IH).
Qed.

Lemma sorted_ok {A} {V : Validator A} {L : ValidatorLaws A} msg field ord (m : gmap Z (option A)) :
  field_ok (fun all => mapped msg field all (sorted_items ord m)).
Proof.
  unfold sorted_items. rewrite (list_fmap_ext _ ((fun '(k, m) => (k, iface_of m)) ∘ (fun k => (k, default None (m !! k)))))
    by done. rewrite list_fmap_compose. apply mapped_ok.
Qed.

Lemma finish_ok msg f : field_ok f -> modes_ok msg (finish msg (f false [])) (finish msg (f true [])).
Proof.
  intros (fails & first & Fa & Ff & Fs). rewrite Fa, Ff. cbn [app]. unfold modes_ok.
  destruct first as [e|], fails as [|e' es]; try discriminate Fs; cbn; [|naive_solver].
  injection Fs as Hf Hr. split; [naive_solver|]. intros e0 [= <-]. by eexists _, _.
Qed.

(** ** What a message with messages in it reports

    The values a message holds that are checked, in order: the field's name and
    what the value's [Validate] and [ValidateAll] return. *)
Definition checked : Type := list (string * (option verror * option verror)).

(** The order of a map's values. *)
Definition key_le {A} (x y : Z * A) : Prop := x.1 <= y.1.
#[export] Instance key_le_dec {A} (x y : Z * A) : Decision (key_le x y) := decide (x.1 <= y.1).

Definition one {A} {V : Validator A} (field : string) (m : option A) : checked := [(field, (Validate m, ValidateAll m))].
Definition each {A} {V : Validator A} (field : string) (items : list (option A)) : checked :=
  imap (fun i m => (item_field field (Z.of_nat i), (Validate m, ValidateAll m))) items.
Definition keyed {A} {V : Validator A} (field : string) (m : gmap Z (option A)) : checked :=
  (fun '(k, v) => (item_field field k, (Validate v, ValidateAll v))) <$> merge_sort key_le (map_to_list m).

(** [ValidateAll] reports every failing value, [Validate] the first. *)
Definition failing (msg : string) (pick : option verror * option verror -> option verror) (c : checked) : list verror :=
  omap (fun '(f, r) => embedded_error msg f <$> pick r) c.

Definition container {R} (msg : string) (values : R -> checked) (validate : bool -> option R -> option verror) : Prop :=
  (forall all, validate all None = None) /\
  forall m, validate true (Some m) = multi msg (failing msg snd (values m)) /\
    validate false (Some m) = head (failing msg fst (values m)).

(** What a statement of the generated code does about these values. *)
Definition does (msg : string) (c : checked) (f : bool -> list verror -> vstate) : Prop :=
  (forall errs, f true errs = inl (errs ++ failing msg snd c)) /\
  (forall errs, f false errs = match head (failing msg fst c) with Some e => inr e | None => inl errs end).

Lemma failing_app msg pick c c' : failing msg pick (c ++ c') = failing msg pick c ++ failing msg pick c'.
Proof. apply omap_app. Qed.

Lemma then_does msg c c' f g : does msg c f -> does msg c' g -> does msg (c ++ c') (fun all errs => then_ (f all errs) (g all)).
Proof.
  intros [Fa Ff] [Ga Gf]. split; intros errs; rewrite failing_app.
  - rewrite Fa. cbn. by rewrite Ga, app_assoc.
  - rewrite Ff. destruct (failing msg fst c) as [|e l]; [apply Gf|done].
Qed.

Lemma nil_does msg : does msg [] (fun _ errs => inl errs).
Proof. split; intros errs; cbn; [by rewrite app_nil_r|done]. Qed.

Lemma embedded_does {A} {V : Validator A} msg field (m : option A) :
  does msg (one field m) (fun all => embedded msg field all (iface_of m)).
Proof.
  split; intros errs; cbn [embedded iface_of i_ValidateAll i_Validate one failing omap list_omap snd fst].
  - unfold collect. destruct (ValidateAll m); cbn; [done|by rewrite app_nil_r].
  - by destruct (Validate m).
Qed.

Lemma each_does {A} {V : Validator A} msg field idx (items : list (option A)) :
  does msg (imap (fun i m => (item_field field (Z.of_nat (idx + i)), (Validate m, ValidateAll m))) items)
    (fun all => repeated msg field all (Z.of_nat idx) (iface_of <$> items)).
Proof.
  revert idx. induction items as [|m items IH]; intros idx; [apply nil_does|]. cbn [imap]. rewrite Nat.add_0_r.
  rewrite (imap_ext _ (fun i m => (item_field field (Z.of_nat (S idx + i)), (Validate m, ValidateAll m))) items)
    by (intros i x _; cbn [compose]; do 3 f_equal; lia).
  pose proof (then_does msg _ _ _ _ (embedded_does msg (item_field field (Z.of_nat idx)) m) (IH (S idx))) as H.
  replace (Z.of_nat (S idx)) with (Z.of_nat idx + 1) in H by lia. exact H.
Qed.

Lemma repeated_does {A} {V : Validator A} msg field (items : list (option A)) :
  does msg (each field items) (fun all => repeated msg field all 0 (iface_of <$> items)).
Proof. exact (each_does msg field 0 items). Qed.

Lemma mapped_does {A} {V : Validator A} msg field (kvs : list (Z * option A)) :
  does msg ((fun '(k, v) => (item_field field k, (Validate v, ValidateAll v))) <$> kvs)
    (fun all => mapped msg field all ((fun '(k, m) => (k, iface_of m)) <$> kvs)).
Proof.
  induction kvs as [|[k m] kvs IH]; [apply nil_does|]. exact (then_does msg _ _ _ _ (embedded_does msg (item_field field k) m) IH).
Qed.

Lemma finish_does {R} msg (values : R -> checked) validate :
  (forall all, validate all None = None) ->
  (forall m, exists f, does msg (values m) f /\ forall all, validate all (Some m) = finish msg (f all [])) ->
  container msg values validate.
Proof.
  intros Hn H. split; [done|]. intros m. destruct (H m) as (f & [Fa Ff] & E). rewrite !E, Fa, Ff. cbn [app]. split.
  - by destruct (failing msg snd (values m)).
  - by destruct (failing msg fst (values m)).
Qed.

(** ** The order of the ranges *)

Definition permutes (ord : list Z -> list Z) : Prop := forall l, ord l ≡ₚ l.
Definition orders_ok (o : orders) : Prop := permutes (o_packs o) /\ permutes (o_items o) /\ permutes (o_heroes o).

Lemma sorted_keys_order {A} ord ord' (m : gmap Z A) : permutes ord -> permutes ord' -> sorted_keys ord m = sorted_keys ord' m.
Proof.
  intros H H'. unfold sorted_keys. apply (Sorted_unique Z.le).
  - apply Sorted_merge_sort. intros x y. lia.
  - apply Sorted_merge_sort. intros x y. lia.
  - unfold permutes in *. by rewrite !merge_sort_Permutation, H, H'.
Qed.

(** The pairs in the order of their keys are the sorted keys with their values. *)
Lemma sorted_pairs {A} {V : Validator A} ord (m : gmap Z (option A)) : permutes ord ->
  sorted_items ord m = (fun '(k, v) => (k, iface_of v)) <$> merge_sort key_le (map_to_list m).
Proof.
  intros H. set (l := merge_sort key_le (map_to_list m)).
  assert (l ≡ₚ map_to_list m) as Hl by apply merge_sort_Permutation.
  assert (sorted_keys ord m = l.*1) as E.
  { apply (Sorted_unique Z.le).
    - apply Sorted_merge_sort. intros x y. lia.
    - assert (Sorted key_le l) as Hs by (apply Sorted_merge_sort; intros x y; unfold key_le; lia).
      clearbody l. clear Hl. induction Hs as [|x l Hs IH Hx]; [by constructor|]. constructor; [done|].
      by destruct Hx; constructor.
    - unfold sorted_keys, permutes in *. by rewrite merge_sort_Permutation, H, Hl. }
  unfold sorted_items. rewrite E, <- list_fmap_compose. apply list_fmap_ext. intros i [k v] Hi. cbn. f_equal.
  assert (m !! k = Some v) as ->; [|done]. apply elem_of_map_to_list. rewrite <- Hl. by eapply list_elem_of_lookup_2.
Qed.

Lemma keyed_does {A} {V : Validator A} msg field ord (m : gmap Z (option A)) : permutes ord ->
  does msg (keyed field m) (fun all => mapped msg field all (sorted_items ord m)).
Proof. intros H. rewrite sorted_pairs by done. apply mapped_does. Qed.

Lemma sorted_items_order {A} {V : Validator A} ord ord' (m : gmap Z (option A)) :
  permutes ord -> permutes ord' -> sorted_items ord m = sorted_items ord' m.
Proof. intros H H'. unfold sorted_items. by rewrite (sorted_keys_order ord ord'). Qed.

Section laws.
Context {VB : Validator UserBasicProto} {VI : Validator ItemPackProto} {VR : Validator ItemRecoverableProto}.
Context {VH : Validator HeroProto} {VU : Validator UserRoomProto}.

Lemma storage_order o o' all m : orders_ok o -> orders_ok o' -> UserStorageProto_validate o all m = UserStorageProto_validate o' all m.
Proof.
  intros (H1 & H2 & _) (H1' & H2' & _). destruct m as [s|]; [|done]. unfold UserStorageProto_validate.
  by rewrite (sorted_items_order (o_packs o) (o_packs o')), (sorted_items_order (o_items o) (o_items o')).
Qed.

Lemma hero_list_order o o' all m : orders_ok o -> orders_ok o' -> UserHeroListProto_validate o all m = UserHeroListProto_validate o' all m.
Proof.
  intros (_ & _ & H) (_ & _ & H'). destruct m as [s|]; [|done]. unfold UserHeroListProto_validate.
  by rewrite (sorted_items_order (o_heroes o) (o_heroes o')).
Qed.

Lemma user_order o o' all m : orders_ok o -> orders_ok o' -> UserProto_validate o all m = UserProto_validate o' all m.
Proof.
  intros H H'. destruct m as [u|]; [|done]. unfold UserProto_validate, iface_of.
  cbn [Validate ValidateAll storage_Validator hero_list_Validator].
  unfold UserStorageProto_Validate, UserStorageProto_ValidateAll, UserHeroListProto_Validate, UserHeroListProto_ValidateAll.
  by rewrite !(storage_order o o'), !(hero_list_order o o').
Qed.

Context {LB : ValidatorLaws UserBasicProto} {LI : ValidatorLaws ItemPackProto} {LR : ValidatorLaws ItemRecoverableProto}.
Context {LH : ValidatorLaws HeroProto} {LU : ValidatorLaws UserRoomProto}.

Lemma storage_modes o s : modes_ok "UserStorageProto" (UserStorageProto_Validate o (Some s)) (UserStorageProto_ValidateAll o (Some s)).
Proof.
  exact (finish_ok _ _ (then_ok _ _ (sorted_ok "UserStorageProto" "Packs" (o_packs o) (us_Packs s))
    (sorted_ok "UserStorageProto" "RecoverableItems" (o_items o) (us_RecoverableItems s)))).
Qed.

Lemma hero_list_modes o h : modes_ok "UserHeroListProto" (UserHeroListProto_Validate o (Some h)) (UserHeroListProto_ValidateAll o (Some h)).
Proof. exact (finish_ok _ _ (sorted_ok "UserHeroListProto" "Heroes" (o_heroes o) (hl_Heroes h))). Qed.

Lemma storage_laws o : ValidatorLaws UserStorageProto (V := storage_Validator o).
Proof. split. intros [s|]; [apply storage_modes|done]. Qed.
Lemma hero_list_laws o : ValidatorLaws UserHeroListProto (V := hero_list_Validator o).
Proof. split. intros [h|]; [apply hero_list_modes|done]. Qed.

Lemma user_modes o u : modes_ok "UserProto" (UserProto_Validate o (Some u)) (UserProto_ValidateAll o (Some u)).
Proof.
  pose proof (storage_laws o) as LS. pose proof (hero_list_laws o) as LL.
  pose proof (embedded_ok "UserProto" "Basic" (u_Basic u)) as F1.
  pose proof (embedded_ok (V := storage_Validator o) "UserProto" "Storage" (u_Storage u)) as F2.
  pose proof (embedded_ok (V := hero_list_Validator o) "UserProto" "HeroList" (u_HeroList u)) as F3.
  pose proof (embedded_ok "UserProto" "Room" (u_Room u)) as F4.
  exact (finish_ok _ _ (then_ok _ _ F1 (then_ok _ _ F2 (then_ok _ _ F3 F4)))).
Qed.

Lemma user_laws o : ValidatorLaws UserProto (V := user_Validator o).
Proof. split. intros [u|]; [apply user_modes|done]. Qed.
End laws.

(** ** Properties *)

(** C26: Validating the player's data is deterministic although it ranges over
    maps: whatever orders the ranges take, a login answer and a pushed update
    validate to the same result, errors, fields and their order included; and
    the two modes agree, so that [Validate] fails exactly when [ValidateAll]
    does and reports the first of its errors, as long as the two modes of the
    messages without embedded messages agree. *)
Theorem user_validation_deterministic {VB : Validator UserBasicProto} {VI : Validator ItemPackProto}
    {VR : Validator ItemRecoverableProto} {VH : Validator HeroProto} {VU : Validator UserRoomProto}
    {LB : ValidatorLaws UserBasicProto} {LI : ValidatorLaws ItemPackProto} {LR : ValidatorLaws ItemRecoverableProto}
    {LH : ValidatorLaws HeroProto} {LU : ValidatorLaws UserRoomProto} (o o' : orders) :
  orders_ok o -> orders_ok o' ->
  (forall all m, SCLogin_validate o all m = SCLogin_validate o' all m) /\
  (forall all m, SCPushSyncUser_validate o all m = SCPushSyncUser_validate o' all m) /\
  (forall m, modes_ok "SCLogin" (SCLogin_Validate o (Some m)) (SCLogin_ValidateAll o' (Some m))) /\
  (forall m, modes_ok "SCPushSyncUser" (SCPushSyncUser_Validate o (Some m)) (SCPushSyncUser_ValidateAll o' (Some m))).
Proof.
  intros H H'.
  assert (forall u, iface_of (H := user_Validator o) u = iface_of (H := user_Validator o') u) as E.
  { intros u. unfold iface_of. cbn [Validate ValidateAll user_Validator]. unfold UserProto_Validate, UserProto_ValidateAll.
    by rewrite !(user_order o o'). }
  pose proof (user_laws o') as LW. split; [|split; [|split]].
  - intros all [m|]; [|done]. unfold SCLogin_validate. by rewrite E.
  - intros all [m|]; [|done]. unfold SCPushSyncUser_validate. by rewrite E.
  - intros m. unfold SCLogin_Validate, SCLogin_validate. rewrite E.
    exact (finish_ok _ _ (embedded_ok (V := user_Validator o') "SCLogin" "User" (sl_User m))).
  - intros m. unfold SCPushSyncUser_Validate, SCPushSyncUser_validate. rewrite E.
    exact (finish_ok _ _ (embedded_ok (V := user_Validator o') "SCPushSyncUser" "User" (su_User m))).
Qed.

(** ** The generated instances, and a witness: heroes must have a level *)

#[export] Instance UserBasicProto_Validator : Validator UserBasicProto :=
  {| Validate := UserBasicProto_Validate; ValidateAll := UserBasicProto_ValidateAll |}.
#[export] Instance ItemPackProto_Validator : Validator ItemPackProto :=
  {| Validate := ItemPackProto_Validate; ValidateAll := ItemPackProto_ValidateAll |}.
#[export] Instance ItemRecoverableProto_Validator : Validator ItemRecoverableProto :=
  {| Validate := ItemRecoverableProto_Validate; ValidateAll := ItemRecoverableProto_ValidateAll |}.
#[export] Instance HeroProto_Validator : Validator HeroProto :=
  {| Validate := HeroProto_Validate; ValidateAll := HeroProto_ValidateAll |}.
#[export] Instance UserRoomProto_Validator : Validator UserRoomProto :=
  {| Validate := UserRoomProto_Validate; ValidateAll := UserRoomProto_ValidateAll |}.

Ltac accepts := split; intros m; cbn; split; intros _; apply no_rules_accepts.

#[export] Instance UserBasicProto_laws : ValidatorLaws UserBasicProto.
Proof. accepts. Qed.
#[export] Instance ItemPackProto_laws : ValidatorLaws ItemPackProto.
Proof. accepts. Qed.
#[export] Instance ItemRecoverableProto_laws : ValidatorLaws ItemRecoverableProto.
Proof. accepts. Qed.
#[export] Instance HeroProto_laws : ValidatorLaws HeroProto.
Proof. accepts. Qed.
#[export] Instance UserRoomProto_laws : ValidatorLaws UserRoomProto.
Proof. accepts. Qed.

Definition strict_hero (m : option HeroProto) : option verror :=
  match m with
  | Some h => if he_Level h =? 0 then Some (ValidationError "HeroProto" "Level" "value must be greater than 0" None false) else None
  | None => None
  end.
Definition strict_heroes : Validator HeroProto := {| Validate := strict_hero; ValidateAll := strict_hero |}.
Lemma strict_heroes_laws : ValidatorLaws HeroProto (V := strict_heroes).
Proof. by split. Qed.

(** The range meets the heroes upwards, or downwards. *)
Definition demo_up : orders := mkOrders id id id.
Definition demo_down : orders := mkOrders id id (@rev Z).

Lemma demo_orders : orders_ok demo_up /\ orders_ok demo_down.
Proof. split; (split; [|split]); intros l; cbn; try done. by rewrite <- Permutation_rev. Qed.

Definition demo_login : SCLogin := mkSCLogin 1 0 (Some (mkUser None None
  (Some (mkUserHeroList (<[7 := Some (mkHero 7 1 0)]> (<[3 := Some (mkHero 3 1 0)]> (<[5 := Some (mkHero 5 1 9)]> ∅))))) None)) false.

Lemma user_validation_deterministic_witness :
  SCLogin_ValidateAll (VH := strict_heroes) demo_up (Some demo_login) = SCLogin_ValidateAll (VH := strict_heroes) demo_down (Some demo_login) /\
  option_map Error (SCLogin_Validate (VH := strict_heroes) demo_down (Some demo_login)) =
    Some ("invalid SCLogin.User: embedded message failed validation | caused by: " +:+
          "invalid UserProto.HeroList: embedded message failed validation | caused by: " +:+
          "invalid UserHeroListProto.Heroes[3]: embedded message failed validation | caused by: " +:+
          "invalid HeroProto.Level: value must be greater than 0").
Proof.
  destruct demo_orders as [H1 H2].
  destruct (user_validation_deterministic (VH := strict_heroes) (LH := strict_heroes_laws) demo_up demo_down H1 H2) as [Hl _].
  split; [exact (Hl true (Some demo_login))|]. vm_compute. reflexivity.
Defined.

(** ** Messages that are always valid

    With the instances the generator made: no message has a rule, so nothing
    that holds only such messages is ever refused. *)
Class Accepts (A : Type) {V : Validator A} : Prop := {
  accepts : forall m : option A, Validate m = None /\ ValidateAll m = None;
}.

Lemma embedded_accepts {A} {V : Validator A} {H : Accepts A} msg field all (m : option A) errs :
  embedded msg field all (iface_of m) errs = inl errs.
Proof. destruct (accepts m) as [E E']. destruct all; cbn; by rewrite ?E, ?E'. Qed.

Lemma repeated_accepts {A} {V : Validator A} {H : Accepts A} msg field all idx (l : list (option A)) errs :
  repeated msg field all idx (iface_of <$> l) errs = inl errs.
Proof. revert idx. induction l as [|m l IH]; intros idx; [done|]. cbn [fmap list_fmap repeated]. by rewrite embedded_accepts. Qed.

Lemma mapped_accepts {A} {V : Validator A} {H : Accepts A} msg field all ord (m : gmap Z (option A)) errs :
  mapped msg field all (sorted_items ord m) errs = inl errs.
Proof.
  unfold sorted_items. induction (sorted_keys ord m) as [|k ks IH]; [done|]. cbn [fmap list_fmap mapped].
  rewrite embedded_accepts. exact IH.
Qed.

(** Proves [Accepts] of a message from the validator's definition [f]. *)
Ltac head_of t := match t with ?g _ => head_of g | _ => t end.
(** Proves what a [container] reports. *)
Ltac reports :=
  lazymatch goal with |- container _ _ ?f => let g := head_of f in
    apply finish_does; [done|]; intros m; eexists; split;
    [cbn beta; repeat first [by apply embedded_does|by apply repeated_does|by apply keyed_does|apply then_does]
    |intros all; unfold g; reflexivity]
  end.
Ltac accepting f :=
  let g := head_of f in
  constructor; intros [m|]; [|by split]; split;
  [change (f false (Some m) = None)|change (f true (Some m) = None)]; unfold g;
  repeat first [rewrite embedded_accepts | rewrite repeated_accepts | rewrite mapped_accepts | progress cbn [then_]]; done.

#[export] Instance UserBasicProto_accepts : Accepts UserBasicProto.
Proof. accepting UserBasicProto_validate. Qed.
#[export] Instance ItemPackProto_accepts : Accepts ItemPackProto.
Proof. accepting ItemPackProto_validate. Qed.
#[export] Instance ItemRecoverableProto_accepts : Accepts ItemRecoverableProto.
Proof. accepting ItemRecoverableProto_validate. Qed.
#[export] Instance HeroProto_accepts : Accepts HeroProto.
Proof. accepting HeroProto_validate. Qed.
#[export] Instance UserRoomProto_accepts : Accepts UserRoomProto.
Proof. accepting UserRoomProto_validate. Qed.
