(* ===== verification/ValidateClient.v ===== *)
(** Validation of the rest of the client protocol: the generated validators of
    src/gen/api/client/message/room.pb.validate.go and dev.pb.validate.go, and
    of the messages of user, hero and storage.pb.validate.go that ValidateUser.v
    does not have, on the interfaces and statements of Validate.v.  Then all
    validators of the protocol together. *)
From S2P Require Import Prelude Context Messages Validate ValidateUser.

(** ** Rooms *)

Section rooms.
(** The order in which the ranges over maps meet the keys. *)
Context (o : list Z -> list Z).

Record RoomBasicProto := mkRoomBasicProto {
  RoomBasicProto_Id : Z;
  RoomBasicProto_RoomType : Z;
  RoomBasicProto_Creator : option UserBasicProto;
  RoomBasicProto_CreatedAt : Z;
}.
Definition RoomBasicProto_validate {V : Validator UserBasicProto}
    (all : bool) (m : option RoomBasicProto) : option verror :=
  match m with
  | None => None
  | Some m => finish "RoomBasicProto" (embedded "RoomBasicProto" "Creator" all (iface_of (RoomBasicProto_Creator m)) [])
  end.
Definition RoomBasicProto_Validate : option RoomBasicProto -> option verror := RoomBasicProto_validate false.
Definition RoomBasicProto_ValidateAll : option RoomBasicProto -> option verror := RoomBasicProto_validate true.
#[export] Instance RoomBasicProto_Validator : Validator RoomBasicProto :=
  {| Validate := RoomBasicProto_Validate; ValidateAll := RoomBasicProto_ValidateAll |}.

Record RoomMemberProto := mkRoomMemberProto {
  RoomMemberProto_User : option UserBasicProto;
  RoomMemberProto_JoinedAt : Z;
}.
Definition RoomMemberProto_validate {V : Validator UserBasicProto}
    (all : bool) (m : option RoomMemberProto) : option verror :=
  match m with
  | None => None
  | Some m => finish "RoomMemberProto" (embedded "RoomMemberProto" "User" all (iface_of (RoomMemberProto_User m)) [])
  end.
Definition RoomMemberProto_Validate : option RoomMemberProto -> option verror := RoomMemberProto_validate false.
Definition RoomMemberProto_ValidateAll : option RoomMemberProto -> option verror := RoomMemberProto_validate true.
#[export] Instance RoomMemberProto_Validator : Validator RoomMemberProto :=
  {| Validate := RoomMemberProto_Validate; ValidateAll := RoomMemberProto_ValidateAll |}.

Record RoomProto := mkRoomProto {
  RoomProto_Basic : option RoomBasicProto;
  RoomProto_Members : gmap Z (option RoomMemberProto);
  RoomProto_Invitees : list Z;
  RoomProto_Requests : list Z;
}.
Definition RoomProto_validate {V1 : Validator RoomBasicProto} {V2 : Validator RoomMemberProto}
    (all : bool) (m : option RoomProto) : option verror :=
  match m with
  | None => None
  | Some m =>
      finish "RoomProto" (then_ (embedded "RoomProto" "Basic" all (iface_of (RoomProto_Basic m)) [])
        (mapped "RoomProto" "Members" all (sorted_items o (RoomProto_Members m))))
  end.
Definition RoomProto_Validate : option RoomProto -> option verror := RoomProto_validate false.
Definition RoomProto_ValidateAll : option RoomProto -> option verror := RoomProto_validate true.
#[export] Instance RoomProto_Validator : Validator RoomProto :=
  {| Validate := RoomProto_Validate; ValidateAll := RoomProto_ValidateAll |}.

Record SCPushJoinedRoom := mkSCPushJoinedRoom {
  SCPushJoinedRoom_RoomId : Z;
  SCPushJoinedRoom_Member : option RoomMemberProto;
}.
Definition SCPushJoinedRoom_validate {V : Validator RoomMemberProto}
    (all : bool) (m : option SCPushJoinedRoom) : option verror :=
  match m with
  | None => None
  | Some m => finish "SCPushJoinedRoom" (embedded "SCPushJoinedRoom" "Member" all (iface_of (SCPushJoinedRoom_Member m)) [])
  end.
Definition SCPushJoinedRoom_Validate : option SCPushJoinedRoom -> option verror := SCPushJoinedRoom_validate false.
Definition SCPushJoinedRoom_ValidateAll : option SCPushJoinedRoom -> option verror := SCPushJoinedRoom_validate true.
#[export] Instance SCPushJoinedRoom_Validator : Validator SCPushJoinedRoom :=
  {| Validate := SCPushJoinedRoom_Validate; ValidateAll := SCPushJoinedRoom_ValidateAll |}.

Record SCPushRemovedFromRoom := mkSCPushRemovedFromRoom {
  SCPushRemovedFromRoom_RoomId : Z;
  SCPushRemovedFromRoom_Member : option RoomMemberProto;
}.
Definition SCPushRemovedFromRoom_validate {V : Validator RoomMemberProto}
    (all : bool) (m : option SCPushRemovedFromRoom) : option verror :=
  match m with
  | None => None
  | Some m =>
      finish "SCPushRemovedFromRoom"
        (embedded "SCPushRemovedFromRoom" "Member" all (iface_of (SCPushRemovedFromRoom_Member m)) [])
  end.
Definition SCPushRemovedFromRoom_Validate : option SCPushRemovedFromRoom -> option verror :=
  SCPushRemovedFromRoom_validate false.
Definition SCPushRemovedFromRoom_ValidateAll : option SCPushRemovedFromRoom -> option verror :=
  SCPushRemovedFromRoom_validate true.
#[export] Instance SCPushRemovedFromRoom_Validator : Validator SCPushRemovedFromRoom :=
  {| Validate := SCPushRemovedFromRoom_Validate; ValidateAll := SCPushRemovedFromRoom_ValidateAll |}.

Record CSRoomList := mkCSRoomList { CSRoomList_Page : Z; CSRoomList_PageSize : Z }.
Definition CSRoomList_validate : bool -> option CSRoomList -> option verror := no_rules "CSRoomList".
Definition CSRoomList_Validate : option CSRoomList -> option verror := CSRoomList_validate false.
Definition CSRoomList_ValidateAll : option CSRoomList -> option verror := CSRoomList_validate true.
#[export] Instance CSRoomList_Validator : Validator CSRoomList :=
  {| Validate := CSRoomList_Validate; ValidateAll := CSRoomList_ValidateAll |}.

Record SCRoomList := mkSCRoomList { SCRoomList_Code : Z; SCRoomList_Rooms : list (option RoomBasicProto) }.
Definition SCRoomList_validate {V : Validator RoomBasicProto} (all : bool) (m : option SCRoomList) : option verror :=
  match m with
  | None => None
  | Some m => finish "SCRoomList" (repeated "SCRoomList" "Rooms" all 0 (iface_of <$> SCRoomList_Rooms m) [])
  end.
Definition SCRoomList_Validate : option SCRoomList -> option verror := SCRoomList_validate false.
Definition SCRoomList_ValidateAll : option SCRoomList -> option verror := SCRoomList_validate true.
#[export] Instance SCRoomList_Validator : Validator SCRoomList :=
  {| Validate := SCRoomList_Validate; ValidateAll := SCRoomList_ValidateAll |}.

Record CSRoomDetail := mkCSRoomDetail { CSRoomDetail_RoomId : Z }.
Definition CSRoomDetail_validate : bool -> option CSRoomDetail -> option verror := no_rules "CSRoomDetail".
Definition CSRoomDetail_Validate : option CSRoomDetail -> option verror := CSRoomDetail_validate false.
Definition CSRoomDetail_ValidateAll : option CSRoomDetail -> option verror := CSRoomDetail_validate true.
#[export] Instance CSRoomDetail_Validator : Validator CSRoomDetail :=
  {| Validate := CSRoomDetail_Validate; ValidateAll := CSRoomDetail_ValidateAll |}.

Record SCRoomDetail := mkSCRoomDetail { SCRoomDetail_Code : Z; SCRoomDetail_Room : option RoomProto }.
Definition SCRoomDetail_validate {V : Validator RoomProto} (all : bool) (m : option SCRoomDetail) : option verror :=
  match m with
  | None => None
  | Some m => finish "SCRoomDetail" (embedded "SCRoomDetail" "Room" all (iface_of (SCRoomDetail_Room m)) [])
  end.
Definition SCRoomDetail_Validate : option SCRoomDetail -> option verror := SCRoomDetail_validate false.
Definition SCRoomDetail_ValidateAll : option SCRoomDetail -> option verror := SCRoomDetail_validate true.
#[export] Instance SCRoomDetail_Validator : Validator SCRoomDetail :=
  {| Validate := SCRoomDetail_Validate; ValidateAll := SCRoomDetail_ValidateAll |}.

Record CSCreateRoom := mkCSCreateRoom { CSCreateRoom_RoomType : Z }.
Definition CSCreateRoom_validate : bool -> option CSCreateRoom -> option verror := no_rules "CSCreateRoom".
Definition CSCreateRoom_Validate : option CSCreateRoom -> option verror := CSCreateRoom_validate false.
Definition CSCreateRoom_ValidateAll : option CSCreateRoom -> option verror := CSCreateRoom_validate true.
#[export] Instance CSCreateRoom_Validator : Validator CSCreateRoom :=
  {| Validate := CSCreateRoom_Validate; ValidateAll := CSCreateRoom_ValidateAll |}.

Record SCCreateRoom := mkSCCreateRoom { SCCreateRoom_Code : Z; SCCreateRoom_Room : option RoomProto }.
Definition SCCreateRoom_validate {V : Validator RoomProto} (all : bool) (m : option SCCreateRoom) : option verror :=
  match m with
  | None => None
  | Some m => finish "SCCreateRoom" (embedded "SCCreateRoom" "Room" all (iface_of (SCCreateRoom_Room m)) [])
  end.
Definition SCCreateRoom_Validate : option SCCreateRoom -> option verror := SCCreateRoom_validate false.
Definition SCCreateRoom_ValidateAll : option SCCreateRoom -> option verror := SCCreateRoom_validate true.
#[export] Instance SCCreateRoom_Validator : Validator SCCreateRoom :=
  {| Validate := SCCreateRoom_Validate; ValidateAll := SCCreateRoom_ValidateAll |}.

Record CSInviteToJoinRoom := mkCSInviteToJoinRoom { CSInviteToJoinRoom_UserId : Z }.
Definition CSInviteToJoinRoom_validate : bool -> option CSInviteToJoinRoom -> option verror := no_rules "CSInviteToJoinRoom".
Definition CSInviteToJoinRoom_Validate : option CSInviteToJoinRoom -> option verror := CSInviteToJoinRoom_validate false.
Definition CSInviteToJoinRoom_ValidateAll : option CSInviteToJoinRoom -> option verror := CSInviteToJoinRoom_validate true.
#[export] Instance CSInviteToJoinRoom_Validator : Validator CSInviteToJoinRoom :=
  {| Validate := CSInviteToJoinRoom_Validate; ValidateAll := CSInviteToJoinRoom_ValidateAll |}.

Record SCInviteToJoinRoom := mkSCInviteToJoinRoom { SCInviteToJoinRoom_Code : Z }.
Definition SCInviteToJoinRoom_validate : bool -> option SCInviteToJoinRoom -> option verror := no_rules "SCInviteToJoinRoom".
Definition SCInviteToJoinRoom_Validate : option SCInviteToJoinRoom -> option verror := SCInviteToJoinRoom_validate false.
Definition SCInviteToJoinRoom_ValidateAll : option SCInviteToJoinRoom -> option verror := SCInviteToJoinRoom_validate true.
#[export] Instance SCInviteToJoinRoom_Validator : Validator SCInviteToJoinRoom :=
  {| Validate := SCInviteToJoinRoom_Validate; ValidateAll := SCInviteToJoinRoom_ValidateAll |}.

Record CSAgreeToInviteJoinRoom := mkCSAgreeToInviteJoinRoom { CSAgreeToInviteJoinRoom_RoomId : Z }.
Definition CSAgreeToInviteJoinRoom_validate : bool -> option CSAgreeToInviteJoinRoom -> option verror :=
  no_rules "CSAgreeToInviteJoinRoom".
Definition CSAgreeToInviteJoinRoom_Validate : option CSAgreeToInviteJoinRoom -> option verror :=
  CSAgreeToInviteJoinRoom_validate false.
Definition CSAgreeToInviteJoinRoom_ValidateAll : option CSAgreeToInviteJoinRoom -> option verror :=
  CSAgreeToInviteJoinRoom_validate true.
#[export] Instance CSAgreeToInviteJoinRoom_Validator : Validator CSAgreeToInviteJoinRoom :=
  {| Validate := CSAgreeToInviteJoinRoom_Validate; ValidateAll := CSAgreeToInviteJoinRoom_ValidateAll |}.

Record SCAgreeToInviteJoinRoom := mkSCAgreeToInviteJoinRoom { SCAgreeToInviteJoinRoom_Code : Z }.
Definition SCAgreeToInviteJoinRoom_validate : bool -> option SCAgreeToInviteJoinRoom -> option verror :=
  no_rules "SCAgreeToInviteJoinRoom".
Definition SCAgreeToInviteJoinRoom_Validate : option SCAgreeToInviteJoinRoom -> option verror :=
  SCAgreeToInviteJoinRoom_validate false.
Definition SCAgreeToInviteJoinRoom_ValidateAll : option SCAgreeToInviteJoinRoom -> option verror :=
  SCAgreeToInviteJoinRoom_validate true.
#[export] Instance SCAgreeToInviteJoinRoom_Validator : Validator SCAgreeToInviteJoinRoom :=
  {| Validate := SCAgreeToInviteJoinRoom_Validate; ValidateAll := SCAgreeToInviteJoinRoom_ValidateAll |}.

Record CSRequestToJoinRoom := mkCSRequestToJoinRoom { CSRequestToJoinRoom_RoomId : Z }.
Definition CSRequestToJoinRoom_validate : bool -> option CSRequestToJoinRoom -> option verror :=
  no_rules "CSRequestToJoinRoom".
Definition CSRequestToJoinRoom_Validate : option CSRequestToJoinRoom -> option verror := CSRequestToJoinRoom_validate false.
Definition CSRequestToJoinRoom_ValidateAll : option CSRequestToJoinRoom -> option verror :=
  CSRequestToJoinRoom_validate true.
#[export] Instance CSRequestToJoinRoom_Validator : Validator CSRequestToJoinRoom :=
  {| Validate := CSRequestToJoinRoom_Validate; ValidateAll := CSRequestToJoinRoom_ValidateAll |}.

Record SCRequestToJoinRoom := mkSCRequestToJoinRoom { SCRequestToJoinRoom_Code : Z }.
Definition SCRequestToJoinRoom_validate : bool -> option SCRequestToJoinRoom -> option verror :=
  no_rules "SCRequestToJoinRoom".
Definition SCRequestToJoinRoom_Validate : option SCRequestToJoinRoom -> option verror := SCRequestToJoinRoom_validate false.
Definition SCRequestToJoinRoom_ValidateAll : option SCRequestToJoinRoom -> option verror :=
  SCRequestToJoinRoom_validate true.
#[export] Instance SCRequestToJoinRoom_Validator : Validator SCRequestToJoinRoom :=
  {| Validate := SCRequestToJoinRoom_Validate; ValidateAll := SCRequestToJoinRoom_ValidateAll |}.

Record CSApproveRequestToJoinRoom := mkCSApproveRequestToJoinRoom { CSApproveRequestToJoinRoom_UserId : Z }.
Definition CSApproveRequestToJoinRoom_validate : bool -> option CSApproveRequestToJoinRoom -> option verror :=
  no_rules "CSApproveRequestToJoinRoom".
Definition CSApproveRequestToJoinRoom_Validate : option CSApproveRequestToJoinRoom -> option verror :=
  CSApproveRequestToJoinRoom_validate false.
Definition CSApproveRequestToJoinRoom_ValidateAll : option CSApproveRequestToJoinRoom -> option verror :=
  CSApproveRequestToJoinRoom_validate true.
#[export] Instance CSApproveRequestToJoinRoom_Validator : Validator CSApproveRequestToJoinRoom :=
  {| Validate := CSApproveRequestToJoinRoom_Validate; ValidateAll := CSApproveRequestToJoinRoom_ValidateAll |}.

Record SCApproveRequestToJoinRoom := mkSCApproveRequestToJoinRoom { SCApproveRequestToJoinRoom_Code : Z }.
Definition SCApproveRequestToJoinRoom_validate : bool -> option SCApproveRequestToJoinRoom -> option verror :=
  no_rules "SCApproveRequestToJoinRoom".
Definition SCApproveRequestToJoinRoom_Validate : option SCApproveRequestToJoinRoom -> option verror :=
  SCApproveRequestToJoinRoom_validate false.
Definition SCApproveRequestToJoinRoom_ValidateAll : option SCApproveRequestToJoinRoom -> option verror :=
  SCApproveRequestToJoinRoom_validate true.
#[export] Instance SCApproveRequestToJoinRoom_Validator : Validator SCApproveRequestToJoinRoom :=
  {| Validate := SCApproveRequestToJoinRoom_Validate; ValidateAll := SCApproveRequestToJoinRoom_ValidateAll |}.

Record CSKickUserFromRoom := mkCSKickUserFromRoom { CSKickUserFromRoom_UserId : Z }.
Definition CSKickUserFromRoom_validate : bool -> option CSKickUserFromRoom -> option verror := no_rules "CSKickUserFromRoom".
Definition CSKickUserFromRoom_Validate : option CSKickUserFromRoom -> option verror := CSKickUserFromRoom_validate false.
Definition CSKickUserFromRoom_ValidateAll : option CSKickUserFromRoom -> option verror := CSKickUserFromRoom_validate true.
#[export] Instance CSKickUserFromRoom_Validator : Validator CSKickUserFromRoom :=
  {| Validate := CSKickUserFromRoom_Validate; ValidateAll := CSKickUserFromRoom_ValidateAll |}.

Record SCKickUserFromRoom := mkSCKickUserFromRoom { SCKickUserFromRoom_Code : Z }.
Definition SCKickUserFromRoom_validate : bool -> option SCKickUserFromRoom -> option verror := no_rules "SCKickUserFromRoom".
Definition SCKickUserFromRoom_Validate : option SCKickUserFromRoom -> option verror := SCKickUserFromRoom_validate false.
Definition SCKickUserFromRoom_ValidateAll : option SCKickUserFromRoom -> option verror := SCKickUserFromRoom_validate true.
#[export] Instance SCKickUserFromRoom_Validator : Validator SCKickUserFromRoom :=
  {| Validate := SCKickUserFromRoom_Validate; ValidateAll := SCKickUserFromRoom_ValidateAll |}.

Record CSLeaveRoom := mkCSLeaveRoom { CSLeaveRoom_RoomId : Z }.
Definition CSLeaveRoom_validate : bool -> option CSLeaveRoom -> option verror := no_rules "CSLeaveRoom".
Definition CSLeaveRoom_Validate : option CSLeaveRoom -> option verror := CSLeaveRoom_validate false.
Definition CSLeaveRoom_ValidateAll : option CSLeaveRoom -> option verror := CSLeaveRoom_validate true.
#[export] Instance CSLeaveRoom_Validator : Validator CSLeaveRoom :=
  {| Validate := CSLeaveRoom_Validate; ValidateAll := CSLeaveRoom_ValidateAll |}.

Record SCLeaveRoom := mkSCLeaveRoom { SCLeaveRoom_Code : Z }.
Definition SCLeaveRoom_validate : bool -> option SCLeaveRoom -> option verror := no_rules "SCLeaveRoom".
Definition SCLeaveRoom_Validate : option SCLeaveRoom -> option verror := SCLeaveRoom_validate false.
Definition SCLeaveRoom_ValidateAll : option SCLeaveRoom -> option verror := SCLeaveRoom_validate true.
#[export] Instance SCLeaveRoom_Validator : Validator SCLeaveRoom :=
  {| Validate := SCLeaveRoom_Validate; ValidateAll := SCLeaveRoom_ValidateAll |}.

Record CSCloseRoom := mkCSCloseRoom { CSCloseRoom_RoomId : Z }.
Definition CSCloseRoom_validate : bool -> option CSCloseRoom -> option verror := no_rules "CSCloseRoom".
Definition CSCloseRoom_Validate : option CSCloseRoom -> option verror := CSCloseRoom_validate false.
Definition CSCloseRoom_ValidateAll : option CSCloseRoom -> option verror := CSCloseRoom_validate true.
#[export] Instance CSCloseRoom_Validator : Validator CSCloseRoom :=
  {| Validate := CSCloseRoom_Validate; ValidateAll := CSCloseRoom_ValidateAll |}.

Record SCCloseRoom := mkSCCloseRoom { SCCloseRoom_Code : Z }.
Definition SCCloseRoom_validate : bool -> option SCCloseRoom -> option verror := no_rules "SCCloseRoom".
Definition SCCloseRoom_Validate : option SCCloseRoom -> option verror := SCCloseRoom_validate false.
Definition SCCloseRoom_ValidateAll : option SCCloseRoom -> option verror := SCCloseRoom_validate true.
#[export] Instance SCCloseRoom_Validator : Validator SCCloseRoom :=
  {| Validate := SCCloseRoom_Validate; ValidateAll := SCCloseRoom_ValidateAll |}.

#[export] Instance RoomBasicProto_accepts : Accepts RoomBasicProto.
Proof. accepting RoomBasicProto_validate. Qed.
#[export] Instance RoomMemberProto_accepts : Accepts RoomMemberProto.
Proof. accepting RoomMemberProto_validate. Qed.
#[export] Instance RoomProto_accepts : Accepts RoomProto.
Proof. accepting RoomProto_validate. Qed.
#[export] Instance SCPushJoinedRoom_accepts : Accepts SCPushJoinedRoom.
Proof. accepting SCPushJoinedRoom_validate. Qed.
#[export] Instance SCPushRemovedFromRoom_accepts : Accepts SCPushRemovedFromRoom.
Proof. accepting SCPushRemovedFromRoom_validate. Qed.
#[export] Instance CSRoomList_accepts : Accepts CSRoomList.
Proof. accepting CSRoomList_validate. Qed.
#[export] Instance SCRoomList_accepts : Accepts SCRoomList.
Proof. accepting SCRoomList_validate. Qed.
#[export] Instance CSRoomDetail_accepts : Accepts CSRoomDetail.
Proof. accepting CSRoomDetail_validate. Qed.
#[export] Instance SCRoomDetail_accepts : Accepts SCRoomDetail.
Proof. accepting SCRoomDetail_validate. Qed.
#[export] Instance CSCreateRoom_accepts : Accepts CSCreateRoom.
Proof. accepting CSCreateRoom_validate. Qed.
#[export] Instance SCCreateRoom_accepts : Accepts SCCreateRoom.
Proof. accepting SCCreateRoom_validate. Qed.
#[export] Instance CSInviteToJoinRoom_accepts : Accepts CSInviteToJoinRoom.
Proof. accepting CSInviteToJoinRoom_validate. Qed.
#[export] Instance SCInviteToJoinRoom_accepts : Accepts SCInviteToJoinRoom.
Proof. accepting SCInviteToJoinRoom_validate. Qed.
#[export] Instance CSAgreeToInviteJoinRoom_accepts : Accepts CSAgreeToInviteJoinRoom.
Proof. accepting CSAgreeToInviteJoinRoom_validate. Qed.
#[export] Instance SCAgreeToInviteJoinRoom_accepts : Accepts SCAgreeToInviteJoinRoom.
Proof. accepting SCAgreeToInviteJoinRoom_validate. Qed.
#[export] Instance CSRequestToJoinRoom_accepts : Accepts CSRequestToJoinRoom.
Proof. accepting CSRequestToJoinRoom_validate. Qed.
#[export] Instance SCRequestToJoinRoom_accepts : Accepts SCRequestToJoinRoom.
Proof. accepting SCRequestToJoinRoom_validate. Qed.
#[export] Instance CSApproveRequestToJoinRoom_accepts : Accepts CSApproveRequestToJoinRoom.
Proof. accepting CSApproveRequestToJoinRoom_validate. Qed.
#[export] Instance SCApproveRequestToJoinRoom_accepts : Accepts SCApproveRequestToJoinRoom.
Proof. accepting SCApproveRequestToJoinRoom_validate. Qed.
#[export] Instance CSKickUserFromRoom_accepts : Accepts CSKickUserFromRoom.
Proof. accepting CSKickUserFromRoom_validate. Qed.
#[export] Instance SCKickUserFromRoom_accepts : Accepts SCKickUserFromRoom.
Proof. accepting SCKickUserFromRoom_validate. Qed.
#[export] Instance CSLeaveRoom_accepts : Accepts CSLeaveRoom.
Proof. accepting CSLeaveRoom_validate. Qed.
#[export] Instance SCLeaveRoom_accepts : Accepts SCLeaveRoom.
Proof. accepting SCLeaveRoom_validate. Qed.
#[export] Instance CSCloseRoom_accepts : Accepts CSCloseRoom.
Proof. accepting CSCloseRoom_validate. Qed.
#[export] Instance SCCloseRoom_accepts : Accepts SCCloseRoom.
Proof. accepting SCCloseRoom_validate. Qed.
End rooms.

(** ** Development commands *)


Record CSDevList := mkCSDevList {}.
Definition CSDevList_validate : bool -> option CSDevList -> option verror := no_rules "CSDevList".
Definition CSDevList_Validate : option CSDevList -> option verror := CSDevList_validate false.
Definition CSDevList_ValidateAll : option CSDevList -> option verror := CSDevList_validate true.
#[export] Instance CSDevList_Validator : Validator CSDevList :=
  {| Validate := CSDevList_Validate; ValidateAll := CSDevList_ValidateAll |}.

Record DevCmdArgProto := mkDevCmdArgProto { DevCmdArgProto_Key : string; DevCmdArgProto_Def : string }.
Definition DevCmdArgProto_validate : bool -> option DevCmdArgProto -> option verror := no_rules "DevCmdArgProto".
Definition DevCmdArgProto_Validate : option DevCmdArgProto -> option verror := DevCmdArgProto_validate false.
Definition DevCmdArgProto_ValidateAll : option DevCmdArgProto -> option verror := DevCmdArgProto_validate true.
#[export] Instance DevCmdArgProto_Validator : Validator DevCmdArgProto :=
  {| Validate := DevCmdArgProto_Validate; ValidateAll := DevCmdArgProto_ValidateAll |}.

Record DevCmdProto := mkDevCmdProto {
  DevCmdProto_Mod : string;
  DevCmdProto_Name : string;
  DevCmdProto_Desc : string;
  DevCmdProto_Args : list (option DevCmdArgProto);
}.
Definition DevCmdProto_validate {V : Validator DevCmdArgProto}
    (all : bool) (m : option DevCmdProto) : option verror :=
  match m with
  | None => None
  | Some m => finish "DevCmdProto" (repeated "DevCmdProto" "Args" all 0 (iface_of <$> DevCmdProto_Args m) [])
  end.
Definition DevCmdProto_Validate : option DevCmdProto -> option verror := DevCmdProto_validate false.
Definition DevCmdProto_ValidateAll : option DevCmdProto -> option verror := DevCmdProto_validate true.
#[export] Instance DevCmdProto_Validator : Validator DevCmdProto :=
  {| Validate := DevCmdProto_Validate; ValidateAll := DevCmdProto_ValidateAll |}.

Record SCDevList := mkSCDevList { SCDevList_Code : Z; SCDevList_Commands : list (option DevCmdProto) }.
Definition SCDevList_validate {V : Validator DevCmdProto} (all : bool) (m : option SCDevList) : option verror :=
  match m with
  | None => None
  | Some m => finish "SCDevList" (repeated "SCDevList" "Commands" all 0 (iface_of <$> SCDevList_Commands m) [])
  end.
Definition SCDevList_Validate : option SCDevList -> option verror := SCDevList_validate false.
Definition SCDevList_ValidateAll : option SCDevList -> option verror := SCDevList_validate true.
#[export] Instance SCDevList_Validator : Validator SCDevList :=
  {| Validate := SCDevList_Validate; ValidateAll := SCDevList_ValidateAll |}.

Record CSDevExecute := mkCSDevExecute {
  CSDevExecute_Mod : string;
  CSDevExecute_Cmd : string;
  CSDevExecute_StrArgs : gmap string string;
}.
Definition CSDevExecute_validate : bool -> option CSDevExecute -> option verror := no_rules "CSDevExecute".
Definition CSDevExecute_Validate : option CSDevExecute -> option verror := CSDevExecute_validate false.
Definition CSDevExecute_ValidateAll : option CSDevExecute -> option verror := CSDevExecute_validate true.
#[export] Instance CSDevExecute_Validator : Validator CSDevExecute :=
  {| Validate := CSDevExecute_Validate; ValidateAll := CSDevExecute_ValidateAll |}.

Record SCDevExecute := mkSCDevExecute { SCDevExecute_Code : Z; SCDevExecute_Message : string }.
Definition SCDevExecute_validate : bool -> option SCDevExecute -> option verror := no_rules "SCDevExecute".
Definition SCDevExecute_Validate : option SCDevExecute -> option verror := SCDevExecute_validate false.
Definition SCDevExecute_ValidateAll : option SCDevExecute -> option verror := SCDevExecute_validate true.
#[export] Instance SCDevExecute_Validator : Validator SCDevExecute :=
  {| Validate := SCDevExecute_Validate; ValidateAll := SCDevExecute_ValidateAll |}.

#[export] Instance CSDevList_accepts : Accepts CSDevList.
Proof. accepting CSDevList_validate. Qed.
#[export] Instance DevCmdArgProto_accepts : Accepts DevCmdArgProto.
Proof. accepting DevCmdArgProto_validate. Qed.
#[export] Instance DevCmdProto_accepts : Accepts DevCmdProto.
Proof. accepting DevCmdProto_validate. Qed.
#[export] Instance SCDevList_accepts : Accepts SCDevList.
Proof. accepting SCDevList_validate. Qed.
#[export] Instance CSDevExecute_accepts : Accepts CSDevExecute.
Proof. accepting CSDevExecute_validate. Qed.
#[export] Instance SCDevExecute_accepts : Accepts SCDevExecute.
Proof. accepting SCDevExecute_validate. Qed.

(** ** Users, heroes and storage *)


Record RechargeParamProto := mkRechargeParamProto {
  RechargeParamProto_ProductId : Z;
  RechargeParamProto_Store : string;
  RechargeParamProto_Payload : list Z;
}.
Definition RechargeParamProto_validate : bool -> option RechargeParamProto -> option verror := no_rules "RechargeParamProto".
Definition RechargeParamProto_Validate : option RechargeParamProto -> option verror := RechargeParamProto_validate false.
Definition RechargeParamProto_ValidateAll : option RechargeParamProto -> option verror := RechargeParamProto_validate true.
#[export] Instance RechargeParamProto_Validator : Validator RechargeParamProto :=
  {| Validate := RechargeParamProto_Validate; ValidateAll := RechargeParamProto_ValidateAll |}.

Record CSLogin := mkCSLogin { CSLogin_Reconnect : bool }.
Definition CSLogin_validate : bool -> option CSLogin -> option verror := no_rules "CSLogin".
Definition CSLogin_Validate : option CSLogin -> option verror := CSLogin_validate false.
Definition CSLogin_ValidateAll : option CSLogin -> option verror := CSLogin_validate true.
#[export] Instance CSLogin_Validator : Validator CSLogin :=
  {| Validate := CSLogin_Validate; ValidateAll := CSLogin_ValidateAll |}.

Record CSUpdateName := mkCSUpdateName { CSUpdateName_Name : string }.
Definition CSUpdateName_validate : bool -> option CSUpdateName -> option verror := no_rules "CSUpdateName".
Definition CSUpdateName_Validate : option CSUpdateName -> option verror := CSUpdateName_validate false.
Definition CSUpdateName_ValidateAll : option CSUpdateName -> option verror := CSUpdateName_validate true.
#[export] Instance CSUpdateName_Validator : Validator CSUpdateName :=
  {| Validate := CSUpdateName_Validate; ValidateAll := CSUpdateName_ValidateAll |}.

Record SCUpdateName := mkSCUpdateName { SCUpdateName_Code : Z; SCUpdateName_IsIllegal : bool }.
Definition SCUpdateName_validate : bool -> option SCUpdateName -> option verror := no_rules "SCUpdateName".
Definition SCUpdateName_Validate : option SCUpdateName -> option verror := SCUpdateName_validate false.
Definition SCUpdateName_ValidateAll : option SCUpdateName -> option verror := SCUpdateName_validate true.
#[export] Instance SCUpdateName_Validator : Validator SCUpdateName :=
  {| Validate := SCUpdateName_Validate; ValidateAll := SCUpdateName_ValidateAll |}.

Record CSSetGender := mkCSSetGender { CSSetGender_Gender : Z }.
Definition CSSetGender_validate : bool -> option CSSetGender -> option verror := no_rules "CSSetGender".
Definition CSSetGender_Validate : option CSSetGender -> option verror := CSSetGender_validate false.
Definition CSSetGender_ValidateAll : option CSSetGender -> option verror := CSSetGender_validate true.
#[export] Instance CSSetGender_Validator : Validator CSSetGender :=
  {| Validate := CSSetGender_Validate; ValidateAll := CSSetGender_ValidateAll |}.

Record SCSetGender := mkSCSetGender { SCSetGender_Code : Z }.
Definition SCSetGender_validate : bool -> option SCSetGender -> option verror := no_rules "SCSetGender".
Definition SCSetGender_Validate : option SCSetGender -> option verror := SCSetGender_validate false.
Definition SCSetGender_ValidateAll : option SCSetGender -> option verror := SCSetGender_validate true.
#[export] Instance SCSetGender_Validator : Validator SCSetGender :=
  {| Validate := SCSetGender_Validate; ValidateAll := SCSetGender_ValidateAll |}.

Record CSHeroLevelUpgrade := mkCSHeroLevelUpgrade { CSHeroLevelUpgrade_HeroId : Z }.
Definition CSHeroLevelUpgrade_validate : bool -> option CSHeroLevelUpgrade -> option verror := no_rules "CSHeroLevelUpgrade".
Definition CSHeroLevelUpgrade_Validate : option CSHeroLevelUpgrade -> option verror := CSHeroLevelUpgrade_validate false.
Definition CSHeroLevelUpgrade_ValidateAll : option CSHeroLevelUpgrade -> option verror := CSHeroLevelUpgrade_validate true.
#[export] Instance CSHeroLevelUpgrade_Validator : Validator CSHeroLevelUpgrade :=
  {| Validate := CSHeroLevelUpgrade_Validate; ValidateAll := CSHeroLevelUpgrade_ValidateAll |}.

Record SCPushItemUpdate := mkSCPushItemUpdate { SCPushItemUpdate_Items : gmap Z Z }.
Definition SCPushItemUpdate_validate : bool -> option SCPushItemUpdate -> option verror := no_rules "SCPushItemUpdate".
Definition SCPushItemUpdate_Validate : option SCPushItemUpdate -> option verror := SCPushItemUpdate_validate false.
Definition SCPushItemUpdate_ValidateAll : option SCPushItemUpdate -> option verror := SCPushItemUpdate_validate true.
#[export] Instance SCPushItemUpdate_Validator : Validator SCPushItemUpdate :=
  {| Validate := SCPushItemUpdate_Validate; ValidateAll := SCPushItemUpdate_ValidateAll |}.

Record CSUsePack := mkCSUsePack { CSUsePack_Id : Z }.
Definition CSUsePack_validate : bool -> option CSUsePack -> option verror := no_rules "CSUsePack".
Definition CSUsePack_Validate : option CSUsePack -> option verror := CSUsePack_validate false.
Definition CSUsePack_ValidateAll : option CSUsePack -> option verror := CSUsePack_validate true.
#[export] Instance CSUsePack_Validator : Validator CSUsePack :=
  {| Validate := CSUsePack_Validate; ValidateAll := CSUsePack_ValidateAll |}.

Record SCUsePack := mkSCUsePack { SCUsePack_Code : Z; SCUsePack_Id : Z; SCUsePack_ChangedItems : gmap Z Z }.
Definition SCUsePack_validate : bool -> option SCUsePack -> option verror := no_rules "SCUsePack".
Definition SCUsePack_Validate : option SCUsePack -> option verror := SCUsePack_validate false.
Definition SCUsePack_ValidateAll : option SCUsePack -> option verror := SCUsePack_validate true.
#[export] Instance SCUsePack_Validator : Validator SCUsePack :=
  {| Validate := SCUsePack_Validate; ValidateAll := SCUsePack_ValidateAll |}.

#[export] Instance RechargeParamProto_accepts : Accepts RechargeParamProto.
Proof. accepting RechargeParamProto_validate. Qed.
#[export] Instance CSLogin_accepts : Accepts CSLogin.
Proof. accepting CSLogin_validate. Qed.
#[export] Instance CSUpdateName_accepts : Accepts CSUpdateName.
Proof. accepting CSUpdateName_validate. Qed.
#[export] Instance SCUpdateName_accepts : Accepts SCUpdateName.
Proof. accepting SCUpdateName_validate. Qed.
#[export] Instance CSSetGender_accepts : Accepts CSSetGender.
Proof. accepting CSSetGender_validate. Qed.
#[export] Instance SCSetGender_accepts : Accepts SCSetGender.
Proof. accepting SCSetGender_validate. Qed.
#[export] Instance CSHeroLevelUpgrade_accepts : Accepts CSHeroLevelUpgrade.
Proof. accepting CSHeroLevelUpgrade_validate. Qed.
#[export] Instance SCPushItemUpdate_accepts : Accepts SCPushItemUpdate.
Proof. accepting SCPushItemUpdate_validate. Qed.
#[export] Instance CSUsePack_accepts : Accepts CSUsePack.
Proof. accepting CSUsePack_validate. Qed.
#[export] Instance SCUsePack_accepts : Accepts SCUsePack.
Proof. accepting SCUsePack_validate. Qed.

(** ** The messages of Validate.v and ValidateUser.v *)

#[export] Instance Packet_Validator : Validator Packet :=
  {| Validate := Packet_Validate; ValidateAll := Packet_ValidateAll |}.
#[export] Instance CSHandshake_Validator : Validator CSHandshake :=
  {| Validate := CSHandshake_Validate; ValidateAll := CSHandshake_ValidateAll |}.
#[export] Instance SCHandshake_Validator : Validator SCHandshake :=
  {| Validate := SCHandshake_Validate; ValidateAll := SCHandshake_ValidateAll |}.
#[export] Instance CSHeartBeat_Validator : Validator CSHeartBeat :=
  {| Validate := CSHeartBeat_Validate; ValidateAll := CSHeartBeat_ValidateAll |}.
#[export] Instance SCHeartBeat_Validator : Validator SCHeartBeat :=
  {| Validate := SCHeartBeat_Validate; ValidateAll := SCHeartBeat_ValidateAll |}.
#[export] Instance SCServerUnknownErr_Validator : Validator SCServerUnknownErr :=
  {| Validate := SCServerUnknownErr_Validate; ValidateAll := SCServerUnknownErr_ValidateAll |}.
#[export] Instance SCServerLogout_Validator : Validator SCServerLogout :=
  {| Validate := SCServerLogout_Validate; ValidateAll := SCServerLogout_ValidateAll |}.
#[export] Instance SCPushHeroUnlock_Validator : Validator SCPushHeroUnlock :=
  {| Validate := SCPushHeroUnlock_Validate; ValidateAll := SCPushHeroUnlock_ValidateAll |}.
#[export] Instance SCHeroLevelUpgrade_Validator : Validator SCHeroLevelUpgrade :=
  {| Validate := SCHeroLevelUpgrade_Validate; ValidateAll := SCHeroLevelUpgrade_ValidateAll |}.
#[export] Instance Packet_accepts : Accepts Packet.
Proof. accepting Packet_validate. Qed.
#[export] Instance CSHandshake_accepts : Accepts CSHandshake.
Proof. accepting CSHandshake_validate. Qed.
#[export] Instance SCHandshake_accepts : Accepts SCHandshake.
Proof. accepting SCHandshake_validate. Qed.
#[export] Instance CSHeartBeat_accepts : Accepts CSHeartBeat.
Proof. accepting CSHeartBeat_validate. Qed.
#[export] Instance SCHeartBeat_accepts : Accepts SCHeartBeat.
Proof. accepting SCHeartBeat_validate. Qed.
#[export] Instance SCServerUnknownErr_accepts : Accepts SCServerUnknownErr.
Proof. accepting SCServerUnknownErr_validate. Qed.
#[export] Instance SCServerLogout_accepts : Accepts SCServerLogout.
Proof. accepting SCServerLogout_validate. Qed.
#[export] Instance SCPushHeroUnlock_accepts : Accepts SCPushHeroUnlock.
Proof. accepting SCPushHeroUnlock_validate. Qed.
#[export] Instance SCHeroLevelUpgrade_accepts : Accepts SCHeroLevelUpgrade.
Proof. accepting SCHeroLevelUpgrade_validate. Qed.

Section player_data.
Context (o : orders).

#[local] Existing Instances storage_Validator hero_list_Validator user_Validator.

Definition SCLogin_Validator : Validator SCLogin := {| Validate := SCLogin_Validate o; ValidateAll := SCLogin_ValidateAll o |}.
Definition SCPushSyncUser_Validator : Validator SCPushSyncUser :=
  {| Validate := SCPushSyncUser_Validate o; ValidateAll := SCPushSyncUser_ValidateAll o |}.

#[export] Instance storage_accepts : Accepts UserStorageProto (V := storage_Validator o).
Proof. accepting (UserStorageProto_validate o). Qed.
#[export] Instance hero_list_accepts : Accepts UserHeroListProto (V := hero_list_Validator o).
Proof. accepting (UserHeroListProto_validate o). Qed.
#[export] Instance user_accepts : Accepts UserProto (V := user_Validator o).
Proof. accepting (UserProto_validate o). Qed.
#[export] Instance SCLogin_accepts : Accepts SCLogin (V := SCLogin_Validator).
Proof. accepting (SCLogin_validate o). Qed.
#[export] Instance SCPushSyncUser_accepts : Accepts SCPushSyncUser (V := SCPushSyncUser_Validator).
Proof. accepting (SCPushSyncUser_validate o). Qed.
End player_data.

(** ** The whole protocol *)

(** A validator of some message type. *)
Definition any_validator : Type := { A : Type & Validator A }.
Definition pack (A : Type) (V : Validator A) : any_validator := existT A V.

(** The validator never refuses a message, in either mode. *)
Definition never_refuses (v : any_validator) : Prop :=
  forall m : option (projT1 v), @Validate _ (projT2 v) m = None /\ @ValidateAll _ (projT2 v) m = None.

Lemma accepts_never_refuses A (V : Validator A) : Accepts A -> never_refuses (pack A V).
Proof. intros H m. apply accepts. Qed.

(** Proves it of a list of validators by their [Accepts] instances. *)
Ltac never_refuse := repeat (apply Forall_cons; split; [apply accepts_never_refuses; apply _|]); apply Forall_nil; exact I.

(** Every message of src/gen/api/client. *)
Definition client_validators (o : orders) (members : list Z -> list Z) : list any_validator :=
  [pack Packet Packet_Validator; pack CSHandshake CSHandshake_Validator; pack SCHandshake SCHandshake_Validator;
   pack CSHeartBeat CSHeartBeat_Validator; pack SCHeartBeat SCHeartBeat_Validator;
   pack SCServerUnknownErr SCServerUnknownErr_Validator; pack SCServerLogout SCServerLogout_Validator;
   pack UserBasicProto UserBasicProto_Validator; pack ItemPackProto ItemPackProto_Validator;
   pack ItemRecoverableProto ItemRecoverableProto_Validator; pack HeroProto HeroProto_Validator;
   pack UserRoomProto UserRoomProto_Validator; pack SCPushHeroUnlock SCPushHeroUnlock_Validator;
   pack SCHeroLevelUpgrade SCHeroLevelUpgrade_Validator; pack UserStorageProto (storage_Validator o);
   pack UserHeroListProto (hero_list_Validator o); pack UserProto (user_Validator o);
   pack SCLogin (SCLogin_Validator o); pack SCPushSyncUser (SCPushSyncUser_Validator o);
   pack RoomBasicProto RoomBasicProto_Validator; pack RoomMemberProto RoomMemberProto_Validator;
   pack RoomProto (RoomProto_Validator members); pack SCPushJoinedRoom SCPushJoinedRoom_Validator;
   pack SCPushRemovedFromRoom SCPushRemovedFromRoom_Validator; pack CSRoomList CSRoomList_Validator;
   pack SCRoomList SCRoomList_Validator; pack CSRoomDetail CSRoomDetail_Validator;
   pack SCRoomDetail (SCRoomDetail_Validator members); pack CSCreateRoom CSCreateRoom_Validator;
   pack SCCreateRoom (SCCreateRoom_Validator members); pack CSInviteToJoinRoom CSInviteToJoinRoom_Validator;
   pack SCInviteToJoinRoom SCInviteToJoinRoom_Validator; pack CSAgreeToInviteJoinRoom CSAgreeToInviteJoinRoom_Validator;
   pack SCAgreeToInviteJoinRoom SCAgreeToInviteJoinRoom_Validator;
   pack CSRequestToJoinRoom CSRequestToJoinRoom_Validator; pack SCRequestToJoinRoom SCRequestToJoinRoom_Validator;
   pack CSApproveRequestToJoinRoom CSApproveRequestToJoinRoom_Validator;
   pack SCApproveRequestToJoinRoom SCApproveRequestToJoinRoom_Validator;
   pack CSKickUserFromRoom CSKickUserFromRoom_Validator; pack SCKickUserFromRoom SCKickUserFromRoom_Validator;
   pack CSLeaveRoom CSLeaveRoom_Validator; pack SCLeaveRoom SCLeaveRoom_Validator;
   pack CSCloseRoom CSCloseRoom_Validator; pack SCCloseRoom SCCloseRoom_Validator; pack CSDevList CSDevList_Validator;
   pack DevCmdArgProto DevCmdArgProto_Validator; pack DevCmdProto DevCmdProto_Validator;
   pack SCDevList SCDevList_Validator; pack CSDevExecute CSDevExecute_Validator;
   pack SCDevExecute SCDevExecute_Validator; pack RechargeParamProto RechargeParamProto_Validator;
   pack CSLogin CSLogin_Validator; pack CSUpdateName CSUpdateName_Validator; pack SCUpdateName SCUpdateName_Validator;
   pack CSSetGender CSSetGender_Validator; pack SCSetGender SCSetGender_Validator;
   pack CSHeroLevelUpgrade CSHeroLevelUpgrade_Validator; pack SCPushItemUpdate SCPushItemUpdate_Validator;
   pack CSUsePack CSUsePack_Validator; pack SCUsePack SCUsePack_Validator].

Lemma client_never_refuses o members : Forall never_refuses (client_validators o members).
Proof. never_refuse. Qed.
