(* ===== verification/ValidateServer.v ===== *)
(** Validation of the messages of the services: the generated validators of
    src/gen/api/server/ (room/admin/room, account/admin/account and notice,
    account/interface, player/admin/gamedata, user, storage and recharge,
    player/service/user), on the interfaces and statements of Validate.v; those
    of the gateway's own services are in Validate.v.  Then all generated
    validators together.  Packages repeat message names: here a message carries
    its package as a prefix. *)
From S2P Require Import Prelude Context Messages Validate ValidateUser ValidateClient.

(** ** Room administration: room/admin/room *)


Record RoomAdmin_GetByIdRequest := mkRoomAdmin_GetByIdRequest { RoomAdmin_GetByIdRequest_Id : Z }.
Definition RoomAdmin_GetByIdRequest_validate : bool -> option RoomAdmin_GetByIdRequest -> option verror :=
  no_rules "GetByIdRequest".
Definition RoomAdmin_GetByIdRequest_Validate : option RoomAdmin_GetByIdRequest -> option verror :=
  RoomAdmin_GetByIdRequest_validate false.
Definition RoomAdmin_GetByIdRequest_ValidateAll : option RoomAdmin_GetByIdRequest -> option verror :=
  RoomAdmin_GetByIdRequest_validate true.
#[export] Instance RoomAdmin_GetByIdRequest_Validator : Validator RoomAdmin_GetByIdRequest :=
  {| Validate := RoomAdmin_GetByIdRequest_Validate; ValidateAll := RoomAdmin_GetByIdRequest_ValidateAll |}.

Record RoomAdmin_RoomProto := mkRoomAdmin_RoomProto {
  RoomAdmin_RoomProto_Id : Z;
  RoomAdmin_RoomProto_Name : string;
  RoomAdmin_RoomProto_CreatedAt : Z;
}.
Definition RoomAdmin_RoomProto_validate : bool -> option RoomAdmin_RoomProto -> option verror := no_rules "RoomProto".
Definition RoomAdmin_RoomProto_Validate : option RoomAdmin_RoomProto -> option verror := RoomAdmin_RoomProto_validate false.
Definition RoomAdmin_RoomProto_ValidateAll : option RoomAdmin_RoomProto -> option verror :=
  RoomAdmin_RoomProto_validate true.
#[export] Instance RoomAdmin_RoomProto_Validator : Validator RoomAdmin_RoomProto :=
  {| Validate := RoomAdmin_RoomProto_Validate; ValidateAll := RoomAdmin_RoomProto_ValidateAll |}.

Record RoomAdmin_GetByIdResponse := mkRoomAdmin_GetByIdResponse {
  RoomAdmin_GetByIdResponse_Code : Z;
  RoomAdmin_GetByIdResponse_Message : string;
  RoomAdmin_GetByIdResponse_Item : option RoomAdmin_RoomProto;
}.
Definition RoomAdmin_GetByIdResponse_validate {V : Validator RoomAdmin_RoomProto}
    (all : bool) (m : option RoomAdmin_GetByIdResponse) : option verror :=
  match m with
  | None => None
  | Some m =>
      finish "GetByIdResponse" (embedded "GetByIdResponse" "Item" all (iface_of (RoomAdmin_GetByIdResponse_Item m)) [])
  end.
Definition RoomAdmin_GetByIdResponse_Validate : option RoomAdmin_GetByIdResponse -> option verror :=
  RoomAdmin_GetByIdResponse_validate false.
Definition RoomAdmin_GetByIdResponse_ValidateAll : option RoomAdmin_GetByIdResponse -> option verror :=
  RoomAdmin_GetByIdResponse_validate true.
#[export] Instance RoomAdmin_GetByIdResponse_Validator : Validator RoomAdmin_GetByIdResponse :=
  {| Validate := RoomAdmin_GetByIdResponse_Validate; ValidateAll := RoomAdmin_GetByIdResponse_ValidateAll |}.

#[export] Instance RoomAdmin_GetByIdRequest_accepts : Accepts RoomAdmin_GetByIdRequest.
Proof. accepting RoomAdmin_GetByIdRequest_validate. Qed.
#[export] Instance RoomAdmin_RoomProto_accepts : Accepts RoomAdmin_RoomProto.
Proof. accepting RoomAdmin_RoomProto_validate. Qed.
#[export] Instance RoomAdmin_GetByIdResponse_accepts : Accepts RoomAdmin_GetByIdResponse.
Proof. accepting RoomAdmin_GetByIdResponse_validate. Qed.

(** ** Account administration: account/admin/account *)


Record AccountAdmin_GetByIdRequest := mkAccountAdmin_GetByIdRequest { AccountAdmin_GetByIdRequest_Id : Z }.
Definition AccountAdmin_GetByIdRequest_validate : bool -> option AccountAdmin_GetByIdRequest -> option verror :=
  no_rules "GetByIdRequest".
Definition AccountAdmin_GetByIdRequest_Validate : option AccountAdmin_GetByIdRequest -> option verror :=
  AccountAdmin_GetByIdRequest_validate false.
Definition AccountAdmin_GetByIdRequest_ValidateAll : option AccountAdmin_GetByIdRequest -> option verror :=
  AccountAdmin_GetByIdRequest_validate true.
#[export] Instance AccountAdmin_GetByIdRequest_Validator : Validator AccountAdmin_GetByIdRequest :=
  {| Validate := AccountAdmin_GetByIdRequest_Validate; ValidateAll := AccountAdmin_GetByIdRequest_ValidateAll |}.

Record AccountAdmin_AccountProto := mkAccountAdmin_AccountProto {
  AccountAdmin_AccountProto_Id : Z;
  AccountAdmin_AccountProto_IdStr : string;
  AccountAdmin_AccountProto_AppleId : string;
  AccountAdmin_AccountProto_GoogleId : string;
  AccountAdmin_AccountProto_Name : string;
  AccountAdmin_AccountProto_RegisterIp : string;
  AccountAdmin_AccountProto_LastLoginIp : string;
  AccountAdmin_AccountProto_Channel : Z;
  AccountAdmin_AccountProto_CreatedAt : Z;
}.
Definition AccountAdmin_AccountProto_validate : bool -> option AccountAdmin_AccountProto -> option verror :=
  no_rules "AccountProto".
Definition AccountAdmin_AccountProto_Validate : option AccountAdmin_AccountProto -> option verror :=
  AccountAdmin_AccountProto_validate false.
Definition AccountAdmin_AccountProto_ValidateAll : option AccountAdmin_AccountProto -> option verror :=
  AccountAdmin_AccountProto_validate true.
#[export] Instance AccountAdmin_AccountProto_Validator : Validator AccountAdmin_AccountProto :=
  {| Validate := AccountAdmin_AccountProto_Validate; ValidateAll := AccountAdmin_AccountProto_ValidateAll |}.

Record AccountAdmin_GetByIdResponse := mkAccountAdmin_GetByIdResponse {
  AccountAdmin_GetByIdResponse_Code : Z;
  AccountAdmin_GetByIdResponse_Message : string;
  AccountAdmin_GetByIdResponse_Account : option AccountAdmin_AccountProto;
}.
Definition AccountAdmin_GetByIdResponse_validate {V : Validator AccountAdmin_AccountProto}
    (all : bool) (m : option AccountAdmin_GetByIdResponse) : option verror :=
  match m with
  | None => None
  | Some m =>
      finish "GetByIdResponse"
        (embedded "GetByIdResponse" "Account" all (iface_of (AccountAdmin_GetByIdResponse_Account m)) [])
  end.
Definition AccountAdmin_GetByIdResponse_Validate : option AccountAdmin_GetByIdResponse -> option verror :=
  AccountAdmin_GetByIdResponse_validate false.
Definition AccountAdmin_GetByIdResponse_ValidateAll : option AccountAdmin_GetByIdResponse -> option verror :=
  AccountAdmin_GetByIdResponse_validate true.
#[export] Instance AccountAdmin_GetByIdResponse_Validator : Validator AccountAdmin_GetByIdResponse :=
  {| Validate := AccountAdmin_GetByIdResponse_Validate; ValidateAll := AccountAdmin_GetByIdResponse_ValidateAll |}.

Record AccountAdmin_AccountListCondition := mkAccountAdmin_AccountListCondition {
  AccountAdmin_AccountListCondition_Name : string;
  AccountAdmin_AccountListCondition_AppleId : string;
  AccountAdmin_AccountListCondition_GoogleId : string;
}.
Definition AccountAdmin_AccountListCondition_validate : bool -> option AccountAdmin_AccountListCondition -> option verror :=
  no_rules "AccountListCondition".
Definition AccountAdmin_AccountListCondition_Validate : option AccountAdmin_AccountListCondition -> option verror :=
  AccountAdmin_AccountListCondition_validate false.
Definition AccountAdmin_AccountListCondition_ValidateAll : option AccountAdmin_AccountListCondition -> option verror :=
  AccountAdmin_AccountListCondition_validate true.
#[export] Instance AccountAdmin_AccountListCondition_Validator : Validator AccountAdmin_AccountListCondition :=
  {| Validate := AccountAdmin_AccountListCondition_Validate; ValidateAll := AccountAdmin_AccountListCondition_ValidateAll |}.

Record AccountAdmin_AccountListRequest := mkAccountAdmin_AccountListRequest {
  AccountAdmin_AccountListRequest_Page : Z;
  AccountAdmin_AccountListRequest_PageSize : Z;
  AccountAdmin_AccountListRequest_Condition : option AccountAdmin_AccountListCondition;
}.
Definition AccountAdmin_AccountListRequest_validate {V : Validator AccountAdmin_AccountListCondition}
    (all : bool) (m : option AccountAdmin_AccountListRequest) : option verror :=
  match m with
  | None => None
  | Some m =>
      finish "AccountListRequest"
        (embedded "AccountListRequest" "Condition" all (iface_of (AccountAdmin_AccountListRequest_Condition m)) [])
  end.
Definition AccountAdmin_AccountListRequest_Validate : option AccountAdmin_AccountListRequest -> option verror :=
  AccountAdmin_AccountListRequest_validate false.
Definition AccountAdmin_AccountListRequest_ValidateAll : option AccountAdmin_AccountListRequest -> option verror :=
  AccountAdmin_AccountListRequest_validate true.
#[export] Instance AccountAdmin_AccountListRequest_Validator : Validator AccountAdmin_AccountListRequest :=
  {| Validate := AccountAdmin_AccountListRequest_Validate; ValidateAll := AccountAdmin_AccountListRequest_ValidateAll |}.

Record AccountAdmin_AccountListResponse := mkAccountAdmin_AccountListResponse {
  AccountAdmin_AccountListResponse_Code : Z;
  AccountAdmin_AccountListResponse_Message : string;
  AccountAdmin_AccountListResponse_Accounts : list (option AccountAdmin_AccountProto);
  AccountAdmin_AccountListResponse_Total : Z;
}.
Definition AccountAdmin_AccountListResponse_validate {V : Validator AccountAdmin_AccountProto}
    (all : bool) (m : option AccountAdmin_AccountListResponse) : option verror :=
  match m with
  | None => None
  | Some m =>
      finish "AccountListResponse"
        (repeated "AccountListResponse" "Accounts" all 0 (iface_of <$> AccountAdmin_AccountListResponse_Accounts m) [])
  end.
Definition AccountAdmin_AccountListResponse_Validate : option AccountAdmin_AccountListResponse -> option verror :=
  AccountAdmin_AccountListResponse_validate false.
Definition AccountAdmin_AccountListResponse_ValidateAll : option AccountAdmin_AccountListResponse -> option verror :=
  AccountAdmin_AccountListResponse_validate true.
#[export] Instance AccountAdmin_AccountListResponse_Validator : Validator AccountAdmin_AccountListResponse :=
  {| Validate := AccountAdmin_AccountListResponse_Validate; ValidateAll := AccountAdmin_AccountListResponse_ValidateAll |}.

#[export] Instance AccountAdmin_GetByIdRequest_accepts : Accepts AccountAdmin_GetByIdRequest.
Proof. accepting AccountAdmin_GetByIdRequest_validate. Qed.
#[export] Instance AccountAdmin_AccountProto_accepts : Accepts AccountAdmin_AccountProto.
Proof. accepting AccountAdmin_AccountProto_validate. Qed.
#[export] Instance AccountAdmin_GetByIdResponse_accepts : Accepts AccountAdmin_GetByIdResponse.
Proof. accepting AccountAdmin_GetByIdResponse_validate. Qed.
#[export] Instance AccountAdmin_AccountListCondition_accepts : Accepts AccountAdmin_AccountListCondition.
Proof. accepting AccountAdmin_AccountListCondition_validate. Qed.
#[export] Instance AccountAdmin_AccountListRequest_accepts : Accepts AccountAdmin_AccountListRequest.
Proof. accepting AccountAdmin_AccountListRequest_validate. Qed.
#[export] Instance AccountAdmin_AccountListResponse_accepts : Accepts AccountAdmin_AccountListResponse.
Proof. accepting AccountAdmin_AccountListResponse_validate. Qed.

(** ** Notice administration: account/admin/notice *)


Record NoticeAdmin_GetNoticeListRequest := mkNoticeAdmin_GetNoticeListRequest {
  NoticeAdmin_GetNoticeListRequest_Page : Z;
  NoticeAdmin_GetNoticeListRequest_PageSize : Z;
}.
Definition NoticeAdmin_GetNoticeListRequest_validate : bool -> option NoticeAdmin_GetNoticeListRequest -> option verror :=
  no_rules "GetNoticeListRequest".
Definition NoticeAdmin_GetNoticeListRequest_Validate : option NoticeAdmin_GetNoticeListRequest -> option verror :=
  NoticeAdmin_GetNoticeListRequest_validate false.
Definition NoticeAdmin_GetNoticeListRequest_ValidateAll : option NoticeAdmin_GetNoticeListRequest -> option verror :=
  NoticeAdmin_GetNoticeListRequest_validate true.
#[export] Instance NoticeAdmin_GetNoticeListRequest_Validator : Validator NoticeAdmin_GetNoticeListRequest :=
  {| Validate := NoticeAdmin_GetNoticeListRequest_Validate; ValidateAll := NoticeAdmin_GetNoticeListRequest_ValidateAll |}.

Record NoticeAdmin_NoticeProto := mkNoticeAdmin_NoticeProto {
  NoticeAdmin_NoticeProto_Id : Z;
  NoticeAdmin_NoticeProto_Title : string;
  NoticeAdmin_NoticeProto_Content : string;
  NoticeAdmin_NoticeProto_Sort : Z;
  NoticeAdmin_NoticeProto_StartTime : Z;
  NoticeAdmin_NoticeProto_EndTime : Z;
  NoticeAdmin_NoticeProto_CreatedTime : Z;
  NoticeAdmin_NoticeProto_UpdatedTime : Z;
}.
Definition NoticeAdmin_NoticeProto_validate : bool -> option NoticeAdmin_NoticeProto -> option verror :=
  no_rules "NoticeProto".
Definition NoticeAdmin_NoticeProto_Validate : option NoticeAdmin_NoticeProto -> option verror :=
  NoticeAdmin_NoticeProto_validate false.
Definition NoticeAdmin_NoticeProto_ValidateAll : option NoticeAdmin_NoticeProto -> option verror :=
  NoticeAdmin_NoticeProto_validate true.
#[export] Instance NoticeAdmin_NoticeProto_Validator : Validator NoticeAdmin_NoticeProto :=
  {| Validate := NoticeAdmin_NoticeProto_Validate; ValidateAll := NoticeAdmin_NoticeProto_ValidateAll |}.

Record NoticeAdmin_GetNoticeListResponse := mkNoticeAdmin_GetNoticeListResponse {
  NoticeAdmin_GetNoticeListResponse_Code : Z;
  NoticeAdmin_GetNoticeListResponse_Message : string;
  NoticeAdmin_GetNoticeListResponse_List : list (option NoticeAdmin_NoticeProto);
  NoticeAdmin_GetNoticeListResponse_Total : Z;
}.
Definition NoticeAdmin_GetNoticeListResponse_validate {V : Validator NoticeAdmin_NoticeProto}
    (all : bool) (m : option NoticeAdmin_GetNoticeListResponse) : option verror :=
  match m with
  | None => None
  | Some m =>
      finish "GetNoticeListResponse"
        (repeated "GetNoticeListResponse" "List" all 0 (iface_of <$> NoticeAdmin_GetNoticeListResponse_List m) [])
  end.
Definition NoticeAdmin_GetNoticeListResponse_Validate : option NoticeAdmin_GetNoticeListResponse -> option verror :=
  NoticeAdmin_GetNoticeListResponse_validate false.
Definition NoticeAdmin_GetNoticeListResponse_ValidateAll : option NoticeAdmin_GetNoticeListResponse -> option verror :=
  NoticeAdmin_GetNoticeListResponse_validate true.
#[export] Instance NoticeAdmin_GetNoticeListResponse_Validator : Validator NoticeAdmin_GetNoticeListResponse :=
  {| Validate := NoticeAdmin_GetNoticeListResponse_Validate; ValidateAll := NoticeAdmin_GetNoticeListResponse_ValidateAll |}.

Record NoticeAdmin_GetNoticeByIdRequest := mkNoticeAdmin_GetNoticeByIdRequest {
  NoticeAdmin_GetNoticeByIdRequest_Id : Z;
}.
Definition NoticeAdmin_GetNoticeByIdRequest_validate : bool -> option NoticeAdmin_GetNoticeByIdRequest -> option verror :=
  no_rules "GetNoticeByIdRequest".
Definition NoticeAdmin_GetNoticeByIdRequest_Validate : option NoticeAdmin_GetNoticeByIdRequest -> option verror :=
  NoticeAdmin_GetNoticeByIdRequest_validate false.
Definition NoticeAdmin_GetNoticeByIdRequest_ValidateAll : option NoticeAdmin_GetNoticeByIdRequest -> option verror :=
  NoticeAdmin_GetNoticeByIdRequest_validate true.
#[export] Instance NoticeAdmin_GetNoticeByIdRequest_Validator : Validator NoticeAdmin_GetNoticeByIdRequest :=
  {| Validate := NoticeAdmin_GetNoticeByIdRequest_Validate; ValidateAll := NoticeAdmin_GetNoticeByIdRequest_ValidateAll |}.

Record NoticeAdmin_GetNoticeByIdResponse := mkNoticeAdmin_GetNoticeByIdResponse {
  NoticeAdmin_GetNoticeByIdResponse_Code : Z;
  NoticeAdmin_GetNoticeByIdResponse_Message : string;
  NoticeAdmin_GetNoticeByIdResponse_Item : option NoticeAdmin_NoticeProto;
}.
Definition NoticeAdmin_GetNoticeByIdResponse_validate {V : Validator NoticeAdmin_NoticeProto}
    (all : bool) (m : option NoticeAdmin_GetNoticeByIdResponse) : option verror :=
  match m with
  | None => None
  | Some m =>
      finish "GetNoticeByIdResponse"
        (embedded "GetNoticeByIdResponse" "Item" all (iface_of (NoticeAdmin_GetNoticeByIdResponse_Item m)) [])
  end.
Definition NoticeAdmin_GetNoticeByIdResponse_Validate : option NoticeAdmin_GetNoticeByIdResponse -> option verror :=
  NoticeAdmin_GetNoticeByIdResponse_validate false.
Definition NoticeAdmin_GetNoticeByIdResponse_ValidateAll : option NoticeAdmin_GetNoticeByIdResponse -> option verror :=
  NoticeAdmin_GetNoticeByIdResponse_validate true.
#[export] Instance NoticeAdmin_GetNoticeByIdResponse_Validator : Validator NoticeAdmin_GetNoticeByIdResponse :=
  {| Validate := NoticeAdmin_GetNoticeByIdResponse_Validate; ValidateAll := NoticeAdmin_GetNoticeByIdResponse_ValidateAll |}.

Record NoticeAdmin_CreateNoticeRequest := mkNoticeAdmin_CreateNoticeRequest {
  NoticeAdmin_CreateNoticeRequest_Item : option NoticeAdmin_NoticeProto;
}.
Definition NoticeAdmin_CreateNoticeRequest_validate {V : Validator NoticeAdmin_NoticeProto}
    (all : bool) (m : option NoticeAdmin_CreateNoticeRequest) : option verror :=
  match m with
  | None => None
  | Some m =>
      finish "CreateNoticeRequest"
        (embedded "CreateNoticeRequest" "Item" all (iface_of (NoticeAdmin_CreateNoticeRequest_Item m)) [])
  end.
Definition NoticeAdmin_CreateNoticeRequest_Validate : option NoticeAdmin_CreateNoticeRequest -> option verror :=
  NoticeAdmin_CreateNoticeRequest_validate false.
Definition NoticeAdmin_CreateNoticeRequest_ValidateAll : option NoticeAdmin_CreateNoticeRequest -> option verror :=
  NoticeAdmin_CreateNoticeRequest_validate true.
#[export] Instance NoticeAdmin_CreateNoticeRequest_Validator : Validator NoticeAdmin_CreateNoticeRequest :=
  {| Validate := NoticeAdmin_CreateNoticeRequest_Validate; ValidateAll := NoticeAdmin_CreateNoticeRequest_ValidateAll |}.

Record NoticeAdmin_CreateNoticeResponse := mkNoticeAdmin_CreateNoticeResponse {
  NoticeAdmin_CreateNoticeResponse_Code : Z;
  NoticeAdmin_CreateNoticeResponse_Message : string;
}.
Definition NoticeAdmin_CreateNoticeResponse_validate : bool -> option NoticeAdmin_CreateNoticeResponse -> option verror :=
  no_rules "CreateNoticeResponse".
Definition NoticeAdmin_CreateNoticeResponse_Validate : option NoticeAdmin_CreateNoticeResponse -> option verror :=
  NoticeAdmin_CreateNoticeResponse_validate false.
Definition NoticeAdmin_CreateNoticeResponse_ValidateAll : option NoticeAdmin_CreateNoticeResponse -> option verror :=
  NoticeAdmin_CreateNoticeResponse_validate true.
#[export] Instance NoticeAdmin_CreateNoticeResponse_Validator : Validator NoticeAdmin_CreateNoticeResponse :=
  {| Validate := NoticeAdmin_CreateNoticeResponse_Validate; ValidateAll := NoticeAdmin_CreateNoticeResponse_ValidateAll |}.

Record NoticeAdmin_UpdateNoticeRequest := mkNoticeAdmin_UpdateNoticeRequest {
  NoticeAdmin_UpdateNoticeRequest_Item : option NoticeAdmin_NoticeProto;
}.
Definition NoticeAdmin_UpdateNoticeRequest_validate {V : Validator NoticeAdmin_NoticeProto}
    (all : bool) (m : option NoticeAdmin_UpdateNoticeRequest) : option verror :=
  match m with
  | None => None
  | Some m =>
      finish "UpdateNoticeRequest"
        (embedded "UpdateNoticeRequest" "Item" all (iface_of (NoticeAdmin_UpdateNoticeRequest_Item m)) [])
  end.
Definition NoticeAdmin_UpdateNoticeRequest_Validate : option NoticeAdmin_UpdateNoticeRequest -> option verror :=
  NoticeAdmin_UpdateNoticeRequest_validate false.
Definition NoticeAdmin_UpdateNoticeRequest_ValidateAll : option NoticeAdmin_UpdateNoticeRequest -> option verror :=
  NoticeAdmin_UpdateNoticeRequest_validate true.
#[export] Instance NoticeAdmin_UpdateNoticeRequest_Validator : Validator NoticeAdmin_UpdateNoticeRequest :=
  {| Validate := NoticeAdmin_UpdateNoticeRequest_Validate; ValidateAll := NoticeAdmin_UpdateNoticeRequest_ValidateAll |}.

Record NoticeAdmin_UpdateNoticeResponse := mkNoticeAdmin_UpdateNoticeResponse {
  NoticeAdmin_UpdateNoticeResponse_Code : Z;
  NoticeAdmin_UpdateNoticeResponse_Message : string;
}.
Definition NoticeAdmin_UpdateNoticeResponse_validate : bool -> option NoticeAdmin_UpdateNoticeResponse -> option verror :=
  no_rules "UpdateNoticeResponse".
Definition NoticeAdmin_UpdateNoticeResponse_Validate : option NoticeAdmin_UpdateNoticeResponse -> option verror :=
  NoticeAdmin_UpdateNoticeResponse_validate false.
Definition NoticeAdmin_UpdateNoticeResponse_ValidateAll : option NoticeAdmin_UpdateNoticeResponse -> option verror :=
  NoticeAdmin_UpdateNoticeResponse_validate true.
#[export] Instance NoticeAdmin_UpdateNoticeResponse_Validator : Validator NoticeAdmin_UpdateNoticeResponse :=
  {| Validate := NoticeAdmin_UpdateNoticeResponse_Validate; ValidateAll := NoticeAdmin_UpdateNoticeResponse_ValidateAll |}.

Record NoticeAdmin_DeleteNoticeRequest := mkNoticeAdmin_DeleteNoticeRequest {
  NoticeAdmin_DeleteNoticeRequest_Id : Z;
}.
Definition NoticeAdmin_DeleteNoticeRequest_validate : bool -> option NoticeAdmin_DeleteNoticeRequest -> option verror :=
  no_rules "DeleteNoticeRequest".
Definition NoticeAdmin_DeleteNoticeRequest_Validate : option NoticeAdmin_DeleteNoticeRequest -> option verror :=
  NoticeAdmin_DeleteNoticeRequest_validate false.
Definition NoticeAdmin_DeleteNoticeRequest_ValidateAll : option NoticeAdmin_DeleteNoticeRequest -> option verror :=
  NoticeAdmin_DeleteNoticeRequest_validate true.
#[export] Instance NoticeAdmin_DeleteNoticeRequest_Validator : Validator NoticeAdmin_DeleteNoticeRequest :=
  {| Validate := NoticeAdmin_DeleteNoticeRequest_Validate; ValidateAll := NoticeAdmin_DeleteNoticeRequest_ValidateAll |}.

Record NoticeAdmin_DeleteNoticeResponse := mkNoticeAdmin_DeleteNoticeResponse {
  NoticeAdmin_DeleteNoticeResponse_Code : Z;
  NoticeAdmin_DeleteNoticeResponse_Message : string;
}.
Definition NoticeAdmin_DeleteNoticeResponse_validate : bool -> option NoticeAdmin_DeleteNoticeResponse -> option verror :=
  no_rules "DeleteNoticeResponse".
Definition NoticeAdmin_DeleteNoticeResponse_Validate : option NoticeAdmin_DeleteNoticeResponse -> option verror :=
  NoticeAdmin_DeleteNoticeResponse_validate false.
Definition NoticeAdmin_DeleteNoticeResponse_ValidateAll : option NoticeAdmin_DeleteNoticeResponse -> option verror :=
  NoticeAdmin_DeleteNoticeResponse_validate true.
#[export] Instance NoticeAdmin_DeleteNoticeResponse_Validator : Validator NoticeAdmin_DeleteNoticeResponse :=
  {| Validate := NoticeAdmin_DeleteNoticeResponse_Validate; ValidateAll := NoticeAdmin_DeleteNoticeResponse_ValidateAll |}.

#[export] Instance NoticeAdmin_GetNoticeListRequest_accepts : Accepts NoticeAdmin_GetNoticeListRequest.
Proof. accepting NoticeAdmin_GetNoticeListRequest_validate. Qed.
#[export] Instance NoticeAdmin_NoticeProto_accepts : Accepts NoticeAdmin_NoticeProto.
Proof. accepting NoticeAdmin_NoticeProto_validate. Qed.
#[export] Instance NoticeAdmin_GetNoticeListResponse_accepts : Accepts NoticeAdmin_GetNoticeListResponse.
Proof. accepting NoticeAdmin_GetNoticeListResponse_validate. Qed.
#[export] Instance NoticeAdmin_GetNoticeByIdRequest_accepts : Accepts NoticeAdmin_GetNoticeByIdRequest.
Proof. accepting NoticeAdmin_GetNoticeByIdRequest_validate. Qed.
#[export] Instance NoticeAdmin_GetNoticeByIdResponse_accepts : Accepts NoticeAdmin_GetNoticeByIdResponse.
Proof. accepting NoticeAdmin_GetNoticeByIdResponse_validate. Qed.
#[export] Instance NoticeAdmin_CreateNoticeRequest_accepts : Accepts NoticeAdmin_CreateNoticeRequest.
Proof. accepting NoticeAdmin_CreateNoticeRequest_validate. Qed.
#[export] Instance NoticeAdmin_CreateNoticeResponse_accepts : Accepts NoticeAdmin_CreateNoticeResponse.
Proof. accepting NoticeAdmin_CreateNoticeResponse_validate. Qed.
#[export] Instance NoticeAdmin_UpdateNoticeRequest_accepts : Accepts NoticeAdmin_UpdateNoticeRequest.
Proof. accepting NoticeAdmin_UpdateNoticeRequest_validate. Qed.
#[export] Instance NoticeAdmin_UpdateNoticeResponse_accepts : Accepts NoticeAdmin_UpdateNoticeResponse.
Proof. accepting NoticeAdmin_UpdateNoticeResponse_validate. Qed.
#[export] Instance NoticeAdmin_DeleteNoticeRequest_accepts : Accepts NoticeAdmin_DeleteNoticeRequest.
Proof. accepting NoticeAdmin_DeleteNoticeRequest_validate. Qed.
#[export] Instance NoticeAdmin_DeleteNoticeResponse_accepts : Accepts NoticeAdmin_DeleteNoticeResponse.
Proof. accepting NoticeAdmin_DeleteNoticeResponse_validate. Qed.

(** ** Accounts and notices: account/interface *)


Record Account_NoticeListRequest := mkAccount_NoticeListRequest {}.
Definition Account_NoticeListRequest_validate : bool -> option Account_NoticeListRequest -> option verror :=
  no_rules "NoticeListRequest".
Definition Account_NoticeListRequest_Validate : option Account_NoticeListRequest -> option verror :=
  Account_NoticeListRequest_validate false.
Definition Account_NoticeListRequest_ValidateAll : option Account_NoticeListRequest -> option verror :=
  Account_NoticeListRequest_validate true.
#[export] Instance Account_NoticeListRequest_Validator : Validator Account_NoticeListRequest :=
  {| Validate := Account_NoticeListRequest_Validate; ValidateAll := Account_NoticeListRequest_ValidateAll |}.

Record Account_Notice := mkAccount_Notice { Account_Notice_Title : string; Account_Notice_Content : string }.
Definition Account_Notice_validate : bool -> option Account_Notice -> option verror := no_rules "Notice".
Definition Account_Notice_Validate : option Account_Notice -> option verror := Account_Notice_validate false.
Definition Account_Notice_ValidateAll : option Account_Notice -> option verror := Account_Notice_validate true.
#[export] Instance Account_Notice_Validator : Validator Account_Notice :=
  {| Validate := Account_Notice_Validate; ValidateAll := Account_Notice_ValidateAll |}.

Record Account_NoticeListResponse := mkAccount_NoticeListResponse {
  Account_NoticeListResponse_Code : Z;
  Account_NoticeListResponse_List : list (option Account_Notice);
}.
Definition Account_NoticeListResponse_validate {V : Validator Account_Notice}
    (all : bool) (m : option Account_NoticeListResponse) : option verror :=
  match m with
  | None => None
  | Some m =>
      finish "NoticeListResponse"
        (repeated "NoticeListResponse" "List" all 0 (iface_of <$> Account_NoticeListResponse_List m) [])
  end.
Definition Account_NoticeListResponse_Validate : option Account_NoticeListResponse -> option verror :=
  Account_NoticeListResponse_validate false.
Definition Account_NoticeListResponse_ValidateAll : option Account_NoticeListResponse -> option verror :=
  Account_NoticeListResponse_validate true.
#[export] Instance Account_NoticeListResponse_Validator : Validator Account_NoticeListResponse :=
  {| Validate := Account_NoticeListResponse_Validate; ValidateAll := Account_NoticeListResponse_ValidateAll |}.

Record Account_DevPingRequest := mkAccount_DevPingRequest { Account_DevPingRequest_Message : string }.
Definition Account_DevPingRequest_validate : bool -> option Account_DevPingRequest -> option verror :=
  no_rules "DevPingRequest".
Definition Account_DevPingRequest_Validate : option Account_DevPingRequest -> option verror :=
  Account_DevPingRequest_validate false.
Definition Account_DevPingRequest_ValidateAll : option Account_DevPingRequest -> option verror :=
  Account_DevPingRequest_validate true.
#[export] Instance Account_DevPingRequest_Validator : Validator Account_DevPingRequest :=
  {| Validate := Account_DevPingRequest_Validate; ValidateAll := Account_DevPingRequest_ValidateAll |}.

Record Account_DevPingResponse := mkAccount_DevPingResponse {
  Account_DevPingResponse_Message : string;
  Account_DevPingResponse_Time : string;
}.
Definition Account_DevPingResponse_validate : bool -> option Account_DevPingResponse -> option verror :=
  no_rules "DevPingResponse".
Definition Account_DevPingResponse_Validate : option Account_DevPingResponse -> option verror :=
  Account_DevPingResponse_validate false.
Definition Account_DevPingResponse_ValidateAll : option Account_DevPingResponse -> option verror :=
  Account_DevPingResponse_validate true.
#[export] Instance Account_DevPingResponse_Validator : Validator Account_DevPingResponse :=
  {| Validate := Account_DevPingResponse_Validate; ValidateAll := Account_DevPingResponse_ValidateAll |}.

Record Account_RegisterRequest := mkAccount_RegisterRequest {
  Account_RegisterRequest_Name : string;
  Account_RegisterRequest_Password : string;
  Account_RegisterRequest_Color : string;
}.
Definition Account_RegisterRequest_validate : bool -> option Account_RegisterRequest -> option verror :=
  no_rules "RegisterRequest".
Definition Account_RegisterRequest_Validate : option Account_RegisterRequest -> option verror :=
  Account_RegisterRequest_validate false.
Definition Account_RegisterRequest_ValidateAll : option Account_RegisterRequest -> option verror :=
  Account_RegisterRequest_validate true.
#[export] Instance Account_RegisterRequest_Validator : Validator Account_RegisterRequest :=
  {| Validate := Account_RegisterRequest_Validate; ValidateAll := Account_RegisterRequest_ValidateAll |}.

Record Account_RegisterResponse := mkAccount_RegisterResponse {
  Account_RegisterResponse_Code : Z;
  Account_RegisterResponse_AccountId : string;
  Account_RegisterResponse_Session : string;
  Account_RegisterResponse_SessionTimeout : Z;
  Account_RegisterResponse_Token : string;
  Account_RegisterResponse_TokenTimeout : Z;
}.
Definition Account_RegisterResponse_validate : bool -> option Account_RegisterResponse -> option verror :=
  no_rules "RegisterResponse".
Definition Account_RegisterResponse_Validate : option Account_RegisterResponse -> option verror :=
  Account_RegisterResponse_validate false.
Definition Account_RegisterResponse_ValidateAll : option Account_RegisterResponse -> option verror :=
  Account_RegisterResponse_validate true.
#[export] Instance Account_RegisterResponse_Validator : Validator Account_RegisterResponse :=
  {| Validate := Account_RegisterResponse_Validate; ValidateAll := Account_RegisterResponse_ValidateAll |}.

Record Account_LoginRequest := mkAccount_LoginRequest {
  Account_LoginRequest_Name : string;
  Account_LoginRequest_Password : string;
  Account_LoginRequest_Color : string;
}.
Definition Account_LoginRequest_validate : bool -> option Account_LoginRequest -> option verror := no_rules "LoginRequest".
Definition Account_LoginRequest_Validate : option Account_LoginRequest -> option verror :=
  Account_LoginRequest_validate false.
Definition Account_LoginRequest_ValidateAll : option Account_LoginRequest -> option verror :=
  Account_LoginRequest_validate true.
#[export] Instance Account_LoginRequest_Validator : Validator Account_LoginRequest :=
  {| Validate := Account_LoginRequest_Validate; ValidateAll := Account_LoginRequest_ValidateAll |}.

Record Account_LoginResponse := mkAccount_LoginResponse {
  Account_LoginResponse_Code : Z;
  Account_LoginResponse_AccountId : string;
  Account_LoginResponse_Session : string;
  Account_LoginResponse_SessionTimeout : Z;
  Account_LoginResponse_Token : string;
  Account_LoginResponse_TokenTimeout : Z;
}.
Definition Account_LoginResponse_validate : bool -> option Account_LoginResponse -> option verror :=
  no_rules "LoginResponse".
Definition Account_LoginResponse_Validate : option Account_LoginResponse -> option verror :=
  Account_LoginResponse_validate false.
Definition Account_LoginResponse_ValidateAll : option Account_LoginResponse -> option verror :=
  Account_LoginResponse_validate true.
#[export] Instance Account_LoginResponse_Validator : Validator Account_LoginResponse :=
  {| Validate := Account_LoginResponse_Validate; ValidateAll := Account_LoginResponse_ValidateAll |}.

Record Account_RefreshRequest := mkAccount_RefreshRequest {
  Account_RefreshRequest_AccountId : string;
  Account_RefreshRequest_Session : string;
}.
Definition Account_RefreshRequest_validate : bool -> option Account_RefreshRequest -> option verror :=
  no_rules "RefreshRequest".
Definition Account_RefreshRequest_Validate : option Account_RefreshRequest -> option verror :=
  Account_RefreshRequest_validate false.
Definition Account_RefreshRequest_ValidateAll : option Account_RefreshRequest -> option verror :=
  Account_RefreshRequest_validate true.
#[export] Instance Account_RefreshRequest_Validator : Validator Account_RefreshRequest :=
  {| Validate := Account_RefreshRequest_Validate; ValidateAll := Account_RefreshRequest_ValidateAll |}.

Record Account_RefreshResponse := mkAccount_RefreshResponse {
  Account_RefreshResponse_Code : Z;
  Account_RefreshResponse_Session : string;
  Account_RefreshResponse_SessionTimeout : Z;
}.
Definition Account_RefreshResponse_validate : bool -> option Account_RefreshResponse -> option verror :=
  no_rules "RefreshResponse".
Definition Account_RefreshResponse_Validate : option Account_RefreshResponse -> option verror :=
  Account_RefreshResponse_validate false.
Definition Account_RefreshResponse_ValidateAll : option Account_RefreshResponse -> option verror :=
  Account_RefreshResponse_validate true.
#[export] Instance Account_RefreshResponse_Validator : Validator Account_RefreshResponse :=
  {| Validate := Account_RefreshResponse_Validate; ValidateAll := Account_RefreshResponse_ValidateAll |}.

Record Account_TokenRequest := mkAccount_TokenRequest {
  Account_TokenRequest_AccountId : string;
  Account_TokenRequest_Session : string;
  Account_TokenRequest_Color : string;
}.
Definition Account_TokenRequest_validate : bool -> option Account_TokenRequest -> option verror := no_rules "TokenRequest".
Definition Account_TokenRequest_Validate : option Account_TokenRequest -> option verror :=
  Account_TokenRequest_validate false.
Definition Account_TokenRequest_ValidateAll : option Account_TokenRequest -> option verror :=
  Account_TokenRequest_validate true.
#[export] Instance Account_TokenRequest_Validator : Validator Account_TokenRequest :=
  {| Validate := Account_TokenRequest_Validate; ValidateAll := Account_TokenRequest_ValidateAll |}.

Record Account_TokenResponse := mkAccount_TokenResponse {
  Account_TokenResponse_Code : Z;
  Account_TokenResponse_Token : string;
  Account_TokenResponse_TokenTimeout : Z;
  Account_TokenResponse_Session : string;
  Account_TokenResponse_SessionTimeout : Z;
}.
Definition Account_TokenResponse_validate : bool -> option Account_TokenResponse -> option verror :=
  no_rules "TokenResponse".
Definition Account_TokenResponse_Validate : option Account_TokenResponse -> option verror :=
  Account_TokenResponse_validate false.
Definition Account_TokenResponse_ValidateAll : option Account_TokenResponse -> option verror :=
  Account_TokenResponse_validate true.
#[export] Instance Account_TokenResponse_Validator : Validator Account_TokenResponse :=
  {| Validate := Account_TokenResponse_Validate; ValidateAll := Account_TokenResponse_ValidateAll |}.

Record Account_Session := mkAccount_Session {
  Account_Session_AccountId : Z;
  Account_Session_Timeout : Z;
  Account_Session_Key : string;
}.
Definition Account_Session_validate : bool -> option Account_Session -> option verror := no_rules "Session".
Definition Account_Session_Validate : option Account_Session -> option verror := Account_Session_validate false.
Definition Account_Session_ValidateAll : option Account_Session -> option verror := Account_Session_validate true.
#[export] Instance Account_Session_Validator : Validator Account_Session :=
  {| Validate := Account_Session_Validate; ValidateAll := Account_Session_ValidateAll |}.

Record Account_AppleLoginRequest := mkAccount_AppleLoginRequest {
  Account_AppleLoginRequest_Token : string;
  Account_AppleLoginRequest_AppleId : string;
  Account_AppleLoginRequest_Code : string;
  Account_AppleLoginRequest_Color : string;
}.
Definition Account_AppleLoginRequest_validate : bool -> option Account_AppleLoginRequest -> option verror :=
  no_rules "AppleLoginRequest".
Definition Account_AppleLoginRequest_Validate : option Account_AppleLoginRequest -> option verror :=
  Account_AppleLoginRequest_validate false.
Definition Account_AppleLoginRequest_ValidateAll : option Account_AppleLoginRequest -> option verror :=
  Account_AppleLoginRequest_validate true.
#[export] Instance Account_AppleLoginRequest_Validator : Validator Account_AppleLoginRequest :=
  {| Validate := Account_AppleLoginRequest_Validate; ValidateAll := Account_AppleLoginRequest_ValidateAll |}.

Record Account_LoginInfo := mkAccount_LoginInfo {
  Account_LoginInfo_AccountId : string;
  Account_LoginInfo_Register : bool;
  Account_LoginInfo_Token : string;
  Account_LoginInfo_TokenTimeout : Z;
  Account_LoginInfo_Session : string;
  Account_LoginInfo_SessionTimeout : Z;
  Account_LoginInfo_State : string;
}.
Definition Account_LoginInfo_validate : bool -> option Account_LoginInfo -> option verror := no_rules "LoginInfo".
Definition Account_LoginInfo_Validate : option Account_LoginInfo -> option verror := Account_LoginInfo_validate false.
Definition Account_LoginInfo_ValidateAll : option Account_LoginInfo -> option verror := Account_LoginInfo_validate true.
#[export] Instance Account_LoginInfo_Validator : Validator Account_LoginInfo :=
  {| Validate := Account_LoginInfo_Validate; ValidateAll := Account_LoginInfo_ValidateAll |}.

Record Account_AppleLoginResponse := mkAccount_AppleLoginResponse {
  Account_AppleLoginResponse_Code : Z;
  Account_AppleLoginResponse_Info : option Account_LoginInfo;
}.
Definition Account_AppleLoginResponse_validate {V : Validator Account_LoginInfo}
    (all : bool) (m : option Account_AppleLoginResponse) : option verror :=
  match m with
  | None => None
  | Some m =>
      finish "AppleLoginResponse"
        (embedded "AppleLoginResponse" "Info" all (iface_of (Account_AppleLoginResponse_Info m)) [])
  end.
Definition Account_AppleLoginResponse_Validate : option Account_AppleLoginResponse -> option verror :=
  Account_AppleLoginResponse_validate false.
Definition Account_AppleLoginResponse_ValidateAll : option Account_AppleLoginResponse -> option verror :=
  Account_AppleLoginResponse_validate true.
#[export] Instance Account_AppleLoginResponse_Validator : Validator Account_AppleLoginResponse :=
  {| Validate := Account_AppleLoginResponse_Validate; ValidateAll := Account_AppleLoginResponse_ValidateAll |}.

Record Account_AppleLoginCallbackRequest := mkAccount_AppleLoginCallbackRequest {
  Account_AppleLoginCallbackRequest_Code : string;
  Account_AppleLoginCallbackRequest_IdToken : string;
  Account_AppleLoginCallbackRequest_State : string;
  Account_AppleLoginCallbackRequest_User_ : string;
  Account_AppleLoginCallbackRequest_Error : string;
}.
Definition Account_AppleLoginCallbackRequest_validate : bool -> option Account_AppleLoginCallbackRequest -> option verror :=
  no_rules "AppleLoginCallbackRequest".
Definition Account_AppleLoginCallbackRequest_Validate : option Account_AppleLoginCallbackRequest -> option verror :=
  Account_AppleLoginCallbackRequest_validate false.
Definition Account_AppleLoginCallbackRequest_ValidateAll : option Account_AppleLoginCallbackRequest -> option verror :=
  Account_AppleLoginCallbackRequest_validate true.
#[export] Instance Account_AppleLoginCallbackRequest_Validator : Validator Account_AppleLoginCallbackRequest :=
  {| Validate := Account_AppleLoginCallbackRequest_Validate; ValidateAll := Account_AppleLoginCallbackRequest_ValidateAll |}.

Record Account_AppleLoginCallbackResponse := mkAccount_AppleLoginCallbackResponse {
  Account_AppleLoginCallbackResponse_Code : Z;
}.
Definition Account_AppleLoginCallbackResponse_validate : bool -> option Account_AppleLoginCallbackResponse -> option verror :=
  no_rules "AppleLoginCallbackResponse".
Definition Account_AppleLoginCallbackResponse_Validate : option Account_AppleLoginCallbackResponse -> option verror :=
  Account_AppleLoginCallbackResponse_validate false.
Definition Account_AppleLoginCallbackResponse_ValidateAll : option Account_AppleLoginCallbackResponse -> option verror :=
  Account_AppleLoginCallbackResponse_validate true.
#[export] Instance Account_AppleLoginCallbackResponse_Validator : Validator Account_AppleLoginCallbackResponse :=
  {| Validate := Account_AppleLoginCallbackResponse_Validate;
    ValidateAll := Account_AppleLoginCallbackResponse_ValidateAll |}.

Record Account_GoogleLoginRequest := mkAccount_GoogleLoginRequest {
  Account_GoogleLoginRequest_Token : string;
  Account_GoogleLoginRequest_Color : string;
}.
Definition Account_GoogleLoginRequest_validate : bool -> option Account_GoogleLoginRequest -> option verror :=
  no_rules "GoogleLoginRequest".
Definition Account_GoogleLoginRequest_Validate : option Account_GoogleLoginRequest -> option verror :=
  Account_GoogleLoginRequest_validate false.
Definition Account_GoogleLoginRequest_ValidateAll : option Account_GoogleLoginRequest -> option verror :=
  Account_GoogleLoginRequest_validate true.
#[export] Instance Account_GoogleLoginRequest_Validator : Validator Account_GoogleLoginRequest :=
  {| Validate := Account_GoogleLoginRequest_Validate; ValidateAll := Account_GoogleLoginRequest_ValidateAll |}.

Record Account_GoogleLoginResponse := mkAccount_GoogleLoginResponse {
  Account_GoogleLoginResponse_Code : Z;
  Account_GoogleLoginResponse_Info : option Account_LoginInfo;
}.
Definition Account_GoogleLoginResponse_validate {V : Validator Account_LoginInfo}
    (all : bool) (m : option Account_GoogleLoginResponse) : option verror :=
  match m with
  | None => None
  | Some m =>
      finish "GoogleLoginResponse"
        (embedded "GoogleLoginResponse" "Info" all (iface_of (Account_GoogleLoginResponse_Info m)) [])
  end.
Definition Account_GoogleLoginResponse_Validate : option Account_GoogleLoginResponse -> option verror :=
  Account_GoogleLoginResponse_validate false.
Definition Account_GoogleLoginResponse_ValidateAll : option Account_GoogleLoginResponse -> option verror :=
  Account_GoogleLoginResponse_validate true.
#[export] Instance Account_GoogleLoginResponse_Validator : Validator Account_GoogleLoginResponse :=
  {| Validate := Account_GoogleLoginResponse_Validate; ValidateAll := Account_GoogleLoginResponse_ValidateAll |}.

Record Account_FacebookLoginRequest := mkAccount_FacebookLoginRequest {
  Account_FacebookLoginRequest_Token : string;
  Account_FacebookLoginRequest_Color : string;
}.
Definition Account_FacebookLoginRequest_validate : bool -> option Account_FacebookLoginRequest -> option verror :=
  no_rules "FacebookLoginRequest".
Definition Account_FacebookLoginRequest_Validate : option Account_FacebookLoginRequest -> option verror :=
  Account_FacebookLoginRequest_validate false.
Definition Account_FacebookLoginRequest_ValidateAll : option Account_FacebookLoginRequest -> option verror :=
  Account_FacebookLoginRequest_validate true.
#[export] Instance Account_FacebookLoginRequest_Validator : Validator Account_FacebookLoginRequest :=
  {| Validate := Account_FacebookLoginRequest_Validate; ValidateAll := Account_FacebookLoginRequest_ValidateAll |}.

Record Account_FacebookLoginResponse := mkAccount_FacebookLoginResponse {
  Account_FacebookLoginResponse_Code : Z;
  Account_FacebookLoginResponse_Info : option Account_LoginInfo;
}.
Definition Account_FacebookLoginResponse_validate {V : Validator Account_LoginInfo}
    (all : bool) (m : option Account_FacebookLoginResponse) : option verror :=
  match m with
  | None => None
  | Some m =>
      finish "FacebookLoginResponse"
        (embedded "FacebookLoginResponse" "Info" all (iface_of (Account_FacebookLoginResponse_Info m)) [])
  end.
Definition Account_FacebookLoginResponse_Validate : option Account_FacebookLoginResponse -> option verror :=
  Account_FacebookLoginResponse_validate false.
Definition Account_FacebookLoginResponse_ValidateAll : option Account_FacebookLoginResponse -> option verror :=
  Account_FacebookLoginResponse_validate true.
#[export] Instance Account_FacebookLoginResponse_Validator : Validator Account_FacebookLoginResponse :=
  {| Validate := Account_FacebookLoginResponse_Validate; ValidateAll := Account_FacebookLoginResponse_ValidateAll |}.

Record Account_AppleId := mkAccount_AppleId {
  Account_AppleId_AppleId : string;
  Account_AppleId_State : string;
  Account_AppleId_T : Z;
}.
Definition Account_AppleId_validate : bool -> option Account_AppleId -> option verror := no_rules "AppleId".
Definition Account_AppleId_Validate : option Account_AppleId -> option verror := Account_AppleId_validate false.
Definition Account_AppleId_ValidateAll : option Account_AppleId -> option verror := Account_AppleId_validate true.
#[export] Instance Account_AppleId_Validator : Validator Account_AppleId :=
  {| Validate := Account_AppleId_Validate; ValidateAll := Account_AppleId_ValidateAll |}.

Record Account_AppleLoginCallbackRequest_User_Name := mkAccount_AppleLoginCallbackRequest_User_Name {
  Account_AppleLoginCallbackRequest_User_Name_FirstName : string;
  Account_AppleLoginCallbackRequest_User_Name_LastName : string;
}.
Definition Account_AppleLoginCallbackRequest_User_Name_validate :
  bool -> option Account_AppleLoginCallbackRequest_User_Name -> option verror :=
  no_rules "AppleLoginCallbackRequest_User_Name".
Definition Account_AppleLoginCallbackRequest_User_Name_Validate : option Account_AppleLoginCallbackRequest_User_Name -> option verror :=
  Account_AppleLoginCallbackRequest_User_Name_validate false.
Definition Account_AppleLoginCallbackRequest_User_Name_ValidateAll : option Account_AppleLoginCallbackRequest_User_Name -> option verror :=
  Account_AppleLoginCallbackRequest_User_Name_validate true.
#[export] Instance Account_AppleLoginCallbackRequest_User_Name_Validator : Validator Account_AppleLoginCallbackRequest_User_Name :=
  {| Validate := Account_AppleLoginCallbackRequest_User_Name_Validate;
    ValidateAll := Account_AppleLoginCallbackRequest_User_Name_ValidateAll |}.

Record Account_AppleLoginCallbackRequest_User := mkAccount_AppleLoginCallbackRequest_User {
  Account_AppleLoginCallbackRequest_User_Email : string;
  Account_AppleLoginCallbackRequest_User_Name_ : option Account_AppleLoginCallbackRequest_User_Name;
}.
Definition Account_AppleLoginCallbackRequest_User_validate {V : Validator Account_AppleLoginCallbackRequest_User_Name}
    (all : bool) (m : option Account_AppleLoginCallbackRequest_User) : option verror :=
  match m with
  | None => None
  | Some m =>
      finish "AppleLoginCallbackRequest_User"
        (embedded "AppleLoginCallbackRequest_User" "Name" all (iface_of (Account_AppleLoginCallbackRequest_User_Name_ m)) [])
  end.
Definition Account_AppleLoginCallbackRequest_User_Validate : option Account_AppleLoginCallbackRequest_User -> option verror :=
  Account_AppleLoginCallbackRequest_User_validate false.
Definition Account_AppleLoginCallbackRequest_User_ValidateAll : option Account_AppleLoginCallbackRequest_User -> option verror :=
  Account_AppleLoginCallbackRequest_User_validate true.
#[export] Instance Account_AppleLoginCallbackRequest_User_Validator : Validator Account_AppleLoginCallbackRequest_User :=
  {| Validate := Account_AppleLoginCallbackRequest_User_Validate;
    ValidateAll := Account_AppleLoginCallbackRequest_User_ValidateAll |}.

#[export] Instance Account_NoticeListRequest_accepts : Accepts Account_NoticeListRequest.
Proof. accepting Account_NoticeListRequest_validate. Qed.
#[export] Instance Account_Notice_accepts : Accepts Account_Notice.
Proof. accepting Account_Notice_validate. Qed.
#[export] Instance Account_NoticeListResponse_accepts : Accepts Account_NoticeListResponse.
Proof. accepting Account_NoticeListResponse_validate. Qed.
#[export] Instance Account_DevPingRequest_accepts : Accepts Account_DevPingRequest.
Proof. accepting Account_DevPingRequest_validate. Qed.
#[export] Instance Account_DevPingResponse_accepts : Accepts Account_DevPingResponse.
Proof. accepting Account_DevPingResponse_validate. Qed.
#[export] Instance Account_RegisterRequest_accepts : Accepts Account_RegisterRequest.
Proof. accepting Account_RegisterRequest_validate. Qed.
#[export] Instance Account_RegisterResponse_accepts : Accepts Account_RegisterResponse.
Proof. accepting Account_RegisterResponse_validate. Qed.
#[export] Instance Account_LoginRequest_accepts : Accepts Account_LoginRequest.
Proof. accepting Account_LoginRequest_validate. Qed.
#[export] Instance Account_LoginResponse_accepts : Accepts Account_LoginResponse.
Proof. accepting Account_LoginResponse_validate. Qed.
#[export] Instance Account_RefreshRequest_accepts : Accepts Account_RefreshRequest.
Proof. accepting Account_RefreshRequest_validate. Qed.
#[export] Instance Account_RefreshResponse_accepts : Accepts Account_RefreshResponse.
Proof. accepting Account_RefreshResponse_validate. Qed.
#[export] Instance Account_TokenRequest_accepts : Accepts Account_TokenRequest.
Proof. accepting Account_TokenRequest_validate. Qed.
#[export] Instance Account_TokenResponse_accepts : Accepts Account_TokenResponse.
Proof. accepting Account_TokenResponse_validate. Qed.
#[export] Instance Account_Session_accepts : Accepts Account_Session.
Proof. accepting Account_Session_validate. Qed.
#[export] Instance Account_AppleLoginRequest_accepts : Accepts Account_AppleLoginRequest.
Proof. accepting Account_AppleLoginRequest_validate. Qed.
#[export] Instance Account_LoginInfo_accepts : Accepts Account_LoginInfo.
Proof. accepting Account_LoginInfo_validate. Qed.
#[export] Instance Account_AppleLoginResponse_accepts : Accepts Account_AppleLoginResponse.
Proof. accepting Account_AppleLoginResponse_validate. Qed.
#[export] Instance Account_AppleLoginCallbackRequest_accepts : Accepts Account_AppleLoginCallbackRequest.
Proof. accepting Account_AppleLoginCallbackRequest_validate. Qed.
#[export] Instance Account_AppleLoginCallbackResponse_accepts : Accepts Account_AppleLoginCallbackResponse.
Proof. accepting Account_AppleLoginCallbackResponse_validate. Qed.
#[export] Instance Account_GoogleLoginRequest_accepts : Accepts Account_GoogleLoginRequest.
Proof. accepting Account_GoogleLoginRequest_validate. Qed.
#[export] Instance Account_GoogleLoginResponse_accepts : Accepts Account_GoogleLoginResponse.
Proof. accepting Account_GoogleLoginResponse_validate. Qed.
#[export] Instance Account_FacebookLoginRequest_accepts : Accepts Account_FacebookLoginRequest.
Proof. accepting Account_FacebookLoginRequest_validate. Qed.
#[export] Instance Account_FacebookLoginResponse_accepts : Accepts Account_FacebookLoginResponse.
Proof. accepting Account_FacebookLoginResponse_validate. Qed.
#[export] Instance Account_AppleId_accepts : Accepts Account_AppleId.
Proof. accepting Account_AppleId_validate. Qed.
#[export] Instance Account_AppleLoginCallbackRequest_User_Name_accepts : Accepts Account_AppleLoginCallbackRequest_User_Name.
Proof. accepting Account_AppleLoginCallbackRequest_User_Name_validate. Qed.
#[export] Instance Account_AppleLoginCallbackRequest_User_accepts : Accepts Account_AppleLoginCallbackRequest_User.
Proof. accepting Account_AppleLoginCallbackRequest_User_validate. Qed.

(** ** Game data: player/admin/gamedata *)


Record Gamedata_GetItemListRequest := mkGamedata_GetItemListRequest {}.
Definition Gamedata_GetItemListRequest_validate : bool -> option Gamedata_GetItemListRequest -> option verror :=
  no_rules "GetItemListRequest".
Definition Gamedata_GetItemListRequest_Validate : option Gamedata_GetItemListRequest -> option verror :=
  Gamedata_GetItemListRequest_validate false.
Definition Gamedata_GetItemListRequest_ValidateAll : option Gamedata_GetItemListRequest -> option verror :=
  Gamedata_GetItemListRequest_validate true.
#[export] Instance Gamedata_GetItemListRequest_Validator : Validator Gamedata_GetItemListRequest :=
  {| Validate := Gamedata_GetItemListRequest_Validate; ValidateAll := Gamedata_GetItemListRequest_ValidateAll |}.

Record Gamedata_ItemDataProto := mkGamedata_ItemDataProto {
  Gamedata_ItemDataProto_Id : Z;
  Gamedata_ItemDataProto_Name : string;
  Gamedata_ItemDataProto_Type : Z;
  Gamedata_ItemDataProto_TypeValue : Z;
}.
Definition Gamedata_ItemDataProto_validate : bool -> option Gamedata_ItemDataProto -> option verror :=
  no_rules "ItemDataProto".
Definition Gamedata_ItemDataProto_Validate : option Gamedata_ItemDataProto -> option verror :=
  Gamedata_ItemDataProto_validate false.
Definition Gamedata_ItemDataProto_ValidateAll : option Gamedata_ItemDataProto -> option verror :=
  Gamedata_ItemDataProto_validate true.
#[export] Instance Gamedata_ItemDataProto_Validator : Validator Gamedata_ItemDataProto :=
  {| Validate := Gamedata_ItemDataProto_Validate; ValidateAll := Gamedata_ItemDataProto_ValidateAll |}.

Record Gamedata_GetItemListResponse := mkGamedata_GetItemListResponse {
  Gamedata_GetItemListResponse_Code : Z;
  Gamedata_GetItemListResponse_Message : string;
  Gamedata_GetItemListResponse_Items : list (option Gamedata_ItemDataProto);
}.
Definition Gamedata_GetItemListResponse_validate {V : Validator Gamedata_ItemDataProto}
    (all : bool) (m : option Gamedata_GetItemListResponse) : option verror :=
  match m with
  | None => None
  | Some m =>
      finish "GetItemListResponse"
        (repeated "GetItemListResponse" "Items" all 0 (iface_of <$> Gamedata_GetItemListResponse_Items m) [])
  end.
Definition Gamedata_GetItemListResponse_Validate : option Gamedata_GetItemListResponse -> option verror :=
  Gamedata_GetItemListResponse_validate false.
Definition Gamedata_GetItemListResponse_ValidateAll : option Gamedata_GetItemListResponse -> option verror :=
  Gamedata_GetItemListResponse_validate true.
#[export] Instance Gamedata_GetItemListResponse_Validator : Validator Gamedata_GetItemListResponse :=
  {| Validate := Gamedata_GetItemListResponse_Validate; ValidateAll := Gamedata_GetItemListResponse_ValidateAll |}.

#[export] Instance Gamedata_GetItemListRequest_accepts : Accepts Gamedata_GetItemListRequest.
Proof. accepting Gamedata_GetItemListRequest_validate. Qed.
#[export] Instance Gamedata_ItemDataProto_accepts : Accepts Gamedata_ItemDataProto.
Proof. accepting Gamedata_ItemDataProto_validate. Qed.
#[export] Instance Gamedata_GetItemListResponse_accepts : Accepts Gamedata_GetItemListResponse.
Proof. accepting Gamedata_GetItemListResponse_validate. Qed.

(** ** User administration: player/admin/user *)


Record UserAdmin_GetByIdRequest := mkUserAdmin_GetByIdRequest { UserAdmin_GetByIdRequest_Id : Z }.
Definition UserAdmin_GetByIdRequest_validate : bool -> option UserAdmin_GetByIdRequest -> option verror :=
  no_rules "GetByIdRequest".
Definition UserAdmin_GetByIdRequest_Validate : option UserAdmin_GetByIdRequest -> option verror :=
  UserAdmin_GetByIdRequest_validate false.
Definition UserAdmin_GetByIdRequest_ValidateAll : option UserAdmin_GetByIdRequest -> option verror :=
  UserAdmin_GetByIdRequest_validate true.
#[export] Instance UserAdmin_GetByIdRequest_Validator : Validator UserAdmin_GetByIdRequest :=
  {| Validate := UserAdmin_GetByIdRequest_Validate; ValidateAll := UserAdmin_GetByIdRequest_ValidateAll |}.

Record UserAdmin_UserProto := mkUserAdmin_UserProto {
  UserAdmin_UserProto_Id : Z;
  UserAdmin_UserProto_IdStr : string;
  UserAdmin_UserProto_Account : string;
  UserAdmin_UserProto_Name : string;
  UserAdmin_UserProto_CreatedAt : Z;
  UserAdmin_UserProto_LoginAt : Z;
  UserAdmin_UserProto_LastOnlineAt : Z;
  UserAdmin_UserProto_LastOnlineIp : string;
  UserAdmin_UserProto_Detail : string;
}.
Definition UserAdmin_UserProto_validate : bool -> option UserAdmin_UserProto -> option verror := no_rules "UserProto".
Definition UserAdmin_UserProto_Validate : option UserAdmin_UserProto -> option verror := UserAdmin_UserProto_validate false.
Definition UserAdmin_UserProto_ValidateAll : option UserAdmin_UserProto -> option verror :=
  UserAdmin_UserProto_validate true.
#[export] Instance UserAdmin_UserProto_Validator : Validator UserAdmin_UserProto :=
  {| Validate := UserAdmin_UserProto_Validate; ValidateAll := UserAdmin_UserProto_ValidateAll |}.

Record UserAdmin_GetByIdResponse := mkUserAdmin_GetByIdResponse {
  UserAdmin_GetByIdResponse_Code : Z;
  UserAdmin_GetByIdResponse_Message : string;
  UserAdmin_GetByIdResponse_User : option UserAdmin_UserProto;
}.
Definition UserAdmin_GetByIdResponse_validate {V : Validator UserAdmin_UserProto}
    (all : bool) (m : option UserAdmin_GetByIdResponse) : option verror :=
  match m with
  | None => None
  | Some m =>
      finish "GetByIdResponse" (embedded "GetByIdResponse" "User" all (iface_of (UserAdmin_GetByIdResponse_User m)) [])
  end.
Definition UserAdmin_GetByIdResponse_Validate : option UserAdmin_GetByIdResponse -> option verror :=
  UserAdmin_GetByIdResponse_validate false.
Definition UserAdmin_GetByIdResponse_ValidateAll : option UserAdmin_GetByIdResponse -> option verror :=
  UserAdmin_GetByIdResponse_validate true.
#[export] Instance UserAdmin_GetByIdResponse_Validator : Validator UserAdmin_GetByIdResponse :=
  {| Validate := UserAdmin_GetByIdResponse_Validate; ValidateAll := UserAdmin_GetByIdResponse_ValidateAll |}.

Record UserAdmin_GetUserListCond := mkUserAdmin_GetUserListCond { UserAdmin_GetUserListCond_Name : string }.
Definition UserAdmin_GetUserListCond_validate : bool -> option UserAdmin_GetUserListCond -> option verror :=
  no_rules "GetUserListCond".
Definition UserAdmin_GetUserListCond_Validate : option UserAdmin_GetUserListCond -> option verror :=
  UserAdmin_GetUserListCond_validate false.
Definition UserAdmin_GetUserListCond_ValidateAll : option UserAdmin_GetUserListCond -> option verror :=
  UserAdmin_GetUserListCond_validate true.
#[export] Instance UserAdmin_GetUserListCond_Validator : Validator UserAdmin_GetUserListCond :=
  {| Validate := UserAdmin_GetUserListCond_Validate; ValidateAll := UserAdmin_GetUserListCond_ValidateAll |}.

Record UserAdmin_UserListRequest := mkUserAdmin_UserListRequest {
  UserAdmin_UserListRequest_Page : Z;
  UserAdmin_UserListRequest_PageSize : Z;
  UserAdmin_UserListRequest_Cond : option UserAdmin_GetUserListCond;
}.
Definition UserAdmin_UserListRequest_validate {V : Validator UserAdmin_GetUserListCond}
    (all : bool) (m : option UserAdmin_UserListRequest) : option verror :=
  match m with
  | None => None
  | Some m =>
      finish "UserListRequest" (embedded "UserListRequest" "Cond" all (iface_of (UserAdmin_UserListRequest_Cond m)) [])
  end.
Definition UserAdmin_UserListRequest_Validate : option UserAdmin_UserListRequest -> option verror :=
  UserAdmin_UserListRequest_validate false.
Definition UserAdmin_UserListRequest_ValidateAll : option UserAdmin_UserListRequest -> option verror :=
  UserAdmin_UserListRequest_validate true.
#[export] Instance UserAdmin_UserListRequest_Validator : Validator UserAdmin_UserListRequest :=
  {| Validate := UserAdmin_UserListRequest_Validate; ValidateAll := UserAdmin_UserListRequest_ValidateAll |}.

Record UserAdmin_UserListResponse := mkUserAdmin_UserListResponse {
  UserAdmin_UserListResponse_Code : Z;
  UserAdmin_UserListResponse_Message : string;
  UserAdmin_UserListResponse_Users : list (option UserAdmin_UserProto);
  UserAdmin_UserListResponse_Total : Z;
}.
Definition UserAdmin_UserListResponse_validate {V : Validator UserAdmin_UserProto}
    (all : bool) (m : option UserAdmin_UserListResponse) : option verror :=
  match m with
  | None => None
  | Some m =>
      finish "UserListResponse"
        (repeated "UserListResponse" "Users" all 0 (iface_of <$> UserAdmin_UserListResponse_Users m) [])
  end.
Definition UserAdmin_UserListResponse_Validate : option UserAdmin_UserListResponse -> option verror :=
  UserAdmin_UserListResponse_validate false.
Definition UserAdmin_UserListResponse_ValidateAll : option UserAdmin_UserListResponse -> option verror :=
  UserAdmin_UserListResponse_validate true.
#[export] Instance UserAdmin_UserListResponse_Validator : Validator UserAdmin_UserListResponse :=
  {| Validate := UserAdmin_UserListResponse_Validate; ValidateAll := UserAdmin_UserListResponse_ValidateAll |}.

#[export] Instance UserAdmin_GetByIdRequest_accepts : Accepts UserAdmin_GetByIdRequest.
Proof. accepting UserAdmin_GetByIdRequest_validate. Qed.
#[export] Instance UserAdmin_UserProto_accepts : Accepts UserAdmin_UserProto.
Proof. accepting UserAdmin_UserProto_validate. Qed.
#[export] Instance UserAdmin_GetByIdResponse_accepts : Accepts UserAdmin_GetByIdResponse.
Proof. accepting UserAdmin_GetByIdResponse_validate. Qed.
#[export] Instance UserAdmin_GetUserListCond_accepts : Accepts UserAdmin_GetUserListCond.
Proof. accepting UserAdmin_GetUserListCond_validate. Qed.
#[export] Instance UserAdmin_UserListRequest_accepts : Accepts UserAdmin_UserListRequest.
Proof. accepting UserAdmin_UserListRequest_validate. Qed.
#[export] Instance UserAdmin_UserListResponse_accepts : Accepts UserAdmin_UserListResponse.
Proof. accepting UserAdmin_UserListResponse_validate. Qed.

(** ** Storage administration: player/admin/storage *)


Record StorageAdmin_AddItemRequest := mkStorageAdmin_AddItemRequest {
  StorageAdmin_AddItemRequest_Id : Z;
  StorageAdmin_AddItemRequest_Items : gmap Z Z;
}.
Definition StorageAdmin_AddItemRequest_validate : bool -> option StorageAdmin_AddItemRequest -> option verror :=
  no_rules "AddItemRequest".
Definition StorageAdmin_AddItemRequest_Validate : option StorageAdmin_AddItemRequest -> option verror :=
  StorageAdmin_AddItemRequest_validate false.
Definition StorageAdmin_AddItemRequest_ValidateAll : option StorageAdmin_AddItemRequest -> option verror :=
  StorageAdmin_AddItemRequest_validate true.
#[export] Instance StorageAdmin_AddItemRequest_Validator : Validator StorageAdmin_AddItemRequest :=
  {| Validate := StorageAdmin_AddItemRequest_Validate; ValidateAll := StorageAdmin_AddItemRequest_ValidateAll |}.

Record StorageAdmin_AddItemResponse := mkStorageAdmin_AddItemResponse {
  StorageAdmin_AddItemResponse_Code : Z;
  StorageAdmin_AddItemResponse_Message : string;
  StorageAdmin_AddItemResponse_Items : gmap Z Z;
}.
Definition StorageAdmin_AddItemResponse_validate : bool -> option StorageAdmin_AddItemResponse -> option verror :=
  no_rules "AddItemResponse".
Definition StorageAdmin_AddItemResponse_Validate : option StorageAdmin_AddItemResponse -> option verror :=
  StorageAdmin_AddItemResponse_validate false.
Definition StorageAdmin_AddItemResponse_ValidateAll : option StorageAdmin_AddItemResponse -> option verror :=
  StorageAdmin_AddItemResponse_validate true.
#[export] Instance StorageAdmin_AddItemResponse_Validator : Validator StorageAdmin_AddItemResponse :=
  {| Validate := StorageAdmin_AddItemResponse_Validate; ValidateAll := StorageAdmin_AddItemResponse_ValidateAll |}.

#[export] Instance StorageAdmin_AddItemRequest_accepts : Accepts StorageAdmin_AddItemRequest.
Proof. accepting StorageAdmin_AddItemRequest_validate. Qed.
#[export] Instance StorageAdmin_AddItemResponse_accepts : Accepts StorageAdmin_AddItemResponse.
Proof. accepting StorageAdmin_AddItemResponse_validate. Qed.

(** ** Recharge orders: player/admin/recharge *)


Record Recharge_GetOrderListCond := mkRecharge_GetOrderListCond {
  Recharge_GetOrderListCond_Store : string;
  Recharge_GetOrderListCond_TransId : string;
  Recharge_GetOrderListCond_Uid : Z;
  Recharge_GetOrderListCond_Ack : Z;
}.
Definition Recharge_GetOrderListCond_validate : bool -> option Recharge_GetOrderListCond -> option verror :=
  no_rules "GetOrderListCond".
Definition Recharge_GetOrderListCond_Validate : option Recharge_GetOrderListCond -> option verror :=
  Recharge_GetOrderListCond_validate false.
Definition Recharge_GetOrderListCond_ValidateAll : option Recharge_GetOrderListCond -> option verror :=
  Recharge_GetOrderListCond_validate true.
#[export] Instance Recharge_GetOrderListCond_Validator : Validator Recharge_GetOrderListCond :=
  {| Validate := Recharge_GetOrderListCond_Validate; ValidateAll := Recharge_GetOrderListCond_ValidateAll |}.

Record Recharge_GetOrderListRequest := mkRecharge_GetOrderListRequest {
  Recharge_GetOrderListRequest_Page : Z;
  Recharge_GetOrderListRequest_PageSize : Z;
  Recharge_GetOrderListRequest_Cond : option Recharge_GetOrderListCond;
}.
Definition Recharge_GetOrderListRequest_validate {V : Validator Recharge_GetOrderListCond}
    (all : bool) (m : option Recharge_GetOrderListRequest) : option verror :=
  match m with
  | None => None
  | Some m =>
      finish "GetOrderListRequest"
        (embedded "GetOrderListRequest" "Cond" all (iface_of (Recharge_GetOrderListRequest_Cond m)) [])
  end.
Definition Recharge_GetOrderListRequest_Validate : option Recharge_GetOrderListRequest -> option verror :=
  Recharge_GetOrderListRequest_validate false.
Definition Recharge_GetOrderListRequest_ValidateAll : option Recharge_GetOrderListRequest -> option verror :=
  Recharge_GetOrderListRequest_validate true.
#[export] Instance Recharge_GetOrderListRequest_Validator : Validator Recharge_GetOrderListRequest :=
  {| Validate := Recharge_GetOrderListRequest_Validate; ValidateAll := Recharge_GetOrderListRequest_ValidateAll |}.

Record Recharge_OrderProto := mkRecharge_OrderProto {
  Recharge_OrderProto_Store : string;
  Recharge_OrderProto_TransId : string;
  Recharge_OrderProto_Ack : Z;
  Recharge_OrderProto_Uid : Z;
  Recharge_OrderProto_ProductId : string;
  Recharge_OrderProto_PurchasedAt : Z;
  Recharge_OrderProto_AckAt : Z;
  Recharge_OrderProto_Detail : string;
}.
Definition Recharge_OrderProto_validate : bool -> option Recharge_OrderProto -> option verror := no_rules "OrderProto".
Definition Recharge_OrderProto_Validate : option Recharge_OrderProto -> option verror := Recharge_OrderProto_validate false.
Definition Recharge_OrderProto_ValidateAll : option Recharge_OrderProto -> option verror :=
  Recharge_OrderProto_validate true.
#[export] Instance Recharge_OrderProto_Validator : Validator Recharge_OrderProto :=
  {| Validate := Recharge_OrderProto_Validate; ValidateAll := Recharge_OrderProto_ValidateAll |}.

Record Recharge_GetOrderListResponse := mkRecharge_GetOrderListResponse {
  Recharge_GetOrderListResponse_Code : Z;
  Recharge_GetOrderListResponse_Message : string;
  Recharge_GetOrderListResponse_Orders : list (option Recharge_OrderProto);
  Recharge_GetOrderListResponse_Total : Z;
}.
Definition Recharge_GetOrderListResponse_validate {V : Validator Recharge_OrderProto}
    (all : bool) (m : option Recharge_GetOrderListResponse) : option verror :=
  match m with
  | None => None
  | Some m =>
      finish "GetOrderListResponse"
        (repeated "GetOrderListResponse" "Orders" all 0 (iface_of <$> Recharge_GetOrderListResponse_Orders m) [])
  end.
Definition Recharge_GetOrderListResponse_Validate : option Recharge_GetOrderListResponse -> option verror :=
  Recharge_GetOrderListResponse_validate false.
Definition Recharge_GetOrderListResponse_ValidateAll : option Recharge_GetOrderListResponse -> option verror :=
  Recharge_GetOrderListResponse_validate true.
#[export] Instance Recharge_GetOrderListResponse_Validator : Validator Recharge_GetOrderListResponse :=
  {| Validate := Recharge_GetOrderListResponse_Validate; ValidateAll := Recharge_GetOrderListResponse_ValidateAll |}.

Record Recharge_GetOrderByIdRequest := mkRecharge_GetOrderByIdRequest {
  Recharge_GetOrderByIdRequest_Store : string;
  Recharge_GetOrderByIdRequest_TransId : string;
}.
Definition Recharge_GetOrderByIdRequest_validate : bool -> option Recharge_GetOrderByIdRequest -> option verror :=
  no_rules "GetOrderByIdRequest".
Definition Recharge_GetOrderByIdRequest_Validate : option Recharge_GetOrderByIdRequest -> option verror :=
  Recharge_GetOrderByIdRequest_validate false.
Definition Recharge_GetOrderByIdRequest_ValidateAll : option Recharge_GetOrderByIdRequest -> option verror :=
  Recharge_GetOrderByIdRequest_validate true.
#[export] Instance Recharge_GetOrderByIdRequest_Validator : Validator Recharge_GetOrderByIdRequest :=
  {| Validate := Recharge_GetOrderByIdRequest_Validate; ValidateAll := Recharge_GetOrderByIdRequest_ValidateAll |}.

Record Recharge_GetOrderByIdResponse := mkRecharge_GetOrderByIdResponse {
  Recharge_GetOrderByIdResponse_Code : Z;
  Recharge_GetOrderByIdResponse_Message : string;
  Recharge_GetOrderByIdResponse_Order : option Recharge_OrderProto;
}.
Definition Recharge_GetOrderByIdResponse_validate {V : Validator Recharge_OrderProto}
    (all : bool) (m : option Recharge_GetOrderByIdResponse) : option verror :=
  match m with
  | None => None
  | Some m =>
      finish "GetOrderByIdResponse"
        (embedded "GetOrderByIdResponse" "Order" all (iface_of (Recharge_GetOrderByIdResponse_Order m)) [])
  end.
Definition Recharge_GetOrderByIdResponse_Validate : option Recharge_GetOrderByIdResponse -> option verror :=
  Recharge_GetOrderByIdResponse_validate false.
Definition Recharge_GetOrderByIdResponse_ValidateAll : option Recharge_GetOrderByIdResponse -> option verror :=
  Recharge_GetOrderByIdResponse_validate true.
#[export] Instance Recharge_GetOrderByIdResponse_Validator : Validator Recharge_GetOrderByIdResponse :=
  {| Validate := Recharge_GetOrderByIdResponse_Validate; ValidateAll := Recharge_GetOrderByIdResponse_ValidateAll |}.

Record Recharge_UpdateOrderAckStateByIdRequest := mkRecharge_UpdateOrderAckStateByIdRequest {
  Recharge_UpdateOrderAckStateByIdRequest_Store : string;
  Recharge_UpdateOrderAckStateByIdRequest_TransId : string;
  Recharge_UpdateOrderAckStateByIdRequest_Ack : Z;
}.
Definition Recharge_UpdateOrderAckStateByIdRequest_validate : bool -> option Recharge_UpdateOrderAckStateByIdRequest -> option verror :=
  no_rules "UpdateOrderAckStateByIdRequest".
Definition Recharge_UpdateOrderAckStateByIdRequest_Validate : option Recharge_UpdateOrderAckStateByIdRequest -> option verror :=
  Recharge_UpdateOrderAckStateByIdRequest_validate false.
Definition Recharge_UpdateOrderAckStateByIdRequest_ValidateAll : option Recharge_UpdateOrderAckStateByIdRequest -> option verror :=
  Recharge_UpdateOrderAckStateByIdRequest_validate true.
#[export] Instance Recharge_UpdateOrderAckStateByIdRequest_Validator : Validator Recharge_UpdateOrderAckStateByIdRequest :=
  {| Validate := Recharge_UpdateOrderAckStateByIdRequest_Validate;
    ValidateAll := Recharge_UpdateOrderAckStateByIdRequest_ValidateAll |}.

Record Recharge_UpdateOrderAckStateByIdResponse := mkRecharge_UpdateOrderAckStateByIdResponse {
  Recharge_UpdateOrderAckStateByIdResponse_Code : Z;
  Recharge_UpdateOrderAckStateByIdResponse_Message : string;
}.
Definition Recharge_UpdateOrderAckStateByIdResponse_validate : bool -> option Recharge_UpdateOrderAckStateByIdResponse -> option verror :=
  no_rules "UpdateOrderAckStateByIdResponse".
Definition Recharge_UpdateOrderAckStateByIdResponse_Validate : option Recharge_UpdateOrderAckStateByIdResponse -> option verror :=
  Recharge_UpdateOrderAckStateByIdResponse_validate false.
Definition Recharge_UpdateOrderAckStateByIdResponse_ValidateAll : option Recharge_UpdateOrderAckStateByIdResponse -> option verror :=
  Recharge_UpdateOrderAckStateByIdResponse_validate true.
#[export] Instance Recharge_UpdateOrderAckStateByIdResponse_Validator : Validator Recharge_UpdateOrderAckStateByIdResponse :=
  {| Validate := Recharge_UpdateOrderAckStateByIdResponse_Validate;
    ValidateAll := Recharge_UpdateOrderAckStateByIdResponse_ValidateAll |}.

#[export] Instance Recharge_GetOrderListCond_accepts : Accepts Recharge_GetOrderListCond.
Proof. accepting Recharge_GetOrderListCond_validate. Qed.
#[export] Instance Recharge_GetOrderListRequest_accepts : Accepts Recharge_GetOrderListRequest.
Proof. accepting Recharge_GetOrderListRequest_validate. Qed.
#[export] Instance Recharge_OrderProto_accepts : Accepts Recharge_OrderProto.
Proof. accepting Recharge_OrderProto_validate. Qed.
#[export] Instance Recharge_GetOrderListResponse_accepts : Accepts Recharge_GetOrderListResponse.
Proof. accepting Recharge_GetOrderListResponse_validate. Qed.
#[export] Instance Recharge_GetOrderByIdRequest_accepts : Accepts Recharge_GetOrderByIdRequest.
Proof. accepting Recharge_GetOrderByIdRequest_validate. Qed.
#[export] Instance Recharge_GetOrderByIdResponse_accepts : Accepts Recharge_GetOrderByIdResponse.
Proof. accepting Recharge_GetOrderByIdResponse_validate. Qed.
#[export] Instance Recharge_UpdateOrderAckStateByIdRequest_accepts : Accepts Recharge_UpdateOrderAckStateByIdRequest.
Proof. accepting Recharge_UpdateOrderAckStateByIdRequest_validate. Qed.
#[export] Instance Recharge_UpdateOrderAckStateByIdResponse_accepts : Accepts Recharge_UpdateOrderAckStateByIdResponse.
Proof. accepting Recharge_UpdateOrderAckStateByIdResponse_validate. Qed.

(** ** Users: player/service/user *)

Section user_service.
(** The order in which the ranges over maps meet the keys. *)
Context (o : list Z -> list Z).

Record UserService_GetByIdRequest := mkUserService_GetByIdRequest { UserService_GetByIdRequest_Id : Z }.
Definition UserService_GetByIdRequest_validate : bool -> option UserService_GetByIdRequest -> option verror :=
  no_rules "GetByIdRequest".
Definition UserService_GetByIdRequest_Validate : option UserService_GetByIdRequest -> option verror :=
  UserService_GetByIdRequest_validate false.
Definition UserService_GetByIdRequest_ValidateAll : option UserService_GetByIdRequest -> option verror :=
  UserService_GetByIdRequest_validate true.
#[export] Instance UserService_GetByIdRequest_Validator : Validator UserService_GetByIdRequest :=
  {| Validate := UserService_GetByIdRequest_Validate; ValidateAll := UserService_GetByIdRequest_ValidateAll |}.

Record UserService_UserBasicCacheProto := mkUserService_UserBasicCacheProto {
  UserService_UserBasicCacheProto_Id : Z;
  UserService_UserBasicCacheProto_IdStr : string;
  UserService_UserBasicCacheProto_Account : string;
  UserService_UserBasicCacheProto_Name : string;
  UserService_UserBasicCacheProto_CreatedTime : Z;
  UserService_UserBasicCacheProto_LoginTime : Z;
  UserService_UserBasicCacheProto_LastOnlineTime : Z;
  UserService_UserBasicCacheProto_LastOnlineIp : string;
  UserService_UserBasicCacheProto_Detail : string;
}.
Definition UserService_UserBasicCacheProto_validate : bool -> option UserService_UserBasicCacheProto -> option verror :=
  no_rules "UserBasicCacheProto".
Definition UserService_UserBasicCacheProto_Validate : option UserService_UserBasicCacheProto -> option verror :=
  UserService_UserBasicCacheProto_validate false.
Definition UserService_UserBasicCacheProto_ValidateAll : option UserService_UserBasicCacheProto -> option verror :=
  UserService_UserBasicCacheProto_validate true.
#[export] Instance UserService_UserBasicCacheProto_Validator : Validator UserService_UserBasicCacheProto :=
  {| Validate := UserService_UserBasicCacheProto_Validate; ValidateAll := UserService_UserBasicCacheProto_ValidateAll |}.

Record UserService_UserCacheProto := mkUserService_UserCacheProto {
  UserService_UserCacheProto_Basic : option UserService_UserBasicCacheProto;
}.
Definition UserService_UserCacheProto_validate {V : Validator UserService_UserBasicCacheProto}
    (all : bool) (m : option UserService_UserCacheProto) : option verror :=
  match m with
  | None => None
  | Some m =>
      finish "UserCacheProto" (embedded "UserCacheProto" "Basic" all (iface_of (UserService_UserCacheProto_Basic m)) [])
  end.
Definition UserService_UserCacheProto_Validate : option UserService_UserCacheProto -> option verror :=
  UserService_UserCacheProto_validate false.
Definition UserService_UserCacheProto_ValidateAll : option UserService_UserCacheProto -> option verror :=
  UserService_UserCacheProto_validate true.
#[export] Instance UserService_UserCacheProto_Validator : Validator UserService_UserCacheProto :=
  {| Validate := UserService_UserCacheProto_Validate; ValidateAll := UserService_UserCacheProto_ValidateAll |}.

Record UserService_GetByIdResponse := mkUserService_GetByIdResponse {
  UserService_GetByIdResponse_Code : Z;
  UserService_GetByIdResponse_Message : string;
  UserService_GetByIdResponse_User : option UserService_UserCacheProto;
}.
Definition UserService_GetByIdResponse_validate {V : Validator UserService_UserCacheProto}
    (all : bool) (m : option UserService_GetByIdResponse) : option verror :=
  match m with
  | None => None
  | Some m =>
      finish "GetByIdResponse" (embedded "GetByIdResponse" "User" all (iface_of (UserService_GetByIdResponse_User m)) [])
  end.
Definition UserService_GetByIdResponse_Validate : option UserService_GetByIdResponse -> option verror :=
  UserService_GetByIdResponse_validate false.
Definition UserService_GetByIdResponse_ValidateAll : option UserService_GetByIdResponse -> option verror :=
  UserService_GetByIdResponse_validate true.
#[export] Instance UserService_GetByIdResponse_Validator : Validator UserService_GetByIdResponse :=
  {| Validate := UserService_GetByIdResponse_Validate; ValidateAll := UserService_GetByIdResponse_ValidateAll |}.

Record UserService_UserListByIdRequest := mkUserService_UserListByIdRequest {
  UserService_UserListByIdRequest_Id : list Z;
}.
Definition UserService_UserListByIdRequest_validate : bool -> option UserService_UserListByIdRequest -> option verror :=
  no_rules "UserListByIdRequest".
Definition UserService_UserListByIdRequest_Validate : option UserService_UserListByIdRequest -> option verror :=
  UserService_UserListByIdRequest_validate false.
Definition UserService_UserListByIdRequest_ValidateAll : option UserService_UserListByIdRequest -> option verror :=
  UserService_UserListByIdRequest_validate true.
#[export] Instance UserService_UserListByIdRequest_Validator : Validator UserService_UserListByIdRequest :=
  {| Validate := UserService_UserListByIdRequest_Validate; ValidateAll := UserService_UserListByIdRequest_ValidateAll |}.

Record UserService_UserListByIdResponse := mkUserService_UserListByIdResponse {
  UserService_UserListByIdResponse_Code : Z;
  UserService_UserListByIdResponse_Message : string;
  UserService_UserListByIdResponse_Users : gmap Z (option UserService_UserCacheProto);
}.
Definition UserService_UserListByIdResponse_validate {V : Validator UserService_UserCacheProto}
    (all : bool) (m : option UserService_UserListByIdResponse) : option verror :=
  match m with
  | None => None
  | Some m =>
      finish "UserListByIdResponse"
        (mapped "UserListByIdResponse" "Users" all (sorted_items o (UserService_UserListByIdResponse_Users m)) [])
  end.
Definition UserService_UserListByIdResponse_Validate : option UserService_UserListByIdResponse -> option verror :=
  UserService_UserListByIdResponse_validate false.
Definition UserService_UserListByIdResponse_ValidateAll : option UserService_UserListByIdResponse -> option verror :=
  UserService_UserListByIdResponse_validate true.
#[export] Instance UserService_UserListByIdResponse_Validator : Validator UserService_UserListByIdResponse :=
  {| Validate := UserService_UserListByIdResponse_Validate; ValidateAll := UserService_UserListByIdResponse_ValidateAll |}.

Record UserService_GetBasicByIdRequest := mkUserService_GetBasicByIdRequest {
  UserService_GetBasicByIdRequest_Id : Z;
}.
Definition UserService_GetBasicByIdRequest_validate : bool -> option UserService_GetBasicByIdRequest -> option verror :=
  no_rules "GetBasicByIdRequest".
Definition UserService_GetBasicByIdRequest_Validate : option UserService_GetBasicByIdRequest -> option verror :=
  UserService_GetBasicByIdRequest_validate false.
Definition UserService_GetBasicByIdRequest_ValidateAll : option UserService_GetBasicByIdRequest -> option verror :=
  UserService_GetBasicByIdRequest_validate true.
#[export] Instance UserService_GetBasicByIdRequest_Validator : Validator UserService_GetBasicByIdRequest :=
  {| Validate := UserService_GetBasicByIdRequest_Validate; ValidateAll := UserService_GetBasicByIdRequest_ValidateAll |}.

Record UserService_GetBasicByIdResponse := mkUserService_GetBasicByIdResponse {
  UserService_GetBasicByIdResponse_Code : Z;
  UserService_GetBasicByIdResponse_Message : string;
  UserService_GetBasicByIdResponse_User : option UserService_UserBasicCacheProto;
}.
Definition UserService_GetBasicByIdResponse_validate {V : Validator UserService_UserBasicCacheProto}
    (all : bool) (m : option UserService_GetBasicByIdResponse) : option verror :=
  match m with
  | None => None
  | Some m =>
      finish "GetBasicByIdResponse"
        (embedded "GetBasicByIdResponse" "User" all (iface_of (UserService_GetBasicByIdResponse_User m)) [])
  end.
Definition UserService_GetBasicByIdResponse_Validate : option UserService_GetBasicByIdResponse -> option verror :=
  UserService_GetBasicByIdResponse_validate false.
Definition UserService_GetBasicByIdResponse_ValidateAll : option UserService_GetBasicByIdResponse -> option verror :=
  UserService_GetBasicByIdResponse_validate true.
#[export] Instance UserService_GetBasicByIdResponse_Validator : Validator UserService_GetBasicByIdResponse :=
  {| Validate := UserService_GetBasicByIdResponse_Validate; ValidateAll := UserService_GetBasicByIdResponse_ValidateAll |}.

Record UserService_GetBasicListByIdRequest := mkUserService_GetBasicListByIdRequest {
  UserService_GetBasicListByIdRequest_Id : list Z;
}.
Definition UserService_GetBasicListByIdRequest_validate : bool -> option UserService_GetBasicListByIdRequest -> option verror :=
  no_rules "GetBasicListByIdRequest".
Definition UserService_GetBasicListByIdRequest_Validate : option UserService_GetBasicListByIdRequest -> option verror :=
  UserService_GetBasicListByIdRequest_validate false.
Definition UserService_GetBasicListByIdRequest_ValidateAll : option UserService_GetBasicListByIdRequest -> option verror :=
  UserService_GetBasicListByIdRequest_validate true.
#[export] Instance UserService_GetBasicListByIdRequest_Validator : Validator UserService_GetBasicListByIdRequest :=
  {| Validate := UserService_GetBasicListByIdRequest_Validate;
    ValidateAll := UserService_GetBasicListByIdRequest_ValidateAll |}.

Record UserService_GetBasicListByIdResponse := mkUserService_GetBasicListByIdResponse {
  UserService_GetBasicListByIdResponse_Code : Z;
  UserService_GetBasicListByIdResponse_Message : string;
  UserService_GetBasicListByIdResponse_Users : gmap Z (option UserService_UserBasicCacheProto);
}.
Definition UserService_GetBasicListByIdResponse_validate {V : Validator UserService_UserBasicCacheProto}
    (all : bool) (m : option UserService_GetBasicListByIdResponse) : option verror :=
  match m with
  | None => None
  | Some m =>
      finish "GetBasicListByIdResponse"
        (mapped "GetBasicListByIdResponse" "Users" all (sorted_items o (UserService_GetBasicListByIdResponse_Users m)) [])
  end.
Definition UserService_GetBasicListByIdResponse_Validate : option UserService_GetBasicListByIdResponse -> option verror :=
  UserService_GetBasicListByIdResponse_validate false.
Definition UserService_GetBasicListByIdResponse_ValidateAll : option UserService_GetBasicListByIdResponse -> option verror :=
  UserService_GetBasicListByIdResponse_validate true.
#[export] Instance UserService_GetBasicListByIdResponse_Validator : Validator UserService_GetBasicListByIdResponse :=
  {| Validate := UserService_GetBasicListByIdResponse_Validate;
    ValidateAll := UserService_GetBasicListByIdResponse_ValidateAll |}.

#[export] Instance UserService_GetByIdRequest_accepts : Accepts UserService_GetByIdRequest.
Proof. accepting UserService_GetByIdRequest_validate. Qed.
#[export] Instance UserService_UserBasicCacheProto_accepts : Accepts UserService_UserBasicCacheProto.
Proof. accepting UserService_UserBasicCacheProto_validate. Qed.
#[export] Instance UserService_UserCacheProto_accepts : Accepts UserService_UserCacheProto.
Proof. accepting UserService_UserCacheProto_validate. Qed.
#[export] Instance UserService_GetByIdResponse_accepts : Accepts UserService_GetByIdResponse.
Proof. accepting UserService_GetByIdResponse_validate. Qed.
#[export] Instance UserService_UserListByIdRequest_accepts : Accepts UserService_UserListByIdRequest.
Proof. accepting UserService_UserListByIdRequest_validate. Qed.
#[export] Instance UserService_UserListByIdResponse_accepts : Accepts UserService_UserListByIdResponse.
Proof. accepting UserService_UserListByIdResponse_validate. Qed.
#[export] Instance UserService_GetBasicByIdRequest_accepts : Accepts UserService_GetBasicByIdRequest.
Proof. accepting UserService_GetBasicByIdRequest_validate. Qed.
#[export] Instance UserService_GetBasicByIdResponse_accepts : Accepts UserService_GetBasicByIdResponse.
Proof. accepting UserService_GetBasicByIdResponse_validate. Qed.
#[export] Instance UserService_GetBasicListByIdRequest_accepts : Accepts UserService_GetBasicListByIdRequest.
Proof. accepting UserService_GetBasicListByIdRequest_validate. Qed.
#[export] Instance UserService_GetBasicListByIdResponse_accepts : Accepts UserService_GetBasicListByIdResponse.
Proof. accepting UserService_GetBasicListByIdResponse_validate. Qed.
End user_service.

(** ** The gateway and the tunnels: Validate.v *)

#[export] Instance AuthToken_Validator : Validator AuthToken :=
  {| Validate := AuthToken_Validate; ValidateAll := AuthToken_ValidateAll |}.
#[export] Instance player_Message_Validator : Validator player_Message :=
  {| Validate := player_Message_Validate; ValidateAll := player_Message_ValidateAll |}.
#[export] Instance room_Message_Validator : Validator room_Message :=
  {| Validate := room_Message_Validate; ValidateAll := room_Message_ValidateAll |}.
#[export] Instance PushRequest_Validator : Validator PushRequest :=
  {| Validate := PushRequest_Validate; ValidateAll := PushRequest_ValidateAll |}.
#[export] Instance PushResponse_Validator : Validator PushResponse :=
  {| Validate := PushResponse_Validate; ValidateAll := PushResponse_ValidateAll |}.
#[export] Instance MulticastRequest_Validator : Validator MulticastRequest :=
  {| Validate := MulticastRequest_Validate; ValidateAll := MulticastRequest_ValidateAll |}.
#[export] Instance MulticastResponse_Validator : Validator MulticastResponse :=
  {| Validate := MulticastResponse_Validate; ValidateAll := MulticastResponse_ValidateAll |}.
#[export] Instance BroadcastRequest_Validator : Validator BroadcastRequest :=
  {| Validate := BroadcastRequest_Validate; ValidateAll := BroadcastRequest_ValidateAll |}.
#[export] Instance BroadcastResponse_Validator : Validator BroadcastResponse :=
  {| Validate := BroadcastResponse_Validate; ValidateAll := BroadcastResponse_ValidateAll |}.
#[export] Instance AuthToken_accepts : Accepts AuthToken.
Proof. accepting AuthToken_validate. Qed.
#[export] Instance player_Message_accepts : Accepts player_Message.
Proof. accepting player_Message_validate. Qed.
#[export] Instance room_Message_accepts : Accepts room_Message.
Proof. accepting room_Message_validate. Qed.
#[export] Instance PushBody_accepts : Accepts PushBody.
Proof. accepting PushBody_validate. Qed.
#[export] Instance PushRequest_accepts : Accepts PushRequest.
Proof. accepting PushRequest_validate. Qed.
#[export] Instance PushResponse_accepts : Accepts PushResponse.
Proof. accepting PushResponse_validate. Qed.
#[export] Instance MulticastRequest_accepts : Accepts MulticastRequest.
Proof. accepting MulticastRequest_validate. Qed.
#[export] Instance MulticastResponse_accepts : Accepts MulticastResponse.
Proof. accepting MulticastResponse_validate. Qed.
#[export] Instance BroadcastRequest_accepts : Accepts BroadcastRequest.
Proof. accepting BroadcastRequest_validate. Qed.
#[export] Instance BroadcastResponse_accepts : Accepts BroadcastResponse.
Proof. accepting BroadcastResponse_validate. Qed.

(** ** All validators *)

(** Every message of src/gen/api/server. *)
Definition server_validators (users : list Z -> list Z) : list any_validator :=
  [pack AuthToken AuthToken_Validator; pack player_Message player_Message_Validator;
   pack room_Message room_Message_Validator; pack PushBody PushBody_Validator; pack PushRequest PushRequest_Validator;
   pack PushResponse PushResponse_Validator; pack MulticastRequest MulticastRequest_Validator;
   pack MulticastResponse MulticastResponse_Validator; pack BroadcastRequest BroadcastRequest_Validator;
   pack BroadcastResponse BroadcastResponse_Validator; pack RoomAdmin_GetByIdRequest RoomAdmin_GetByIdRequest_Validator;
   pack RoomAdmin_RoomProto RoomAdmin_RoomProto_Validator;
   pack RoomAdmin_GetByIdResponse RoomAdmin_GetByIdResponse_Validator;
   pack AccountAdmin_GetByIdRequest AccountAdmin_GetByIdRequest_Validator;
   pack AccountAdmin_AccountProto AccountAdmin_AccountProto_Validator;
   pack AccountAdmin_GetByIdResponse AccountAdmin_GetByIdResponse_Validator;
   pack AccountAdmin_AccountListCondition AccountAdmin_AccountListCondition_Validator;
   pack AccountAdmin_AccountListRequest AccountAdmin_AccountListRequest_Validator;
   pack AccountAdmin_AccountListResponse AccountAdmin_AccountListResponse_Validator;
   pack NoticeAdmin_GetNoticeListRequest NoticeAdmin_GetNoticeListRequest_Validator;
   pack NoticeAdmin_NoticeProto NoticeAdmin_NoticeProto_Validator;
   pack NoticeAdmin_GetNoticeListResponse NoticeAdmin_GetNoticeListResponse_Validator;
   pack NoticeAdmin_GetNoticeByIdRequest NoticeAdmin_GetNoticeByIdRequest_Validator;
   pack NoticeAdmin_GetNoticeByIdResponse NoticeAdmin_GetNoticeByIdResponse_Validator;
   pack NoticeAdmin_CreateNoticeRequest NoticeAdmin_CreateNoticeRequest_Validator;
   pack NoticeAdmin_CreateNoticeResponse NoticeAdmin_CreateNoticeResponse_Validator;
   pack NoticeAdmin_UpdateNoticeRequest NoticeAdmin_UpdateNoticeRequest_Validator;
   pack NoticeAdmin_UpdateNoticeResponse NoticeAdmin_UpdateNoticeResponse_Validator;
   pack NoticeAdmin_DeleteNoticeRequest NoticeAdmin_DeleteNoticeRequest_Validator;
   pack NoticeAdmin_DeleteNoticeResponse NoticeAdmin_DeleteNoticeResponse_Validator;
   pack Account_NoticeListRequest Account_NoticeListRequest_Validator; pack Account_Notice Account_Notice_Validator;
   pack Account_NoticeListResponse Account_NoticeListResponse_Validator;
   pack Account_DevPingRequest Account_DevPingRequest_Validator;
   pack Account_DevPingResponse Account_DevPingResponse_Validator;
   pack Account_RegisterRequest Account_RegisterRequest_Validator;
   pack Account_RegisterResponse Account_RegisterResponse_Validator;
   pack Account_LoginRequest Account_LoginRequest_Validator; pack Account_LoginResponse Account_LoginResponse_Validator;
   pack Account_RefreshRequest Account_RefreshRequest_Validator;
   pack Account_RefreshResponse Account_RefreshResponse_Validator;
   pack Account_TokenRequest Account_TokenRequest_Validator; pack Account_TokenResponse Account_TokenResponse_Validator;
   pack Account_Session Account_Session_Validator; pack Account_AppleLoginRequest Account_AppleLoginRequest_Validator;
   pack Account_LoginInfo Account_LoginInfo_Validator;
   pack Account_AppleLoginResponse Account_AppleLoginResponse_Validator;
   pack Account_AppleLoginCallbackRequest Account_AppleLoginCallbackRequest_Validator;
   pack Account_AppleLoginCallbackResponse Account_AppleLoginCallbackResponse_Validator;
   pack Account_GoogleLoginRequest Account_GoogleLoginRequest_Validator;
   pack Account_GoogleLoginResponse Account_GoogleLoginResponse_Validator;
   pack Account_FacebookLoginRequest Account_FacebookLoginRequest_Validator;
   pack Account_FacebookLoginResponse Account_FacebookLoginResponse_Validator;
   pack Account_AppleId Account_AppleId_Validator;
   pack Account_AppleLoginCallbackRequest_User_Name Account_AppleLoginCallbackRequest_User_Name_Validator;
   pack Account_AppleLoginCallbackRequest_User Account_AppleLoginCallbackRequest_User_Validator;
   pack Gamedata_GetItemListRequest Gamedata_GetItemListRequest_Validator;
   pack Gamedata_ItemDataProto Gamedata_ItemDataProto_Validator;
   pack Gamedata_GetItemListResponse Gamedata_GetItemListResponse_Validator;
   pack UserAdmin_GetByIdRequest UserAdmin_GetByIdRequest_Validator;
   pack UserAdmin_UserProto UserAdmin_UserProto_Validator;
   pack UserAdmin_GetByIdResponse UserAdmin_GetByIdResponse_Validator;
   pack UserAdmin_GetUserListCond UserAdmin_GetUserListCond_Validator;
   pack UserAdmin_UserListRequest UserAdmin_UserListRequest_Validator;
   pack UserAdmin_UserListResponse UserAdmin_UserListResponse_Validator;
   pack StorageAdmin_AddItemRequest StorageAdmin_AddItemRequest_Validator;
   pack StorageAdmin_AddItemResponse StorageAdmin_AddItemResponse_Validator;
   pack Recharge_GetOrderListCond Recharge_GetOrderListCond_Validator;
   pack Recharge_GetOrderListRequest Recharge_GetOrderListRequest_Validator;
   pack Recharge_OrderProto Recharge_OrderProto_Validator;
   pack Recharge_GetOrderListResponse Recharge_GetOrderListResponse_Validator;
   pack Recharge_GetOrderByIdRequest Recharge_GetOrderByIdRequest_Validator;
   pack Recharge_GetOrderByIdResponse Recharge_GetOrderByIdResponse_Validator;
   pack Recharge_UpdateOrderAckStateByIdRequest Recharge_UpdateOrderAckStateByIdRequest_Validator;
   pack Recharge_UpdateOrderAckStateByIdResponse Recharge_UpdateOrderAckStateByIdResponse_Validator;
   pack UserService_GetByIdRequest UserService_GetByIdRequest_Validator;
   pack UserService_UserBasicCacheProto UserService_UserBasicCacheProto_Validator;
   pack UserService_UserCacheProto UserService_UserCacheProto_Validator;
   pack UserService_GetByIdResponse UserService_GetByIdResponse_Validator;
   pack UserService_UserListByIdRequest UserService_UserListByIdRequest_Validator;
   pack UserService_UserListByIdResponse (UserService_UserListByIdResponse_Validator users);
   pack UserService_GetBasicByIdRequest UserService_GetBasicByIdRequest_Validator;
   pack UserService_GetBasicByIdResponse UserService_GetBasicByIdResponse_Validator;
   pack UserService_GetBasicListByIdRequest UserService_GetBasicListByIdRequest_Validator;
   pack UserService_GetBasicListByIdResponse (UserService_GetBasicListByIdResponse_Validator users)].

(** Validation never refuses anything: whatever a message of the client
    protocol or of a service holds, nested messages, lists and maps included,
    present or nil, and in whatever order its maps are ranged over, its
    generated [Validate] and [ValidateAll] return nil. *)
Theorem messages_never_refused (o : orders) (members users : list Z -> list Z) :
  Forall never_refuses (client_validators o members ++ server_validators users).
Proof. apply Forall_app. split; [apply client_never_refuses|]. unfold server_validators. never_refuse. Qed.


(** *** Witness: members must have a time of joining *)



