(* ===== verification/ConfPb.v ===== *)
(** The application's configuration messages:
    src/app/gate/internal/conf/conf.pb.go.

    A pointer to a message is an [option]; [durationpb.Duration] and
    [AsDuration] are the protobuf library's.  Reflection, descriptors and
    unknown fields belong to the protobuf runtime. *)
From S2P Require Import Prelude Messages.

Class DurationPb := { Duration : Type; AsDuration : option Duration -> Z }.

Section conf.
Context `{DP : DurationPb}.

Record Label := mkLabel {
  f_Label_Service : string; f_Label_Profile : string; f_Label_Color : string; f_Label_Version : string;
  f_Label_Zone : Z; f_Label_Node : string; f_Label_Encrypted : bool; f_Label_Language : string;
}.

Definition Label_Reset : Label := mkLabel EmptyString EmptyString EmptyString EmptyString 0 EmptyString false
  EmptyString.

Definition Label_GetService (x : option Label) : string := getter f_Label_Service EmptyString x.
Definition Label_GetProfile (x : option Label) : string := getter f_Label_Profile EmptyString x.
Definition Label_GetColor (x : option Label) : string := getter f_Label_Color EmptyString x.
Definition Label_GetVersion (x : option Label) : string := getter f_Label_Version EmptyString x.
Definition Label_GetZone (x : option Label) : Z := getter f_Label_Zone 0 x.
Definition Label_GetNode (x : option Label) : string := getter f_Label_Node EmptyString x.
Definition Label_GetEncrypted (x : option Label) : bool := getter f_Label_Encrypted false x.
Definition Label_GetLanguage (x : option Label) : string := getter f_Label_Language EmptyString x.

Record Trace := mkTrace {
  f_Trace_Endpoint : string;
}.

Definition Trace_Reset : Trace := mkTrace EmptyString.

Definition Trace_GetEndpoint (x : option Trace) : string := getter f_Trace_Endpoint EmptyString x.

Record Server_TCP := mkServer_TCP {
  f_Server_TCP_Addr : string;
}.

Definition Server_TCP_Reset : Server_TCP := mkServer_TCP EmptyString.

Definition Server_TCP_GetAddr (x : option Server_TCP) : string := getter f_Server_TCP_Addr EmptyString x.

Record Server_HTTP := mkServer_HTTP {
  f_Server_HTTP_Network : string; f_Server_HTTP_Addr : string; f_Server_HTTP_Timeout : option Duration;
}.

Definition Server_HTTP_Reset : Server_HTTP := mkServer_HTTP EmptyString EmptyString None.

Definition Server_HTTP_GetNetwork (x : option Server_HTTP) : string := getter f_Server_HTTP_Network EmptyString x.
Definition Server_HTTP_GetAddr (x : option Server_HTTP) : string := getter f_Server_HTTP_Addr EmptyString x.
Definition Server_HTTP_GetTimeout (x : option Server_HTTP) : option Duration := getter f_Server_HTTP_Timeout None x.

Record Server_GRPC := mkServer_GRPC {
  f_Server_GRPC_Network : string; f_Server_GRPC_Addr : string; f_Server_GRPC_Timeout : option Duration;
}.

Definition Server_GRPC_Reset : Server_GRPC := mkServer_GRPC EmptyString EmptyString None.

Definition Server_GRPC_GetNetwork (x : option Server_GRPC) : string := getter f_Server_GRPC_Network EmptyString x.
Definition Server_GRPC_GetAddr (x : option Server_GRPC) : string := getter f_Server_GRPC_Addr EmptyString x.
Definition Server_GRPC_GetTimeout (x : option Server_GRPC) : option Duration := getter f_Server_GRPC_Timeout None x.

Record Server := mkServer {
  f_Server_Tcp : option Server_TCP; f_Server_Http : option Server_HTTP; f_Server_Grpc : option Server_GRPC;
  f_Server_Health : string;
}.

Definition Server_Reset : Server := mkServer None None None EmptyString.

Definition Server_GetTcp (x : option Server) : option Server_TCP := getter f_Server_Tcp None x.
Definition Server_GetHttp (x : option Server) : option Server_HTTP := getter f_Server_Http None x.
Definition Server_GetGrpc (x : option Server) : option Server_GRPC := getter f_Server_Grpc None x.
Definition Server_GetHealth (x : option Server) : string := getter f_Server_Health EmptyString x.

Record Data_Redis := mkData_Redis {
  f_Data_Redis_Addr : string; f_Data_Redis_Password : string; f_Data_Redis_Cluster : bool;
  f_Data_Redis_DialTimeout : option Duration; f_Data_Redis_ReadTimeout : option Duration;
  f_Data_Redis_WriteTimeout : option Duration;
}.

Definition Data_Redis_Reset : Data_Redis := mkData_Redis EmptyString EmptyString false None None None.

Definition Data_Redis_GetAddr (x : option Data_Redis) : string := getter f_Data_Redis_Addr EmptyString x.
Definition Data_Redis_GetPassword (x : option Data_Redis) : string := getter f_Data_Redis_Password EmptyString x.
Definition Data_Redis_GetCluster (x : option Data_Redis) : bool := getter f_Data_Redis_Cluster false x.
Definition Data_Redis_GetDialTimeout (x : option Data_Redis) : option Duration := getter
  f_Data_Redis_DialTimeout None x.
Definition Data_Redis_GetReadTimeout (x : option Data_Redis) : option Duration := getter
  f_Data_Redis_ReadTimeout None x.
Definition Data_Redis_GetWriteTimeout (x : option Data_Redis) : option Duration := getter
  f_Data_Redis_WriteTimeout None x.

Record Data := mkData {
  f_Data_Redis : option Data_Redis;
}.

Definition Data_Reset : Data := mkData None.

Definition Data_GetRedis (x : option Data) : option Data_Redis := getter f_Data_Redis None x.

Record Log := mkLog {
  f_Log_Type : string; f_Log_Level : string;
}.

Definition Log_Reset : Log := mkLog EmptyString EmptyString.

Definition Log_GetType (x : option Log) : string := getter f_Log_Type EmptyString x.
Definition Log_GetLevel (x : option Log) : string := getter f_Log_Level EmptyString x.

Record Secret := mkSecret {
  f_Secret_PrivateKey : string; f_Secret_AesKey : string;
}.

Definition Secret_Reset : Secret := mkSecret EmptyString EmptyString.

Definition Secret_GetPrivateKey (x : option Secret) : string := getter f_Secret_PrivateKey EmptyString x.
Definition Secret_GetAesKey (x : option Secret) : string := getter f_Secret_AesKey EmptyString x.

Record Bootstrap := mkBootstrap {
  f_Bootstrap_Label : option Label; f_Bootstrap_Trace : option Trace; f_Bootstrap_Server : option Server;
  f_Bootstrap_Data : option Data; f_Bootstrap_Log : option Log; f_Bootstrap_Secret : option Secret;
}.

Definition Bootstrap_Reset : Bootstrap := mkBootstrap None None None None None None.

Definition Bootstrap_GetLabel (x : option Bootstrap) : option Label := getter f_Bootstrap_Label None x.
Definition Bootstrap_GetTrace (x : option Bootstrap) : option Trace := getter f_Bootstrap_Trace None x.
Definition Bootstrap_GetServer (x : option Bootstrap) : option Server := getter f_Bootstrap_Server None x.
Definition Bootstrap_GetData (x : option Bootstrap) : option Data := getter f_Bootstrap_Data None x.
Definition Bootstrap_GetLog (x : option Bootstrap) : option Log := getter f_Bootstrap_Log None x.
Definition Bootstrap_GetSecret (x : option Bootstrap) : option Secret := getter f_Bootstrap_Secret None x.

Record Etcd := mkEtcd {
  f_Etcd_Endpoints : list string; f_Etcd_Username : string; f_Etcd_Password : string;
}.

Definition Etcd_Reset : Etcd := mkEtcd [] EmptyString EmptyString.

Definition Etcd_GetEndpoints (x : option Etcd) : list string := getter f_Etcd_Endpoints [] x.
Definition Etcd_GetUsername (x : option Etcd) : string := getter f_Etcd_Username EmptyString x.
Definition Etcd_GetPassword (x : option Etcd) : string := getter f_Etcd_Password EmptyString x.

Record Registry := mkRegistry {
  f_Registry_Etcd : option Etcd;
}.

Definition Registry_Reset : Registry := mkRegistry None.

Definition Registry_GetEtcd (x : option Registry) : option Etcd := getter f_Registry_Etcd None x.

End conf.
