(* ===== verification/Wiring.v ===== *)
(** Assembly of the gateway: src/app/gate/internal/server/*.go,
    internal/data/data.go, internal/client/**, internal/service/push/v1/service.go,
    cmd/server/wire_gen.go and cmd/server/main.go.

    The constructors of redis, etcd, grpc and kratos enter as their outcomes;
    what is modelled is what the gateway hands them, the order, and what
    happens to the resources when a step fails. *)
From S2P Require Import Prelude Validate Session Conf ConfPb Security Router Server.

(** ** Server options *)

Inductive mw_name := MwRecovery | MwMetadata | MwTracing | MwMetrics | MwLogging.

Inductive srv_option :=
  | OMiddleware (l : list mw_name)
  | ONetwork (s : string)
  | OAddress (s : string)
  | OTimeout (d : Z)
  | OGrpc (InitialConnWindowSize InitialWindowSize MaxConcurrentStreams : Z).

Definition common_mw : list mw_name := [MwRecovery; MwMetadata; MwTracing; MwMetrics; MwLogging].

(** A field of a message that must be there: [x.F] on a nil [x] panics. *)
Definition deref {A} (x : option A) : result A :=
  match x with Some a => Ok a | None => Panic NilDeref end.

Definition nonempty (s : string) : bool := negb (bool_decide (s = EmptyString)).

(** ** The health server: what is registered under which path *)

Inductive health_route :=
  | PrefixOpenapi (path : string)              (** [HandlePrefix] with [openapiv2.NewHandler()] *)
  | PathMetrics (path : string)                (** [Handle] with [promhttp.Handler()] *)
  | PathStatus (path : string) (code : Z).     (** [HandleFunc] with a handler that writes the status *)

Record health_server := mkHealth { h_addr : string; h_routes : list health_route }.

Definition StatusOK : Z := 200.

Definition health_NewServer (addr : string) : health_server :=
  mkHealth addr [PrefixOpenapi "/q/"; PathMetrics "/metrics"; PathStatus "/health" StatusOK].

Section wiring.
Context `{DP : DurationPb}.

Definition addr_opts (network addr : string) (timeout : option Duration) : list srv_option :=
  (if nonempty network then [ONetwork network] else []) ++
  (if nonempty addr then [OAddress addr] else []) ++
  (match timeout with Some d => [OTimeout (AsDuration (Some d))] | None => [] end).

(** The options [NewGRPCServer] and [NewHTTPServer] build their server with. *)
Definition NewGRPCServer (c : option ConfPb.Server) : result (list srv_option) :=
  c ← deref c; g ← deref (f_Server_Grpc c);
  Ok ([OMiddleware common_mw] ++
      addr_opts (f_Server_GRPC_Network g) (f_Server_GRPC_Addr g) (f_Server_GRPC_Timeout g) ++
      [OGrpc (2 ^ 30) (2 ^ 30) (2 ^ 31 - 1)]).

Definition NewHTTPServer (c : option ConfPb.Server) : result (list srv_option) :=
  c ← deref c; h ← deref (f_Server_Http c);
  Ok ([OMiddleware common_mw] ++
      addr_opts (f_Server_HTTP_Network h) (f_Server_HTTP_Addr h) (f_Server_HTTP_Timeout h)).

(** The TCP server: [Request] and [Reply] are the logging middlewares. *)
Context `{MW : Middleware} (mw : mw_name -> Mw) (Request Reply : Mw).

Definition tcp_opts (addr : string) (logger : option nat) (rt : option (WrapFunc * WrapFunc)) : list Server.Option :=
  [ReadFilter (Chain [mw MwRecovery; mw MwMetadata; mw MwTracing; mw MwMetrics; Request]); WriteFilter (Chain [Reply])] ++
  (if nonempty addr then [Server.Bind addr] else []) ++
  (match logger with Some l => [Server.Logger l] | None => [] end) ++
  (match rt with Some (ac, ad) => [AfterConnectFunc ac; AfterDisconnectFunc ad] | None => [] end).

Definition NewTCPServer (cfg : Config) (c : option ConfPb.Server) (logger : option nat) (rt : option (WrapFunc * WrapFunc))
    : result Server.Server :=
  c ← deref c; t ← deref (f_Server_Tcp c);
  map_err (fun e => EWrap e "创建TCP服务器失败。config:%+v" [])
    (NewServer cfg (tcp_opts (f_Server_TCP_Addr t) logger rt)).

(** ** Resources *)

Inductive resource := Redis (cluster : bool) (addr password : string) (dial read write : Z) | EtcdClient (eps : list string).

(** What is open, and whether the redis clean-up has run. *)
Record env := mkE { e_open : list resource; e_cleaned : nat }.
Definition opens (r : resource) : go env unit := modify (fun e => mkE (e_open e ++ [r]) (e_cleaned e)).
Definition cleanup : go env unit := modify (fun e => mkE (e_open e) (S (e_cleaned e))).

(** [NewData]: both branches build the same connection options; [out] is the
    outcome of [cache.NewRedis]/[NewRedisCluster], which keep nothing open when
    they fail. *)
Definition NewData (c : option Data) (out : result unit) : go env unit :=
  c ← lift (deref c); r ← lift (deref (f_Data_Redis c));
  lift out ;;
  opens (Redis (f_Data_Redis_Cluster r) (f_Data_Redis_Addr r) (f_Data_Redis_Password r)
           (AsDuration (f_Data_Redis_DialTimeout r)) (AsDuration (f_Data_Redis_ReadTimeout r))
           (AsDuration (f_Data_Redis_WriteTimeout r))).

(** [etcdclient.New] with the registry's configuration. *)
Definition new_etcd (msg : string) (c : option Registry) (out : result unit) : go env unit :=
  c ← lift (deref c); e ← lift (deref (f_Registry_Etcd c));
  lift (map_err (fun x => EWrap x msg []) out) ;;
  opens (EtcdClient (f_Etcd_Endpoints e)).
Definition NewDiscovery : option Registry -> result unit -> go env unit := new_etcd "new etcdclient failed".
Definition NewRegistrar : option Registry -> result unit -> go env unit := new_etcd "[etcdclient.New] etcd 客户端创建失败。".

(** [player.NewConn], [room.NewConn]: the service they connect to, and the route
    tables' names. *)
Definition player_serviceName : string := "vulcan.player.service".
Definition room_serviceName : string := "vulcan.room.service".
Definition player_RouteTable : string := "player".
Definition room_RouteTable : string := "room".
Definition player_NewConn (dial : string -> result unit) : result string :=
  dial player_serviceName ;; Ok player_serviceName.
Definition room_NewConn (dial : string -> result unit) : result string :=
  dial room_serviceName ;; Ok room_serviceName.

(** ** [initApp] and [main] *)

(** The outcomes of the third-party constructors. *)
Record outcomes := mkOut {
  o_redis : result unit; o_discovery : result unit; o_dial : string -> result unit; o_registrar : result unit;
  o_endpoint : result string;
}.

Record app := mkApp {
  a_health : health_server; a_tcp : Server.Server; a_http : list srv_option; a_grpc : list srv_option; a_encrypted : bool;
  a_name : string; a_version : string; a_metadata : list (string * string); a_url : string;
}.

(** [if err != nil { cleanup(); return nil, nil, err }] *)
Definition or_cleanup {A} (m : go env A) : go env A := fun e =>
  match m e with (Err x, e') => (cleanup ;; throw x) e' | r => r end.

Definition newApp (health : health_server) (tcp : Server.Server) (http grpc : list srv_option) (encrypted : bool) (label : option Label)
    (endpoint : result string) : result app :=
  l ← deref label;
  url ← (match endpoint with Err e => Panic (PanicErr e) | r => r end);
  Ok (mkApp health tcp http grpc encrypted (f_Label_Service l) (f_Label_Version l)
        [("service", f_Label_Service l); ("profile", f_Label_Profile l); ("version", f_Label_Version l);
         ("color", f_Label_Color l)] url).

(** [NewTCPService] keeps [label.Encrypted]. *)
Definition NewTCPService (label : option Label) : result bool := l ← deref label; Ok (f_Label_Encrypted l).

Definition initApp (cfg : Config) (s : option ConfPb.Server) (label : option Label) (registry : option Registry)
    (data : option Data) (logger : option nat) (health : health_server) (rt : option (WrapFunc * WrapFunc)) (o : outcomes) : go env app :=
  NewData data (o_redis o) ;;
  or_cleanup (NewDiscovery registry (o_discovery o)) ;;
  or_cleanup (lift (player_NewConn (o_dial o))) ;;
  or_cleanup (lift (room_NewConn (o_dial o))) ;;
  encrypted ← lift (NewTCPService label);
  tcp ← or_cleanup (lift (NewTCPServer cfg s logger rt));
  http ← lift (NewHTTPServer s);
  grpc ← lift (NewGRPCServer s);
  or_cleanup (NewRegistrar registry (o_registrar o)) ;;
  lift (newApp health tcp http grpc encrypted label (o_endpoint o)).

(** [if err != nil { panic(err) }] *)
Definition must {A} (r : result A) : result A := match r with Err e => Panic (PanicErr e) | _ => r end.

(** The outcomes of [main]'s own calls: path, load and the three scans, the
    secrets, tracing, [app.Run]. *)
Record main_out := mkMain {
  m_abs : result unit; m_load : result unit;
  m_bc : result Bootstrap; m_rc : result Registry; m_sc : result Secret;
  m_trace : string -> result unit; m_run : app -> result unit;
}.

(** The state: the secrets of package security and the resources. *)
Definition main `{C : Session.Cipher} `{K : Crypto} (cfg : Config) (rt : option (WrapFunc * WrapFunc)) (mo : main_out) (o : outcomes)
    : go (secrets * env) unit := fun st =>
  let '(sec, e) := st in
  match
    must (m_abs mo) ;; must (m_load mo) ;;
    bc ← must (m_bc mo); _ ← deref (f_Bootstrap_Label bc);
    rc ← must (m_rc mo); sc ← must (m_sc mo); Ok (bc, rc, sc)
  with
  | Ok (bc, rc, sc) =>
      let '(r, sec) := Security.Init (f_Secret_AesKey sc) (f_Secret_PrivateKey sc) sec in
      match
        must r ;;
        t ← deref (f_Bootstrap_Trace bc); must (m_trace mo (f_Trace_Endpoint t)) ;;
        _ ← deref (f_Bootstrap_Log bc);
        s ← deref (f_Bootstrap_Server bc); Ok s
      with
      | Ok s =>
          match initApp cfg (Some s) (f_Bootstrap_Label bc) (Some rc) (f_Bootstrap_Data bc) (Some 1%nat)
                  (health_NewServer (f_Server_Health s)) rt o e with
          | (Ok a, e) =>
              (* defer cleanup() *)
              (must (m_run mo a), (sec, snd (cleanup e)))
          | (Err x, e) => (Panic (PanicErr x), (sec, e))
          | (Panic q, e) => (Panic q, (sec, e))
          end
      | Err x => (Err x, (sec, e))
      | Panic q => (Panic q, (sec, e))
      end
  | Err x => (Err x, (sec, e))
  | Panic q => (Panic q, (sec, e))
  end.

(** ** The push service: its three calls answer without touching the server *)
Definition PushService_Push {S} (req : option PushRequest) : go S PushResponse := mret mkPushResponse.
Definition PushService_Multicast {S} (req : option MulticastRequest) : go S MulticastResponse := mret mkMulticastResponse.
Definition PushService_Broadcast {S} (req : option BroadcastRequest) : go S BroadcastResponse := mret mkBroadcastResponse.
End wiring.

(** ** Facts *)

Definition is_redis (r : resource) : bool := match r with Redis _ _ _ _ _ _ => true | _ => false end.
Definition redises (e : env) : nat := length (filter (fun r => is_redis r = true) (e_open e)).

(** A step behind [NewData]: it opens no redis connection, an error has cleaned
    up once, and nothing else has. *)
Definition cleans {A} (m : go env A) : Prop := forall e r e', m e = (r, e') ->
  redises e' = redises e /\
  e_cleaned e' = match r with Err _ => S (e_cleaned e) | _ => e_cleaned e end.

(** A step that leaves cleaning up to its caller. *)
Definition neutral {A} (m : go env A) : Prop := forall e r e', m e = (r, e') ->
  redises e' = redises e /\ e_cleaned e' = e_cleaned e.

Lemma go_bind_inv {S A B} (m : go S A) (k : A -> go S B) e r e' : (m ≫= k) e = (r, e') ->
  exists rm e1, m e = (rm, e1) /\
    match rm with Ok a => k a e1 = (r, e') | Err x => r = Err x /\ e' = e1 | Panic q => r = Panic q /\ e' = e1 end.
Proof.
  cbv [mbind go_bind]. destruct (m e) as [[a|x|q] e1]; intros E; eexists _, _; (split; [reflexivity|]); [done| |];
    by injection E as <- <-.
Qed.

Lemma cleans_bind {A B} (m : go env A) (k : A -> go env B) :
  cleans m -> (forall a, cleans (k a)) -> cleans (m ≫= k).
Proof.
  intros Hm Hk e r e'. cbv [mbind go_bind]. destruct (m e) as [[a|x|q] e1] eqn:E; destruct (Hm _ _ _ E) as [Hr Hc].
  - intros E2. destruct (Hk _ _ _ _ E2) as [-> ->]. by rewrite Hr, Hc.
  - by intros [= <- <-].
  - by intros [= <- <-].
Qed.

Lemma cleans_or_cleanup {A} (m : go env A) : neutral m -> cleans (or_cleanup m).
Proof.
  intros Hm e r e'. unfold or_cleanup. destruct (m e) as [[a|x|q] e1] eqn:E; destruct (Hm _ _ _ E) as [Hr Hc];
    intros [= <- <-]; [by split| |by split].
  split; [exact Hr|]. cbn. by rewrite Hc.
Qed.

Lemma cleans_lift {A} (r : result A) : (forall x, r <> Err x) -> cleans (lift r).
Proof. intros Hr e r' e' [= <- <-]. split; [done|]. by destruct r as [a|x|q]; [|destruct (Hr x)|]. Qed.

Lemma neutral_lift {A} (r : result A) : neutral (lift r).
Proof. by intros e r' e' [= <- <-]. Qed.

Lemma neutral_bind {A B} (m : go env A) (k : A -> go env B) :
  neutral m -> (forall a, neutral (k a)) -> neutral (m ≫= k).
Proof.
  intros Hm Hk e r e'. cbv [mbind go_bind]. destruct (m e) as [[a|x|q] e1] eqn:E; destruct (Hm _ _ _ E) as [Hr Hc];
    [|by intros [= <- <-]..].
  intros E2. destruct (Hk _ _ _ _ E2) as [-> ->]. by rewrite Hr, Hc.
Qed.

Lemma neutral_etcd eps : neutral (opens (EtcdClient eps)).
Proof.
  intros e r e' [= <- <-]. split; [|done]. unfold redises. cbn [e_open].
  rewrite filter_app, length_app, filter_cons_False by done. cbn. lia.
Qed.

Lemma neutral_new_etcd msg c out : neutral (new_etcd msg c out).
Proof.
  unfold new_etcd. repeat (apply neutral_bind; [apply neutral_lift|intros ?]). apply neutral_etcd.
Qed.

Section facts.
Context `{DP : DurationPb} `{MW : Middleware}.

(** No constructor between the connections and the registrar returns an error
    of its own: what can go wrong there is a missing section. *)
Lemma bind_no_err {A B} (r : result A) (k : A -> result B) :
  (forall x, r <> Err x) -> (forall a x, k a <> Err x) -> forall x, (r ≫= k) <> Err x.
Proof. intros Hr Hk x. destruct r as [a|y|q]; cbn; [apply Hk|by destruct (Hr y)|done]. Qed.

Lemma deref_no_err {A} (x : option A) e : deref x <> Err e.
Proof. by destruct x. Qed.

Lemma service_no_err label x : NewTCPService label <> Err x.
Proof. apply bind_no_err; [apply deref_no_err|done]. Qed.

Lemma http_no_err s x : NewHTTPServer s <> Err x.
Proof. do 2 (apply bind_no_err; [apply deref_no_err|intros ?]). done. Qed.

Lemma grpc_no_err s x : NewGRPCServer s <> Err x.
Proof. do 2 (apply bind_no_err; [apply deref_no_err|intros ?]). done. Qed.

Lemma newApp_no_err hl tcp http grpc en label ep x : newApp hl tcp http grpc en label ep <> Err x.
Proof.
  apply bind_no_err; [apply deref_no_err|intros l]. apply bind_no_err; [by destruct ep|done].
Qed.

Lemma NewData_cases c out e r e' : NewData c out e = (r, e') ->
  e_cleaned e' = e_cleaned e /\
  match r with Ok _ => redises e' = S (redises e) | _ => e' = e end /\
  match r with Ok _ => out = Ok tt | Err x => out = Err x | Panic _ => True end.
Proof.
  unfold NewData. cbv [mbind go_bind lift].
  destruct c as [c'|]; cbn [deref]; [|by intros [= <- <-]].
  destruct (f_Data_Redis c') as [rd|]; cbn [deref]; [|by intros [= <- <-]].
  destruct out as [[]|x|q]; [|by intros [= <- <-]..].
  intros [= <- <-]. split; [done|]. split; [|done]. unfold redises. cbn [e_open].
  rewrite filter_app, length_app, filter_cons_True by done. cbn. lia.
Qed.
End facts.

(** When [initApp] returns an error, redis was opened and closed once, if it could
    be opened at all; when it succeeds, one connection is open and its
    clean-up has not run. *)
Lemma initApp_cases `{DP : DurationPb} `{MW : Middleware} mw Request Reply cfg s label registry data logger hl rt o
    (e e' : env) (r : result app) :
  initApp mw Request Reply cfg s label registry data logger hl rt o e = (r, e') ->
  match r with
  | Ok _ => redises e' = S (redises e) /\ e_cleaned e' = e_cleaned e
  | Err _ =>
      match o_redis o with Ok _ => redises e' = S (redises e) /\ e_cleaned e' = S (e_cleaned e) | _ => e' = e end
  | Panic _ => e_cleaned e' = e_cleaned e
  end.
Proof.
  unfold initApp. intros E. apply go_bind_inv in E as (rd & e1 & Ed & E).
  destruct (NewData_cases _ _ _ _ _ Ed) as (Hc & Hd & Ho).
  destruct rd as [[]|x|q]; [|destruct E as [-> ->]; by rewrite Ho|by destruct E as [-> ->]].
  match type of E with ?m _ = _ => assert (cleans m) as Hm end.
  { repeat first [ apply cleans_bind; [|intros ?] | apply cleans_or_cleanup | apply neutral_lift | apply neutral_new_etcd
                 | apply cleans_lift; intros ?; first [apply service_no_err|apply http_no_err|apply grpc_no_err
                                                      |apply newApp_no_err] ]. }
  destruct (Hm _ _ _ E) as [Hr Hk]. rewrite Hd in Hr. rewrite Hc in Hk.
  destruct r as [a|x|q]; [by split|rewrite Ho; by split|exact Hk].
Qed.

(** The configuration, the secrets and tracing are up: what [main] has before it
    calls [initApp]. *)
Definition ready `{DP : DurationPb} `{MW : Middleware} `{C : Session.Cipher} `{K : Crypto} (mo : main_out) (sec : secrets)
    (bc : Bootstrap) (rc : Registry) (s : ConfPb.Server) (lb : Label) (sec' : secrets) : Prop :=
  m_abs mo = Ok tt /\ m_load mo = Ok tt /\ m_bc mo = Ok bc /\ m_rc mo = Ok rc /\
  f_Bootstrap_Label bc = Some lb /\ is_Some (f_Bootstrap_Log bc) /\ f_Bootstrap_Server bc = Some s /\
  (exists sc, m_sc mo = Ok sc /\ Security.Init (f_Secret_AesKey sc) (f_Secret_PrivateKey sc) sec = (Ok tt, sec')) /\
  exists t, f_Bootstrap_Trace bc = Some t /\ m_trace mo (f_Trace_Endpoint t) = Ok tt.

(** [main] has stopped before [initApp]. *)
Ltac early := intros [= <- _ <-]; left; split; [|split; [done|by eexists]];
  intros ? ? ? ? ? (? & ? & ? & ? & ? & [? ?] & ? & (? & ? & ?) & (? & ? & ?)); simplify_eq; congruence.

(** C36: Start-up and shut-down release redis. If the configuration, the secrets or
    tracing fail, [main] panics and nothing was opened. Otherwise [initApp]
    decides. If it succeeds, redis was opened, the clean-up runs exactly once,
    also when [app.Run] fails, and the outcome is [app.Run]'s, an error being
    turned into a panic; if it returns an error, [main] panics with it, and redis
    was opened and closed once, or, when it could not be opened, nothing was
    opened and nothing closed; a panic inside [initApp] (a missing section of the
    configuration, say) ends [main] without any clean-up. *)
Theorem startup_cleanup `{DP : DurationPb} `{MW : Middleware} `{C : Session.Cipher} `{K : Crypto} mw Request Reply cfg rt mo o
    (sec sec' : secrets) (e e' : env) out :
  main mw Request Reply cfg rt mo o (sec, e) = (out, (sec', e')) ->
  ((forall bc rc s lb sec0, ~ ready mo sec bc rc s lb sec0) /\ e' = e /\ exists q, out = Panic q) \/
  exists bc rc s lb r e1, ready mo sec bc rc s lb sec' /\
    initApp mw Request Reply cfg (Some s) (Some lb) (Some rc) (f_Bootstrap_Data bc) (Some 1%nat)
      (health_NewServer (f_Server_Health s)) rt o e = (r, e1) /\
    match r with
    | Ok a => out = must (m_run mo a) /\ redises e' = S (redises e) /\ e_cleaned e' = S (e_cleaned e)
    | Err x => out = Panic (PanicErr x) /\
        match o_redis o with Ok _ => redises e' = S (redises e) /\ e_cleaned e' = S (e_cleaned e) | _ => e' = e end
    | Panic q => out = Panic q /\ e_cleaned e' = e_cleaned e
    end.
Proof.
  unfold main, ready.
  destruct (m_abs mo) as [[]|x|q]; cbn [must mbind result_bind]; [|early..].
  destruct (m_load mo) as [[]|x|q]; cbn [must mbind result_bind]; [|early..].
  destruct (m_bc mo) as [bc|x|q]; cbn [must mbind result_bind]; [|early..].
  destruct (f_Bootstrap_Label bc) as [lb|] eqn:El; cbn [deref mbind result_bind]; [|early].
  destruct (m_rc mo) as [rc|x|q]; cbn [must mbind result_bind]; [|early..].
  destruct (m_sc mo) as [sc|x|q]; cbn [must mbind result_bind]; [|early..].
  destruct (Security.Init (f_Secret_AesKey sc) (f_Secret_PrivateKey sc) sec) as [ri sec1] eqn:Ei.
  destruct ri as [[]|x|q]; cbn [must mbind result_bind]; [|early..].
  destruct (f_Bootstrap_Trace bc) as [t|] eqn:Et; cbn [deref mbind result_bind]; [|early].
  destruct (m_trace mo (f_Trace_Endpoint t)) as [[]|x|q] eqn:Em; cbn [must mbind result_bind]; [|early..].
  destruct (f_Bootstrap_Log bc) as [l|] eqn:Ell; cbn [deref mbind result_bind]; [|early].
  destruct (f_Bootstrap_Server bc) as [s|] eqn:Es; cbn [deref mbind result_bind]; [|early].
  rewrite El. destruct (initApp mw Request Reply cfg (Some s) (Some lb) (Some rc) (f_Bootstrap_Data bc) (Some 1%nat)
    (health_NewServer (f_Server_Health s)) rt o e) as [r e1] eqn:Ea.
  pose proof (initApp_cases _ _ _ _ _ _ _ _ _ _ _ _ _ _ _ Ea) as Hr. intros Hm. right.
  exists bc, rc, s, lb, r, e1. destruct r as [a|x|q]; injection Hm as <- <- <-; (split; [by repeat split; eauto|]);
    (split; [exact Ea|]); (split; [done|]); [|exact Hr..].
  split; [exact (proj1 Hr)|cbn; by rewrite (proj2 Hr)].
Qed.

(** A complete configuration starts: every section there, every constructor
    successful; the servers get the configured addresses. *)
Lemma initApp_succeeds `{DP : DurationPb} `{MW : Middleware} mw Request Reply cfg s t h g lb rd et logger hl rt o e url sv :
  f_Server_Tcp s = Some t -> f_Server_Http s = Some h -> f_Server_Grpc s = Some g ->
  o_redis o = Ok tt -> o_discovery o = Ok tt -> (forall n, o_dial o n = Ok tt) -> o_registrar o = Ok tt ->
  o_endpoint o = Ok url ->
  NewServer cfg (tcp_opts mw Request Reply (f_Server_TCP_Addr t) logger rt) = Ok sv ->
  exists a e', initApp mw Request Reply cfg (Some s) (Some lb) (Some (mkRegistry (Some et))) (Some (mkData (Some rd)))
      logger hl rt o e = (Ok a, e') /\ a_url a = url /\ a_encrypted a = f_Label_Encrypted lb /\ a_health a = hl.
Proof.
  intros Et Eh Eg E1 E2 E3 E4 E5 Hs.
  unfold initApp. cbv [mbind go_bind NewData lift deref f_Data_Redis]. rewrite E1.
  cbn [opens modify]. cbv [or_cleanup NewDiscovery NewRegistrar new_etcd mbind go_bind lift deref f_Registry_Etcd].
  rewrite E2. cbn -[NewServer tcp_opts]. unfold player_NewConn, room_NewConn. rewrite !E3. cbn -[NewServer tcp_opts]. rewrite Et. cbn -[NewServer tcp_opts].
  rewrite Hs. cbn -[NewServer tcp_opts].
  rewrite Eh. cbn -[NewServer tcp_opts]. rewrite Eg. cbn -[NewServer tcp_opts]. rewrite E4. cbn -[NewServer tcp_opts]. rewrite E5. cbn -[NewServer tcp_opts]. do 2 eexists. split; [reflexivity|]. by split.
Qed.

(** ** Witness: a start-up whose etcd registrar fails *)

Definition ns_durations : DurationPb := {| Duration := Z; AsDuration := default 0 |}.
Definition list_mw : Middleware := {| Mw := list nat; Chain := fun l => concat l; recovery := [0%nat] |}.
Definition one_key : Crypto := {|
  PrivateKey := unit; PublicKey := unit;
  base64_Decode := fun s => Ok (string_bytes s); x509_ParsePKCS8 := fun _ => Ok (RsaKey tt);
  rsa_ParsePublicKey := fun _ => Ok tt; rsa_Encrypt := fun _ _ m => Ok m; rsa_Decrypt := fun _ c => Ok c;
  rand_AlphaNum := fun _ _ => Ok "k";
|}.

Definition demo_label : Label := mkLabel "gate" "dev" "red" "1" 1 "n1" true "en".
Definition demo_server : ConfPb.Server (DP := ns_durations) :=
  ConfPb.mkServer (DP := ns_durations) (Some (mkServer_TCP ":7000")) (Some (mkServer_HTTP (DP := ns_durations) "tcp" ":8000" None))
    (Some (mkServer_GRPC (DP := ns_durations) "tcp" ":9000" None)) ":9100".
Definition demo_bootstrap : Bootstrap (DP := ns_durations) :=
  mkBootstrap (DP := ns_durations) (Some demo_label) (Some (mkTrace "otel")) (Some demo_server)
    (Some (mkData (DP := ns_durations) (Some (mkData_Redis (DP := ns_durations) "r:6379" EmptyString false None None None))))
    (Some (mkLog "std" "info")) None.
Definition demo_outcomes : outcomes :=
  mkOut (Ok tt) (Ok tt) (fun _ => Ok tt) (Err (ENew "etcd" [])) (Ok "grpc://h:9000").
Definition demo_main : main_out (DP := ns_durations) (MW := list_mw) :=
  mkMain (DP := ns_durations) (MW := list_mw) (Ok tt) (Ok tt) (Ok demo_bootstrap) (Ok (mkRegistry (Some (mkEtcd ["e:2379"] EmptyString EmptyString))))
    (Ok (mkSecret "p" "k")) (fun _ => Ok tt) (fun _ => Ok tt).
Definition demo_config : Config := Default 8 (mkEnv false EmptyString EmptyString EmptyString "gate-1" 0 false []).

(** [main] panics with the registrar's error, and redis was opened and closed. *)
Lemma startup_cleanup_witness :
  exists out sec' e', main (DP := ns_durations) (MW := list_mw) (C := tag_cipher) (K := one_key) (fun _ => []) [] [] demo_config None
      demo_main demo_outcomes (mkSecrets (C := tag_cipher) (K := one_key) None [] None, mkE [] 0) = (out, (sec', e')) /\
    (exists q, out = Panic q) /\ redises e' = 1%nat /\ e_cleaned e' = 1%nat.
Proof.
  destruct (main (DP := ns_durations) (MW := list_mw) (C := tag_cipher) (K := one_key) (fun _ => []) [] [] demo_config None
      demo_main demo_outcomes (mkSecrets (C := tag_cipher) (K := one_key) None [] None, mkE [] 0)) as [out [sec' e']] eqn:E.
  exists out, sec', e'. split; [done|].
  destruct (startup_cleanup (DP := ns_durations) (MW := list_mw) (C := tag_cipher) (K := one_key) (fun _ => []) [] []
    demo_config None demo_main demo_outcomes _ _ _ _ _ E) as [(Hn & _)|(bc & rc & s & lb & r & e1 & Hb & Ei & Hr)].
  - edestruct Hn. repeat split; eauto.
  - destruct Hb as (_ & _ & [= <-] & [= <-] & [= <-] & _ & [= <-] & _).
    vm_compute in Ei. injection Ei as <- <-. destruct Hr as (-> & Hr). split; [by eexists|exact Hr].
Defined.
