(* ===== verification/Pipeline.v ===== *)
(** The assembled filters around a packet: the server [NewTCPServer] builds
    (src/app/gate/internal/server/tcp.go, src/pkg/net/tcp/server/server.go) and
    [readPack], [handle] and [writePack] of src/pkg/net/internal/worker.go on
    the [interface{}] values the filters pass around.

    Worker.v runs the filters on byte slices; here requests and replies carry
    their dynamic type, and [req.([]byte)] and [out.([]byte)] can fail.  The
    gateway's own middlewares are those of Filters.v, put together by
    [NewServer] and its options; kratos' chain, recovery and tracing and the
    metrics are parameters. *)
From S2P Require Import Prelude Buckets Context Conf ConfPb Messages Service Server Wiring Filters.

Section pipeline.
Context `{DP : DurationPb} `{G : GrpcMD} {X : ServerCtx G} `{Pr : Profile} `{PM : !ProtoMsg Packet} {W : Type}.

Abbreviation Mware := (Handler W request -> Handler W request).

(** kratos' [Chain] and [recovery], the metrics and the tracing; the pool's
    choices for the two logging filters. *)
Context (chain : list Mware -> Mware) (recover tracing metrics : Mware) (chq chr : option nat).

#[local] Instance go_middleware : Middleware := {| Mw := Mware; Chain := chain; recovery := recover |}.

(** The middlewares [NewTCPServer] names; [logging.Server] is not used there. *)
Definition tcp_mw (n : mw_name) : Mware :=
  match n with
  | MwRecovery => recover
  | MwMetadata => metadata_Server
  | MwTracing => tracing
  | MwMetrics => metrics
  | MwLogging => id
  end.

Definition gate_TCPServer (cfg : Config) (c : option ConfPb.Server) (logger : option nat)
    (rt : option (WrapFunc * WrapFunc)) : result Server.Server :=
  NewTCPServer tcp_mw (Request chq NetKindTCP) (Reply chr NetKindTCP) cfg c logger rt.

(** ** The worker's side *)

Section worker.
Context (Handle write : list Z -> go (fstate W) unit).

(** [handle]: returns nil and the service's error. *)
Definition any_handle : Handler W request := fun _ req =>
  match req with
  | RBytes bs => Handle bs ;; mret ROther
  | _ => panics TypeAssert
  end.

(** [readPack] from the packet read on. *)
Definition any_readPack (f : option Mware) (ctx : Cx) (in_ : list Z) : go (fstate W) unit :=
  let next := match f with Some f => f any_handle | None => any_handle end in
  next ctx (RBytes in_) ;; mret tt.

Definition writeNext : Handler W request := fun _ pk => mret pk.

Definition any_writePack (f : option Mware) (ctx : Cx) (pack : list Z) : go (fstate W) unit :=
  let next := match f with Some f => f writeNext | None => writeNext end in
  out ← next ctx (RBytes pack);
  match out with RBytes bs => write bs | _ => panics TypeAssert end.
End worker.

(** ** What the theorems use of the third-party middlewares *)

(** [Chain] runs the first middleware outermost; [recovery] turns a panic into
    an error; tracing and metrics call the handler and return its results, on a
    context of their own. *)
Definition recovered (on_panic : panic -> error) {A} (r : result A * fstate W) : result A * fstate W :=
  match r with (Panic q, st) => (Err (on_panic q), st) | _ => r end.

Definition observes (m : Mware) : Prop := forall h ctx req st, exists ctx', m h ctx req st = h ctx' req st.

Context (on_panic : panic -> error).
Hypothesis chain_runs : forall ms h, chain ms h = foldr (fun m h => m h) h ms.
Hypothesis recover_runs : forall h ctx req st, recover h ctx req st = recovered on_panic (h ctx req st).
Hypothesis tracing_runs : observes tracing.
Hypothesis metrics_runs : observes metrics.

(** ** Facts *)

Lemma recovered_ok {A} (a : A) st : recovered on_panic (Ok a, st) = (Ok a, st).
Proof. done. Qed.

Lemma recovered_twice {A} (r : result A * fstate W) : recovered on_panic (recovered on_panic r) = recovered on_panic r.
Proof. by destruct r as [[]]. Qed.

Context {PL : ProtoLaws Packet}.

(** The gateway's own middlewares on bytes. *)
Lemma metadata_bytes (h : Handler W request) ctx bs st :
  exists ctx', metadata_Server h ctx (RBytes bs) st = h ctx' (RBytes bs) st.
Proof. by eexists. Qed.

Lemma Request_bytes (h : Handler W request) ctx bs st :
  exists st', f_w st' = f_w st /\ Request chq NetKindTCP h ctx (RBytes bs) st = h ctx (RBytes bs) st'.
Proof.
  unfold Request. destruct (negb IsDev); [by exists st|].
  destruct (logRequest_ok chq NetKindTCP ctx (RBytes bs) st) as (st' & E & Ew & _).
  exists st'. split; [exact Ew|]. cbv [mbind go_bind]. by rewrite E.
Qed.

Lemma Reply_bytes (h : Handler W request) ctx bs st :
  exists st', f_w st' = f_w st /\ Reply chr NetKindTCP h ctx (RBytes bs) st = h ctx (RBytes bs) st'.
Proof.
  unfold Reply. destruct (negb IsDev); [by exists st|].
  destruct (logReply_ok chr NetKindTCP ctx bs st) as (st' & E & Ew & _).
  exists st'. split; [exact Ew|]. cbv [mbind go_bind]. by rewrite E.
Qed.

(** The filters of the server that is built. *)
Lemma gate_filters cfg c logger rt sv : gate_TCPServer cfg c logger rt = Ok sv ->
  readFilter sv = Some (chain [chain [recover]; chain [recover; metadata_Server; tracing; metrics; Request chq NetKindTCP]]) /\
  writeFilter sv = Some (chain [chain [recover]; chain [Reply chr NetKindTCP]]).
Proof.
  unfold gate_TCPServer, NewTCPServer. destruct c as [c|]; [|done]. cbn [deref mbind result_bind].
  destruct (f_Server_Tcp c) as [t|]; [|done]. cbn [deref mbind result_bind].
  unfold NewServer, tcp_opts. intros E.
  destruct (nonempty (f_Server_TCP_Addr t)), logger as [l|], rt as [[ac ad]|]; cbn in E;
    (match type of E with context [NewBuckets ?a ?b] => destruct (NewBuckets a b) end; cbn in E; try done; by injection E as <-).
Qed.

Lemma read_chain (h : Handler W request) ctx bs st :
  exists ctx' st', f_w st' = f_w st /\
    chain [chain [recover]; chain [recover; metadata_Server; tracing; metrics; Request chq NetKindTCP]] h ctx (RBytes bs) st =
    recovered on_panic (h ctx' (RBytes bs) st').
Proof.
  rewrite chain_runs. cbn [foldr]. rewrite !chain_runs. cbn [foldr]. rewrite !recover_runs, recovered_twice.
  destruct (metadata_bytes (tracing (metrics (Request chq NetKindTCP h))) ctx bs st) as (c1 & ->).
  destruct (tracing_runs (metrics (Request chq NetKindTCP h)) c1 (RBytes bs) st) as (c2 & ->).
  destruct (metrics_runs (Request chq NetKindTCP h) c2 (RBytes bs) st) as (c3 & ->).
  destruct (Request_bytes h c3 bs st) as (st' & Ew & ->). by exists c3, st'.
Qed.

Lemma write_chain (h : Handler W request) ctx bs st :
  exists st', f_w st' = f_w st /\
    chain [chain [recover]; chain [Reply chr NetKindTCP]] h ctx (RBytes bs) st = recovered on_panic (h ctx (RBytes bs) st').
Proof.
  rewrite chain_runs. cbn [foldr]. rewrite !chain_runs. cbn [foldr]. rewrite recover_runs.
  destruct (Reply_bytes h ctx bs st) as (st' & Ew & ->). by exists st'.
Qed.
End pipeline.

(** ** Properties *)

(** C31: No type assertion on the packet's path fails: in the server the gateway
    builds, every filter hands on the byte slice it got.  [readPack] runs the
    service once on the very bytes that were read and returns its outcome, a
    panic as an error; [writePack] sends the very bytes it was given. *)
Theorem filters_keep_bytes `{DP : DurationPb} `{G : GrpcMD} {X : ServerCtx G} `{Pr : Profile} `{PM : !ProtoMsg Packet}
    {PL : ProtoLaws Packet} {W} (chain : list (Handler W request -> Handler W request) -> Handler W request -> Handler W request)
    (recover tracing metrics : Handler W request -> Handler W request) (chq chr : option nat) (on_panic : panic -> error)
    (Handle write : list Z -> go (fstate W) unit) cfg c logger rt sv ctx bs st :
  (forall ms h, chain ms h = foldr (fun m h => m h) h ms) ->
  (forall h ctx req st, recover h ctx req st = recovered on_panic (h ctx req st)) ->
  observes tracing -> observes metrics ->
  gate_TCPServer chain recover tracing metrics chq chr cfg c logger rt = Ok sv ->
  (exists st', f_w st' = f_w st /\
    any_readPack Handle (readFilter sv) ctx bs st = recovered on_panic (Handle bs st')) /\
  (exists st', f_w st' = f_w st /\ any_writePack write (writeFilter sv) ctx bs st = write bs st').
Proof.
  intros Hc Hr Ht Hm Hs.
  destruct (gate_filters chain recover tracing metrics chq chr cfg c logger rt sv Hs) as [Ef Eg].
  unfold any_readPack, any_writePack. rewrite Ef, Eg. split.
  - destruct (read_chain chain recover tracing metrics chq on_panic Hc Hr Ht Hm (any_handle Handle) ctx bs st) as (ctx' & st' & Ew & E).
    exists st'. split; [exact Ew|]. cbv [mbind go_bind]. rewrite E. cbn [any_handle]. cbv [mbind go_bind].
    by destruct (Handle bs st') as [[[]|e|q] st''].
  - destruct (write_chain chain recover chr on_panic Hc Hr writeNext ctx bs st) as (st' & Ew & E).
    exists st'. split; [exact Ew|]. cbv [mbind go_bind]. by rewrite E.
Qed.

(** ** Witness: a service and a connection that record the bytes they get *)

Definition demo_record : list Z -> go (fstate (list (list Z))) unit := fun bs st =>
  (Ok tt, mkF (f_pkts st) (f_log st) (f_w st ++ [bs])).
Definition demo_chain (ms : list (Handler (list (list Z)) request -> Handler (list (list Z)) request))
    (h : Handler (list (list Z)) request) : Handler (list (list Z)) request := foldr (fun m h => m h) h ms.
Definition demo_panic (q : panic) : error := ENew "unknown request error" [].
Definition demo_recover (h : Handler (list (list Z)) request) : Handler (list (list Z)) request := fun ctx req st =>
  recovered demo_panic (h ctx req st).
Definition demo_st : fstate (list (list Z)) := mkF newPool [] [].

Lemma filters_keep_bytes_witness :
  exists sv, gate_TCPServer (DP := ns_durations) (PM := flat_packet) demo_chain demo_recover id id None None demo_config
      (Some demo_server) (Some 1%nat) None = Ok sv /\
    (exists st', f_w st' = [] /\ any_readPack demo_record (readFilter sv) None [1; 2] demo_st = recovered demo_panic (demo_record [1; 2] st')) /\
    (exists st', f_w st' = [] /\ any_writePack demo_record (writeFilter sv) None [1; 2] demo_st = demo_record [1; 2] st').
Proof.
  eexists. split; [reflexivity|].
  apply (filters_keep_bytes (DP := ns_durations) (PM := flat_packet) (PL := flat_packet_laws) demo_chain demo_recover id id None None
    demo_panic demo_record demo_record demo_config (Some demo_server) (Some 1%nat) None _ None [1; 2] demo_st);
    [done|done|intros h ctx req st; by exists ctx|intros h ctx req st; by exists ctx|reflexivity].
Defined.
